(* ===== verification/_CoqProject ===== *)
-Q . S2P
Prelude.v
WrappingIntegers.v
SpongeBuffer.v
ByteStream.v
BufferString.v
StreamReassembler.v
AnyOrder.v
UtilBuffer.v
Parser.v
Checksum.v
Codec.v
TCPSegment.v
IPv4Datagram.v
EthernetFrame.v
Address.v
NetworkInterface.v
Router.v
FdAdapter.v
TCPReceiver.v
TCPSender.v
TCPConnection.v
Transfer.v
Exceptions.v
FileDescriptor.v
Socket.v
EventLoop.v
StreamCopy.v
TCPSpongeSocket.v
FullStackSocket.v
NetworkSimulator.v
Simulation.v
Benchmark.v
BenchmarkRun.v
Text.v
UdpTcpdump.v
CommandLine.v
Apps.v
Bouncer.v
Lab7.v
Lab7Path.v
