(* ===== verification/Prelude.v ===== *)
(** * Sponge: a verified model of a user-space TCP/IP stack

    The repository is a TCP implementation in C++ (src/libsponge), the Internet and
    Ethernet layers under it, a router, and the operating-system plumbing that turns
    them into a socket.  This library models it file by file and proves what the
    pieces promise to each other, up to two endpoints that exchange their streams
    over a network that loses, repeats and reorders segments.

    ** The program and its model

    Data flows upwards from a device to the application and back:
<<
    device bytes  -> EthernetFrame -> NetworkInterface (ARP) -> IPv4Datagram
                  -> TCPSegment -> TCPConnection = TCPReceiver + TCPSender
                  -> ByteStream -> pipe -> application
>>
    Each file models the sources of the same name; the names of the definitions are
    those of the code.
    - WrappingIntegers.v: 32-bit sequence numbers, [wrap] and [unwrap].
    - SpongeBuffer.v, ByteStream.v: libsponge/buffer.* and the bounded byte stream.
    - BufferString.v, StreamReassembler.v: the list of out-of-order fragments and
      the reassembler above it; AnyOrder.v: fragments that come in any order.
    - UtilBuffer.v, Parser.v, Checksum.v, Codec.v: util/buffer.*, util/parser.*,
      the Internet checksum, and the interface between headers and packets.
    - TCPSegment.v, IPv4Datagram.v, EthernetFrame.v (with ARP): the packet formats.
    - Address.v: socket addresses at the level of their bytes.
    - NetworkInterface.v, Router.v: ARP and longest-prefix-match forwarding.
    - FdAdapter.v: segments in UDP payloads, IP datagrams or Ethernet frames.
    - TCPReceiver.v, TCPSender.v, TCPConnection.v: the TCP endpoint.
    - Transfer.v: two endpoints and an adversarial network between them.
    - Exceptions.v: which exceptions the connection and the adapters cannot raise.
    - FileDescriptor.v, Socket.v, EventLoop.v: system calls, reference-counted
      handles, sockets, and the loop over [poll].
    - StreamCopy.v: apps/bidirectional_stream_copy.cc.
    - TCPSpongeSocket.v, FullStackSocket.v: the event loop that drives a
      [TCPConnection], the TUN and TAP devices, and the ready-made sockets.
    - NetworkSimulator.v: apps/network_simulator.cc; Simulation.v: its correctness.
    - Benchmark.v: apps/tcp_benchmark.cc; BenchmarkRun.v: its correctness.
    - Text.v: the printed forms of headers and states, [hexdump].
    - UdpTcpdump.v: apps/udp_tcpdump.cc.
    - CommandLine.v: the options of apps/tcp_udp.cc, tcp_ipv4.cc and
      tcp_ip_ethernet.cc, down to [strtol] and [strtof]; Apps.v: their bodies, and
      apps/tcp_native.cc, webget.cc and tun.cc.
    - Bouncer.v: apps/bouncer.cc; Lab7.v: apps/lab7.cc; Lab7Path.v: the way from one
      lab7 program to the other.

    ** How the code is represented

    - Objects are records, methods are functions from the object to the object;
      exceptions are the constructor [Throw] of [outcome], and undefined behaviour
      is an exception of its own, so that a theorem that ends in [Ret] excludes it.
      The two errors of the event loop (a [poll] that reports an error on a
      descriptor, and a busy wait) are exceptions of their own too.
    - Integers are in [Z], reduced at their width where the code does it: [uint8],
      [uint16], [uint32], [uint64] below.  Bytes are Rocq's [byte], a string a list of bytes.
    - [std::map] and the like are [gmap] when their order does not matter, lists
      otherwise.  Objects that several owners share and modify (the wrapper of a
      file descriptor) live in a heap.
    - Code outside the repository is a parameter: the resolver ([NetDb] of
      Address.v, with [NetDbLaws]), the operating system ([Kernel] of
      FileDescriptor.v, with [KernelLaws]: what a [read] returns fits the request,
      a [writev] takes no more than it is given, and something when it is given
      something), the random generators, the packet
      capture library and [inet_ntop] (UdpTcpdump.v).

    ** Fuel

    Loops that are not structural carry fuel, and the theorems show it suffices:
    the segment loop of the sender (what the window can hold), the two folds of the
    checksum, the queues of the router, the [write] loop of a descriptor (the size of
    the data and one), the send loop of the socket (the length of the queue), the sockets
    of the bouncer (the number of its port pairs) and the extension headers of IPv6
    (the length of the packet: each takes eight bytes).  The event loops run for ever by
    design: their fuel is a number of rounds and the
    theorems hold for every number.

    ** What is shown

    - End to end: [transfer_safe] (each application reads a prefix of what the other
      wrote, whatever is lost, repeated, delayed or reordered, as long as no SYN comes
      again once bytes are assembled; the streams are shorter than 2^31 - 4 bytes),
      and [benchmark_completes] (over the lossless link of the benchmark the whole
      stream arrives and both endpoints shut down).  The socket passes on exactly
      what its connection and its adapter do ([socket_drives_connection]).
    - The endpoint: invariants of sender, receiver and connection
      ([sender_sends_stream], [receiver_delivers_prefix], [connection_safe]), what
      each operation does ([fill_window_fills], [ack_received_pops],
      [sender_backoff], [receiver_in_order], [connection_acks]), progress
      ([receiver_progress], [reassembler_progress], [reassembler_any_order]) and how a
      connection ends ([connection_lingers], [connection_lifecycle]).
    - Streams and fragments: [byte_stream_refines_queue], [push_back_correct],
      [reassembler_delivers_prefix].
    - Formats: every packet is parsed back from what it is serialised to, parse
      errors are exactly those of the code, the checksum is that of RFC 1071.
    - Network: [simulator_succeeds] (hosts, wires and router together: every datagram of
      the simulator arrives where it should, for every seed), the ARP cache refines a
      map with expiry times ([cache_refines]), resolution delivers what was queued, routing takes the longest prefix and
      empties its queues.
    - Operating system: [write_all_writes] and [stream_copy_faithful] hold for every
      behaviour of the kernel that its laws allow, errors reported by [poll] included.
    - Programs: the network thread of lab7 is its router ([lab7_network_routes]), whose
      routes are those intended ([lab7_routes]), and a segment crosses from host to host
      over both routers ([lab7_segment_crosses]); the bouncer is a relay
      ([bouncer_relays]); every command line is read as what it says
      ([config_read]), and options that are written
      are read back ([config_roundtrip]); the packet dump finds the payload of complete
      packets and reads inside them only ([dump_in_bounds]) and shows the segment in them ([dump_shows_segment]);
      webget sends its request and prints what it is sent ([webget_faithful]).
    - Printed forms: the texts of headers and states determine them
      ([tcp_header_text_inj], [ipv4_header_text_inj], [state_name_inj]); [hexdump]
      prints row after row ([hexdump_rows]).
    - Defects of the code, as theorems: [pending_keyed_by_own_address],
      [write_before_connect_stalls], [push_back_drops_eof],
      [ipv4_datagram_accepts_any_checksum], [abort_without_reset],
      [poll_error_ignored], [reset_still_retransmits], [dump_reads_outside],
      [dump_incorrect_shows_nothing], [config_unchecked] and
      [lab7_malformed_frame].

    ** Not modelled

    - Messages for the user: usage texts, [operator<<], [pretty], and the progress
      messages of the programs, except where computing one can throw.
    - Running two threads together: starting and joining the thread of the socket and
      the network thread of lab7.  Each is modelled on its own, and what the other
      one does is what the system calls answer.
    - Lifetimes of C++ objects: a reference is the value it refers to.  In
      [TCPConnection::_send_ack_if_need] the code copies a segment through a reference
      to an element that it has popped; the model takes the value from before the pop.
    - Seeding the random generator; the error category of [getaddrinfo].
    - The documentation examples.
*)

From stdpp Require Export base decidable list list_numbers gmap.
From Stdlib Require Export ZArith Lia.
From Stdlib Require Import Strings.Byte.

#[export] Set Default Goal Selector "!".
#[global] Open Scope Z_scope.

(** ** Exceptions and the error monad *)

(** A C++ exception (or undefined behaviour, or a loop that used up its fuel) as a
    value.  [unix_error] carries the error number of the system call.  The
    [std::runtime_error]s of the event loop have constructors of their own, for the
    two messages it throws them with: [poll_error], an error on a polled descriptor,
    and [busy_wait], a callback that neither used its descriptor nor lost interest. *)
Inductive exn :=
  | out_of_range
  | runtime_error
  | poll_error
  | busy_wait
  | invalid_argument
  | unix_error (code : positive)
  | undefined_behaviour
  | out_of_fuel.

#[export] Instance exn_eq_dec : EqDecision exn.
Proof. solve_decision. Defined.

Inductive outcome (A : Type) :=
  | Ret (a : A)
  | Throw (e : exn).
Arguments Ret {_} _.
Arguments Throw {_} _.

#[export] Instance outcome_ret : MRet outcome := fun A a => Ret a.
#[export] Instance outcome_bind : MBind outcome := fun A B f m =>
  match m with Ret a => f a | Throw e => Throw e end.

Lemma bind_Ret {A B} (m : outcome A) (f : A -> outcome B) b :
  m ≫= f = Ret b -> exists a, m = Ret a /\ f a = Ret b.
Proof. destruct m; simpl; [eauto | discriminate]. Qed.

Lemma Ret_inj {A} (a b : A) : Ret a = Ret b -> a = b.
Proof. by intros [=]. Qed.

#[export] Instance outcome_fmap : FMap outcome := fun A B f m =>
  match m with Ret a => Ret (f a) | Throw e => Throw e end.

(** ** Programs with a state

    Code that works on a shared state of type [W] is a function that takes the
    state and returns a result and the new state, or throws. *)
Definition prog (W A : Type) : Type := W -> outcome (A * W).

#[export] Instance prog_ret {W} : MRet (prog W) := fun A a w => Ret (a, w).
#[export] Instance prog_bind {W} : MBind (prog W) := fun A B f m w =>
  match m w with Ret (a, w') => f a w' | Throw e => Throw e end.
Definition get {W} : prog W W := fun w => Ret (w, w).
Definition put {W} (w : W) : prog W unit := fun _ => Ret (tt, w).
Definition throw {W A} (e : exn) : prog W A := fun _ => Throw e.
(** A pure computation that may throw. *)
Definition lift {W A} (m : outcome A) : prog W A := fun w =>
  match m with Ret a => Ret (a, w) | Throw e => Throw e end.

(** From a state that satisfies [P], a program returns a result and a state that
    satisfy [Q], or throws an exception that satisfies [E]. *)
Definition spec {W A} (P : W -> Prop) (m : prog W A) (Q : A -> W -> Prop) (E : exn -> Prop) : Prop :=
  forall w, P w -> match m w with Ret (a, w') => Q a w' | Throw e => E e end.

Section SpecRules.
Context {W A B : Type}.
Implicit Types (P : W -> Prop) (E : exn -> Prop).

Lemma spec_ret P (a : A) (Q : A -> W -> Prop) E :
  (forall w, P w -> Q a w) -> spec P (mret a) Q E.
Proof. intros H w Hw. by apply H. Qed.

Lemma spec_bind P (m : prog W A) (f : A -> prog W B) R Q E :
  spec P m R E -> (forall a, spec (R a) (f a) Q E) -> spec P (m ≫= f) Q E.
Proof.
  intros Hm Hf w Hw. specialize (Hm w Hw). unfold mbind, prog_bind.
  destruct (m w) as [[a w']|e]; [by apply Hf | done].
Qed.

Lemma spec_weaken P P' (m : prog W A) (Q Q' : A -> W -> Prop) E E' :
  spec P m Q E -> (forall w, P' w -> P w) -> (forall a w, Q a w -> Q' a w) ->
  (forall e, E e -> E' e) -> spec P' m Q' E'.
Proof.
  intros Hm HP HQ HE w Hw. specialize (Hm w (HP w Hw)).
  destruct (m w) as [[a w']|e]; auto.
Qed.

Lemma spec_get P (Q : W -> W -> Prop) E :
  (forall w, P w -> Q w w) -> spec P get Q E.
Proof. intros H w Hw. by apply H. Qed.

Lemma spec_put P w' (Q : unit -> W -> Prop) E :
  (forall w, P w -> Q tt w') -> spec P (put w') Q E.
Proof. intros H w Hw. by apply (H w). Qed.

Lemma spec_throw P e (Q : A -> W -> Prop) E : E e -> spec P (throw e) Q E.
Proof. intros H w Hw. done. Qed.

Lemma spec_lift P (m : outcome A) (Q : A -> W -> Prop) E :
  (forall w, P w -> match m with Ret a => Q a w | Throw e => E e end) -> spec P (lift m) Q E.
Proof. intros H w Hw. specialize (H w Hw). unfold lift. by destruct m. Qed.

Lemma spec_if P (b : bool) (m n : prog W A) Q E :
  (b = true -> spec P m Q E) -> (b = false -> spec P n Q E) -> spec P (if b then m else n) Q E.
Proof. destruct b; auto. Qed.
Lemma spec_pure P (phi : Prop) (m : prog W A) Q E :
  (phi -> spec P m Q E) -> spec (fun w => phi /\ P w) m Q E.
Proof. intros H w [Hphi Hw]. by apply H. Qed.
End SpecRules.

(** Running a sequence of operations and collecting their replies. *)
Fixpoint run {S O R : Type} (step : S -> O -> outcome (S * R)) (s : S) (ops : list O)
    : outcome (S * list R) :=
  match ops with
  | [] => Ret (s, [])
  | o :: ops =>
      '(s1, r) ← step s o;
      '(s2, rs) ← run step s1 ops;
      Ret (s2, r :: rs)
  end.

(** A functional simulation of one step is one of whole runs. *)
Lemma run_refines {S T O R : Type} (abs : S -> T) (wf : S -> Prop) (valid : O -> Prop)
    (step : S -> O -> outcome (S * R)) (spec : T -> O -> outcome (T * R)) :
  (forall s o, wf s -> valid o ->
     (fun '(s', r) => (abs s', r)) <$> step s o = spec (abs s) o
     /\ (forall s' r, step s o = Ret (s', r) -> wf s')) ->
  forall ops s, wf s -> Forall valid ops ->
    (fun '(s', rs) => (abs s', rs)) <$> run step s ops = run spec (abs s) ops
    /\ (forall s' rs, run step s ops = Ret (s', rs) -> wf s').
Proof.
  intros Hstep. induction ops as [|o ops IH]; intros s Hs Hv; simpl.
  { split; [done|]. by intros ?? [= <- <-]. }
  inversion Hv; subst. destruct (Hstep s o) as [E Hw]; [done..|].
  destruct (step s o) as [[s1 r]|e]; simpl in *; rewrite <- E; simpl; [|done].
  destruct (IH s1) as [E1 Hw1]; [eauto..|].
  destruct (run step s1 ops) as [[s2 rs]|e]; simpl in *; rewrite <- E1; simpl; [|done].
  split; [done|]. intros ?? [= <- <-]. eauto.
Qed.

Lemma run_app {S O R : Type} (step : S -> O -> outcome (S * R)) ops ops' s s1 rs s2 rs' :
  run step s ops = Ret (s1, rs) -> run step s1 ops' = Ret (s2, rs') ->
  run step s (ops ++ ops') = Ret (s2, rs ++ rs').
Proof.
  revert s rs. induction ops as [|o' ops IH]; intros s rs; simpl.
  { intros [= <- <-] ->. done. }
  intros ([s' r'] & -> & ([s'' rs''] & E & [= -> <-])%bind_Ret)%bind_Ret Ho. simpl.
  by rewrite (IH _ _ E Ho).
Qed.

Lemma run_snoc {S O R : Type} (step : S -> O -> outcome (S * R)) ops s s1 rs o s2 r :
  run step s ops = Ret (s1, rs) -> step s1 o = Ret (s2, r) -> run step s (ops ++ [o]) = Ret (s2, rs ++ [r]).
Proof. intros E Ho. eapply run_app; [exact E|]. simpl. by rewrite Ho. Qed.

(** Every operation of a run is allowed in the state it meets. *)
Fixpoint valid_run {S O R : Type} (step : S -> O -> outcome (S * R)) (valid : S -> O -> Prop)
    (s : S) (ops : list O) : Prop :=
  match ops with
  | [] => True
  | o :: ops =>
      valid s o /\ match step s o with Ret (s', _) => valid_run step valid s' ops | Throw _ => True end
  end.

(** An invariant with a ghost state [g] that the replies update: the run does not
    throw and keeps the invariant. *)
Lemma run_ghost {S O R G : Type} (step : S -> O -> outcome (S * R)) (valid : S -> O -> Prop)
    (I : G -> S -> Prop) (upd : G -> R -> G) :
  (forall g s o, I g s -> valid s o -> exists s' r, step s o = Ret (s', r) /\ I (upd g r) s') ->
  forall ops g s, I g s -> valid_run step valid s ops ->
    exists s' rs, run step s ops = Ret (s', rs) /\ I (fold_left upd rs g) s'.
Proof.
  intros Hstep. induction ops as [|o ops IH]; intros g s Hs Hv; simpl in *; [by exists s, []|].
  destruct Hv as [Ho Hv]. destruct (Hstep g s o Hs Ho) as (s1 & r & E & H1). rewrite E in *. simpl.
  destruct (IH (upd g r) s1 H1 Hv) as (s2 & rs & -> & H2). simpl. by exists s2, (r :: rs).
Qed.

(** A simulation of one step is one of whole runs: both give the same replies. *)
Lemma run_simulates {S T O R : Type} (step : S -> O -> outcome (S * R)) (spec : T -> O -> outcome (T * R))
    (rel : S -> T -> Prop) (valid : T -> O -> Prop) :
  (forall s t o, rel s t -> valid t o ->
     exists s' t' r, step s o = Ret (s', r) /\ spec t o = Ret (t', r) /\ rel s' t') ->
  forall ops s t, rel s t -> valid_run spec valid t ops ->
    exists s' t' rs, run step s ops = Ret (s', rs) /\ run spec t ops = Ret (t', rs) /\ rel s' t'.
Proof.
  intros Hstep. induction ops as [|o ops IH]; intros s t Hr Hv; simpl in *; [by exists s, t, []|].
  destruct Hv as [Ho Hv]. destruct (Hstep s t o Hr Ho) as (s1 & t1 & r & E1 & E2 & H1).
  rewrite E1, E2 in *. simpl. destruct (IH s1 t1 H1 Hv) as (s2 & t2 & rs & -> & -> & H2).
  simpl. by exists s2, t2, (r :: rs).
Qed.

(** ** Fixed-width unsigned integers *)

Declare Scope sponge_scope.
Delimit Scope sponge_scope with sponge.

Definition uint8 (z : Z) : Z := z mod 2 ^ 8.
Definition uint16 (z : Z) : Z := z mod 2 ^ 16.
Definition uint32 (z : Z) : Z := z mod 2 ^ 32.
Definition uint64 (z : Z) : Z := z mod 2 ^ 64.

Definition is_u8 (z : Z) : Prop := 0 <= z < 2 ^ 8.
Definition is_u16 (z : Z) : Prop := 0 <= z < 2 ^ 16.
Definition is_u32 (z : Z) : Prop := 0 <= z < 2 ^ 32.
Definition is_u64 (z : Z) : Prop := 0 <= z < 2 ^ 64.

(** [uint_lia] unfolds the wrap-around of every width and decides the goal. *)
Ltac uint_unfold :=
  unfold uint8, uint16, uint32, uint64, is_u8, is_u16, is_u32, is_u64 in *.
Ltac uint_lia :=
  uint_unfold; Z.to_euclidean_division_equations; lia.

Lemma uint8_small z : is_u8 z -> uint8 z = z.
Proof. apply Z.mod_small. Qed.
Lemma uint16_small z : is_u16 z -> uint16 z = z.
Proof. apply Z.mod_small. Qed.
Lemma uint32_small z : is_u32 z -> uint32 z = z.
Proof. apply Z.mod_small. Qed.
Lemma uint64_small z : is_u64 z -> uint64 z = z.
Proof. apply Z.mod_small. Qed.

Lemma uint8_range z : is_u8 (uint8 z).
Proof. apply Z.mod_pos_bound; lia. Qed.
Lemma uint16_range z : is_u16 (uint16 z).
Proof. apply Z.mod_pos_bound; lia. Qed.
Lemma uint32_range z : is_u32 (uint32 z).
Proof. apply Z.mod_pos_bound; lia. Qed.
Lemma uint64_range z : is_u64 (uint64 z).
Proof. apply Z.mod_pos_bound; lia. Qed.

Create HintDb sponge.
Create Rewrite HintDb sponge.
#[export] Hint Resolve uint8_range uint16_range uint32_range uint64_range : sponge.

(** [nowrap] removes the wrap-arounds whose argument [lia] can bound. *)
Tactic Notation "nowrap" :=
  repeat match goal with
         | |- context [uint64 ?z] => rewrite (uint64_small z) by (unfold is_u64; lia)
         | |- context [uint32 ?z] => rewrite (uint32_small z) by (unfold is_u32; lia)
         | |- context [uint16 ?z] => rewrite (uint16_small z) by (unfold is_u16; lia)
         | |- context [uint8 ?z] => rewrite (uint8_small z) by (unfold is_u8; lia)
         end.
Tactic Notation "nowrap" "in" hyp(H) :=
  repeat match type of H with
         | context [uint64 ?z] => rewrite (uint64_small z) in H by (unfold is_u64; lia)
         | context [uint32 ?z] => rewrite (uint32_small z) in H by (unfold is_u32; lia)
         | context [uint16 ?z] => rewrite (uint16_small z) in H by (unfold is_u16; lia)
         | context [uint8 ?z] => rewrite (uint8_small z) in H by (unfold is_u8; lia)
         end.

(** ** Bytes *)

Abbreviation byte := Corelib.Init.Byte.byte.

Definition byte_to_Z (b : byte) : Z := Z.of_N (Byte.to_N b).
Definition byte_of_Z (z : Z) : byte :=
  match Byte.of_N (Z.to_N (uint8 z)) with Some b => b | None => Byte.x00 end.

Lemma byte_to_Z_range b : is_u8 (byte_to_Z b).
Proof. unfold is_u8, byte_to_Z. pose proof (Byte.to_N_bounded b). lia. Qed.

Lemma byte_of_to_Z b : byte_of_Z (byte_to_Z b) = b.
Proof.
  unfold byte_of_Z. rewrite uint8_small by apply byte_to_Z_range.
  unfold byte_to_Z. rewrite N2Z.id, Byte.of_to_N. reflexivity.
Qed.

Lemma byte_to_of_Z z : byte_to_Z (byte_of_Z z) = uint8 z.
Proof.
  unfold byte_of_Z, byte_to_Z. pose proof (uint8_range z) as Hr. unfold is_u8 in Hr.
  destruct (Byte.of_N _) eqn:E.
  - apply Byte.to_of_N in E. rewrite E. lia.
  - apply Byte.of_N_None_iff in E. lia.
Qed.

#[export] Instance byte_eq_decision : EqDecision byte := Byte.byte_eq_dec.
#[export] Hint Resolve byte_to_Z_range : sponge.

(** ** Strings ([std::string], [std::string_view]) *)

Abbreviation string := (list byte).

(** String literals of the source. *)
Inductive literal := Literal (s : string).
Definition literal_of (s : string) : literal := Literal s.
Definition chars (l : literal) : string := let 'Literal s := l in s.
Declare Scope literal_scope.
Delimit Scope literal_scope with literal.
Bind Scope literal_scope with literal.
String Notation literal literal_of chars : literal_scope.

(** [s.size()], as an integer *)
Definition zlen {A} (s : list A) : Z := Z.of_nat (length s).

(** The [n] elements of [s] from position [pos], fewer when [s] is shorter. *)
Definition slice {A} (s : list A) (pos n : Z) : list A :=
  take (Z.to_nat n) (drop (Z.to_nat pos) s).

(** [s.substr(pos, n)]: throws when [pos] is past the end. *)
Definition substr {A} (s : list A) (pos n : Z) : outcome (list A) :=
  if pos <=? zlen s then Ret (slice s pos n) else Throw out_of_range.

Lemma zlen_nonneg {A} (s : list A) : 0 <= zlen s.
Proof. unfold zlen. lia. Qed.
Lemma zlen_nil {A} : zlen (@nil A) = 0.
Proof. reflexivity. Qed.
Lemma zlen_cons {A} (x : A) s : zlen (x :: s) = 1 + zlen s.
Proof. unfold zlen. rewrite length_cons. lia. Qed.
Lemma zlen_app {A} (s t : list A) : zlen (s ++ t) = zlen s + zlen t.
Proof. unfold zlen. rewrite length_app. lia. Qed.
Lemma zlen_zero_nil {A} (s : list A) : zlen s = 0 <-> s = [].
Proof. unfold zlen. destruct s; simpl; split; intros; (done || lia). Qed.

Lemma zlen_take {A} (s : list A) n : zlen (take (Z.to_nat n) s) = Z.min (Z.max 0 n) (zlen s).
Proof. unfold zlen. rewrite length_take. lia. Qed.
Lemma zlen_drop {A} (s : list A) n : zlen (drop (Z.to_nat n) s) = Z.max 0 (zlen s - Z.max 0 n).
Proof. unfold zlen. rewrite length_drop. lia. Qed.

Lemma zlen_slice {A} (s : list A) pos n :
  0 <= pos -> 0 <= n -> zlen (slice s pos n) = Z.min n (Z.max 0 (zlen s - pos)).
Proof. intros. unfold slice, zlen. rewrite length_take, length_drop. lia. Qed.

Lemma zlen_slice_le {A} (s : list A) pos n :
  0 <= pos -> 0 <= n -> pos + n <= zlen s -> zlen (slice s pos n) = n.
Proof. intros. rewrite zlen_slice by lia. lia. Qed.

Lemma slice_app {A} (s : list A) pos n m :
  0 <= pos -> 0 <= n -> 0 <= m ->
  slice s pos n ++ slice s (pos + n) m = slice s pos (n + m).
Proof.
  intros. unfold slice. rewrite !Z2Nat.inj_add by lia.
  rewrite <- drop_drop. apply take_take_drop.
Qed.

Lemma slice_slice {A} (s : list A) pos n pos' m :
  0 <= pos -> 0 <= pos' -> 0 <= m -> pos' + m <= n ->
  slice (slice s pos n) pos' m = slice s (pos + pos') m.
Proof.
  intros. unfold slice. rewrite skipn_firstn_comm, drop_drop, take_take.
  f_equal; [lia|]. f_equal. lia.
Qed.

Lemma slice_all {A} (s : list A) n : zlen s <= n -> slice s 0 n = s.
Proof. intros. unfold slice, zlen in *. rewrite drop_0. apply take_ge. lia. Qed.

Lemma slice_empty {A} (s : list A) pos n : n <= 0 -> slice s pos n = [].
Proof. intros. unfold slice. replace (Z.to_nat n) with 0%nat by lia. apply take_0. Qed.

Lemma slice_past {A} (s : list A) pos n : zlen s <= pos -> slice s pos n = [].
Proof. intros. unfold slice, zlen in *. rewrite drop_ge by lia. apply take_nil. Qed.

Lemma slice_drop {A} (s : list A) pos :
  slice s pos (zlen s - pos) = drop (Z.to_nat pos) s.
Proof. unfold slice, zlen. apply take_ge. rewrite length_drop. lia. Qed.

Lemma slice_0_take {A} (s : list A) n : slice s 0 n = take (Z.to_nat n) s.
Proof. unfold slice. rewrite drop_0. reflexivity. Qed.

Lemma slice_app_l {A} (s t : list A) pos n :
  0 <= pos -> pos + n <= zlen s -> slice (s ++ t) pos n = slice s pos n.
Proof.
  intros. destruct (Z.le_gt_cases n 0); [rewrite !slice_empty by lia; done|].
  unfold slice, zlen in *. rewrite drop_app_le by lia.
  apply take_app_le. rewrite length_drop. lia.
Qed.

Lemma slice_app_r {A} (s t : list A) pos n :
  zlen s <= pos -> slice (s ++ t) pos n = slice t (pos - zlen s) n.
Proof.
  intros. unfold slice, zlen in *. rewrite drop_app_ge by lia.
  do 2 f_equal. lia.
Qed.

(** Splitting a slice at a point inside it. *)
Lemma slice_split {A} (s : list A) pos n m :
  0 <= pos -> 0 <= m <= n -> slice s pos n = slice s pos m ++ slice s (pos + m) (n - m).
Proof. intros. rewrite slice_app by lia. f_equal. lia. Qed.

Lemma substr_ok {A} (s : list A) pos n :
  pos <= zlen s -> substr s pos n = Ret (slice s pos n).
Proof. intros. unfold substr. rewrite (proj2 (Z.leb_le _ _)) by lia. done. Qed.

#[export] Hint Rewrite @zlen_nil @zlen_cons @zlen_app @zlen_take @zlen_drop : sponge.

(** [zlen_lia] normalises the sizes of the lists in the context and calls [lia]. *)
Ltac zlen_pose :=
  repeat match goal with
         | |- context [zlen ?s] =>
             lazymatch goal with
             | _ : 0 <= zlen s |- _ => fail
             | _ => pose proof (zlen_nonneg s)
             end
         | _ : context [zlen ?s] |- _ =>
             lazymatch goal with
             | _ : 0 <= zlen s |- _ => fail
             | _ => pose proof (zlen_nonneg s)
             end
         end.
Ltac zlen_lia := autorewrite with sponge in *; zlen_pose; try lia.

Lemma in_middle {A} (x : A) pre post : x ∈ pre ++ x :: post.
Proof. set_solver. Qed.

Lemma out_of_interval a b i : (a <=? i) && (i <? b) = false -> i < a \/ b <= i.
Proof. intros H. apply andb_false_iff in H. rewrite Z.leb_gt, Z.ltb_ge in H. done. Qed.

(** Case analysis on the boolean integer tests of the code. *)
Ltac zbool :=
  repeat match goal with
         | H : (_ <=? _) = true |- _ => apply Z.leb_le in H
         | H : (_ <=? _) = false |- _ => apply Z.leb_gt in H
         | H : (_ <? _) = true |- _ => apply Z.ltb_lt in H
         | H : (_ <? _) = false |- _ => apply Z.ltb_ge in H
         | H : (_ =? _) = true |- _ => apply Z.eqb_eq in H
         | H : (_ =? _) = false |- _ => apply Z.eqb_neq in H
         | H : _ && _ = true |- _ => apply andb_true_iff in H as [? ?]
         | H : _ || _ = false |- _ => apply orb_false_iff in H as [? ?]
         | H : negb _ = true |- _ => apply negb_true_iff in H
         | H : negb _ = false |- _ => apply negb_false_iff in H
         end.
Ltac case_if :=
  match goal with
  | |- context [if ?b then _ else _] => destruct b eqn:?; zbool
  end.
