(* ===== verification/WrappingIntegers.v ===== *)
(** * Wrapping sequence numbers (wrapping_integers.hh, wrapping_integers.cc)

    A [WrappingInt32] is its raw 32-bit value.  [wrap] maps an absolute 64-bit
    sequence number to a 32-bit one relative to an initial sequence number;
    [unwrap] inverts it near a checkpoint.  The theorems give [unwrap] the
    contract its comment promises: it returns a number that wraps to its
    argument, no other such number is closer to the checkpoint, and it recovers
    every number less than 2^31 away from the checkpoint. *)

From S2P Require Import Prelude.

Record WrappingInt32 := mkWrappingInt32 { raw_value : Z }.

#[export] Instance WrappingInt32_eq_dec : EqDecision WrappingInt32.
Proof. solve_decision. Defined.

(** The invariant of the type: the raw value is a [uint32_t]. *)
Definition wi_ok (a : WrappingInt32) : Prop := is_u32 (raw_value a).

(** [static_cast<uint32_t>(isn.raw_value() + n)]: the sum is 64 bits wide. *)
Definition wrap (n : Z) (isn : WrappingInt32) : WrappingInt32 :=
  mkWrappingInt32 (uint32 (uint64 (raw_value isn + n))).

(** Conversion of an unsigned 32-bit value to [int32_t]. *)
Definition int32 (z : Z) : Z := if z <? 2 ^ 31 then z else z - 2 ^ 32.

(** [operator-(WrappingInt32, WrappingInt32)]: a signed difference. *)
Definition wi_diff (a b : WrappingInt32) : Z :=
  int32 (uint32 (raw_value a - raw_value b)).

Definition wi_eqb (a b : WrappingInt32) : bool := raw_value a =? raw_value b.
Definition wi_ltb (a b : WrappingInt32) : bool := raw_value a <? raw_value b.
Definition wi_gtb (a b : WrappingInt32) : bool := raw_value b <? raw_value a.

(** [operator+(WrappingInt32, uint32_t)] *)
Definition wi_add (a : WrappingInt32) (b : Z) : WrappingInt32 :=
  mkWrappingInt32 (uint32 (raw_value a + b)).

(** [operator-(WrappingInt32, uint32_t)] is [a + -b] on 32 bits. *)
Definition wi_sub (a : WrappingInt32) (b : Z) : WrappingInt32 :=
  wi_add a (uint32 (- b)).

(** The [int] expression [1 << 31] overflows to the least [int]. *)
Definition one_shl_31 : Z := int32 (2 ^ 31).

Definition unwrap (n isn : WrappingInt32) (checkpoint : Z) : Z :=
  let lower32 := uint32 (wi_diff n isn) in
  let upper32_1 := uint32 (Z.shiftr (uint64 (checkpoint + uint64 one_shl_31)) 32) in
  let upper32_2 := uint32 (Z.shiftr (uint64 (checkpoint - uint64 one_shl_31)) 32) in
  let result1 := uint64 (uint64 (Z.shiftl upper32_1 32) + lower32) in
  let result2 := uint64 (uint64 (Z.shiftl upper32_2 32) + lower32) in
  if uint64 (Z.max result1 checkpoint - Z.min result1 checkpoint) <?
     uint64 (Z.max result2 checkpoint - Z.min result2 checkpoint)
  then result1 else result2.

#[global] Arguments wrap : simpl never.
#[global] Arguments unwrap : simpl never.

(** ** Lemmas *)

Lemma wrap_ok n isn : wi_ok (wrap n isn).
Proof. apply uint32_range. Qed.

Lemma wi_add_ok a b : wi_ok (wi_add a b).
Proof. apply uint32_range. Qed.

#[export] Hint Resolve wrap_ok wi_add_ok : sponge.

Lemma wi_ext a b : raw_value a = raw_value b -> a = b.
Proof. destruct a, b; simpl; congruence. Qed.

Lemma wi_eqb_spec a b : wi_eqb a b = true <-> a = b.
Proof.
  unfold wi_eqb. rewrite Z.eqb_eq. split; [apply wi_ext | congruence].
Qed.

Lemma uint32_uint64 z : uint32 (uint64 z) = uint32 z.
Proof. uint_lia. Qed.

Lemma wrap_raw n isn : raw_value (wrap n isn) = uint32 (raw_value isn + n).
Proof. apply uint32_uint64. Qed.

Lemma uint32_int32 z : is_u32 z -> uint32 (int32 z) = z.
Proof. unfold int32. intros. destruct (z <? 2 ^ 31) eqn:E; zbool; uint_lia. Qed.

Lemma lower32_spec n isn :
  uint32 (wi_diff n isn) = uint32 (raw_value n - raw_value isn).
Proof. apply uint32_int32, uint32_range. Qed.

(** The lower half of [unwrap] is what [wrap] forgets the upper half of. *)
Lemma wrap_lower x isn :
  wi_ok isn -> uint32 (raw_value (wrap x isn) - raw_value isn) = uint32 x.
Proof. intros. rewrite wrap_raw. unfold wi_ok in *. uint_lia. Qed.

Lemma wrap_iff n isn x :
  wi_ok n -> wi_ok isn ->
  wrap x isn = n <-> uint32 x = uint32 (raw_value n - raw_value isn).
Proof.
  intros Hn Hi. split.
  - intros <-. symmetry. by apply wrap_lower.
  - intros E. apply wi_ext. rewrite wrap_raw. unfold wi_ok in *. uint_lia.
Qed.

(** The two candidates of [unwrap], with the shifts as divisions. *)
Definition candidate (l c d : Z) : Z :=
  uint64 (2 ^ 32 * uint32 (uint64 (c + d) / 2 ^ 32) + l).

Lemma unwrap_candidates n isn c :
  let l := uint32 (raw_value n - raw_value isn) in
  let r1 := candidate l c (- 2 ^ 31) in
  let r2 := candidate l c (2 ^ 31) in
  is_u64 c ->
  unwrap n isn c = if Z.abs (r1 - c) <? Z.abs (r2 - c) then r1 else r2.
Proof.
  intros l r1 r2 Hc. unfold unwrap. rewrite lower32_spec. fold l.
  rewrite !Z.shiftr_div_pow2, !Z.shiftl_mul_pow2 by lia.
  replace (uint64 (c + uint64 one_shl_31)) with (uint64 (c + - 2 ^ 31))
    by (unfold one_shl_31, int32; simpl; uint_lia).
  replace (uint64 (c - uint64 one_shl_31)) with (uint64 (c + 2 ^ 31))
    by (unfold one_shl_31, int32; simpl; uint_lia).
  assert (forall d, uint64 (uint64 (uint32 (uint64 (c + d) / 2 ^ 32) * 2 ^ 32) + l)
                    = candidate l c d) as Hcand.
  { intros d. unfold candidate. uint_lia. }
  rewrite !Hcand. fold r1 r2.
  assert (forall r, is_u64 r -> uint64 (Z.max r c - Z.min r c) = Z.abs (r - c)) as Habs.
  { intros r Hr. uint_lia. }
  rewrite !Habs by apply uint64_range. done.
Qed.

Lemma candidate_lower l c d :
  is_u32 l -> is_u64 (candidate l c d) /\ uint32 (candidate l c d) = l.
Proof. intros. split; [apply uint64_range|]. unfold candidate. uint_lia. Qed.

(** With [q] and [r] the quotient and remainder of the checkpoint, the upper
    halves of the candidates are [q - 1] and [q], or [q] and [q + 1]. *)
Lemma candidate_upper l c :
  is_u32 l -> is_u64 c ->
  let q := c / 2 ^ 32 in
  let r := c mod 2 ^ 32 in
  candidate l c (- 2 ^ 31) =
    (if r <? 2 ^ 31 then 2 ^ 32 * (if q =? 0 then 2 ^ 32 - 1 else q - 1) + l
     else 2 ^ 32 * q + l) /\
  candidate l c (2 ^ 31) =
    (if r <? 2 ^ 31 then 2 ^ 32 * q + l
     else 2 ^ 32 * (if q =? 2 ^ 32 - 1 then 0 else q + 1) + l).
Proof.
  intros Hl Hc q r. unfold candidate.
  assert (c = 2 ^ 32 * q + r /\ 0 <= r < 2 ^ 32 /\ 0 <= q < 2 ^ 32) as (Hqr & Hr & Hq)
    by (unfold q, r; uint_lia).
  clearbody q r. subst c.
  destruct (r <? 2 ^ 31) eqn:Er; zbool; destruct (q =? 0) eqn:E0; zbool;
    destruct (q =? 2 ^ 32 - 1) eqn:E1; zbool; split; uint_lia.
Qed.

Lemma unwrap_distance n isn c x :
  wi_ok n -> wi_ok isn -> is_u64 c -> is_u64 x -> wrap x isn = n ->
  Z.abs (unwrap n isn c - c) <= Z.abs (x - c).
Proof.
  intros Hn Hi Hc Hx Hw. apply wrap_iff in Hw; [|done..].
  rewrite unwrap_candidates by done.
  set (l := uint32 (raw_value n - raw_value isn)) in *.
  assert (is_u32 l) as Hl by apply uint32_range.
  destruct (candidate_upper l c Hl Hc) as [-> ->].
  assert (exists k, x = 2 ^ 32 * k + l /\ 0 <= k < 2 ^ 32) as (k & -> & Hk)
    by (exists (x / 2 ^ 32); uint_lia).
  assert (exists q r, c = 2 ^ 32 * q + r /\ c / 2 ^ 32 = q /\ c mod 2 ^ 32 = r
                      /\ 0 <= r < 2 ^ 32 /\ 0 <= q < 2 ^ 32) as (q & r & Hqr & -> & -> & Hr & Hq)
    by (exists (c / 2 ^ 32), (c mod 2 ^ 32); uint_lia).
  clear Hw Hx. subst c. clearbody l. unfold is_u32 in *.
  destruct (r <? 2 ^ 31) eqn:?, (q =? 0) eqn:?, (q =? 2 ^ 32 - 1) eqn:?; zbool;
    case_if; lia.
Qed.

(** ** Properties *)

(** C22: [unwrap] returns a 64-bit absolute sequence number that wraps to the given
    relative one, whatever the initial sequence number and the checkpoint, and
    among all those that do it is one closest to the checkpoint. *)
Theorem unwrap_closest (n isn : WrappingInt32) (c : Z) :
  wi_ok n -> wi_ok isn -> is_u64 c ->
  is_u64 (unwrap n isn c) /\ wrap (unwrap n isn c) isn = n /\
  forall x, is_u64 x -> wrap x isn = n -> Z.abs (unwrap n isn c - c) <= Z.abs (x - c).
Proof.
  intros Hn Hi Hc. rewrite wrap_iff by done.
  assert (is_u64 (unwrap n isn c) /\ uint32 (unwrap n isn c) = uint32 (raw_value n - raw_value isn)) as [? ?]
    by (rewrite unwrap_candidates by done; case_if; apply candidate_lower, uint32_range).
  split_and!; [done|done|]. intros x Hx Hw. by apply unwrap_distance.
Qed.

Lemma unwrap_closest_witness :
  let u := unwrap (mkWrappingInt32 17) (mkWrappingInt32 15) 2147483651 in
  wrap u (mkWrappingInt32 15) = mkWrappingInt32 17 /\ Z.abs (u - 2147483651) <= Z.abs (2 - 2147483651).
Proof.
  destruct (unwrap_closest (mkWrappingInt32 17) (mkWrappingInt32 15) 2147483651) as (_ & Hw & Hc);
    [unfold wi_ok, is_u32, is_u64; simpl; lia..|].
  split; [exact Hw|]. apply Hc; [unfold is_u64; lia|reflexivity].
Defined.

(** Sharing form of the round trip below. *)
Lemma unwrap_wrap_near x isn c :
  wi_ok isn -> is_u64 c -> is_u64 x -> Z.abs (x - c) < 2 ^ 31 ->
  unwrap (wrap x isn) isn c = x.
Proof.
  intros Hi Hc Hx Hd.
  pose proof (unwrap_distance (wrap x isn) isn c x (wrap_ok _ _) Hi Hc Hx eq_refl).
  destruct (candidate_lower (uint32 (raw_value (wrap x isn) - raw_value isn)) c (- 2 ^ 31)) as [R1 L1];
    [apply uint32_range|].
  destruct (candidate_lower (uint32 (raw_value (wrap x isn) - raw_value isn)) c (2 ^ 31)) as [R2 L2];
    [apply uint32_range|].
  rewrite unwrap_candidates in * by done. rewrite wrap_lower in * by done.
  destruct (Z.ltb _ _); uint_lia.
Qed.

(** [unwrap] recovers exactly every absolute sequence number that is less
    than 2^31 away from the checkpoint, across every wrap-around of the 32-bit
    numbers. *)
Theorem unwrap_wrap (x : Z) (isn : WrappingInt32) (c : Z) :
  wi_ok isn -> is_u64 c -> is_u64 x -> Z.abs (x - c) < 2 ^ 31 ->
  unwrap (wrap x isn) isn c = x.
Proof. apply unwrap_wrap_near. Qed.

Lemma unwrap_wrap_witness :
  unwrap (wrap (3 * 2 ^ 32) (mkWrappingInt32 5)) (mkWrappingInt32 5) (3 * 2 ^ 32 - 2 ^ 31 + 1) = 3 * 2 ^ 32.
Proof.
  apply unwrap_wrap; unfold wi_ok, is_u32, is_u64; simpl; lia.
Defined.
