(* ===== verification/SpongeBuffer.v ===== *)
(** * The byte stream's buffers (libsponge/buffer.hh, libsponge/buffer.cc)

    [SBuffer] is [sponge::Buffer], a shared string with a count of discarded
    bytes; [SBufferList] is [sponge::BufferList], a queue of buffers.  The
    lemmas read a list of well-formed buffers as the concatenation of their
    strings, and give each operation its effect on that string. *)

From S2P Require Import Prelude.

Module SBuffer.

Record t := mk { _storage : option string; _prefix_pointer : Z }.

Definition of_string (str : string) : t := mk (Some str) 0.

(** Dereferencing an empty [_storage] is undefined. *)
Definition remove_prefix (b : t) (n : Z) : outcome t :=
  match _storage b with
  | None => Throw undefined_behaviour
  | Some s =>
      if zlen s <=? uint64 (_prefix_pointer b + n)
      then Ret (mk (Some s) (uint64 (zlen s - 1)))
      else Ret (mk (Some s) (uint64 (_prefix_pointer b + n)))
  end.

(** The view [{data + prefix, size - prefix}] is undefined past the end. *)
Definition get_string (b : t) : outcome string :=
  match _storage b with
  | None => Ret []
  | Some s =>
      if _prefix_pointer b <=? zlen s
      then Ret (drop (Z.to_nat (_prefix_pointer b)) s)
      else Throw undefined_behaviour
  end.

Definition size (b : t) : Z :=
  match _storage b with
  | None => 0
  | Some s => uint64 (zlen s - _prefix_pointer b)
  end.

(** A buffer as the stream makes it: its prefix is inside its string. *)
Definition wf (b : t) : Prop :=
  match _storage b with
  | None => False
  | Some s => 0 <= _prefix_pointer b <= zlen s /\ zlen s < 2 ^ 64
  end.

(** The bytes a buffer still holds. *)
Definition bytes (b : t) : string :=
  match _storage b with
  | None => []
  | Some s => drop (Z.to_nat (_prefix_pointer b)) s
  end.

Lemma sbuf_of_string_wf s : zlen s < 2 ^ 64 -> wf (of_string s).
Proof. unfold wf; simpl. zlen_lia. Qed.

Lemma sbuf_bytes_of_string s : bytes (of_string s) = s.
Proof. reflexivity. Qed.

Lemma sbuf_size_bytes b : wf b -> size b = zlen (bytes b).
Proof.
  unfold wf, size, bytes. destruct (_storage b) as [s|]; [|done]. intros.
  nowrap. unfold zlen. rewrite length_drop. unfold zlen in *. lia.
Qed.

Lemma get_string_bytes b : wf b -> get_string b = Ret (bytes b).
Proof.
  unfold wf, get_string, bytes. destruct (_storage b) as [s|]; [|done]. intros.
  by rewrite (proj2 (Z.leb_le _ _)) by lia.
Qed.

(** Inside the string, [remove_prefix] discards exactly [n] bytes: the clamp to
    the last byte is not taken. *)
Lemma sbuf_remove_prefix_spec b n :
  wf b -> 0 <= n < zlen (bytes b) ->
  exists b', remove_prefix b n = Ret b' /\ wf b' /\ bytes b' = drop (Z.to_nat n) (bytes b).
Proof.
  unfold wf, remove_prefix, bytes. destruct (_storage b) as [s|]; [|done].
  intros [Hp Hs] Hn. unfold zlen in Hn. rewrite length_drop in Hn. fold (zlen s) in *.
  assert (_prefix_pointer b + n < zlen s) by (unfold zlen in *; lia).
  nowrap. rewrite (proj2 (Z.leb_gt _ _)) by lia.
  eexists. split; [done|]. simpl. split; [lia|].
  rewrite drop_drop. f_equal. lia.
Qed.

End SBuffer.

Module SBufferList.

Definition t : Type := list SBuffer.t.

Definition empty_list : t := [].

(** [result += buffer_item.size()] over the list *)
Definition size (l : t) : Z :=
  fold_left (fun result item => uint64 (result + SBuffer.size item)) l 0.

Definition push_back (l : t) (buffer_string : string) : t :=
  l ++ [SBuffer.of_string buffer_string].

Definition empty (l : t) : bool :=
  match l with [] => true | _ => false end.

(** The loop of [peek_output], from the string built so far. *)
Fixpoint peek_loop (l : t) (str : string) (remain_size : Z) : outcome string :=
  match l with
  | [] => Ret str
  | item :: rest =>
      s ← SBuffer.get_string item;
      if SBuffer.size item <? remain_size
      then peek_loop rest (str ++ s) (uint64 (remain_size - SBuffer.size item))
      else p ← substr s 0 remain_size; Ret (str ++ p)
  end.

Definition peek_output (l : t) (n : Z) : outcome string := peek_loop l [] n.

(** The loop of [remove_prefix]; every turn that goes on pops the front.  The
    second component is what is left of the by-reference argument. *)
Fixpoint remove_prefix (l : t) (n : Z) : outcome (t * Z) :=
  if n =? 0 then Ret (l, 0) else
  match l with
  | [] => Throw out_of_range
  | front :: rest =>
      if SBuffer.size front <=? n
      then remove_prefix rest (uint64 (n - SBuffer.size front))
      else front' ← SBuffer.remove_prefix front n; Ret (front' :: rest, 0)
  end.

(** The bytes a list holds, in order. *)
Definition bytes (l : t) : string := concat (SBuffer.bytes <$> l).

Definition wf (l : t) : Prop := Forall SBuffer.wf l /\ zlen (bytes l) < 2 ^ 64.

Lemma sbl_bytes_cons b l : bytes (b :: l) = SBuffer.bytes b ++ bytes l.
Proof. reflexivity. Qed.

Lemma bytes_app l k : bytes (l ++ k) = bytes l ++ bytes k.
Proof. unfold bytes. rewrite fmap_app. apply concat_app. Qed.

Lemma sbl_wf_cons b l : wf (b :: l) -> SBuffer.wf b /\ wf l.
Proof.
  intros [H Hs]. inversion H; subst. rewrite sbl_bytes_cons in Hs.
  split; [done|]. split; [done|]. zlen_lia.
Qed.

Lemma sbl_size_bytes l : wf l -> size l = zlen (bytes l).
Proof.
  intros Hl. unfold size.
  enough (forall acc, 0 <= acc -> acc + zlen (bytes l) < 2 ^ 64 ->
    fold_left (fun result item => uint64 (result + SBuffer.size item)) l acc
    = acc + zlen (bytes l)) as H.
  { apply H; [lia|]. destruct Hl. lia. }
  induction l as [|b l IH]; intros acc Ha Hb; simpl.
  - unfold bytes; simpl. zlen_lia.
  - apply sbl_wf_cons in Hl as [Hw Hl]. rewrite sbl_bytes_cons in *.
    rewrite SBuffer.sbuf_size_bytes by done. zlen_lia. rewrite uint64_small by (unfold is_u64; lia).
    rewrite IH by (done || lia). lia.
Qed.

Lemma bytes_push_back l s : bytes (push_back l s) = bytes l ++ s.
Proof. unfold push_back. rewrite bytes_app. unfold bytes at 2; simpl. by rewrite app_nil_r. Qed.

Lemma push_back_wf l s :
  wf l -> zlen (bytes l) + zlen s < 2 ^ 64 -> wf (push_back l s).
Proof.
  intros [H Hs] Hb. split.
  - apply Forall_app; split; [done|]. constructor; [|done].
    apply SBuffer.sbuf_of_string_wf. zlen_lia.
  - rewrite bytes_push_back. zlen_lia.
Qed.

Lemma peek_loop_spec l str n :
  wf l -> 0 <= n < 2 ^ 64 -> peek_loop l str n = Ret (str ++ take (Z.to_nat n) (bytes l)).
Proof.
  revert str n. induction l as [|b l IH]; intros str n Hl Hn; simpl.
  - unfold bytes; simpl. by rewrite take_nil, app_nil_r.
  - apply sbl_wf_cons in Hl as [Hw Hl]. rewrite sbl_bytes_cons.
    rewrite SBuffer.get_string_bytes by done. simpl.
    rewrite SBuffer.sbuf_size_bytes by done. pose proof (zlen_nonneg (SBuffer.bytes b)).
    case_if.
    + nowrap. rewrite IH by (done || lia). rewrite <- app_assoc. do 2 f_equal.
      rewrite take_app_ge by (unfold zlen in *; lia). f_equal. f_equal. unfold zlen. lia.
    + rewrite substr_ok by lia. simpl. rewrite slice_0_take.
      rewrite take_app_le by (unfold zlen in *; lia). done.
Qed.

(** [peek_output] copies the first [n] bytes, or all of them. *)
Lemma sbl_peek_output_spec l n :
  wf l -> 0 <= n < 2 ^ 64 -> peek_output l n = Ret (take (Z.to_nat n) (bytes l)).
Proof. apply peek_loop_spec. Qed.

Definition nonempty (l : t) : Prop := Forall (fun b => SBuffer.bytes b <> []) l.

(** [remove_prefix] of at most the buffered bytes discards exactly that many and
    leaves nothing of its argument. *)
Lemma sbl_remove_prefix_spec l n :
  wf l -> 0 <= n <= zlen (bytes l) ->
  exists l', remove_prefix l n = Ret (l', 0) /\ wf l'
             /\ bytes l' = drop (Z.to_nat n) (bytes l) /\ (nonempty l -> nonempty l').
Proof.
  revert n. induction l as [|b l IH]; intros n Hl Hn; simpl.
  - unfold bytes in Hn; simpl in Hn. zlen_lia. replace n with 0 by lia. by exists [].
  - pose proof Hl as Hl0. apply sbl_wf_cons in Hl as [Hw Hl]. rewrite sbl_bytes_cons in *.
    destruct (n =? 0) eqn:E0; zbool.
    { subst. exists (b :: l). by rewrite drop_0, sbl_bytes_cons. }
    rewrite SBuffer.sbuf_size_bytes by done. pose proof (zlen_nonneg (SBuffer.bytes b)).
    pose proof (proj2 Hl0) as Hz. rewrite sbl_bytes_cons in Hz. zlen_lia.
    case_if.
    + nowrap. destruct (IH (n - zlen (SBuffer.bytes b))) as (l' & E & Hw' & Hb & Hne); [done|lia|].
      exists l'. split; [done|]. split; [done|]. split.
      * rewrite Hb, drop_app_ge by (unfold zlen in *; lia). f_equal. unfold zlen. lia.
      * intros Hne0. inversion Hne0; auto.
    + destruct (SBuffer.sbuf_remove_prefix_spec b n) as (b' & E & Hw' & Hb); [done|lia|].
      rewrite E; simpl. exists (b' :: l). split; [done|]. rewrite sbl_bytes_cons, Hb.
      assert (zlen (drop (Z.to_nat n) (SBuffer.bytes b)) = zlen (SBuffer.bytes b) - n)
        by (unfold zlen; rewrite length_drop; unfold zlen in *; lia).
      repeat split.
      * constructor; [done|]. apply Hl.
      * rewrite sbl_bytes_cons, Hb. zlen_lia.
      * by rewrite drop_app_le by (unfold zlen in *; lia).
      * intros Hne. inversion Hne; subst. constructor; [|done].
        rewrite Hb. intros Z. rewrite Z in *. zlen_lia.
Qed.

(** The last buffer is there and holds nothing. *)
Definition hollow (l : t) : bool :=
  match last l with Some b => bool_decide (SBuffer.bytes b = []) | None => false end.

Lemma hollow_cons b l : l <> [] -> hollow (b :: l) = hollow l.
Proof. destruct l as [|b' l]; [done|]. unfold hollow. by rewrite last_cons_cons. Qed.

(** A list is empty when it holds no byte and does not end in an empty buffer. *)
Lemma empty_hollow l : empty l = bool_decide (bytes l = []) && negb (hollow l).
Proof.
  destruct l as [|b l] using rev_ind; [done|]. clear IHl. unfold hollow. rewrite last_snoc, bytes_app.
  replace (empty (l ++ [b])) with false by (by destruct l). symmetry. apply andb_false_iff.
  destruct (decide (SBuffer.bytes b = [])) as [E|E].
  - right. by rewrite bool_decide_eq_true_2.
  - left. apply bool_decide_eq_false. intros [_ H]%app_eq_nil. unfold bytes in H; simpl in H.
    by rewrite app_nil_r in H.
Qed.

(** Removing buffered bytes neither takes an empty last buffer away nor leaves one. *)
Lemma remove_prefix_hollow l n l' :
  wf l -> 0 <= n <= zlen (bytes l) -> remove_prefix l n = Ret (l', 0) -> hollow l' = hollow l.
Proof.
  revert n. induction l as [|b l IH]; intros n Hl Hn; simpl.
  - case_if; [by intros [= <-]|done].
  - pose proof (proj2 Hl) as Hz. apply sbl_wf_cons in Hl as [Hw Hl]. rewrite sbl_bytes_cons in *. zlen_lia.
    destruct (n =? 0) eqn:E0; zbool; [by intros [= <-]|]. rewrite SBuffer.sbuf_size_bytes by done.
    case_if.
    + nowrap. intros E. rewrite (IH (n - zlen (SBuffer.bytes b)) Hl ltac:(lia) E). symmetry.
      destruct l as [|b2 l2]; [|by apply hollow_cons]. unfold hollow; simpl. apply bool_decide_eq_false. intros Eb. rewrite Eb in *.
      unfold bytes in *; simpl in *. zlen_lia.
    + destruct (SBuffer.sbuf_remove_prefix_spec b n) as (b' & -> & _ & Hb); [done|lia|]. simpl.
      intros [= <-]. destruct l as [|b2 l2]; [|transitivity (hollow (b2 :: l2)); [|symmetry]; by apply hollow_cons]. unfold hollow; simpl.
      rewrite !bool_decide_eq_false_2; [done| |].
      * intros Eb. rewrite Eb in *. zlen_lia.
      * rewrite Hb. intros Eb%(f_equal zlen). rewrite zlen_drop in Eb. zlen_lia.
Qed.

(** Removing the bytes of the first buffers leaves the others, empty or not. *)
Lemma remove_prefix_app_all l k :
  wf l -> nonempty l -> remove_prefix (l ++ k) (zlen (bytes l)) = Ret (k, 0).
Proof.
  induction l as [|b l IH]; intros Hl Hne; simpl; [destruct k; reflexivity|].
  pose proof (proj2 Hl) as Hz. rewrite sbl_bytes_cons in *. apply sbl_wf_cons in Hl as [Hw Hl].
  inversion Hne as [|?? Hb Hne']; subst. rewrite <- zlen_zero_nil in Hb. zlen_lia.
  rewrite (proj2 (Z.eqb_neq _ _)) by lia. rewrite SBuffer.sbuf_size_bytes by done.
  rewrite (proj2 (Z.leb_le _ _)) by lia. nowrap.
  replace (_ + _ - _) with (zlen (bytes l)) by lia. by apply IH.
Qed.

(** Removing more than the buffered bytes throws. *)
Lemma sbl_remove_prefix_throws l n :
  wf l -> zlen (bytes l) < n < 2 ^ 64 -> remove_prefix l n = Throw out_of_range.
Proof.
  revert n. induction l as [|b l IH]; intros n Hl Hn; simpl.
  - unfold bytes in Hn; simpl in Hn. zlen_lia. by rewrite (proj2 (Z.eqb_neq _ _)) by lia.
  - apply sbl_wf_cons in Hl as [Hw Hl]. rewrite sbl_bytes_cons in Hn. zlen_lia.
    rewrite (proj2 (Z.eqb_neq _ _)) by lia.
    rewrite SBuffer.sbuf_size_bytes by done. rewrite (proj2 (Z.leb_le _ _)) by lia.
    nowrap. apply IH; [done|]. lia.
Qed.

End SBufferList.
