(* ===== verification/ByteStream.v ===== *)
(** * The in-order byte stream (byte_stream.hh, byte_stream.cc)

    [ByteStream] models the class; [StreamSpec] is what it promises: a queue of
    bytes of bounded size with counters, an end mark and an error mark.  Each
    operation refines the operation of the same name of the specification, a
    sequence of operations refines the same sequence, and what is read is what
    was written, in order. *)

From S2P Require Import Prelude SpongeBuffer.

Module ByteStream.

Record t := mk {
  _buffers : SBufferList.t;
  _capacity : Z;
  _bytes_read : Z;
  _bytes_wirtten : Z;
  is_input_end : bool;
  _error : bool
}.

Definition new (capacity : Z) : t := mk SBufferList.empty_list capacity 0 0 false false.

Definition buffer_size (s : t) : Z := SBufferList.size (_buffers s).
Definition buffer_empty (s : t) : bool := SBufferList.empty (_buffers s).
Definition remaining_capacity (s : t) : Z := uint64 (_capacity s - SBufferList.size (_buffers s)).
Definition input_ended (s : t) : bool := is_input_end s.
Definition error (s : t) : bool := _error s.
Definition eof (s : t) : bool := is_input_end s && SBufferList.empty (_buffers s).
Definition bytes_written (s : t) : Z := _bytes_wirtten s.
Definition bytes_read (s : t) : Z := _bytes_read s.

Definition write (s : t) (data : string) : t * Z :=
  match data with
  | [] => (s, 0)
  | _ =>
      let capacity := remaining_capacity s in
      let written_size := if capacity <? zlen data then capacity else zlen data in
      (mk (SBufferList.push_back (_buffers s) (slice data 0 written_size))
          (_capacity s) (_bytes_read s)
          (uint64 (_bytes_wirtten s + written_size))
          (is_input_end s) (_error s),
       written_size)
  end.

Definition end_input (s : t) : t :=
  mk (_buffers s) (_capacity s) (_bytes_read s) (_bytes_wirtten s) true (_error s).

Definition set_error (s : t) : t :=
  mk (_buffers s) (_capacity s) (_bytes_read s) (_bytes_wirtten s) (is_input_end s) true.

Definition peek_output (s : t) (len : Z) : outcome string :=
  SBufferList.peek_output (_buffers s) len.

Definition pop_output (s : t) (len : Z) : outcome t :=
  '(buffers, len_left) ← SBufferList.remove_prefix (_buffers s) len;
  Ret (mk buffers (_capacity s) (uint64 (_bytes_read s + uint64 (len - len_left)))
          (_bytes_wirtten s) (is_input_end s) (_error s)).

Definition read (s : t) (len : Z) : outcome (string * t) :=
  result ← SBufferList.peek_output (_buffers s) len;
  '(buffers, _) ← SBufferList.remove_prefix (_buffers s) len;
  Ret (result,
       mk buffers (_capacity s) (uint64 (_bytes_read s + zlen result))
          (_bytes_wirtten s) (is_input_end s) (_error s)).

(** The bytes in the stream, in the order they will be read. *)
Definition bytes (s : t) : string := SBufferList.bytes (_buffers s).

(** The class invariant: the stream never holds more than its capacity, and its
    counters differ by what it holds. *)
Record wf (s : t) : Prop := {
  wf_buffers : SBufferList.wf (_buffers s);
  wf_capacity : is_u64 (_capacity s);
  wf_bound : zlen (bytes s) <= _capacity s;
  wf_read : is_u64 (_bytes_read s);
  wf_written : _bytes_wirtten s = uint64 (_bytes_read s + zlen (bytes s))
}.

(** No empty buffer is queued: what makes [buffer_empty] and [eof] exact. *)
Definition no_empty_buffer (s : t) : Prop := SBufferList.nonempty (_buffers s).

Lemma new_wf c : is_u64 c -> wf (new c).
Proof.
  intros Hc. unfold is_u64 in Hc.
  split; unfold bytes; simpl; try (unfold is_u64; lia).
  - split; [constructor | unfold SBufferList.bytes; simpl; zlen_lia].
  - unfold SBufferList.bytes; simpl. zlen_lia.
  - reflexivity.
Qed.

Lemma new_no_empty_buffer c : no_empty_buffer (new c).
Proof. constructor. Qed.

Lemma buffer_size_bytes s : wf s -> buffer_size s = zlen (bytes s).
Proof. intros H. apply SBufferList.sbl_size_bytes, H. Qed.

Lemma remaining_capacity_spec s : wf s -> remaining_capacity s = _capacity s - zlen (bytes s).
Proof.
  intros H. unfold remaining_capacity. fold (buffer_size s). rewrite buffer_size_bytes by done.
  destruct H. unfold is_u64 in *. zlen_lia. nowrap. done.
Qed.

Lemma buffer_empty_spec s : no_empty_buffer s -> buffer_empty s = bool_decide (bytes s = []).
Proof.
  unfold no_empty_buffer, buffer_empty, bytes, SBufferList.nonempty.
  destruct (_buffers s) as [|b l]; [done|]. intros H. inversion H; subst.
  symmetry. apply bool_decide_eq_false. rewrite SBufferList.sbl_bytes_cons.
  intros E. apply app_eq_nil in E. tauto.
Qed.

(** The bytes [write] accepts. *)
Definition accepted (s : t) (data : string) : string :=
  take (Z.to_nat (_capacity s - zlen (bytes s))) data.

Lemma write_spec s data :
  wf s -> zlen data < 2 ^ 64 ->
  let s' := fst (write s data) in
  wf s' /\ bytes s' = bytes s ++ accepted s data
  /\ snd (write s data) = zlen (accepted s data)
  /\ _capacity s' = _capacity s /\ _bytes_read s' = _bytes_read s
  /\ is_input_end s' = is_input_end s /\ _error s' = _error s.
Proof.
  intros Hs Hd. unfold accepted. destruct data as [|b data']; simpl.
  { rewrite take_nil, app_nil_r. done. }
  set (data := b :: data') in *. clearbody data. rewrite remaining_capacity_spec by done.
  pose proof Hs as [Hbl Hc Hb Hr Hw]. unfold is_u64 in *. zlen_lia.
  set (room := _capacity s - zlen (bytes s)) in *.
  assert (slice data 0 (if room <? zlen data then room else zlen data) = take (Z.to_nat room) data) as E.
  { case_if; [apply slice_0_take|]. rewrite slice_all by lia. symmetry. apply take_ge.
    unfold zlen in *. lia. }
  rewrite E.
  assert (zlen (take (Z.to_nat room) data) = if room <? zlen data then room else zlen data) as El.
  { rewrite <- slice_0_take, zlen_slice by lia. case_if; lia. }
  rewrite <- El. zlen_pose.
  assert (zlen (take (Z.to_nat room) data) <= room) by (rewrite El; case_if; lia).
  assert (SBufferList.bytes (SBufferList.push_back (_buffers s) (take (Z.to_nat room) data))
          = bytes s ++ take (Z.to_nat room) data) as Ep by apply SBufferList.bytes_push_back.
  assert (SBufferList.wf (SBufferList.push_back (_buffers s) (take (Z.to_nat room) data))) as Hp.
  { apply SBufferList.push_back_wf; [done|]. unfold bytes in *. lia. }
  repeat split; try apply Hp; unfold bytes in *; simpl; rewrite ?Ep; try done;
    try lia; zlen_lia.
  rewrite Hw. uint_lia.
Qed.

(** The invariant holds after a write of any string. *)
Lemma write_wf s data : wf s -> wf (fst (write s data)).
Proof.
  intros Hs. destruct (Z.lt_ge_cases (zlen data) (2 ^ 64)) as [Hd|Hd]; [by apply write_spec|].
  destruct data as [|b data']; [done|].
  destruct (write_spec s (take (Z.to_nat (2 ^ 64 - 1)) (b :: data')) Hs) as [Hw _].
  { rewrite zlen_take. lia. }
  replace (fst (write s (b :: data'))) with (fst (write s (take (Z.to_nat (2 ^ 64 - 1)) (b :: data')))); [done|].
  set (data := b :: data') in *. clearbody data.
  pose proof (uint64_range (_capacity s - SBufferList.size (_buffers s))) as Hr.
  fold (remaining_capacity s) in Hr. unfold is_u64 in Hr.
  assert (data <> []) as Hne by (intros ->; zlen_lia).
  assert (zlen (take (Z.to_nat (2 ^ 64 - 1)) data) = 2 ^ 64 - 1) as El by (rewrite zlen_take; lia).
  assert (take (Z.to_nat (2 ^ 64 - 1)) data <> []) as Hne'.
  { intros E. rewrite E in El. zlen_lia. }
  assert (forall d, d <> [] -> 2 ^ 64 - 1 <= zlen d -> write s d
    = (mk (SBufferList.push_back (_buffers s) (slice d 0 (remaining_capacity s))) (_capacity s) (_bytes_read s)
         (uint64 (_bytes_wirtten s + remaining_capacity s)) (is_input_end s) (_error s), remaining_capacity s)) as Hw'.
  { intros d Hd0 Hd1. unfold write. destruct d; [done|]. set (d' := _ :: _) in *.
    replace (if remaining_capacity s <? zlen d' then remaining_capacity s else zlen d')
      with (remaining_capacity s); [done|]. case_if; lia. }
  rewrite !Hw' by (done || lia). simpl. do 2 f_equal. rewrite !slice_0_take, take_take. f_equal. lia.
Qed.

(** Popping is reading without the result. *)
Lemma pop_is_read s n :
  wf s -> 0 <= n <= zlen (bytes s) ->
  exists s', pop_output s n = Ret s' /\ read s n = Ret (take (Z.to_nat n) (bytes s), s').
Proof.
  intros Hs Hn. pose proof Hs as [Hbl Hc Hb Hr Hw].
  destruct (SBufferList.sbl_remove_prefix_spec _ _ Hbl Hn) as (l' & E & _).
  unfold pop_output, read. rewrite SBufferList.sbl_peek_output_spec by (done || unfold is_u64 in *; lia).
  simpl. rewrite E; simpl. fold (bytes s).
  replace (zlen (take (Z.to_nat n) (bytes s))) with n
    by (unfold zlen; rewrite length_take; unfold zlen in *; lia).
  rewrite (uint64_small (n - 0)) by (unfold is_u64 in *; lia). rewrite Z.sub_0_r. by eexists.
Qed.

(** A write keeps the queue free of empty buffers unless it finds a full stream. *)
Lemma write_no_empty_buffer s data :
  wf s -> no_empty_buffer s -> data = [] \/ 0 < remaining_capacity s ->
  no_empty_buffer (fst (write s data)).
Proof.
  intros Hs Hn Hd. destruct data as [|b data]; [done|].
  destruct Hd as [?|Hr]; [done|]. unfold no_empty_buffer; simpl.
  apply Forall_app; split; [done|]. constructor; [|done].
  rewrite SBuffer.sbuf_bytes_of_string. intros E%(f_equal zlen). revert E.
  zlen_lia. case_if; rewrite zlen_slice by zlen_lia; zlen_lia.
Qed.

Lemma bs_peek_output_spec s n :
  wf s -> is_u64 n -> peek_output s n = Ret (take (Z.to_nat n) (bytes s)).
Proof. intros [H _ _ _ _] Hn. by apply SBufferList.sbl_peek_output_spec. Qed.

(** What popping [n] buffered bytes does to the stream. *)
Definition popped (s s' : t) (n : Z) : Prop :=
  wf s' /\ bytes s' = drop (Z.to_nat n) (bytes s)
  /\ _capacity s' = _capacity s /\ _bytes_read s' = uint64 (_bytes_read s + n)
  /\ _bytes_wirtten s' = _bytes_wirtten s
  /\ is_input_end s' = is_input_end s /\ _error s' = _error s
  /\ (no_empty_buffer s -> no_empty_buffer s').

Lemma popped_mk s n l' :
  wf s -> 0 <= n <= zlen (bytes s) -> SBufferList.wf l' ->
  SBufferList.bytes l' = drop (Z.to_nat n) (bytes s) ->
  (no_empty_buffer s -> SBufferList.nonempty l') ->
  popped s (mk l' (_capacity s) (uint64 (_bytes_read s + n)) (_bytes_wirtten s)
               (is_input_end s) (_error s)) n.
Proof.
  intros [Hbl Hc Hb Hr Hw] Hn Hl' El Hne.
  assert (zlen (drop (Z.to_nat n) (bytes s)) = zlen (bytes s) - n)
    by (unfold zlen; rewrite length_drop; unfold zlen in *; lia).
  repeat split; try done; unfold bytes in *; simpl in *; try apply Hl'; try apply Hc;
    rewrite ?El; try lia; try apply uint64_range.
  rewrite Hw. uint_lia.
Qed.

Lemma pop_output_spec s n :
  wf s -> 0 <= n <= zlen (bytes s) ->
  exists s', pop_output s n = Ret s' /\ popped s s' n.
Proof.
  intros Hs Hn. pose proof Hs as [Hbl Hc Hb Hr Hw].
  destruct (SBufferList.sbl_remove_prefix_spec _ _ Hbl Hn) as (l' & E & Hl' & El & Hne).
  unfold pop_output. rewrite E; simpl.
  rewrite (uint64_small (n - 0)) by (unfold is_u64 in *; lia). rewrite Z.sub_0_r.
  eexists. split; [done|]. by apply popped_mk.
Qed.

Lemma read_spec s n :
  wf s -> 0 <= n <= zlen (bytes s) ->
  exists s', read s n = Ret (take (Z.to_nat n) (bytes s), s') /\ popped s s' n.
Proof.
  intros Hs Hn. pose proof Hs as [Hbl Hc Hb Hr Hw].
  destruct (SBufferList.sbl_remove_prefix_spec _ _ Hbl Hn) as (l' & E & Hl' & El & Hne).
  unfold read. rewrite SBufferList.sbl_peek_output_spec by (done || unfold is_u64 in *; lia).
  simpl. rewrite E; simpl. fold (bytes s).
  replace (zlen (take (Z.to_nat n) (bytes s))) with n
    by (unfold zlen; rewrite length_take; unfold zlen in *; lia).
  eexists. split; [done|]. by apply popped_mk.
Qed.

(** Reading and popping keep an empty last buffer. *)
Definition clogged (s : t) : bool := SBufferList.hollow (_buffers s).

Lemma read_clogged s n d s' :
  wf s -> 0 <= n <= zlen (bytes s) -> read s n = Ret (d, s') -> clogged s' = clogged s.
Proof.
  intros Hs Hn E. pose proof (wf_buffers _ Hs) as Hbl. unfold read in E.
  destruct (SBufferList.sbl_remove_prefix_spec _ _ Hbl Hn) as (l' & El & _).
  apply bind_Ret in E as (r & _ & E). rewrite El in E. injection E as <- <-.
  by apply (SBufferList.remove_prefix_hollow _ n).
Qed.

Lemma pop_clogged s n s' :
  wf s -> 0 <= n <= zlen (bytes s) -> pop_output s n = Ret s' -> clogged s' = clogged s.
Proof.
  intros Hs Hn E. destruct (pop_is_read s n Hs Hn) as (s1 & E1 & Er). rewrite E in E1. injection E1 as <-.
  by eapply read_clogged.
Qed.

Lemma write_clogged s data :
  wf s -> zlen data < 2 ^ 64 ->
  clogged (fst (write s data)) = match data with [] => clogged s | _ => bool_decide (accepted s data = []) end.
Proof.
  intros Hs Hd. pose proof (write_spec s data Hs Hd) as (_ & Hb & _). destruct data as [|b data]; [done|].
  unfold write, bytes in Hb. cbn [fst _buffers] in Hb. rewrite SBufferList.bytes_push_back in Hb.
  apply app_inv_head in Hb. unfold clogged, write, SBufferList.hollow, SBufferList.push_back. cbn [fst _buffers].
  rewrite last_snoc, SBuffer.sbuf_bytes_of_string. by rewrite Hb.
Qed.

Lemma no_empty_clogged s : no_empty_buffer s -> clogged s = false.
Proof.
  unfold no_empty_buffer, clogged, SBufferList.nonempty, SBufferList.hollow.
  intros Hn. destruct (last (_buffers s)) as [b|] eqn:E; [|done]. apply bool_decide_eq_false.
  apply last_Some in E as [l El]. rewrite El in Hn. by apply Forall_app, proj2, Forall_inv in Hn.
Qed.

Lemma buffer_empty_clogged s : buffer_empty s = bool_decide (bytes s = []) && negb (clogged s).
Proof. apply SBufferList.empty_hollow. Qed.

Lemma over_read_throws s n :
  wf s -> zlen (bytes s) < n < 2 ^ 64 ->
  read s n = Throw out_of_range /\ pop_output s n = Throw out_of_range.
Proof.
  intros Hs Hn. unfold read, pop_output. pose proof (wf_buffers s Hs).
  rewrite SBufferList.sbl_peek_output_spec by (zlen_lia; try done).
  rewrite SBufferList.sbl_remove_prefix_throws by done. done.
Qed.

Lemma end_input_wf s : wf s -> wf (end_input s).
Proof. intros [????]; by split. Qed.
Lemma set_error_wf s : wf s -> wf (set_error s).
Proof. intros [????]; by split. Qed.

End ByteStream.

(** ** The specification and the refinement *)

Module StreamSpec.

(** A bounded queue of bytes.  [clogged] says that the last write that carried bytes
    found the queue full: then the queue is not reported empty any more, even when
    all its bytes have been taken out. *)
Record stream := mk {
  contents : string;
  capacity : Z;
  nread : Z;
  nwritten : Z;
  ended : bool;
  failed : bool;
  clogged : bool
}.

Inductive op :=
  | Write (data : string)
  | Read (len : Z)
  | PeekPop (len : Z)
  | EndInput
  | SetError
  | Observe.

(** The answers of the observers, in the order of the class. *)
Record view := View {
  v_buffer_size : Z;
  v_buffer_empty : bool;
  v_remaining_capacity : Z;
  v_input_ended : bool;
  v_error : bool;
  v_eof : bool;
  v_bytes_written : Z;
  v_bytes_read : Z
}.

Inductive reply :=
  | Count (n : Z)
  | Data (s : string)
  | Seen (v : view)
  | Done.

Definition new (c : Z) : stream := mk [] c 0 0 false false false.

Definition take_out (s : stream) (n : Z) : outcome (stream * reply) :=
  if n <=? zlen (contents s)
  then Ret (mk (drop (Z.to_nat n) (contents s)) (capacity s) (uint64 (nread s + n)) (nwritten s)
               (ended s) (failed s) (clogged s),
            Data (take (Z.to_nat n) (contents s)))
  else Throw out_of_range.

Definition is_empty (s : stream) : bool := bool_decide (contents s = []) && negb (clogged s).

Definition step (s : stream) (o : op) : outcome (stream * reply) :=
  match o with
  | Write data =>
      let a := take (Z.to_nat (capacity s - zlen (contents s))) data in
      Ret (mk (contents s ++ a) (capacity s) (nread s) (uint64 (nwritten s + zlen a)) (ended s) (failed s)
              (match data with [] => clogged s | _ => bool_decide (a = []) end), Count (zlen a))
  | Read n | PeekPop n => take_out s n
  | EndInput => Ret (mk (contents s) (capacity s) (nread s) (nwritten s) true (failed s) (clogged s), Done)
  | SetError => Ret (mk (contents s) (capacity s) (nread s) (nwritten s) (ended s) true (clogged s), Done)
  | Observe =>
      Ret (s, Seen (View (zlen (contents s)) (is_empty s) (capacity s - zlen (contents s)) (ended s) (failed s)
                         (ended s && is_empty s) (nwritten s) (nread s)))
  end.

(** The arguments are [size_t] values and strings that fit the machine. *)
Definition valid (o : op) : Prop :=
  match o with
  | Write data => zlen data < 2 ^ 64
  | Read n | PeekPop n => is_u64 n
  | _ => True
  end.

(** What the writer got in and what the reader got out over a sequence. *)
Fixpoint accepted (ops : list op) (rs : list reply) : string :=
  match ops, rs with
  | Write data :: ops, Count n :: rs => take (Z.to_nat n) data ++ accepted ops rs
  | _ :: ops, _ :: rs => accepted ops rs
  | _, _ => []
  end.
Definition delivered (rs : list reply) : string :=
  concat ((fun r => match r with Data s => s | _ => [] end) <$> rs).

Lemma delivered_cons r rs :
  delivered (r :: rs) = match r with Data s => s | _ => [] end ++ delivered rs.
Proof. reflexivity. Qed.

Lemma run_fifo ops s s' rs :
  run step s ops = Ret (s', rs) ->
  contents s ++ accepted ops rs = delivered rs ++ contents s'.
Proof.
  revert s rs. induction ops as [|o ops IH]; intros s rs H; simpl in H.
  { injection H as <- <-. simpl. by rewrite app_nil_r. }
  apply bind_Ret in H as ([s1 r] & E & H). apply bind_Ret in H as ([s2 rs'] & E' & [= -> <-]).
  apply IH in E'. rewrite delivered_cons, <- app_assoc, <- E'. destruct o; simpl in E; unfold take_out in E.
  - injection E as <- <-. simpl. rewrite <- app_assoc. do 2 f_equal.
    unfold zlen at 1. rewrite Nat2Z.id, length_take. destruct (Nat.le_ge_cases
      (length data) (Z.to_nat (capacity s - zlen (contents s)))).
    + rewrite Nat.min_r, !take_ge by lia. done.
    + by rewrite Nat.min_l by lia.
  - destruct (_ <=? _); [|done]. injection E as <- <-; simpl. by rewrite app_assoc, take_drop.
  - destruct (_ <=? _); [|done]. injection E as <- <-; simpl. by rewrite app_assoc, take_drop.
  - by injection E as <- <-.
  - by injection E as <- <-.
  - by injection E as <- <-.
Qed.

End StreamSpec.

(** The operations as the rest of the program calls them. *)
Definition stream_step (s : ByteStream.t) (o : StreamSpec.op)
    : outcome (ByteStream.t * StreamSpec.reply) :=
  match o with
  | StreamSpec.Write data =>
      let '(s', n) := ByteStream.write s data in Ret (s', StreamSpec.Count n)
  | StreamSpec.Read n =>
      '(d, s') ← ByteStream.read s n; Ret (s', StreamSpec.Data d)
  | StreamSpec.PeekPop n =>
      d ← ByteStream.peek_output s n; s' ← ByteStream.pop_output s n; Ret (s', StreamSpec.Data d)
  | StreamSpec.EndInput => Ret (ByteStream.end_input s, StreamSpec.Done)
  | StreamSpec.SetError => Ret (ByteStream.set_error s, StreamSpec.Done)
  | StreamSpec.Observe =>
      Ret (s, StreamSpec.Seen (StreamSpec.View (ByteStream.buffer_size s) (ByteStream.buffer_empty s)
        (ByteStream.remaining_capacity s) (ByteStream.input_ended s) (ByteStream.error s) (ByteStream.eof s)
        (ByteStream.bytes_written s) (ByteStream.bytes_read s)))
  end.

(** What a stream stands for. *)
Definition abs_stream (s : ByteStream.t) : StreamSpec.stream :=
  StreamSpec.mk (ByteStream.bytes s) (ByteStream._capacity s) (ByteStream._bytes_read s) (ByteStream._bytes_wirtten s)
    (ByteStream.is_input_end s) (ByteStream._error s) (ByteStream.clogged s).

Lemma popped_abs s s' n :
  ByteStream.popped s s' n -> ByteStream.clogged s' = ByteStream.clogged s ->
  abs_stream s' = StreamSpec.mk (drop (Z.to_nat n) (ByteStream.bytes s)) (ByteStream._capacity s)
    (uint64 (ByteStream._bytes_read s + n)) (ByteStream._bytes_wirtten s) (ByteStream.is_input_end s)
    (ByteStream._error s) (ByteStream.clogged s).
Proof.
  intros (Hw & Hb & Hc & Hr & Hwr & He & Herr & _) Hcl. unfold abs_stream.
  by rewrite Hb, Hc, Hr, Hwr, He, Herr, Hcl.
Qed.

Lemma write_written s data :
  ByteStream.wf s -> zlen data < 2 ^ 64 ->
  ByteStream._bytes_wirtten (fst (ByteStream.write s data))
  = uint64 (ByteStream._bytes_wirtten s + zlen (ByteStream.accepted s data)).
Proof.
  intros Hs Hd. pose proof (ByteStream.write_spec s data Hs Hd) as (Hw & Hb & _ & _ & Hr & _).
  rewrite (ByteStream.wf_written _ Hw), (ByteStream.wf_written _ Hs), Hb, Hr. zlen_lia. uint_lia.
Qed.

Lemma stream_step_refines s o :
  ByteStream.wf s -> StreamSpec.valid o ->
  (fun '(s', r) => (abs_stream s', r)) <$> stream_step s o = StreamSpec.step (abs_stream s) o
  /\ (forall s' r, stream_step s o = Ret (s', r) -> ByteStream.wf s').
Proof.
  intros Hs Hv. destruct o as [data|n|n| | |]; simpl in *; unfold StreamSpec.take_out; simpl.
  - pose proof (ByteStream.write_spec s data Hs Hv) as (Hw & Hb & Hn & Hc & Hr & He & Herr).
    pose proof (write_written s data Hs Hv) as Hwr. pose proof (ByteStream.write_clogged s data Hs Hv) as Hcl.
    destruct (ByteStream.write s data) as [s' n]; simpl in *. unfold abs_stream. subst n.
    rewrite Hb, Hc, Hr, He, Herr, Hwr, Hcl. split; [done|]. by intros ?? [= <- <-].
  - unfold is_u64 in Hv. case_if.
    + destruct (ByteStream.read_spec s n) as (s' & E & Hp); [done|lia|].
      pose proof (ByteStream.read_clogged s n _ _ Hs ltac:(lia) E).
      rewrite E; simpl. rewrite (popped_abs _ _ _ Hp) by done. split; [done|].
      intros ?? [= <- <-]. apply Hp.
    + destruct (ByteStream.over_read_throws s n) as [E _]; [done|lia|]. by rewrite E.
  - unfold is_u64 in Hv. rewrite ByteStream.bs_peek_output_spec by done. simpl. case_if.
    + destruct (ByteStream.pop_output_spec s n) as (s' & E & Hp); [done|lia|].
      pose proof (ByteStream.pop_clogged s n _ Hs ltac:(lia) E).
      rewrite E; simpl. rewrite (popped_abs _ _ _ Hp) by done. split; [done|].
      intros ?? [= <- <-]. apply Hp.
    + destruct (ByteStream.over_read_throws s n) as [_ E]; [done|lia|]. by rewrite E.
  - split; [done|]. intros ?? [= <- <-]. by apply ByteStream.end_input_wf.
  - split; [done|]. intros ?? [= <- <-]. by apply ByteStream.set_error_wf.
  - split; [|by intros ?? [= <- <-]]. unfold ByteStream.eof. fold (ByteStream.buffer_empty s).
    rewrite ByteStream.buffer_size_bytes, ByteStream.remaining_capacity_spec, ByteStream.buffer_empty_clogged by done.
    reflexivity.
Qed.

(** ** Properties *)

(** C16: every sequence of operations on a new [ByteStream] of any capacity gives
    the same replies, the same exceptions and the same final state as the bounded
    byte queue of the specification, all the observers included: the sizes, the two
    counters, the marks, [buffer_empty] and [eof].  The specification has one
    oddity, which is the code's: after a write that found the queue full, the queue
    is not reported empty when its bytes have been taken out, until another write
    gets a byte in. *)
Theorem byte_stream_refines_queue (c : Z) (ops : list StreamSpec.op) :
  is_u64 c -> Forall StreamSpec.valid ops ->
  (fun '(s, rs) => (abs_stream s, rs)) <$> run stream_step (ByteStream.new c) ops
  = run StreamSpec.step (StreamSpec.new c) ops.
Proof.
  intros Hc Hv. apply (run_refines abs_stream ByteStream.wf StreamSpec.valid
    stream_step StreamSpec.step stream_step_refines ops (ByteStream.new c)); [|done].
  by apply ByteStream.new_wf.
Qed.

Lemma byte_stream_refines_queue_witness :
  (fun '(s, rs) => (abs_stream s, rs)) <$>
    run stream_step (ByteStream.new 3)
      [StreamSpec.Write [Byte.x01; Byte.x02; Byte.x03; Byte.x04]; StreamSpec.Read 2; StreamSpec.Observe; StreamSpec.EndInput]
  = Ret (StreamSpec.mk [Byte.x03] 3 2 3 true false false,
         [StreamSpec.Count 3; StreamSpec.Data [Byte.x01; Byte.x02];
          StreamSpec.Seen (StreamSpec.View 1 false 2 false false false 3 2); StreamSpec.Done]).
Proof.
  rewrite (byte_stream_refines_queue 3); [reflexivity|done|].
  repeat constructor; simpl; done.
Defined.

(** Whatever is interleaved, the bytes read from a [ByteStream] followed by
    the bytes it still holds are exactly the bytes its writer was told it
    accepted, in order, and the stream never holds more than its capacity. *)
Theorem byte_stream_fifo (c : Z) (ops : list StreamSpec.op) (s : ByteStream.t)
    (rs : list StreamSpec.reply) :
  is_u64 c -> Forall StreamSpec.valid ops ->
  run stream_step (ByteStream.new c) ops = Ret (s, rs) ->
  StreamSpec.accepted ops rs = StreamSpec.delivered rs ++ ByteStream.bytes s
  /\ ByteStream.buffer_size s = zlen (ByteStream.bytes s)
  /\ ByteStream.buffer_size s <= ByteStream._capacity s.
Proof.
  intros Hc Hv Hrun.
  destruct (run_refines abs_stream ByteStream.wf StreamSpec.valid stream_step StreamSpec.step
    stream_step_refines ops (ByteStream.new c)) as [E Hw]; [by apply ByteStream.new_wf|done|].
  specialize (Hw _ _ Hrun). rewrite Hrun in E. simpl in E. symmetry in E.
  apply StreamSpec.run_fifo in E. rewrite ByteStream.buffer_size_bytes by done.
  split; [exact E|]. split; [done|]. apply Hw.
Qed.

Lemma byte_stream_fifo_witness :
  StreamSpec.accepted [StreamSpec.Write [Byte.x01; Byte.x02; Byte.x03; Byte.x04]; StreamSpec.PeekPop 2]
    [StreamSpec.Count 3; StreamSpec.Data [Byte.x01; Byte.x02]] = [Byte.x01; Byte.x02] ++ [Byte.x03].
Proof.
  refine (proj1 (byte_stream_fifo 3 _
    (ByteStream.mk [SBuffer.mk (Some [Byte.x01; Byte.x02; Byte.x03]) 2] 3 2 3 false false) _ _ _ _));
    [done| |reflexivity].
  repeat constructor; simpl; done.
Defined.

(** A non-empty [write] into a full stream queues an empty buffer, so once the
    input has ended and every byte has been read, the stream holds no byte and
    yet [eof] is false and [buffer_empty] is false. *)
Theorem full_write_hides_eof (s : ByteStream.t) (data : string) :
  ByteStream.wf s -> ByteStream.no_empty_buffer s ->
  ByteStream.remaining_capacity s = 0 -> data <> [] ->
  exists str s',
    ByteStream.read (ByteStream.end_input (fst (ByteStream.write s data))) (ByteStream.buffer_size s)
      = Ret (str, s')
    /\ str = ByteStream.bytes s /\ ByteStream.buffer_size s' = 0
    /\ ByteStream.input_ended s' = true
    /\ ByteStream.buffer_empty s' = false /\ ByteStream.eof s' = false.
Proof.
  intros Hs Hn Hr Hd. rewrite ByteStream.buffer_size_bytes by done.
  destruct data as [|b data]; [done|]. unfold ByteStream.write. rewrite Hr.
  rewrite (proj2 (Z.ltb_lt _ _)) by zlen_lia. rewrite slice_empty by lia. simpl.
  unfold ByteStream.read; simpl. pose proof (ByteStream.wf_buffers s Hs) as Hbl.
  pose proof (ByteStream.wf_capacity s Hs). pose proof (ByteStream.wf_bound s Hs). unfold is_u64 in *.
  rewrite SBufferList.sbl_peek_output_spec.
  - unfold SBufferList.push_back, ByteStream.bytes.
    rewrite SBufferList.bytes_app, SBufferList.remove_prefix_app_all by done. simpl.
    eexists _, _. repeat split. unfold SBufferList.bytes at 3; simpl.
    rewrite app_nil_r. apply take_ge. unfold zlen. lia.
  - apply SBufferList.push_back_wf; [done|]. unfold ByteStream.bytes in *. zlen_lia.
  - zlen_lia.
Qed.

Lemma full_write_hides_eof_witness :
  exists str s',
    ByteStream.read (ByteStream.end_input (fst (ByteStream.write
      (fst (ByteStream.write (ByteStream.new 1) [Byte.x61])) [Byte.x62]))) 1 = Ret (str, s')
    /\ str = [Byte.x61] /\ ByteStream.buffer_size s' = 0
    /\ ByteStream.input_ended s' = true
    /\ ByteStream.buffer_empty s' = false /\ ByteStream.eof s' = false.
Proof.
  apply (full_write_hides_eof (fst (ByteStream.write (ByteStream.new 1) [Byte.x61])) [Byte.x62]).
  - apply ByteStream.write_spec; [apply ByteStream.new_wf; done|done].
  - repeat constructor. done.
  - reflexivity.
  - done.
Defined.
