(* ===== verification/BufferString.v ===== *)
(** * Out-of-order fragments (buffer_string.hh, buffer_string.cc)

    [BufferString] is a fragment of the incoming stream with the indices of its
    first byte and of the byte after its last; [BufferStringList] keeps the
    fragments that cannot be delivered yet.  The invariant is that the fragments
    are sorted and neither overlap nor touch.  The lemmas show that inserting a
    fragment keeps the invariant, never throws, and changes the bytes held at
    each index exactly as it should. *)

From stdpp Require Import sorting.
From S2P Require Import Prelude.

Module BufferString.

Record t := mk { _index : Z * Z; _eof : bool; _target : option string }.

(** The default constructor leaves the target pointer null. *)
Definition null : t := mk (0, 0) false None.

Definition make (index : Z) (target : string) (eof : bool) : t :=
  mk (index, uint64 (index + zlen target)) eof (Some target).

Definition get_index (b : t) : Z * Z := _index b.
Definition get_string (b : t) : outcome string :=
  match _target b with Some s => Ret s | None => Throw undefined_behaviour end.
Definition size (b : t) : outcome Z :=
  match _target b with Some s => Ret (zlen s) | None => Throw undefined_behaviour end.
Definition eof (b : t) : bool := _eof b.

Definition first (b : t) : Z := fst (get_index b).
Definition second (b : t) : Z := snd (get_index b).

End BufferString.

Import BufferString (first, second).

Module BufferStringList.

Definition t : Type := list BufferString.t.

(** What [std::lower_bound] and [std::upper_bound] promise: on a range partitioned by
    [p], the first position where [p] fails; on any other range nothing. *)
Fixpoint first_failing {A} (p : A -> bool) (l : list A) : nat :=
  match l with
  | [] => 0
  | x :: l => if p x then S (first_failing p l) else 0
  end.
Definition partition_point {A} (p : A -> bool) (l : list A) : outcome nat :=
  let i := first_failing p l in
  if forallb (fun x => negb (p x)) (drop i l) then Ret i else Throw undefined_behaviour.

(** [_list.insert(pos, x)] and [_list.erase(i, j)] *)
Definition insert_at {A} (l : list A) (i : nat) (x : A) : list A := take i l ++ x :: drop i l.
Definition erase {A} (l : list A) (i j : nat) : list A := take i l ++ drop j l.

(** The loop that extends the new string by what reaches past [right_index]. *)
Fixpoint extend_loop (its : t) (right_index : Z) (new_string : string) : outcome string :=
  match its with
  | [] => Ret new_string
  | it :: its =>
      if right_index <? second it
      then s ← BufferString.get_string it;
           p ← substr s (uint64 (right_index - first it)) (uint64 (second it - right_index));
           extend_loop its right_index (new_string ++ p)
      else extend_loop its right_index new_string
  end.

(** Dereferencing an iterator. *)
Definition deref {A} (l : list A) (i : nat) : outcome A :=
  match l !! i with Some b => Ret b | None => Throw undefined_behaviour end.

Definition push_back (_list : t) (target : string) (index : Z) (eof : bool) : outcome t :=
  let buffer := BufferString.make index target eof in
  lower_left ← partition_point (fun buff => second buff <? first buffer) _list;
  upper_right ← partition_point (fun buff => negb (second buffer <? first buff)) _list;
  if Nat.eqb lower_left upper_right then Ret (insert_at _list lower_left buffer) else
  let is_list_end := Nat.eqb upper_right (length _list) in
  let upper_right := if is_list_end then (upper_right - 1)%nat else upper_right in
  if Nat.ltb upper_right lower_left then Throw runtime_error else
  low ← deref _list lower_left;
  let left_index := Z.min (first low) (first buffer) in
  right_index ← (if is_list_end
                 then upp ← deref _list upper_right; Ret (Z.max (second upp) (second buffer))
                 else Ret (second buffer));
  if (first low <=? first buffer) && (second buffer <=? second low) then Ret _list else
  new_string ← (if left_index <? first buffer
                then s ← BufferString.get_string low; substr s 0 (first buffer - left_index)
                else Ret []);
  buffer_string ← BufferString.get_string buffer;
  new_string ← extend_loop (take (upper_right - lower_left) (drop lower_left _list))
                 right_index (new_string ++ buffer_string);
  if is_list_end then
    upp ← deref _list upper_right;
    new_string ← (if second buffer <? right_index
                  then s ← BufferString.get_string upp;
                       p ← substr s (uint64 (second buffer - first upp)) (right_index - second buffer);
                       Ret (new_string ++ p)
                  else Ret new_string);
    let final_eof := eof || BufferString.eof upp in
    Ret (erase (<[upper_right := BufferString.make left_index new_string final_eof]> (_list : list _))
           lower_left upper_right)
  else
    Ret (erase (<[lower_left := BufferString.make left_index new_string eof]> (_list : list _))
           (lower_left + 1) upper_right).

Definition size (l : t) : Z :=
  fold_left (fun acc it => uint64 (acc + uint64 (second it - first it))) l 0.

Definition empty (l : t) : bool := match l with [] => true | _ => false end.

Definition top_index (l : t) : Z := match l with [] => 0 | b :: _ => first b end.

Definition get_buffer (l : t) (n : Z) (should_pop : bool) : outcome (string * t) :=
  match l with
  | [] => Ret ([], l)
  | front :: rest =>
      result_view ← BufferString.get_string front;
      if zlen result_view <=? n then
        Ret (result_view, if should_pop then rest else l)
      else
        result ← substr result_view 0 n;
        if should_pop then
          remaining ← substr result_view n (zlen result_view - n);
          Ret (result, rest ++ [BufferString.make (uint64 (first front + n)) remaining false])
        else Ret (result, l)
  end.

Definition get_buffer_string (l : t) (n : Z) (should_pop : bool) : outcome (BufferString.t * t) :=
  match l with
  | [] => Ret (BufferString.null, l)
  | buffer :: rest =>
      s ← BufferString.get_string buffer;
      if zlen s <=? n then
        Ret (buffer, if should_pop then rest else l)
      else
        head ← substr s 0 n;
        let result := BufferString.make (first buffer) head false in
        if should_pop then
          tail ← substr s n (zlen s - n);
          Ret (result, rest ++ [BufferString.make (uint64 (first buffer + n)) tail (BufferString.eof buffer)])
        else Ret (result, l)
  end.

Definition pop_up_buffer (l : t) (n : Z) : outcome (string * t) := get_buffer l n true.
Definition peek_buffer (l : t) (n : Z) : outcome (string * t) := get_buffer l n false.
Definition pop_up_buffer_string (l : t) (n : Z) : outcome (BufferString.t * t) := get_buffer_string l n true.
Definition peek_buffer_string (l : t) (n : Z) : outcome (BufferString.t * t) := get_buffer_string l n false.

#[global] Arguments push_back : simpl never.
#[global] Arguments pop_up_buffer_string : simpl never.

(** ** The invariant *)

Definition str (b : BufferString.t) : string := default [] (BufferString._target b).

Record frag_wf (b : BufferString.t) : Prop := {
  frag_target : BufferString._target b = Some (str b);
  frag_first : 0 <= first b;
  frag_second : second b = first b + zlen (str b);
  frag_bound : second b < 2 ^ 64
}.

(** [a] lies to the left of [b] with a gap between them. *)
Definition before (a b : BufferString.t) : Prop := second a < first b.

Record wf (l : t) : Prop := {
  wf_frags : Forall frag_wf l;
  wf_sorted : StronglySorted before l
}.

(** The byte a fragment, and a list of fragments, holds at index [i]. *)
Definition char_at (b : BufferString.t) (i : Z) : option byte :=
  if (first b <=? i) && (i <? second b) then str b !! Z.to_nat (i - first b) else None.
Fixpoint content (l : t) (i : Z) : option byte :=
  match l with
  | [] => None
  | b :: l => match char_at b i with Some x => Some x | None => content l i end
  end.

Lemma content_app l k i :
  content (l ++ k) i = match content l i with Some x => Some x | None => content k i end.
Proof.
  induction l as [|b l IH]; simpl; [done|]. rewrite IH. by destruct (char_at b i).
Qed.

Lemma char_at_out b i : i < first b \/ second b <= i -> char_at b i = None.
Proof. intros. unfold char_at. destruct (_ && _) eqn:E; zbool; [lia|done]. Qed.

Lemma char_at_in b i :
  first b <= i < second b -> char_at b i = str b !! Z.to_nat (i - first b).
Proof.
  intros. unfold char_at. by rewrite (proj2 (Z.leb_le _ _)), (proj2 (Z.ltb_lt _ _)) by lia.
Qed.

Lemma content_out l i : Forall (fun b => i < first b \/ second b <= i) l -> content l i = None.
Proof. induction 1 as [|b l H _ IH]; simpl; [done|]. by rewrite char_at_out. Qed.

Lemma frag_ordered b : frag_wf b -> first b <= second b.
Proof. intros [? ? E ?]. rewrite E. zlen_lia. Qed.

Lemma frag_get_string b : frag_wf b -> BufferString.get_string b = Ret (str b).
Proof. intros [E _ _ _]. unfold BufferString.get_string. by rewrite E. Qed.

Lemma make_wf index target eof :
  0 <= index -> index + zlen target < 2 ^ 64 ->
  frag_wf (BufferString.make index target eof)
  /\ first (BufferString.make index target eof) = index
  /\ second (BufferString.make index target eof) = index + zlen target
  /\ str (BufferString.make index target eof) = target.
Proof.
  intros. assert (uint64 (index + zlen target) = index + zlen target) as E
    by (apply uint64_small; unfold is_u64; zlen_lia).
  repeat split; unfold first, second; simpl; try lia; try done.
Qed.

Lemma wf_nil : wf [].
Proof. split; constructor. Qed.

Lemma bsl_wf_cons b l :
  wf (b :: l) <-> frag_wf b /\ Forall (before b) l /\ wf l.
Proof.
  split.
  - intros [Hf Hs]. inversion Hf; inversion Hs; subst. split_and!; [done..|by split].
  - intros (Hb & Ha & [Hf Hs]). split; by constructor.
Qed.

(** The search predicates of [push_back] split a sorted list in three: the
    fragments left of [lo], those that meet [lo, hi], those right of [hi]. *)
Lemma split_list l lo hi :
  wf l -> lo <= hi ->
  exists A M B, l = A ++ M ++ B
    /\ Forall (fun b => second b < lo) A
    /\ Forall (fun b => lo <= second b /\ first b <= hi) M
    /\ Forall (fun b => hi < first b) B.
Proof.
  intros Hl Hlh. induction l as [|b l IH].
  { exists [], [], []. by repeat split; try constructor. }
  apply bsl_wf_cons in Hl as (Hb & Hbl & Hl). pose proof (frag_ordered b Hb).
  assert (Forall frag_wf l) as Hfl by apply Hl.
  destruct (IH Hl) as (A & M & B & -> & HA & HM & HB).
  destruct (decide (second b < lo)).
  { exists (b :: A), M, B. by repeat split; try constructor. }
  destruct A as [|a A].
  2:{ inversion HA; inversion Hbl; inversion Hfl; subst.
      unfold before in *. pose proof (frag_ordered a ltac:(done)). lia. }
  destruct (decide (first b <= hi)).
  { exists [], (b :: M), B. repeat split; try constructor; done || lia. }
  destruct M as [|m M].
  2:{ inversion HM; inversion Hbl; subst. unfold before in *. lia. }
  exists [], [], (b :: B). repeat split; try constructor; done || lia.
Qed.

Lemma partition_point_app {A} (p : A -> bool) l k :
  Forall (fun x => p x = true) l -> Forall (fun x => p x = false) k ->
  partition_point p (l ++ k) = Ret (length l).
Proof.
  intros Hl Hk. unfold partition_point.
  assert (first_failing p (l ++ k) = length l) as ->.
  { induction Hl as [|x l Hx _ IH]; simpl; [|by rewrite Hx, IH].
    inversion Hk as [|? ? E]; simpl; [done|]. by rewrite E. }
  rewrite drop_app_length, (proj2 (forallb_forall _ _)); [done|].
  intros x Hx%list_elem_of_In. apply negb_true_iff. by apply (proj1 (Forall_forall _ _) Hk).
Qed.

Lemma extend_loop_skip its r acc :
  Forall (fun b => second b <= r) its -> extend_loop its r acc = Ret acc.
Proof.
  induction 1 as [|b its H _ IH]; simpl; [done|].
  by rewrite (proj2 (Z.ltb_ge _ _)) by lia.
Qed.

Lemma extend_loop_app its k r acc :
  Forall (fun b => second b <= r) its -> extend_loop (its ++ k) r acc = extend_loop k r acc.
Proof.
  induction 1 as [|b its H _ IH]; simpl; [done|].
  by rewrite (proj2 (Z.ltb_ge _ _)) by lia.
Qed.

(** The string that replaces the fragments [m0] to [mz] a new fragment meets. *)
Definition merged_string (m0 mz : BufferString.t) (target : string) (lo hi : Z) : string :=
  take (Z.to_nat (lo - Z.min (first m0) lo)) (str m0) ++ target
  ++ drop (Z.to_nat (hi - first mz)) (str mz).

Lemma tail_piece mz hi :
  frag_wf mz -> first mz <= hi ->
  slice (str mz) (hi - first mz) (second mz - hi) = drop (Z.to_nat (hi - first mz)) (str mz).
Proof.
  intros [? ? E ?] ?. rewrite <- slice_drop. f_equal. lia.
Qed.

Lemma drop_none mz hi :
  frag_wf mz -> second mz <= hi -> drop (Z.to_nat (hi - first mz)) (str mz) = [].
Proof. intros [? ? E ?] ?. apply drop_ge. unfold zlen in *. lia. Qed.

(** The three things [push_back] can do. *)
Inductive push_result (l : t) (target : string) (index : Z) (eof : bool) : t -> Prop :=
  | push_insert A B :
      l = A ++ B ->
      Forall (fun b => second b < index) A ->
      Forall (fun b => index + zlen target < first b) B ->
      push_result l target index eof (A ++ BufferString.make index target eof :: B)
  | push_inside low :
      low ∈ l -> first low <= index -> index + zlen target <= second low ->
      push_result l target index eof l
  | push_merge A M B m0 mz :
      l = A ++ M ++ B -> head M = Some m0 -> last M = Some mz ->
      Forall (fun b => second b < index) A ->
      Forall (fun b => index <= second b /\ first b <= index + zlen target) M ->
      Forall (fun b => index + zlen target < first b) B ->
      ~ (first m0 <= index /\ index + zlen target <= second m0) ->
      push_result l target index eof
        (A ++ BufferString.make (Z.min (first m0) index)
                (merged_string m0 mz target index (index + zlen target))
                (eof || (bool_decide (B = []) && BufferString.eof mz)) :: B).

Lemma insert_middle {A} (l k : list A) x y : <[length l := y]> (l ++ x :: k) = l ++ y :: k.
Proof.
  rewrite <- (Nat.add_0_r (length l)). by rewrite insert_app_r.
Qed.

(** The part of the new string left of the new fragment. *)
Lemma low_piece m0 lo :
  frag_wf m0 -> lo <= second m0 ->
  (if Z.min (first m0) lo <? lo
   then s ← BufferString.get_string m0; substr s 0 (lo - Z.min (first m0) lo)
   else Ret []) = Ret (take (Z.to_nat (lo - Z.min (first m0) lo)) (str m0)).
Proof.
  intros Hm Hlo. case_if.
  - rewrite frag_get_string by done. simpl. rewrite substr_ok by zlen_lia.
    by rewrite slice_0_take.
  - by replace (lo - Z.min (first m0) lo) with 0 by lia.
Qed.

(** The part right of it, when the last fragment met is not the last of all. *)
Lemma extend_loop_merge M0 mz hi acc :
  wf (M0 ++ [mz]) -> first mz <= hi ->
  extend_loop (M0 ++ [mz]) hi acc = Ret (acc ++ drop (Z.to_nat (hi - first mz)) (str mz)).
Proof.
  intros [Hf Hs] Hz. apply Forall_app in Hf as [Hf Hm]. inversion Hm as [|? ? Hmz _]; subst.
  pose proof (frag_ordered mz Hmz) as Ho. pose proof Hmz as [? Hfirst Hsec Hbound].
  rewrite extend_loop_app.
  - simpl. case_if; [|by rewrite drop_none, app_nil_r by done].
    rewrite frag_get_string by done. simpl. nowrap.
    rewrite substr_ok by lia. simpl. by rewrite tail_piece.
  - apply Forall_forall. intros b Hb.
    pose proof (StronglySorted_app_1_elem_of _ _ _ b mz Hs Hb ltac:(set_solver)).
    unfold before in *. lia.
Qed.

Lemma wf_app l k : wf (l ++ k) <-> wf l /\ wf k /\ (forall a b, a ∈ l -> b ∈ k -> before a b).
Proof.
  split.
  - intros [Hf Hs]. apply Forall_app in Hf as [? ?]. apply StronglySorted_app in Hs as (? & ? & ?).
    split_and!; [by split..|done].
  - intros ([? ?] & [? ?] & ?). split; [by apply Forall_app|]. by apply StronglySorted_app.
Qed.

(** What the two searches find. *)
Lemma search_results A M B lo hi :
  wf (A ++ M ++ B) -> lo <= hi ->
  Forall (fun b => second b < lo) A ->
  Forall (fun b => lo <= second b /\ first b <= hi) M ->
  Forall (fun b => hi < first b) B ->
  partition_point (fun buff => second buff <? lo) (A ++ M ++ B) = Ret (length A)
  /\ partition_point (fun buff => negb (hi <? first buff)) (A ++ M ++ B) = Ret (length A + length M)%nat.
Proof.
  intros [Hf _] Hlh HA HM HB. rewrite !Forall_app in Hf. destruct Hf as (HfA & HfM & HfB).
  split.
  - apply partition_point_app.
    + apply (Forall_impl _ _ _ HA). intros. by apply Z.ltb_lt.
    + apply Forall_app; split.
      * apply (Forall_impl _ _ _ HM). intros b ?. apply Z.ltb_ge. lia.
      * apply Forall_forall. intros b Hb. apply Z.ltb_ge.
        rewrite Forall_forall in HB, HfB. pose proof (frag_ordered b (HfB b Hb)).
        specialize (HB b Hb). simpl in HB. lia.
  - rewrite app_assoc, <- length_app. apply partition_point_app.
    + apply Forall_app; split.
      * apply Forall_forall. intros b Hb. apply negb_true_iff, Z.ltb_ge.
        rewrite Forall_forall in HA, HfA. pose proof (frag_ordered b (HfA b Hb)).
        specialize (HA b Hb). simpl in HA. lia.
      * apply (Forall_impl _ _ _ HM). intros b ?. apply negb_true_iff, Z.ltb_ge. lia.
    + apply (Forall_impl _ _ _ HB). intros b ?. by apply negb_false_iff, Z.ltb_lt.
Qed.

(** The right part, when the last fragment met is the last of all. *)
Lemma upper_piece mz hi acc :
  frag_wf mz -> first mz <= hi ->
  (if hi <? Z.max (second mz) hi
   then s ← BufferString.get_string mz;
        p ← substr s (uint64 (hi - first mz)) (Z.max (second mz) hi - hi);
        Ret (acc ++ p)
   else Ret acc) = Ret (acc ++ drop (Z.to_nat (hi - first mz)) (str mz)).
Proof.
  intros Hmz Hz. pose proof Hmz as [? Hfirst Hsec Hbound]. case_if.
  - rewrite frag_get_string by done. simpl. nowrap. rewrite substr_ok by lia. simpl.
    rewrite Z.max_l by lia. by rewrite tail_piece.
  - by rewrite drop_none, app_nil_r by (done || lia).
Qed.

(** Replacing a run of elements by one, the two ways [push_back] does it. *)
Lemma erase_to_upper {A} (l m : list A) z x :
  erase (<[(length l + length m)%nat := x]> (l ++ m ++ [z])) (length l) (length l + length m) = l ++ [x].
Proof.
  unfold erase. rewrite (app_assoc l m), <- length_app, insert_middle.
  rewrite drop_app_length, <- app_assoc, take_app_length. done.
Qed.

Lemma erase_from_lower {A} (l m k : list A) y x :
  head m = Some y ->
  erase (<[length l := x]> (l ++ m ++ k)) (length l + 1) (length l + length m) = l ++ x :: k.
Proof.
  destruct m as [|y' m]; intros [= ->]. unfold erase. simpl. rewrite insert_middle.
  rewrite cons_middle, app_assoc.
  replace (length l + 1)%nat with (length (l ++ [x])) by (rewrite length_app; done).
  rewrite take_app_length. replace (length l + S (length m))%nat with (length ((l ++ [x]) ++ m))
    by (rewrite !length_app; simpl; lia).
  by rewrite (app_assoc _ m), drop_app_length, <- app_assoc.
Qed.

(** The merge branch: what a new fragment does to the fragments [M] it meets. *)
Section Merge.
Context (A M B : list BufferString.t) (m0 mz : BufferString.t) (target : string) (index : Z) (eof : bool).
Let hi := index + zlen target.
Hypothesis Hwf : wf (A ++ M ++ B).
Hypothesis Hindex : 0 <= index.
Hypothesis Hbound : hi < 2 ^ 64.
Hypothesis Hhead : head M = Some m0.
Hypothesis Hlast : last M = Some mz.
Hypothesis HA : Forall (fun b => second b < index) A.
Hypothesis HM : Forall (fun b => index <= second b /\ first b <= hi) M.
Hypothesis HB : Forall (fun b => hi < first b) B.

Lemma merge_ends :
  frag_wf m0 /\ frag_wf mz /\ wf M
  /\ index <= second m0 /\ first m0 <= hi /\ index <= second mz /\ first mz <= hi
  /\ deref (A ++ M ++ B) (length A) = Ret m0
  /\ deref (A ++ M ++ B) (length A + length M - 1) = Ret mz.
Proof using Hwf Hhead Hlast HM.
  clear HA HB Hbound Hindex.
  apply wf_app in Hwf as (_ & HMB & _). apply wf_app in HMB as (HwM & _ & _).
  pose proof (head_Some_elem_of _ _ Hhead) as Hm0. apply last_Some in Hlast as [M0 ->].
  assert (mz ∈ M0 ++ [mz]) as Hmz by set_solver.
  pose proof (proj1 (Forall_forall _ _) HM) as HM'.
  pose proof (proj1 (Forall_forall _ _) (wf_frags _ HwM)) as HF.
  destruct (HM' m0 Hm0) as [? ?]. destruct (HM' mz Hmz) as [? ?].
  split_and!; [by apply HF|by apply HF|done..| |]; unfold deref.
  - destruct (M0 ++ [mz]); simplify_eq/=. by rewrite list_lookup_middle.
  - rewrite <- app_assoc, (app_assoc A M0). simpl. rewrite list_lookup_middle; [done|].
    rewrite !length_app. simpl. lia.
Qed.

Lemma push_back_inside :
  first m0 <= index -> hi <= second m0 ->
  push_back (A ++ M ++ B) target index eof = Ret (A ++ M ++ B).
Proof.
  intros Hin1 Hin2. destruct merge_ends as (Hm0 & Hmz & HwM & H1 & H2 & H3 & H4 & Edl & Edu).
  destruct (make_wf index target eof Hindex Hbound) as (_ & Ef & Es & _).
  destruct (search_results A M B index hi) as [EL EU]; [done|unfold hi; zlen_lia|done..|].
  assert ((first m0 <=? index) && (hi <=? second m0) = true) as Ein.
  { apply andb_true_iff. by rewrite !Z.leb_le. }
  assert (length M <> 0%nat) by (destruct M; done).
  unfold push_back. cbv zeta. rewrite Ef, Es. fold hi. rewrite EL, EU. cbn [mbind outcome_bind].
  rewrite (proj2 (Nat.eqb_neq _ _)) by lia. destruct (Nat.eqb _ _) eqn:E.
  - rewrite (proj2 (Nat.ltb_ge _ _)) by lia. rewrite Edl; simpl. rewrite Edu; simpl. by rewrite Ein.
  - rewrite (proj2 (Nat.ltb_ge _ _)) by lia. rewrite Edl; simpl. by rewrite Ein.
Qed.

Hypothesis Hout : ~ (first m0 <= index /\ hi <= second m0).

Lemma push_back_merge :
  push_back (A ++ M ++ B) target index eof
  = Ret (A ++ BufferString.make (Z.min (first m0) index) (merged_string m0 mz target index hi)
                (eof || (bool_decide (B = []) && BufferString.eof mz)) :: B).
Proof.
  destruct merge_ends as (Hm0 & Hmz & HwM & H1 & H2 & H3 & H4 & Edl & Edu).
  destruct (make_wf index target eof Hindex Hbound) as (_ & Ef & Es & _).
  destruct (search_results A M B index hi) as [EL EU]; [done|unfold hi; zlen_lia|done..|].
  assert ((first m0 <=? index) && (hi <=? second m0) = false) as Eout.
  { apply andb_false_iff. rewrite !Z.leb_gt. lia. }
  unfold push_back. cbv zeta. rewrite Ef, Es. fold hi. rewrite EL, EU. cbn [mbind outcome_bind].
  apply last_Some in Hlast as [M0 EM].
  assert (length M = S (length M0)) as ELM by (rewrite EM, length_app; simpl; lia).
  rewrite (proj2 (Nat.eqb_neq _ _)) by lia.
  destruct B as [|b1 B'].
  - rewrite (proj2 (Nat.eqb_eq _ _)) by (rewrite !length_app; simpl; lia).
    rewrite (proj2 (Nat.ltb_ge _ _)) by lia. rewrite Edl; simpl. rewrite Edu; simpl.
    rewrite Eout, low_piece by done. simpl.
    replace (length A + length M - 1 - length A)%nat with (length M0) by lia.
    replace (length A + length M - 1)%nat with (length A + length M0)%nat by lia.
    rewrite drop_app_length, app_nil_r, EM, take_app_length. rewrite extend_loop_skip.
    + simpl. rewrite upper_piece by done. simpl. rewrite erase_to_upper.
      unfold merged_string. by rewrite <- app_assoc.
    + rewrite EM in HwM. apply wf_app in HwM as (_ & _ & Hbef). apply Forall_forall.
      intros b Hb. specialize (Hbef b mz Hb ltac:(set_solver)). unfold before in Hbef.
      pose proof (frag_ordered mz Hmz). lia.
  - rewrite (proj2 (Nat.eqb_neq _ _)) by (rewrite !length_app; simpl; lia).
    rewrite (proj2 (Nat.ltb_ge _ _)) by lia. rewrite Edl; simpl. rewrite Eout, low_piece by done.
    simpl. replace (length A + length M - length A)%nat with (length M) by lia.
    rewrite drop_app_length, take_app_length, EM, extend_loop_merge by (congruence || done).
    simpl. rewrite orb_false_r, <- EM, (erase_from_lower _ _ _ m0) by done.
    unfold merged_string. by rewrite <- app_assoc.
Qed.

End Merge.

Lemma push_back_cases l target index eof :
  wf l -> 0 <= index -> index + zlen target < 2 ^ 64 ->
  exists l', push_back l target index eof = Ret l' /\ push_result l target index eof l'.
Proof.
  intros Hl Hi Hb. destruct (split_list l index (index + zlen target)) as (A & M & B & -> & HA & HM & HB);
    [done|zlen_lia|].
  destruct (head M) as [m0|] eqn:Eh.
  2:{ destruct M; [|done]. simpl in *. eexists. split; [|by apply push_insert].
      destruct (make_wf index target eof Hi Hb) as (_ & Ef & Es & _).
      destruct (search_results A [] B index (index + zlen target)) as [EL EU]; [done|zlen_lia|done..|].
      simpl in EL, EU. unfold push_back. cbv zeta. rewrite Ef, Es, EL, EU. cbn [mbind outcome_bind].
      rewrite (proj2 (Nat.eqb_eq _ _)) by (simpl; lia). unfold insert_at.
      by rewrite take_app_length, drop_app_length. }
  destruct (last M) as [mz|] eqn:El; [|by apply last_None in El; subst].
  destruct (decide (first m0 <= index /\ index + zlen target <= second m0)) as [[Hin1 Hin2]|Hout].
  - exists (A ++ M ++ B). split; [|apply push_inside with m0; [|done..]].
    + by apply push_back_inside with m0 mz.
    + apply head_Some_elem_of in Eh. set_solver.
  - eexists. split; [by apply push_back_merge|]. by apply push_merge with M.
Qed.

(** ** What insertion does *)

Lemma merged_zlen m0 mz target index :
  frag_wf m0 -> frag_wf mz -> index <= second m0 -> first mz <= index + zlen target ->
  zlen (merged_string m0 mz target index (index + zlen target))
  = Z.max (second mz) (index + zlen target) - Z.min (first m0) index.
Proof.
  intros [? ? E0 ?] [? ? Ez ?] H1 H2. unfold merged_string. zlen_lia.
Qed.

Lemma push_result_wf l target index eof l' :
  wf l -> 0 <= index -> index + zlen target < 2 ^ 64 ->
  push_result l target index eof l' -> wf l' /\ l' <> [].
Proof.
  intros Hl Hi Hb Hr. destruct Hr as [A B -> HA HB|low Hin H1 H2|A M B m0 mz -> Hh Hz HA HM HB Hout].
  - destruct (make_wf index target eof Hi Hb) as (Hw & Ef & Es & _).
    split; [|by destruct A]. apply wf_app in Hl as (HwA & HwB & Hab).
    apply wf_app. split_and!; [done| |].
    + apply bsl_wf_cons. split_and!; [done| |done]. apply (Forall_impl _ _ _ HB).
      intros b ?. unfold before. lia.
    + intros a b Ha Hbb. apply elem_of_cons in Hbb as [->|Hbb]; [|by apply Hab].
      unfold before. rewrite Ef. by apply (proj1 (Forall_forall _ _) HA).
  - split; [done|]. intros ->. by apply elem_of_nil in Hin.
  - destruct (merge_ends A M B m0 mz target index) as (Hm0 & Hmz & _ & G1 & G2 & G3 & G4 & _); [done..|].
    pose proof (frag_first m0 Hm0). pose proof (frag_bound mz Hmz).
    pose proof (merged_zlen m0 mz target index Hm0 Hmz G1 G4) as Elen.
    set (eof' := eof || _).
    destruct (make_wf (Z.min (first m0) index) (merged_string m0 mz target index (index + zlen target)) eof')
      as (Hw & Ef & Es & _); [lia|lia|].
    split; [|by destruct A]. apply wf_app in Hl as (HwA & HMB & Hab).
    apply wf_app in HMB as (HwM & HwB & Hmb).
    apply wf_app. split_and!; [done| |].
    + apply bsl_wf_cons. split_and!; [done| |done]. apply Forall_forall. intros b Hbb. unfold before.
      rewrite Es, Elen. pose proof (proj1 (Forall_forall _ _) HB b Hbb).
      apply last_Some in Hz as [M0 ->]. specialize (Hmb mz b ltac:(set_solver) Hbb). unfold before in Hmb.
      simpl in *. lia.
    + intros a b Ha Hbb. apply elem_of_cons in Hbb as [->|Hbb]; [|apply Hab; set_solver].
      unfold before. rewrite Ef. pose proof (proj1 (Forall_forall _ _) HA a Ha).
      apply head_Some_elem_of in Hh. specialize (Hab a m0 Ha ltac:(set_solver)). unfold before in Hab.
      simpl in *. lia.
Qed.

(** In a sorted list at most one fragment holds a byte at an index. *)
Definition holds (b : BufferString.t) (i : Z) : Prop := first b <= i < second b.

#[export] Instance holds_dec b i : Decision (holds b i).
Proof. unfold holds. apply _. Defined.

Lemma content_holds (l : t) b i :
  wf l -> b ∈ l -> holds b i -> content l i = str b !! Z.to_nat (i - first b).
Proof.
  unfold holds. induction l as [|a l IH]; intros Hl Hb Hi; [by apply elem_of_nil in Hb|].
  apply bsl_wf_cons in Hl as (Ha & Hal & Hl). simpl.
  apply elem_of_cons in Hb as [->|Hb].
  - rewrite char_at_in by done. destruct (str a !! _) eqn:E; [done|].
    apply lookup_ge_None in E. destruct Ha as [? ? Es ?]. unfold zlen in *. lia.
  - rewrite char_at_out; [by apply IH|].
    pose proof (proj1 (Forall_forall _ _) Hal b Hb). unfold before in *. simpl in *. lia.
Qed.

Lemma content_not_held (l : t) i : (forall b, b ∈ l -> ~ holds b i) -> content l i = None.
Proof.
  intros H. apply content_out, Forall_forall. intros b Hb. specialize (H b Hb).
  unfold holds in H. lia.
Qed.

(** The bytes of the merged string, region by region. *)
Lemma merged_lookup m0 mz target index i :
  frag_wf m0 -> frag_wf mz -> index <= second m0 -> first mz <= index + zlen target ->
  let left := Z.min (first m0) index in
  let hi := index + zlen target in
  left <= i -> i < Z.max (second mz) hi ->
  merged_string m0 mz target index hi !! Z.to_nat (i - left) =
    if i <? index then str m0 !! Z.to_nat (i - first m0)
    else if i <? hi then target !! Z.to_nat (i - index)
    else str mz !! Z.to_nat (i - first mz).
Proof.
  intros [? ? E0 ?] [? ? Ez ?] H1 H2 left hi Hl Hr. unfold merged_string.
  assert (zlen (take (Z.to_nat (index - left)) (str m0)) = index - left) as El
    by (rewrite zlen_take; unfold left; zlen_lia).
  unfold left in *. repeat case_if.
  - rewrite lookup_app_l by (unfold zlen in *; lia).
    rewrite lookup_take_lt by lia. f_equal. lia.
  - rewrite lookup_app_r by (unfold zlen in *; lia).
    rewrite lookup_app_l by (unfold hi, zlen in *; lia). f_equal. unfold zlen in *. lia.
  - rewrite lookup_app_r by (unfold zlen in *; lia).
    rewrite lookup_app_r by (unfold hi, zlen in *; lia). rewrite lookup_drop. f_equal.
    unfold hi, zlen in *. lia.
Qed.

Lemma push_insert_content A B target index eof i :
  wf (A ++ B) -> wf (A ++ BufferString.make index target eof :: B) ->
  0 <= index -> index + zlen target < 2 ^ 64 ->
  content (A ++ BufferString.make index target eof :: B) i =
  if (index <=? i) && (i <? index + zlen target) then target !! Z.to_nat (i - index)
  else content (A ++ B) i.
Proof.
  intros Hl Hl' Hi Hb. destruct (make_wf index target eof Hi Hb) as (_ & Ef & Es & Estr).
  destruct (_ && _) eqn:E; zbool.
  - rewrite (content_holds _ (BufferString.make index target eof)), Estr, Ef;
      [done|done|set_solver|unfold holds; lia].
  - rewrite !content_app. simpl. rewrite (char_at_out (BufferString.make _ _ _)); [done|].
    rewrite Ef, Es. by apply out_of_interval.
Qed.

Lemma push_merge_content A M B m0 mz target index eof' i :
  let X := BufferString.make (Z.min (first m0) index)
             (merged_string m0 mz target index (index + zlen target)) eof' in
  wf (A ++ M ++ B) -> wf (A ++ X :: B) -> 0 <= index -> index + zlen target < 2 ^ 64 ->
  head M = Some m0 -> last M = Some mz ->
  Forall (fun b => index <= second b /\ first b <= index + zlen target) M ->
  content (A ++ X :: B) i =
  if (index <=? i) && (i <? index + zlen target) then target !! Z.to_nat (i - index)
  else content (A ++ M ++ B) i.
Proof.
  intros X Hl Hl' Hi Hb Hh Hz HM.
  destruct (merge_ends A M B m0 mz target index) as (Hm0 & Hmz & HwM & G1 & G2 & G3 & G4 & _); [done..|].
  pose proof (frag_first m0 Hm0). pose proof (frag_bound mz Hmz).
  pose proof (merged_zlen m0 mz target index Hm0 Hmz G1 G4) as Elen.
  destruct (make_wf (Z.min (first m0) index) (merged_string m0 mz target index (index + zlen target)) eof')
    as (_ & Ef & Es & Estr); [lia..|]. fold X in Ef, Es, Estr. rewrite Elen in Es.
  assert (forall j, holds X j -> content (A ++ X :: B) j =
     if j <? index then str m0 !! Z.to_nat (j - first m0)
     else if j <? index + zlen target then target !! Z.to_nat (j - index)
     else str mz !! Z.to_nat (j - first mz)) as HX.
  { intros j Hj. rewrite (content_holds _ X) by (done || set_solver). unfold holds in Hj.
    rewrite Estr, Ef. apply merged_lookup; (done || lia). }
  assert (m0 ∈ A ++ M ++ B) as Em0 by (apply head_Some_elem_of in Hh; set_solver).
  assert (mz ∈ A ++ M ++ B) as Emz by (apply last_Some_elem_of in Hz; set_solver).
  destruct (_ && _) eqn:E; zbool.
  { rewrite HX by (unfold holds; lia).
    by rewrite (proj2 (Z.ltb_ge _ _)), (proj2 (Z.ltb_lt _ _)) by lia. }
  pose proof (out_of_interval _ _ _ E) as Hiout.
  (* outside the new fragment, the ends of the merged one hold what [m0] and [mz] held *)
  destruct (decide (holds X i)) as [HXi|HXi].
  - rewrite HX by done. unfold holds in HXi. repeat case_if; try lia.
    + symmetry. apply content_holds; [done..|]. unfold holds. lia.
    + symmetry. apply content_holds; [done..|]. unfold holds. lia.
  - assert (content (A ++ X :: B) i = content (A ++ B) i) as ->.
    { rewrite !content_app. simpl. rewrite (char_at_out X); [done|]. unfold holds in HXi. lia. }
    rewrite !content_app. rewrite (content_not_held M); [done|].
    intros b Hbm Hh'. unfold holds in *. pose proof (proj1 (Forall_forall _ _) HM b Hbm) as [? ?].
    apply HXi. apply last_Some in Hz as [M0 ->]. destruct HwM as [HfM HsM].
    assert (first m0 <= first b).
    { destruct (M0 ++ [mz]) as [|m0' K]; simplify_eq/=. apply elem_of_cons in Hbm as [->|Hbm]; [lia|].
      apply StronglySorted_inv in HsM as [_ HsM]. pose proof (proj1 (Forall_forall _ _) HsM b Hbm).
      unfold before in *. pose proof (frag_ordered m0 Hm0). simpl in *. lia. }
    assert (second b <= second mz).
    { apply elem_of_app in Hbm as [Hbm|Hbm]; [|apply list_elem_of_singleton in Hbm as ->; lia].
      assert (mz ∈ [mz]) as Hlast by (by apply list_elem_of_singleton).
      pose proof (StronglySorted_app_1_elem_of _ _ _ b mz HsM Hbm Hlast).
      unfold before in *. pose proof (frag_ordered mz Hmz). lia. }
    lia.
Qed.

(** No fragment reaches past [E]: it ends there at the latest, and exactly there when
    it is marked [eof], or it is all past [E] and not marked. *)
Definition ends_ok (E left right : Z) (eof : bool) : Prop :=
  (right <= E /\ (eof = true -> right = E)) \/ (E < left /\ eof = false).
Definition eof_ok (E : Z) (l : t) : Prop :=
  Forall (fun b => ends_ok E (first b) (second b) (BufferString.eof b)) l.

(** The ends of the fragments after an insertion are ends it was given. *)
Lemma push_result_ends l target index eof l' :
  wf l -> 0 <= index -> index + zlen target < 2 ^ 64 ->
  push_result l target index eof l' ->
  (forall b', b' ∈ l' -> first b' = index \/ exists b, b ∈ l /\ first b' = first b)
  /\ (forall E, eof_ok E l -> ends_ok E index (index + zlen target) eof -> eof_ok E l').
Proof.
  intros Hl Hi Hb Hr. destruct Hr as [A B -> HA HB|low Hin H1 H2|A M B m0 mz -> Hh Hz HA HM HB Hout].
  - destruct (make_wf index target eof Hi Hb) as (Hw & Ef & Es & _). split.
    + intros b' Hb'. apply elem_of_app in Hb' as [?|Hb']; [right; exists b'; set_solver|].
      apply elem_of_cons in Hb' as [->|?]; [by left|right; exists b'; set_solver].
    + intros E HE HiE. unfold eof_ok in *. rewrite Forall_app in *. destruct HE as [? ?].
      split; [done|]. constructor; [|done]. rewrite Es, Ef. done.
  - split; [intros b' ?; right; by exists b'|done].
  - destruct (merge_ends A M B m0 mz target index) as (Hm0 & Hmz & _ & G1 & G2 & G3 & G4 & _); [done..|].
    pose proof (frag_first m0 Hm0). pose proof (frag_bound mz Hmz).
    pose proof (merged_zlen m0 mz target index Hm0 Hmz G1 G4) as Elen.
    set (eof' := eof || _).
    destruct (make_wf (Z.min (first m0) index) (merged_string m0 mz target index (index + zlen target)) eof')
      as (Hw & Ef & Es & _); [lia..|]. rewrite Elen in Es. split.
    + intros b' Hb'. apply elem_of_app in Hb' as [?|Hb']; [right; exists b'; set_solver|].
      apply elem_of_cons in Hb' as [->|?]; [|right; exists b'; set_solver].
      rewrite Ef. destruct (Z.min_spec (first m0) index) as [[? ->]|[? ->]]; [|by left].
      right. exists m0. apply head_Some_elem_of in Hh. set_solver.
    + intros E HE HiE. unfold eof_ok in *. rewrite !Forall_app in HE. destruct HE as (HEA & HEM & HEB).
      apply Forall_app; split; [done|]. constructor; [|done].
      apply last_Some_elem_of in Hz. apply head_Some_elem_of in Hh.
      pose proof (proj1 (Forall_forall _ _) HEM mz Hz) as Hez. pose proof (proj1 (Forall_forall _ _) HEM m0 Hh) as He0.
      pose proof (frag_ordered m0 Hm0). pose proof (frag_ordered mz Hmz). zlen_pose.
      rewrite Es, Ef. unfold BufferString.eof at 1. simpl. subst eof'.
      destruct HiE as [[HiE HeE]|[HiE ->]].
      * left. destruct Hez as [[Hle Heq]|[? _]]; [|lia]. split; [lia|]. intros Heof.
        apply orb_true_iff in Heof as [Heof|Heof]; [specialize (HeE Heof); lia|].
        apply andb_true_iff in Heof as [_ Heof]. specialize (Heq Heof). lia.
      * right. destruct He0 as [[? _]|[? _]]; [lia|]. split; [lia|]. simpl.
        destruct Hez as [[? _]|[_ ->]]; [lia|]. by rewrite andb_false_r.
Qed.

(** After an insertion one fragment spans the new one. *)
Lemma push_result_covers l target index eof l' :
  wf l -> 0 <= index -> index + zlen target < 2 ^ 64 ->
  push_result l target index eof l' ->
  exists b, b ∈ l' /\ first b <= index /\ index + zlen target <= second b.
Proof.
  intros Hl Hi Hb Hr. destruct Hr as [A B -> HA HB|low Hin H1 H2|A M B m0 mz -> Hh Hz HA HM HB Hout].
  - destruct (make_wf index target eof Hi Hb) as (Hw & Ef & Es & _).
    eexists. split; [apply elem_of_app; right; left|]. lia.
  - by exists low.
  - destruct (merge_ends A M B m0 mz target index) as (Hm0 & Hmz & _ & G1 & G2 & G3 & G4 & _); [done..|].
    pose proof (frag_first m0 Hm0). pose proof (frag_bound mz Hmz).
    pose proof (merged_zlen m0 mz target index Hm0 Hmz G1 G4) as Elen.
    set (eof' := eof || _).
    destruct (make_wf (Z.min (first m0) index) (merged_string m0 mz target index (index + zlen target)) eof')
      as (Hw & Ef & Es & _); [lia..|].
    eexists. split; [apply elem_of_app; right; left|]. lia.
Qed.

(** A fragment inside one already held changes nothing, whatever its mark. *)
Lemma push_result_inside l target index eof l' low :
  wf l -> 0 <= index -> low ∈ l -> first low <= index -> index + zlen target <= second low ->
  push_result l target index eof l' -> l' = l.
Proof.
  intros Hl Hi Hlow H1 H2 Hr. zlen_pose.
  destruct Hr as [A B -> HA HB|? Hin ? ?|A M B m0 mz -> Hh Hz HA HM HB Hout]; [exfalso|done|exfalso].
  - apply elem_of_app in Hlow as [Hlow|Hlow].
    + pose proof (proj1 (Forall_forall _ _) HA low Hlow). simpl in *. lia.
    + pose proof (proj1 (Forall_forall _ _) HB low Hlow). simpl in *. lia.
  - apply wf_app in Hl as (_ & Hl & _). apply wf_app in Hl as (HwM & _ & _).
    rewrite !elem_of_app in Hlow. destruct Hlow as [Hlow|[Hlow|Hlow]].
    + pose proof (proj1 (Forall_forall _ _) HA low Hlow). simpl in *. lia.
    + destruct M as [|m0' M]; [done|]. injection Hh as ->. apply bsl_wf_cons in HwM as (_ & Hbef & _).
      apply elem_of_cons in Hlow as [->|Hlow]; [lia|].
      pose proof (proj1 (Forall_forall _ _) Hbef low Hlow) as Hb'.
      inversion HM; subst. unfold before in Hb'. lia.
    + pose proof (proj1 (Forall_forall _ _) HB low Hlow). simpl in *. lia.
Qed.

(** Is the range of a new fragment inside a fragment of the list? *)
Definition inside (l : t) (lo hi : Z) : bool :=
  existsb (fun b => (first b <=? lo) && (hi <=? second b)) l.

Lemma push_back_spec l target index eof :
  wf l -> 0 <= index -> index + zlen target < 2 ^ 64 ->
  exists l', push_back l target index eof = Ret l' /\ wf l' /\ l' <> []
    /\ push_result l target index eof l'
    /\ forall i, content l' i =
         if (index <=? i) && (i <? index + zlen target) && negb (inside l index (index + zlen target))
         then target !! Z.to_nat (i - index) else content l i.
Proof.
  intros Hl Hi Hb. destruct (push_back_cases l target index eof Hl Hi Hb) as (l' & E & Hr).
  destruct (push_result_wf _ _ _ _ _ Hl Hi Hb Hr) as [Hl' Hne].
  exists l'. split_and!; try done. intros i. destruct (inside _ _ _) eqn:Ein.
  - rewrite andb_false_r. apply existsb_exists in Ein as (low & Hlow & Hin). zbool.
    by rewrite (push_result_inside l target index eof l' low) by (done || by apply list_elem_of_In).
  - rewrite andb_true_r. destruct Hr as [A B -> HA HB|low Hin H1 H2|A M B m0 mz -> Hh Hz HA HM HB Hout].
    + by apply push_insert_content.
    + exfalso. apply not_true_iff_false in Ein. apply Ein, existsb_exists. exists low.
      split; [by apply list_elem_of_In|]. apply andb_true_iff. by rewrite !Z.leb_le.
    + by apply push_merge_content.
Qed.

(** Popping from the front. *)
Lemma pop_up_spec b l n :
  wf (b :: l) -> 0 <= n ->
  pop_up_buffer_string (b :: l) n =
  if zlen (str b) <=? n then Ret (b, l)
  else Ret (BufferString.make (first b) (take (Z.to_nat n) (str b)) false,
            l ++ [BufferString.make (first b + n) (drop (Z.to_nat n) (str b)) (BufferString.eof b)]).
Proof.
  intros Hl Hn. apply bsl_wf_cons in Hl as (Hb & _ & _). unfold pop_up_buffer_string, get_buffer_string.
  rewrite frag_get_string by done. simpl. case_if; [done|]. destruct Hb as [? ? Es ?].
  rewrite !substr_ok by lia. simpl. rewrite slice_0_take, slice_drop. nowrap. done.
Qed.

End BufferStringList.

(** ** Properties *)

(** C8: inserting any fragment into a list of sorted, separated fragments never
    throws and gives such a list again; at each index it holds the new byte if
    the index is in the new fragment, and what it held before otherwise (a
    fragment lying inside one already held changes nothing). *)
Theorem push_back_correct (l : BufferStringList.t) (target : string) (index : Z) (eof : bool) :
  BufferStringList.wf l -> 0 <= index -> index + zlen target < 2 ^ 64 ->
  exists l', BufferStringList.push_back l target index eof = Ret l'
    /\ BufferStringList.wf l'
    /\ forall i, BufferStringList.content l' i =
         if (index <=? i) && (i <? index + zlen target)
            && negb (BufferStringList.inside l index (index + zlen target))
         then target !! Z.to_nat (i - index) else BufferStringList.content l i.
Proof.
  intros Hl Hi Hb.
  destruct (BufferStringList.push_back_spec l target index eof Hl Hi Hb) as (l' & ? & ? & _ & _ & ?).
  eauto.
Qed.

Lemma push_back_correct_witness :
  let l := [BufferString.make 0 [Byte.x61; Byte.x62] false; BufferString.make 4 [Byte.x65] false] in
  exists l', BufferStringList.push_back l [Byte.x63; Byte.x64] 2 false = Ret l'
    /\ BufferStringList.wf l'
    /\ forall i, BufferStringList.content l' i =
         if (2 <=? i) && (i <? 4) && negb (BufferStringList.inside l 2 4)
         then [Byte.x63; Byte.x64] !! Z.to_nat (i - 2) else BufferStringList.content l i.
Proof.
  intros l. apply (push_back_correct l [Byte.x63; Byte.x64] 2 false); [|done|done].
  split; repeat constructor; done.
Defined.

(** A fragment that lies inside a fragment already held is ignored together
    with its end-of-stream mark: the list is unchanged, so the mark is lost. *)
Theorem push_back_drops_eof (l : BufferStringList.t) (target : string) (index : Z)
    (low : BufferString.t) :
  BufferStringList.wf l -> 0 <= index -> index + zlen target < 2 ^ 64 ->
  low ∈ l -> first low <= index -> index + zlen target <= second low ->
  BufferStringList.push_back l target index true = Ret l.
Proof.
  intros Hl Hi Hb Hlow H1 H2.
  destruct (BufferStringList.push_back_cases l target index true Hl Hi Hb) as (l' & -> & Hr).
  by rewrite (BufferStringList.push_result_inside _ _ _ _ _ low Hl Hi Hlow H1 H2 Hr).
Qed.

Lemma push_back_drops_eof_witness :
  BufferStringList.push_back [BufferString.make 5 [Byte.x61; Byte.x62] false] [] 7 true
  = Ret [BufferString.make 5 [Byte.x61; Byte.x62] false].
Proof.
  apply (push_back_drops_eof _ [] 7 (BufferString.make 5 [Byte.x61; Byte.x62] false));
    [split; repeat constructor; done|done|done|by left|done|done].
Defined.
