(* ===== verification/StreamReassembler.v ===== *)
(** * The stream reassembler (stream_reassembler.hh, stream_reassembler.cc)

    [StreamReassembler] takes fragments of a byte stream in any order, possibly
    overlapping, and writes them in order to a [ByteStream].  The invariant ties
    its state to the stream [D] the fragments come from, whose first byte has
    index [base] (0 when the class is used by itself, 1 inside the receiver,
    where index 0 is the SYN).  The theorems say that what the reader gets is
    always a prefix of [D], that [push_substring] never throws on fragments of
    [D], and that fragments at the front of the window make progress. *)

From S2P Require Import Prelude SpongeBuffer ByteStream BufferString.
Import BufferString (first, second).

Module StreamReassembler.

Record t := mk {
  _top_pointer : Z;
  _output : ByteStream.t;
  _capacity : Z;
  _buffer_list : BufferStringList.t
}.

Definition new (capacity : Z) : t := mk 0 (ByteStream.new capacity) capacity [].

Definition stream_out (r : t) : ByteStream.t := _output r.
Definition unassembled_bytes (r : t) : Z := BufferStringList.size (_buffer_list r).
Definition empty (r : t) : bool := BufferStringList.empty (_buffer_list r).
Definition current_capactiy (r : t) : Z := uint64 (_capacity r - ByteStream.buffer_size (_output r)).

(** Writing through the references the accessors return. *)
Definition set_top_pointer (r : t) (p : Z) : t := mk p (_output r) (_capacity r) (_buffer_list r).
Definition set_stream_out (r : t) (o : ByteStream.t) : t := mk (_top_pointer r) o (_capacity r) (_buffer_list r).

(** The last part of [push_substring]: deliver the front fragment when it starts
    at the top pointer. *)
Definition assemble (r : t) : outcome t :=
  if negb (_top_pointer r =? BufferStringList.top_index (_buffer_list r)) then Ret r else
  let remain_capacity := ByteStream.remaining_capacity (_output r) in
  '(buffer_string, buffer_list) ←
    BufferStringList.pop_up_buffer_string (_buffer_list r) remain_capacity;
  n ← BufferString.size buffer_string;
  s ← BufferString.get_string buffer_string;
  let output := fst (ByteStream.write (_output r) s) in
  let output := if BufferString.eof buffer_string then ByteStream.end_input output else output in
  Ret (mk (uint64 (_top_pointer r + n)) output (_capacity r) buffer_list).

Definition push_substring (r : t) (data : string) (index : Z) (eof : bool) : outcome t :=
  let top := _top_pointer r in
  let dup := index <? top in
  if dup && (uint64 (index + zlen data) <? top) then Ret r else
  data_ref ← (if dup
              then substr data (uint64 (top - index)) (uint64 (zlen data - uint64 (top - index)))
              else Ret data);
  let index_ref := if dup then top else index in
  if current_capactiy r <? uint64 (uint64 (index_ref - top) + 1) then Ret r else
  let over := current_capactiy r <? zlen data_ref in
  data_ref ← (if over then substr data_ref 0 (current_capactiy r) else Ret data_ref);
  let eof_ref := if over then false else eof in
  buffer_list ← BufferStringList.push_back (_buffer_list r) data_ref index_ref eof_ref;
  assemble (mk top (_output r) (_capacity r) buffer_list).

(** The output is written to and ended, nothing else: its invariant survives any
    fragment. *)
Lemma assemble_output_wf r r' : ByteStream.wf (_output r) -> assemble r = Ret r' -> ByteStream.wf (_output r').
Proof.
  intros Hw. unfold assemble. case_if; [by intros [= <-]|].
  intros ([b l] & _ & (n & _ & (str & _ & [= <-])%bind_Ret)%bind_Ret)%bind_Ret. simpl.
  pose proof (ByteStream.write_wf (_output r) str Hw). case_if; [by apply ByteStream.end_input_wf | done].
Qed.

Lemma push_substring_output_wf r data index eof r' :
  ByteStream.wf (_output r) -> push_substring r data index eof = Ret r' -> ByteStream.wf (_output r').
Proof.
  intros Hw. unfold push_substring. case_if; [by intros [= <-]|]. intros (d & _ & E)%bind_Ret. revert E.
  match goal with |- context [if ?b then Ret r else _] => destruct b end; [by intros [= <-]|].
  intros (d' & _ & (l & _ & E)%bind_Ret)%bind_Ret. by apply assemble_output_wf in E.
Qed.

(** The end of the output stays. *)
Lemma assemble_ended r r' :
  ByteStream.is_input_end (_output r) = true -> assemble r = Ret r' -> ByteStream.is_input_end (_output r') = true.
Proof.
  intros He. unfold assemble. case_if; [by intros [= <-]|].
  intros ([b l] & _ & (n & _ & (str & _ & [= <-])%bind_Ret)%bind_Ret)%bind_Ret. simpl.
  case_if; [done|]. by destruct str.
Qed.

Lemma push_substring_ended r data index eof r' :
  ByteStream.is_input_end (_output r) = true -> push_substring r data index eof = Ret r' ->
  ByteStream.is_input_end (_output r') = true.
Proof.
  intros Hw. unfold push_substring. case_if; [by intros [= <-]|]. intros (d & _ & E)%bind_Ret. revert E.
  match goal with |- context [if ?b then Ret r else _] => destruct b end; [by intros [= <-]|].
  intros (d' & _ & (l & _ & E)%bind_Ret)%bind_Ret. by apply assemble_ended in E.
Qed.

(** ** The invariant *)

(** The free space of the output stream, which is the window of the reassembler. *)
Definition room (r : t) : Z := _capacity r - zlen (ByteStream.bytes (_output r)).

Record inv (base : Z) (D : string) (r : t) : Prop := {
  inv_base : 0 <= base;
  inv_bound : base + zlen D < 2 ^ 64 - 1;
  inv_output : ByteStream.wf (_output r);
  inv_capacity : ByteStream._capacity (_output r) = _capacity r;
  inv_top : _top_pointer r = base + ByteStream._bytes_read (_output r) + zlen (ByteStream.bytes (_output r));
  inv_top_le : _top_pointer r <= base + zlen D;
  inv_bytes : ByteStream.bytes (_output r)
              = slice D (ByteStream._bytes_read (_output r)) (zlen (ByteStream.bytes (_output r)));
  inv_no_empty : ByteStream.no_empty_buffer (_output r);
  inv_ended : ByteStream.is_input_end (_output r) = true -> _top_pointer r = base + zlen D;
  inv_list : BufferStringList.wf (_buffer_list r);
  inv_content : forall i x, BufferStringList.content (_buffer_list r) i = Some x ->
                  base <= i /\ D !! Z.to_nat (i - base) = Some x;
  inv_window : Forall (fun b => _top_pointer r <= first b
                 /\ (first b = _top_pointer r \/ first b < _top_pointer r + room r)) (_buffer_list r);
  inv_eof : BufferStringList.eof_ok (base + zlen D) (_buffer_list r)
}.

(** A segment of the stream [D]; an empty one may also stand past the end mark, one
    after the last byte. *)
Record segment_of (base : Z) (D : string) (data : string) (index : Z) (eof : bool) : Prop := {
  seg_first : base <= index;
  seg_last : index + zlen data <= Z.min (base + zlen D + 1) (2 ^ 64 - 2);
  seg_data : data = slice D (index - base) (zlen data);
  seg_eof : eof = true -> index + zlen data = base + zlen D
}.

Lemma current_capacity_room base D r : inv base D r -> current_capactiy r = room r /\ 0 <= room r < 2 ^ 64.
Proof.
  intros Hr. unfold current_capactiy, room.
  rewrite ByteStream.buffer_size_bytes by apply Hr. pose proof (inv_output _ _ _ Hr) as [? Hc Hb ? ?].
  rewrite (inv_capacity _ _ _ Hr) in *. unfold is_u64 in Hc. zlen_pose. nowrap. lia.
Qed.

Lemma remaining_room base D r : inv base D r -> ByteStream.remaining_capacity (_output r) = room r.
Proof.
  intros Hr. rewrite ByteStream.remaining_capacity_spec by apply Hr.
  by rewrite (inv_capacity _ _ _ Hr).
Qed.

(** A part of a segment is a segment. *)
Lemma segment_drop base D data index eof k :
  segment_of base D data index eof -> 0 <= k <= zlen data ->
  segment_of base D (slice data k (zlen data - k)) (index + k) eof.
Proof.
  intros [H1 H2 H3 H4] Hk. zlen_pose.
  assert (zlen (slice data k (zlen data - k)) = zlen data - k) as El by (apply zlen_slice_le; lia).
  split; rewrite ?El; try lia.
  - rewrite H3 at 1. rewrite slice_slice by lia. f_equal. lia.
  - intros He. specialize (H4 He). lia.
Qed.

Lemma segment_take base D data index eof k :
  segment_of base D data index eof -> 0 <= k <= zlen data ->
  segment_of base D (slice data 0 k) index false.
Proof.
  intros [H1 H2 H3 H4] Hk. zlen_pose.
  assert (zlen (slice data 0 k) = k) as El by (apply zlen_slice_le; lia).
  split; rewrite ?El; try lia; try done.
  rewrite H3 at 1. rewrite slice_slice by lia. f_equal. lia.
Qed.

Lemma segment_lookup base D data index eof i x :
  segment_of base D data index eof -> 0 <= base -> index <= i ->
  data !! Z.to_nat (i - index) = Some x -> D !! Z.to_nat (i - base) = Some x.
Proof.
  intros [H1 H2 H3 H4] Hb Hi Hx. rewrite H3 in Hx. unfold slice in Hx.
  pose proof (lookup_lt_Some _ _ _ Hx) as Hlt. rewrite length_take in Hlt.
  rewrite lookup_take_lt, lookup_drop in Hx by lia. rewrite <- Hx. f_equal. lia.
Qed.

Lemma segment_ends base D data index eof :
  segment_of base D data index eof -> BufferStringList.ends_ok (base + zlen D) index (index + zlen data) eof.
Proof.
  intros [H1 H2 H3 H4]. unfold BufferStringList.ends_ok. zlen_pose.
  destruct (decide (index + zlen data <= base + zlen D)) as [Hle|Hgt]; [by left|]. right.
  destruct data as [|x data]; [|exfalso].
  - destruct eof; [specialize (H4 eq_refl); zlen_lia|]. split; [zlen_lia|done].
  - pose proof (f_equal zlen H3) as El. unfold slice in El. rewrite zlen_take, zlen_drop in El. zlen_lia.
Qed.

(** A fragment whose bytes are those of [D] is a slice of [D]. *)
Lemma fragment_slice base D b :
  BufferStringList.frag_wf b -> base <= first b ->
  (forall i x, first b <= i < second b -> BufferStringList.str b !! Z.to_nat (i - first b) = Some x ->
     D !! Z.to_nat (i - base) = Some x) ->
  BufferStringList.str b = slice D (first b - base) (zlen (BufferStringList.str b)).
Proof.
  intros [? ? Es ?] Hb H. apply list_eq. intros k. unfold slice.
  destruct (BufferStringList.str b !! k) as [x|] eqn:E.
  - pose proof (lookup_lt_Some _ _ _ E). specialize (H (first b + Z.of_nat k) x).
    rewrite lookup_take_lt, lookup_drop by (unfold zlen in *; lia).
    replace (Z.to_nat (first b + Z.of_nat k - first b)) with k in H by lia.
    symmetry. rewrite <- H; [f_equal; lia|unfold zlen in *; lia|done].
  - symmetry. apply lookup_ge_None in E. apply lookup_ge_None.
    rewrite length_take. unfold zlen. lia.
Qed.

(** Delivering the front fragment keeps the invariant. *)
Lemma front_slice base D r b l :
  inv base D r -> _buffer_list r = b :: l ->
  BufferStringList.frag_wf b /\ Forall (BufferStringList.before b) l /\ BufferStringList.wf l
  /\ BufferStringList.str b = slice D (first b - base) (zlen (BufferStringList.str b))
  /\ (first b <= base + zlen D -> second b <= base + zlen D).
Proof.
  intros Hr El. pose proof (inv_list _ _ _ Hr) as Hl. pose proof (inv_content _ _ _ Hr) as Hc.
  pose proof (inv_window _ _ _ Hr) as Hw. pose proof (inv_eof _ _ _ Hr) as He.
  pose proof (inv_top _ _ _ Hr) as Ht.
  rewrite El in *. pose proof Hl as Hl0. apply BufferStringList.bsl_wf_cons in Hl0 as (Hb & Hbl & Hl').
  inversion Hw; inversion He as [|? ? Heb]; subst. split_and!; try done; [|unfold BufferStringList.ends_ok in Heb; lia].
  pose proof (inv_output _ _ _ Hr) as [? ? ? [? ?] ?]. zlen_pose.
  apply fragment_slice; [done|lia|]. intros i x Hi Hx. apply Hc.
  rewrite (BufferStringList.content_holds _ b); [done|done|by left|done].
Qed.

Lemma content_tail base D r b l i x :
  inv base D r -> _buffer_list r = b :: l ->
  BufferStringList.content l i = Some x -> base <= i /\ D !! Z.to_nat (i - base) = Some x.
Proof.
  intros Hr El Hx. apply (inv_content _ _ _ Hr). rewrite El. simpl.
  destruct (front_slice _ _ _ _ _ Hr El) as (Hb & Hbl & Hl & _).
  rewrite BufferStringList.char_at_out; [done|].
  destruct (decide (i < second b)) as [Hi|]; [|lia]. exfalso.
  rewrite BufferStringList.content_not_held in Hx; [done|]. intros c Hc Hh.
  pose proof (proj1 (Forall_forall _ _) Hbl c Hc). unfold BufferStringList.before, BufferStringList.holds in *.
  simpl in *. lia.
Qed.

(** What [assemble] writes: [n] bytes of the front fragment, the last of which is
    the end of the stream when the mark says so. *)
Lemma write_out base D r n (ended : bool) l' :
  inv base D r -> 0 <= n <= room r -> _top_pointer r + n <= base + zlen D ->
  (ended = true -> _top_pointer r + n = base + zlen D) ->
  BufferStringList.wf l' ->
  (forall i x, BufferStringList.content l' i = Some x -> base <= i /\ D !! Z.to_nat (i - base) = Some x) ->
  Forall (fun b => _top_pointer r + n <= first b
            /\ (first b = _top_pointer r + n \/ first b < _top_pointer r + room r)) l' ->
  BufferStringList.eof_ok (base + zlen D) l' ->
  let o := fst (ByteStream.write (_output r) (slice D (_top_pointer r - base) n)) in
  let o := if ended then ByteStream.end_input o else o in
  inv base D (mk (uint64 (_top_pointer r + n)) o (_capacity r) l')
  /\ ByteStream.bytes o = ByteStream.bytes (_output r) ++ slice D (_top_pointer r - base) n.
Proof.
  intros Hr Hn Htop Hended Hl' Hc' Hw' He' o0.
  pose proof Hr as [Hbase Hbound Hout Hcap Ht Htle Hbytes Hne Hend _ _ _ _].
  pose proof Hout as [? Hc Hb [Hrd ?] Hwr]. unfold room in *.
  set (d := slice D (_top_pointer r - base) n) in *. zlen_pose.
  assert (zlen d = n) as Ed by (apply zlen_slice_le; lia).
  assert (ByteStream.accepted (_output r) d = d) as Eacc
    by (unfold ByteStream.accepted; apply take_ge; unfold zlen in *; lia).
  destruct (ByteStream.write_spec (_output r) d Hout) as (Hw & Eb & _ & Ec & Er & Ee & _); [lia|].
  rewrite Eacc in Eb.
  assert (ByteStream.no_empty_buffer o0) as Hno.
  { apply ByteStream.write_no_empty_buffer; [done..|].
    rewrite ByteStream.remaining_capacity_spec by done.
    destruct (decide (n = 0)); [left; apply zlen_zero_nil; lia | right; lia]. }
  fold o0 in Hw, Eb, Ec, Er, Ee. clearbody o0.
  set (o := if ended then _ else _).
  assert (ByteStream.bytes o = ByteStream.bytes o0 /\ ByteStream._bytes_read o = ByteStream._bytes_read o0
    /\ ByteStream._capacity o = ByteStream._capacity o0 /\ ByteStream.wf o /\ ByteStream.no_empty_buffer o)
    as (F1 & F2 & F3 & F4 & F5).
  { subst o. destruct ended; [|done]. split_and!; try done. by apply ByteStream.end_input_wf. }
  rewrite F1, Eb. split; [|done]. nowrap.
  split; simpl; rewrite ?F1, ?F2, ?F3, ?Eb, ?Er, ?Ec; try done; zlen_lia.
  - rewrite Ed. transitivity (slice D (ByteStream._bytes_read (_output r)) (zlen (ByteStream.bytes (_output r)))
      ++ slice D (ByteStream._bytes_read (_output r) + zlen (ByteStream.bytes (_output r))) n);
      [|apply slice_app; lia].
    rewrite <- Hbytes. f_equal. unfold d. f_equal. lia.
  - subst o. intros E. destruct ended; [by apply Hended|]. specialize (Hend ltac:(congruence)). lia.
  - unfold room; simpl. rewrite F1, Eb. zlen_lia. rewrite Ed.
    apply (Forall_impl _ _ _ Hw'). intros. lia.
Qed.

(** The fragments left after a delivery of the whole front fragment. *)
Lemma window_tail base D r b l :
  inv base D r -> _buffer_list r = b :: l -> first b = _top_pointer r ->
  Forall (fun c => second b < first c < _top_pointer r + room r) l.
Proof.
  intros Hr El Hf. destruct (front_slice _ _ _ _ _ Hr El) as (Hb & Hbl & _).
  pose proof (BufferStringList.frag_ordered b Hb).
  pose proof (inv_window _ _ _ Hr) as Hw. rewrite El in Hw. inversion Hw; subst.
  apply Forall_forall. intros c Hc.
  pose proof (proj1 (Forall_forall _ _) Hbl c Hc) as Hbc.
  pose proof (proj1 (Forall_forall _ _) H3 c Hc) as Hcw.
  unfold BufferStringList.before in Hbc. simpl in Hcw. lia.
Qed.

(** How far [r'] is ahead of [r]: it delivered the next [n] bytes of [D]. *)
Definition delivered (base : Z) (D : string) (r r' : t) (n : Z) : Prop :=
  0 <= n /\ _top_pointer r' = _top_pointer r + n /\ _capacity r' = _capacity r
  /\ ByteStream._bytes_read (_output r') = ByteStream._bytes_read (_output r)
  /\ ByteStream.bytes (_output r')
     = ByteStream.bytes (_output r) ++ slice D (_top_pointer r - base) n.

Lemma delivered_inv base D r r' : inv base D r -> inv base D r' -> _capacity r' = _capacity r ->
  ByteStream._bytes_read (_output r') = ByteStream._bytes_read (_output r) ->
  forall n, 0 <= n ->
  ByteStream.bytes (_output r') = ByteStream.bytes (_output r) ++ slice D (_top_pointer r - base) n ->
  _top_pointer r + n <= base + zlen D -> delivered base D r r' n.
Proof.
  intros Hr Hr' Hc Hrd n Hn Hb Hle. repeat split; try done.
  rewrite (inv_top _ _ _ Hr'), Hrd, Hb. pose proof (inv_top _ _ _ Hr) as Ht.
  pose proof (inv_output _ _ _ Hr) as [? ? ? [? ?] ?]. zlen_pose.
  rewrite zlen_app, zlen_slice_le by lia. lia.
Qed.

Lemma bytes_read_write s d : ByteStream._bytes_read (fst (ByteStream.write s d)) = ByteStream._bytes_read s.
Proof. by destruct d. Qed.
Lemma is_input_end_write s d : ByteStream.is_input_end (fst (ByteStream.write s d)) = ByteStream.is_input_end s.
Proof. by destruct d. Qed.

(** [r'] delivered [n] bytes more, ended the stream if [ended] says so, and keeps
    the fragments [rest] when this is known. *)
Definition assembled (base : Z) (D : string) (r : t) (n : Z) (ended : bool)
    (rest : option BufferStringList.t) : Prop :=
  exists r', assemble r = Ret r' /\ inv base D r' /\ delivered base D r r' n
    /\ ByteStream.is_input_end (_output r') = ByteStream.is_input_end (_output r) || ended
    /\ (forall l, rest = Some l -> _buffer_list r' = l).

Section Assemble.
Context (base : Z) (D : string) (r : t) (b : BufferString.t) (l : BufferStringList.t).
Hypothesis Hr : inv base D r.
Hypothesis El : _buffer_list r = b :: l.

Lemma front_eof : BufferString.eof b = true -> second b = base + zlen D.
Proof using Hr El.
  pose proof (inv_eof _ _ _ Hr) as He. rewrite El in He. inversion He as [|? ? [[_ ?]|[_ Hn]] _]; [done|]. by rewrite Hn.
Qed.

Lemma assemble_waiting : first b <> _top_pointer r -> assembled base D r 0 false None.
Proof using Hr El.
  intros Hf. exists r. split_and!; [|done| |by rewrite orb_false_r|done].
  - unfold assemble. rewrite El. simpl. by rewrite (proj2 (Z.eqb_neq _ _)) by lia.
  - apply delivered_inv; try done; try lia.
    + by rewrite slice_empty, app_nil_r by lia.
    + pose proof (inv_top_le _ _ _ Hr). lia.
Qed.

Lemma assemble_whole :
  first b = _top_pointer r -> zlen (BufferStringList.str b) <= room r ->
  assembled base D r (zlen (BufferStringList.str b)) (BufferString.eof b) (Some l).
Proof using Hr El.
  intros Ef Hz. destruct (current_capacity_room _ _ _ Hr) as [_ Hroom].
  destruct (front_slice _ _ _ _ _ Hr El) as (Hb & Hbl & Hl & Estr & Hsec).
  pose proof (inv_top_le _ _ _ Hr) as Htl. specialize (Hsec ltac:(lia)).
  pose proof Hb as [Htgt Hf0 Hs ?]. pose proof (window_tail _ _ _ _ _ Hr El Ef) as Htail.
  pose proof (inv_eof _ _ _ Hr) as He. rewrite El in He. inversion He; subst. zlen_pose.
  destruct (write_out base D r (zlen (BufferStringList.str b)) (BufferString.eof b) l) as [Hinv Hbytes];
    try done; try lia.
  { intros E. pose proof (front_eof E). lia. }
  { intros i x. by apply (content_tail base D r b). }
  { apply (Forall_impl _ _ _ Htail). intros. lia. }
  eexists. split_and!; [|exact Hinv| | |].
  - unfold assemble. rewrite El. simpl. rewrite Ef, Z.eqb_refl. simpl.
    rewrite (remaining_room _ _ _ Hr), BufferStringList.pop_up_spec; [|rewrite <- El; apply Hr|lia].
    rewrite (proj2 (Z.leb_le _ _)) by lia. simpl. unfold BufferString.size, BufferString.get_string.
    rewrite Htgt. simpl. rewrite <- Ef, <- Estr. done.
  - apply delivered_inv; simpl; try done; try lia.
    destruct (BufferString.eof b); simpl; apply bytes_read_write.
  - simpl. destruct (BufferString.eof b); simpl; rewrite ?is_input_end_write;
      by rewrite ?orb_true_r, ?orb_false_r.
  - by intros ? [= <-].
Qed.

(** Only [room r] bytes fit: then no other fragment is held, and pushing the rest
    to the back of the list keeps it sorted. *)
Lemma assemble_partial :
  first b = _top_pointer r -> room r < zlen (BufferStringList.str b) ->
  assembled base D r (room r) false None.
Proof using Hr El.
  intros Ef Hz. pose proof front_eof as Hfe. destruct (current_capacity_room _ _ _ Hr) as [_ Hroom].
  destruct (front_slice _ _ _ _ _ Hr El) as (Hb & Hbl & Hl & Estr & Hsec).
  pose proof (inv_top_le _ _ _ Hr) as Htl. specialize (Hsec ltac:(lia)).
  pose proof Hb as [Htgt Hf0 Hs ?]. pose proof (window_tail _ _ _ _ _ Hr El Ef) as Htail.
  assert (l = []) as -> by (destruct l; [done|]; inversion Htail; lia).
  pose proof (inv_top _ _ _ Hr). pose proof (inv_output _ _ _ Hr) as [? ? ? [? ?] ?]. zlen_pose.
  assert (take (Z.to_nat (room r)) (BufferStringList.str b) = slice D (_top_pointer r - base) (room r)) as Et.
  { rewrite <- slice_0_take, Estr, slice_slice by lia. f_equal. lia. }
  assert (zlen (slice D (_top_pointer r - base) (room r)) = room r) as Elen by (rewrite <- Et, zlen_take; lia).
  destruct (BufferStringList.make_wf (first b + room r) (drop (Z.to_nat (room r)) (BufferStringList.str b))
              (BufferString.eof b)) as (Hmw & Hmf & Hms & Hmstr); [lia|rewrite zlen_drop; lia|].
  rewrite zlen_drop in Hms.
  destruct (write_out base D r (room r) false
    [BufferString.make (first b + room r) (drop (Z.to_nat (room r)) (BufferStringList.str b)) (BufferString.eof b)])
    as [Hinv Hbytes]; try done; try lia.
  { apply BufferStringList.bsl_wf_cons. split_and!; [done|done|apply BufferStringList.wf_nil]. }
  { intros i x Hx. simpl in Hx. destruct (BufferStringList.char_at _ i) eqn:Ec in Hx; [|done].
    injection Hx as <-. unfold BufferStringList.char_at in Ec. destruct (_ && _) eqn:Ei in Ec; [|done]. zbool.
    apply (inv_content _ _ _ Hr). rewrite El.
    rewrite (BufferStringList.content_holds _ b); [|rewrite <- El; apply Hr|by left|unfold BufferStringList.holds; lia].
    rewrite <- Ec, Hmstr, lookup_drop. f_equal. lia. }
  { constructor; [lia|done]. }
  { constructor; [|done]. left. split; [lia|]. intros E. specialize (Hfe E). lia. }
  eexists. split_and!; [|exact Hinv| | |].
  - unfold assemble. rewrite El. simpl. rewrite Ef, Z.eqb_refl. simpl.
    rewrite (remaining_room _ _ _ Hr), BufferStringList.pop_up_spec; [|rewrite <- El; apply Hr|lia].
    rewrite (proj2 (Z.leb_gt _ _)) by lia. simpl. unfold BufferString.size, BufferString.get_string.
    simpl. by rewrite Et, Elen, ?Ef.
  - apply delivered_inv; simpl; try done; try lia. apply bytes_read_write.
  - simpl. by rewrite is_input_end_write, orb_false_r.
  - done.
Qed.

Lemma assemble_spec :
  assembled base D r
    (if first b =? _top_pointer r then Z.min (zlen (BufferStringList.str b)) (room r) else 0)
    ((first b =? _top_pointer r) && BufferString.eof b && (zlen (BufferStringList.str b) <=? room r))
    (if (first b =? _top_pointer r) && (zlen (BufferStringList.str b) <=? room r) then Some l else None).
Proof using Hr El.
  destruct (first b =? _top_pointer r) eqn:Ef; zbool; simpl; [|by apply assemble_waiting].
  destruct (zlen (BufferStringList.str b) <=? room r) eqn:Ez; zbool.
  - rewrite Z.min_l, andb_true_r by lia. by apply assemble_whole.
  - rewrite Z.min_r, andb_false_r by lia. by apply assemble_partial.
Qed.

End Assemble.

(** Storing a segment that starts inside the window keeps the invariant. *)
Lemma store_inv base D r data index eof :
  inv base D r -> segment_of base D data index eof ->
  _top_pointer r <= index < _top_pointer r + room r ->
  exists b l, BufferStringList.push_back (_buffer_list r) data index eof = Ret (b :: l)
    /\ inv base D (mk (_top_pointer r) (_output r) (_capacity r) (b :: l))
    /\ (index = _top_pointer r -> first b = index /\ zlen data <= zlen (BufferStringList.str b))
    /\ (_buffer_list r = [] -> b = BufferString.make index data eof /\ l = []).
Proof.
  intros Hr Hseg Hwin. pose proof Hseg as [Hs1 Hs2 Hs3 Hs4].
  pose proof (inv_base _ _ _ Hr). pose proof (inv_bound _ _ _ Hr). zlen_pose.
  destruct (BufferStringList.push_back_spec (_buffer_list r) data index eof)
    as (l' & E & Hl' & Hne & Hres & Hcont); [apply Hr|lia|lia|].
  destruct (BufferStringList.push_result_ends (_buffer_list r) data index eof l')
    as [Hfirsts Heofs]; [apply Hr|lia|lia|done|].
  destruct (BufferStringList.push_result_covers (_buffer_list r) data index eof l')
    as (c & Hc & Hc1 & Hc2); [apply Hr|lia|lia|done|].
  assert (inv base D (mk (_top_pointer r) (_output r) (_capacity r) l')) as Hinv.
  { split; simpl; try apply Hr; try done.
    - intros i x Hx. rewrite Hcont in Hx. destruct (_ && _) eqn:Ei in Hx.
      + zbool. split; [lia|]. by apply (segment_lookup base D data index eof).
      + by apply (inv_content _ _ _ Hr).
    - apply Forall_forall. intros b Hb. unfold room; simpl. fold (room r).
      destruct (Hfirsts b Hb) as [->|(b0 & Hb0 & ->)]; [lia|].
      apply (proj1 (Forall_forall _ _) (inv_window _ _ _ Hr) b0 Hb0).
    - apply Heofs; [apply Hr|]. by apply segment_ends. }
  destruct l' as [|b l]; [done|]. exists b, l. split_and!; [done|done| |].
  - intros ->. pose proof (inv_window _ _ _ Hinv) as Hw. simpl in Hw.
    apply BufferStringList.bsl_wf_cons in Hl' as ([? ? Es ?] & Hbef & Hl).
    pose proof (proj1 (Forall_forall _ _) Hw c Hc) as Hcw. inversion Hw as [|? ? Hbw _]; subst. simpl in *.
    apply elem_of_cons in Hc as [->|Hc]; [lia|].
    pose proof (proj1 (Forall_forall _ _) Hbef c Hc) as Hbc. unfold BufferStringList.before in Hbc. zlen_pose. lia.
  - intros Enil. rewrite Enil in E. by injection E as <- <-.
Qed.

(** [push_substring] on a segment of the stream. *)
Lemma push_substring_spec base D r data index eof :
  inv base D r -> segment_of base D data index eof ->
  exists r' n, push_substring r data index eof = Ret r' /\ inv base D r' /\ delivered base D r r' n
    /\ (index <= _top_pointer r ->
        Z.min (index + zlen data) (_top_pointer r + room r) <= _top_pointer r + n)
    /\ (index <= _top_pointer r -> _buffer_list r = [] ->
        0 < room r -> index + zlen data <= _top_pointer r + room r ->
        _top_pointer r <= index + zlen data ->
        _buffer_list r' = [] /\ n = index + zlen data - _top_pointer r
        /\ ByteStream.is_input_end (_output r') = ByteStream.is_input_end (_output r) || eof).
Proof.
  intros Hr Hseg. destruct (current_capacity_room _ _ _ Hr) as [Ecap Hroom].
  pose proof Hseg as [Hs1 Hs2 Hs3 Hs4]. pose proof (inv_base _ _ _ Hr). pose proof (inv_bound _ _ _ Hr).
  pose proof (inv_top_le _ _ _ Hr). pose proof (inv_top _ _ _ Hr).
  pose proof (inv_output _ _ _ Hr) as [? ? ? [? ?] ?]. zlen_pose.
  assert (delivered base D r r 0) as Hstay.
  { apply delivered_inv; try done; try lia. by rewrite slice_empty, app_nil_r by lia. }
  unfold push_substring. cbv zeta. rewrite Ecap. nowrap.
  destruct ((index <? _top_pointer r) && (index + zlen data <? _top_pointer r)) eqn:Edup.
  { zbool. exists r, 0. split_and!; [done..|lia|lia]. }
  set (k := if index <? _top_pointer r then _top_pointer r - index else 0).
  assert (0 <= k <= zlen data /\ (if index <? _top_pointer r then _top_pointer r else index) = index + k
          /\ (if index <? _top_pointer r
              then substr data (uint64 (_top_pointer r - index)) (uint64 (zlen data - uint64 (_top_pointer r - index)))
              else Ret data) = Ret (slice data k (zlen data - k))) as (Hk & -> & ->).
  { subst k. destruct (index <? _top_pointer r) eqn:E; zbool.
    - simpl in Edup. zbool. nowrap. rewrite substr_ok by lia. split_and!; [lia..|done].
    - rewrite Z.sub_0_r, slice_all by lia. split_and!; [lia..|done]. }
  assert (_top_pointer r <= index + k /\ (index <= _top_pointer r -> index + k = _top_pointer r)) as [Hkt Hkt']
    by (subst k; destruct (index <? _top_pointer r) eqn:E; zbool; lia).
  clearbody k. simpl.
  pose proof (segment_drop _ _ _ _ _ _ Hseg Hk) as Hseg1.
  assert (zlen (slice data k (zlen data - k)) = zlen data - k) as El1 by (apply zlen_slice_le; lia).
  set (d1 := slice data k (zlen data - k)) in *. clearbody d1. nowrap.
  destruct (room r <? index + k - _top_pointer r + 1) eqn:Ewin; zbool.
  { exists r, 0. split_and!; [done..|lia|lia]. }
  assert (exists d2, (if room r <? zlen d1 then substr d1 0 (room r) else Ret d1) = Ret d2
    /\ segment_of base D d2 (index + k) (if room r <? zlen d1 then false else eof)
    /\ zlen d2 = Z.min (room r) (zlen d1)) as (d2 & -> & Hseg2 & El2).
  { destruct (room r <? zlen d1) eqn:Eo; zbool.
    - rewrite substr_ok by lia. eexists. split; [done|]. split; [by apply segment_take with eof; [|lia]|].
      rewrite zlen_slice_le by lia. lia.
    - exists d1. split_and!; [done..|lia]. }
  simpl. destruct (store_inv _ _ _ _ _ _ Hr Hseg2) as (b & l & -> & Hinv & Hfront & Hnil); [lia|].
  simpl. destruct (assemble_spec base D _ b l Hinv eq_refl) as (r' & E & Hr' & Hd & Hended & Hrest).
  unfold room in E, Hd, Hended, Hrest; simpl in E, Hd, Hended, Hrest. fold (room r) in Hd, Hended, Hrest.
  eexists r', _. split; [exact E|]. split; [done|]. split; [exact Hd|]. split.
  - intros Hle. specialize (Hkt' Hle). destruct (Hfront Hkt') as [Ef Hz].
    rewrite Ef, Hkt', Z.eqb_refl. lia.
  - intros Hle Enil Hrm Hfit Hge. specialize (Hkt' Hle). destruct (Hfront Hkt') as [Ef Hz].
    destruct (Hnil Enil) as [-> ->]. rewrite Hended. revert Hrest.
    unfold first, BufferString.eof, BufferStringList.str. simpl.
    rewrite Hkt', Z.eqb_refl, (proj2 (Z.ltb_ge _ _)), (proj2 (Z.leb_le _ _)) by lia.
    simpl. intros Hrest. split; [by apply Hrest|]. split; [lia|by rewrite andb_true_r].
Qed.

(** What is known already, and everything when there is no room, changes nothing. *)
Lemma push_ignored base D r data index eof :
  inv base D r -> segment_of base D data index eof -> index <= _top_pointer r ->
  index + zlen data < _top_pointer r \/ (room r = 0 /\ index + zlen data = _top_pointer r) ->
  push_substring r data index eof = Ret r.
Proof.
  intros Hr [Hs1 Hs2 Hs3 Hs4] Hi Hold. destruct (current_capacity_room _ _ _ Hr) as [Ecap Hroom].
  pose proof (inv_base _ _ _ Hr). pose proof (inv_bound _ _ _ Hr). pose proof (inv_top_le _ _ _ Hr). zlen_pose.
  unfold push_substring. cbv zeta. rewrite Ecap. nowrap.
  destruct (index <? _top_pointer r) eqn:E1; zbool; cbn [andb].
  - destruct (index + zlen data <? _top_pointer r) eqn:E2; zbool; [done|].
    nowrap. rewrite substr_ok by lia. cbn [mbind outcome_bind].
    nowrap. by rewrite (proj2 (Z.ltb_lt _ _)) by lia.
  - cbn [mbind outcome_bind]. nowrap. by rewrite (proj2 (Z.ltb_lt _ _)) by lia.
Qed.

(** A fragment at or before the top pointer that fits is delivered whole when no
    other is waiting. *)
Lemma push_in_order base D r data index eof :
  inv base D r -> segment_of base D data index eof -> _buffer_list r = [] ->
  index <= _top_pointer r -> index + zlen data <= _top_pointer r + room r -> (eof = true -> 0 < room r) ->
  exists r', push_substring r data index eof = Ret r' /\ inv base D r' /\ _buffer_list r' = []
    /\ delivered base D r r' (Z.max 0 (index + zlen data - _top_pointer r))
    /\ ByteStream.is_input_end (_output r') = ByteStream.is_input_end (_output r) || eof.
Proof.
  intros Hr Hseg Enil Hi Hfit He. destruct (current_capacity_room _ _ _ Hr) as [_ Hroom].
  pose proof (inv_top_le _ _ _ Hr). pose proof (inv_top _ _ _ Hr). pose proof (inv_base _ _ _ Hr).
  pose proof (ByteStream.wf_read _ (inv_output _ _ _ Hr)) as [? ?]. zlen_pose.
  assert (eof = true -> index + zlen data = base + zlen D) as Heof by apply Hseg.
  destruct (decide (index + zlen data < _top_pointer r \/ (room r = 0 /\ index + zlen data = _top_pointer r)))
    as [Hold|Hnew].
  - rewrite (push_ignored base D r data index eof) by done. exists r.
    assert (eof = false) as -> by (destruct eof; [|done]; specialize (He eq_refl); specialize (Heof eq_refl); lia).
    rewrite Z.max_l, orb_false_r by lia. split_and!; try done.
    apply delivered_inv; try done; try lia. by rewrite slice_empty, app_nil_r by lia.
  - destruct (push_substring_spec base D r data index eof Hr Hseg) as (r' & n & E & Hr' & Hd & _ & Hx).
    destruct Hx as (Enil' & En & Ee); [done|done|lia|done|lia|]. exists r'. rewrite Z.max_r, <- En by lia. done.
Qed.

(** A reader taking bytes out of the stream keeps the invariant. *)
Lemma read_inv base D r o n :
  inv base D r -> 0 <= n <= zlen (ByteStream.bytes (_output r)) ->
  ByteStream.popped (_output r) o n ->
  inv base D (set_stream_out r o) /\ ByteStream._bytes_read o = ByteStream._bytes_read (_output r) + n.
Proof.
  intros Hr Hn (Hw & Hb & Hc & Hrd & _ & He & _ & Hne).
  pose proof Hr as [Hbase Hbound Hout Hcap Ht Htle Hbytes Hno Hend Hl Hcont Hwin Heof].
  pose proof (ByteStream.wf_read _ Hout) as [? ?]. zlen_pose.
  assert (ByteStream._bytes_read o = ByteStream._bytes_read (_output r) + n) as Erd
    by (rewrite Hrd; nowrap; lia).
  assert (zlen (ByteStream.bytes o) = zlen (ByteStream.bytes (_output r)) - n) as El
    by (rewrite Hb, zlen_drop; lia).
  split; [|done]. split; simpl; try done; rewrite ?Hc, ?Erd, ?El, ?He; try done; try lia; [|by apply Hne|].
  - rewrite Hb. rewrite Hbytes at 1. rewrite <- slice_drop, slice_slice by (rewrite ?zlen_slice_le; lia).
    f_equal. rewrite zlen_slice_le; lia.
  - apply (Forall_impl _ _ _ Hwin). unfold room; simpl. rewrite El. intros. lia.
Qed.

(** ** Sequences of pushes and reads *)

Inductive op :=
  | Push (data : string) (index : Z) (eof : bool)
  | Read (len : Z).

(** A push of a fragment, or a read of at most [len] of the assembled bytes. *)
Definition step (r : t) (o : op) : outcome (t * string) :=
  match o with
  | Push data index eof => r' ← push_substring r data index eof; Ret (r', [])
  | Read len =>
      '(d, s) ← ByteStream.read (_output r) (Z.min len (ByteStream.buffer_size (_output r)));
      Ret (set_stream_out r s, d)
  end.

Definition valid (base : Z) (D : string) (o : op) : Prop :=
  match o with
  | Push data index eof => segment_of base D data index eof
  | Read len => 0 <= len
  end.

Lemma step_spec base D r o :
  inv base D r -> valid base D o ->
  exists r' d, step r o = Ret (r', d) /\ inv base D r' /\ _capacity r' = _capacity r
    /\ ByteStream._bytes_read (_output r') = ByteStream._bytes_read (_output r) + zlen d
    /\ d = slice D (ByteStream._bytes_read (_output r)) (zlen d).
Proof.
  intros Hr Hv. destruct o as [data index eof|len]; simpl in *.
  - destruct (push_substring_spec _ _ _ _ _ _ Hr Hv) as (r' & n & -> & Hr' & (_ & _ & Hcp & Hrd & _) & _).
    exists r', []. simpl. rewrite Hrd. zlen_lia. split_and!; [done..|lia|by rewrite slice_empty by lia].
  - pose proof (inv_output _ _ _ Hr) as Hw. rewrite ByteStream.buffer_size_bytes by done. zlen_pose.
    set (n := Z.min len (zlen (ByteStream.bytes (_output r)))).
    assert (0 <= n <= zlen (ByteStream.bytes (_output r))) as Hn by (subst n; lia). clearbody n.
    destruct (ByteStream.read_spec (_output r) n Hw Hn) as (s & -> & Hp). simpl.
    destruct (read_inv base D r s n Hr Hn Hp) as [Hinv Hrd]. pose proof (ByteStream.wf_read _ Hw) as [? ?].
    eexists _, _. split; [done|]. split; [done|]. split; [done|]. simpl. rewrite Hrd, zlen_take.
    split; [lia|]. rewrite (inv_bytes _ _ _ Hr) at 1.
    rewrite <- slice_0_take, slice_slice by lia. f_equal; lia.
Qed.

Lemma run_spec base D ops r :
  inv base D r -> Forall (valid base D) ops ->
  exists r' ds, run step r ops = Ret (r', ds) /\ inv base D r' /\ _capacity r' = _capacity r
    /\ ByteStream._bytes_read (_output r') = ByteStream._bytes_read (_output r) + zlen (concat ds)
    /\ concat ds = slice D (ByteStream._bytes_read (_output r)) (zlen (concat ds)).
Proof.
  revert r. induction ops as [|o ops IH]; intros r Hr Hv; simpl.
  { exists r, []. split_and!; [done..|zlen_lia|by rewrite slice_empty]. }
  inversion Hv; subst. destruct (step_spec base D r o) as (r1 & d & -> & Hr1 & C1 & E1 & D1); [done..|]. simpl.
  destruct (IH r1) as (r2 & ds & -> & Hr2 & C2 & E2 & D2); [done..|]. simpl.
  exists r2, (d :: ds). pose proof (ByteStream.wf_read _ (inv_output _ _ _ Hr)) as [? ?].
  simpl. zlen_lia. split_and!; [done..|congruence|lia|].
  rewrite <- slice_app, <- D1, <- E1, <- D2 by lia. done.
Qed.

Lemma inv_delivered base D r :
  inv base D r ->
  take (Z.to_nat (ByteStream._bytes_read (_output r))) D ++ ByteStream.bytes (_output r)
  = take (Z.to_nat (_top_pointer r - base)) D.
Proof.
  intros Hr. rewrite (inv_bytes _ _ _ Hr) at 1.
  pose proof (ByteStream.wf_read _ (inv_output _ _ _ Hr)) as [? ?]. pose proof (inv_top _ _ _ Hr) as Ht.
  zlen_pose. rewrite <- !slice_0_take.
  rewrite (slice_split D 0 (_top_pointer r - base) (ByteStream._bytes_read (_output r))) by lia.
  f_equal. f_equal; lia.
Qed.

Lemma reassembler_new_inv c D : is_u64 c -> zlen D < 2 ^ 64 - 1 -> inv 0 D (new c).
Proof.
  intros Hc HD. zlen_pose. pose proof (ByteStream.new_wf c Hc).
  split; simpl; try done; try lia;
    first [apply ByteStream.new_no_empty_buffer | apply BufferStringList.wf_nil | constructor].
Qed.

End StreamReassembler.

(** ** Properties *)

(** C6: pushed fragments of a stream in any order, with overlaps, repetitions and
    fragments outside the window, interleaved with reads, never make the
    reassembler throw; what was read followed by what is buffered is always the
    prefix of the stream below the top pointer, and the whole stream once the
    output has ended. *)
Theorem reassembler_delivers_prefix (c : Z) (D : string) (ops : list StreamReassembler.op) :
  is_u64 c -> zlen D < 2 ^ 64 - 1 -> Forall (StreamReassembler.valid 0 D) ops ->
  exists r ds, run StreamReassembler.step (StreamReassembler.new c) ops = Ret (r, ds)
    /\ concat ds ++ ByteStream.bytes (StreamReassembler.stream_out r)
       = take (Z.to_nat (StreamReassembler._top_pointer r)) D
    /\ zlen (ByteStream.bytes (StreamReassembler.stream_out r)) <= c
    /\ (ByteStream.input_ended (StreamReassembler.stream_out r) = true ->
        concat ds ++ ByteStream.bytes (StreamReassembler.stream_out r) = D).
Proof.
  intros Hc HD Hv.
  pose proof (StreamReassembler.reassembler_new_inv c D Hc HD) as Hr0.
  destruct (StreamReassembler.run_spec 0 D ops _ Hr0 Hv) as (r & ds & E & Hr & Ec & E1 & E2).
  exists r, ds. split; [done|].
  assert (concat ds ++ ByteStream.bytes (StreamReassembler._output r)
          = take (Z.to_nat (StreamReassembler._top_pointer r)) D) as Eall.
  { rewrite <- (Z.sub_0_r (StreamReassembler._top_pointer r)).
    rewrite <- (StreamReassembler.inv_delivered 0 D r Hr), E1. simpl. f_equal.
    rewrite E2 at 1. by rewrite slice_0_take. }
  split_and!; [done| |].
  - pose proof (ByteStream.wf_bound _ (StreamReassembler.inv_output _ _ _ Hr)) as Hb.
    by rewrite (StreamReassembler.inv_capacity _ _ _ Hr), Ec in Hb.
  - intros He. unfold StreamReassembler.stream_out. rewrite Eall.
    pose proof (StreamReassembler.inv_ended _ _ _ Hr He) as Ht. apply take_ge. unfold zlen in Ht. lia.
Qed.

Lemma reassembler_delivers_prefix_witness :
  let D := [Byte.x61; Byte.x62; Byte.x63; Byte.x64] in
  let ops := [StreamReassembler.Push [Byte.x63; Byte.x64] 2 true; StreamReassembler.Push [Byte.x61; Byte.x62] 0 false;
              StreamReassembler.Read 2; StreamReassembler.Push [Byte.x63; Byte.x64] 2 true] in
  exists r ds, run StreamReassembler.step (StreamReassembler.new 3) ops = Ret (r, ds)
    /\ concat ds ++ ByteStream.bytes (StreamReassembler.stream_out r)
       = take (Z.to_nat (StreamReassembler._top_pointer r)) D
    /\ zlen (ByteStream.bytes (StreamReassembler.stream_out r)) <= 3
    /\ (ByteStream.input_ended (StreamReassembler.stream_out r) = true ->
        concat ds ++ ByteStream.bytes (StreamReassembler.stream_out r) = D).
Proof.
  intros D ops. apply reassembler_delivers_prefix; [done|done|].
  repeat constructor; done.
Defined.

(** A fragment that starts at or before the top pointer advances it at least
    to the end of the fragment, or to the end of the window when that is nearer,
    and the bytes it advances over are written to the output in order. *)
Theorem reassembler_progress (base : Z) (D : string) (r : StreamReassembler.t) (data : string)
    (index : Z) (eof : bool) :
  StreamReassembler.inv base D r -> StreamReassembler.segment_of base D data index eof ->
  index <= StreamReassembler._top_pointer r ->
  exists r' n, StreamReassembler.push_substring r data index eof = Ret r'
    /\ StreamReassembler.inv base D r' /\ StreamReassembler.delivered base D r r' n
    /\ Z.min (index + zlen data) (StreamReassembler._top_pointer r + StreamReassembler.room r)
       <= StreamReassembler._top_pointer r'.
Proof.
  intros Hr Hs Hi.
  destruct (StreamReassembler.push_substring_spec _ _ _ _ _ _ Hr Hs) as (r' & n & E & Hr' & Hd & Hp & _).
  exists r', n. split_and!; try done. pose proof Hd as (_ & -> & _). by apply Hp.
Qed.

Lemma reassembler_progress_witness :
  let D := [Byte.x61; Byte.x62; Byte.x63; Byte.x64] in
  exists r' n, StreamReassembler.push_substring (StreamReassembler.new 3) D 0 true = Ret r'
    /\ StreamReassembler.inv 0 D r' /\ StreamReassembler.delivered 0 D (StreamReassembler.new 3) r' n
    /\ Z.min (0 + 4) (0 + StreamReassembler.room (StreamReassembler.new 3))
       <= StreamReassembler._top_pointer r'.
Proof.
  intros D. apply (reassembler_progress 0 D (StreamReassembler.new 3) D 0 true);
    [apply StreamReassembler.reassembler_new_inv; done|split; done|done].
Defined.

(** The reassembler can hold more than its capacity: only the length of a
    fragment and the index of its first byte are checked against the window, so
    with a capacity of 3 two fragments inside these checks leave 4 bytes waiting. *)
Theorem reassembler_exceeds_capacity :
  exists D ops r ds,
    Forall (StreamReassembler.valid 0 D) ops
    /\ run StreamReassembler.step (StreamReassembler.new 3) ops = Ret (r, ds)
    /\ StreamReassembler.unassembled_bytes r = 4
    /\ StreamReassembler._capacity r = 3.
Proof.
  exists [Byte.x61; Byte.x62; Byte.x63; Byte.x64; Byte.x65],
    [StreamReassembler.Push [Byte.x63; Byte.x64; Byte.x65] 2 true;
     StreamReassembler.Push [Byte.x62] 1 false].
  eexists _, _. split_and!; [|reflexivity..].
  repeat constructor; done.
Qed.
