(* ===== verification/AnyOrder.v ===== *)
(** * Fragments in any order

    [StreamReassembler.v] shows that the reassembler only delivers bytes of the
    stream, and that a fragment at the top pointer moves it.  Here: whatever order the
    fragments of a stretch of the stream come in, once they have all come the top
    pointer is at its end.

    The mark of the end of the stream is another matter: it is lost when it comes with
    bytes that are already waiting (see [push_back_drops_eof]), so for the end of the
    stream the fragment that carries it must come while no other is waiting. *)

From stdpp Require Import sorting.
From S2P Require Import Prelude SpongeBuffer ByteStream BufferString StreamReassembler.

Import BufferString (first, second).

(** ** The list of fragments *)

Module Fragments.
Import BufferStringList.

(** No fragment reaches further than those before and the new one. *)
Lemma push_result_bound l target index eof l' X :
  wf l -> 0 <= index -> index + zlen target < 2 ^ 64 -> push_result l target index eof l' ->
  Forall (fun b => second b <= X) l -> index + zlen target <= X -> Forall (fun b => second b <= X) l'.
Proof.
  intros Hl Hi Hb Hr HX Hn. destruct Hr as [A B -> HA HB|low Hin H1 H2|A M B m0 mz -> Hh Hz HA HM HB Hout].
  - destruct (make_wf index target eof Hi Hb) as (_ & _ & Es & _). apply Forall_app in HX as [HXA HXB].
    apply Forall_app. split; [done|]. constructor; [lia|done].
  - done.
  - destruct (merge_ends A M B m0 mz target index) as (Hm0 & Hmz & _ & G1 & G2 & G3 & G4 & _); [done..|].
    pose proof (frag_first m0 Hm0). pose proof (frag_bound mz Hmz).
    pose proof (merged_zlen m0 mz target index Hm0 Hmz G1 G4) as Elen.
    set (eof' := eof || _).
    destruct (make_wf (Z.min (first m0) index) (merged_string m0 mz target index (index + zlen target)) eof')
      as (_ & Ef & Es & _); [lia..|]. rewrite !Forall_app in HX. destruct HX as (HXA & HXM & HXB).
    apply Forall_app. split; [done|]. constructor; [|done].
    apply last_Some_elem_of in Hz. pose proof (proj1 (Forall_forall _ _) HXM mz Hz). simpl in *. lia.
Qed.

(** A fragment that carries the end mark is the last, and its mark stays. *)
Lemma push_result_keeps_eof l target index eof l' E :
  wf l -> 0 <= index -> index + zlen target < 2 ^ 64 -> push_result l target index eof l' ->
  Forall (fun b => second b <= E) l -> eof_ok E l ->
  (exists b, b ∈ l /\ BufferString.eof b = true) -> exists b, b ∈ l' /\ BufferString.eof b = true.
Proof.
  intros Hl Hi Hb Hr HE Heof (b & Hbl & Hbe). destruct Hr as [A B -> HA HB|low Hin H1 H2|A M B m0 mz -> Hh Hz HA HM HB Hout].
  - exists b. split; [|done]. rewrite elem_of_app in *. destruct Hbl; [by left|right; by right].
  - by exists b.
  - assert (second b = E) as Esec.
    { pose proof (proj1 (Forall_forall _ _) Heof b Hbl) as [[_ Hx]|[_ Hx]]; [by apply Hx|congruence]. }
    assert (forall c, c ∈ A ++ M ++ B -> ~ before b c) as Hlast.
    { intros c Hc Hbc. pose proof (proj1 (Forall_forall _ _) HE c Hc). simpl in *. unfold before in Hbc.
      pose proof (frag_ordered c (proj1 (Forall_forall _ _) (wf_frags _ Hl) c Hc)). lia. }
    pose proof (wf_sorted _ Hl) as Hs. apply last_Some in Hz as [M' ->].
    rewrite !elem_of_app in Hbl. destruct Hbl as [HbA|[HbM|HbB]].
    1: exists b; split; [apply elem_of_app; by left|done].
    2: exists b; split; [apply elem_of_app; right; by right|done].
    eexists. split; [apply elem_of_app; right; left|]. unfold BufferString.eof at 1. simpl.
    assert (b ∈ A ++ M' ++ [mz]) as Hpre by (rewrite !elem_of_app; by right).
    assert (B = []) as ->.
    { destruct B as [|c B]; [done|]. exfalso. apply (Hlast c); [rewrite !elem_of_app; right; right; left|].
      rewrite app_assoc in Hs. eapply (StronglySorted_app_1_elem_of _ _ (c :: B)); [exact Hs|done|left]. }
    destruct HbM as [HbM|HbM].
    + exfalso. apply (Hlast mz); [rewrite !elem_of_app; right; left; right; left|].
      rewrite app_nil_r, app_assoc in Hs.
      eapply (StronglySorted_app_1_elem_of _ (A ++ M') [mz]); [exact Hs|apply elem_of_app; by right|left].
    + apply list_elem_of_singleton in HbM as ->. rewrite bool_decide_eq_true_2 by done. rewrite Hbe. by rewrite orb_true_r.
Qed.

(** An end mark comes from a fragment that had it. *)
Lemma push_result_eof_from l target index eof l' :
  push_result l target index eof l' -> (exists b, b ∈ l' /\ BufferString.eof b = true) ->
  eof = true \/ exists b, b ∈ l /\ BufferString.eof b = true.
Proof.
  intros Hr (b & Hb & He). destruct Hr as [A B -> HA HB|low Hin H1 H2|A M B m0 mz -> Hh Hz HA HM HB Hout].
  - apply elem_of_app in Hb as [Hb|Hb]; [right; exists b; split; [apply elem_of_app; by left|done]|].
    apply elem_of_cons in Hb as [->|Hb]; [by left|right; exists b; split; [apply elem_of_app; by right|done]].
  - right. by exists b.
  - apply elem_of_app in Hb as [Hb|Hb]; [right; exists b; split; [apply elem_of_app; by left|done]|].
    apply elem_of_cons in Hb as [->|Hb]; [|right; exists b; split; [rewrite !elem_of_app; by right; right|done]].
    unfold BufferString.eof at 1 in He. simpl in He. apply orb_true_iff in He as [He|He]; [by left|right].
    apply andb_true_iff in He as [_ He]. exists mz. apply last_Some_elem_of in Hz.
    split; [rewrite !elem_of_app; by right; left|done].
Qed.

(** A fragment with a byte or the end mark. *)
Definition solid (b : BufferString.t) : Prop := first b < second b \/ BufferString.eof b = true.

Lemma push_result_solid l target index eof l' :
  wf l -> 0 <= index -> index + zlen target < 2 ^ 64 -> push_result l target index eof l' ->
  Forall solid l -> 0 < zlen target \/ eof = true -> Forall solid l'.
Proof.
  intros Hl Hi Hb Hr Hs Hn. destruct Hr as [A B -> HA HB|low Hin H1 H2|A M B m0 mz -> Hh Hz HA HM HB Hout].
  - destruct (make_wf index target eof Hi Hb) as (_ & Ef & Es & _). apply Forall_app in Hs as [HsA HsB].
    apply Forall_app. split; [done|]. constructor; [|done]. destruct Hn as [Hn|Hn]; [left; lia|by right].
  - done.
  - destruct (merge_ends A M B m0 mz target index) as (Hm0 & Hmz & _ & G1 & G2 & G3 & G4 & _); [done..|].
    pose proof (frag_first m0 Hm0). pose proof (frag_bound mz Hmz).
    pose proof (merged_zlen m0 mz target index Hm0 Hmz G1 G4) as Elen.
    set (eof' := eof || _).
    destruct (make_wf (Z.min (first m0) index) (merged_string m0 mz target index (index + zlen target)) eof')
      as (_ & Ef & Es & _); [lia..|]. rewrite !Forall_app in Hs. destruct Hs as (HsA & _ & HsB).
    apply Forall_app. split; [done|]. constructor; [|done]. destruct Hn as [Hn| ->]; [left; lia|by right].
Qed.

(** An empty fragment left of all others becomes the first. *)
Lemma push_result_empty l index l' :
  wf l -> Forall (fun b => index < first b) l -> push_result l [] index false l' ->
  l' = BufferString.make index [] false :: l.
Proof.
  intros Hl Hf Hr. remember (@nil byte) as d eqn:Ed. remember false as e eqn:Ee.
  destruct Hr as [A B -> HA HB|low Hin H1 H2|A M B m0 mz -> Hh Hz HA HM HB Hout].
  - destruct A as [|a A]; [done|exfalso]. inversion HA; inversion Hf; subst.
    pose proof (frag_ordered a (proj1 (Forall_forall _ _) (wf_frags _ Hl) a ltac:(left))). lia.
  - exfalso. pose proof (proj1 (Forall_forall _ _) Hf low Hin). simpl in *. lia.
  - exfalso. apply head_Some_elem_of in Hh. pose proof (proj1 (Forall_forall _ _) HM m0 Hh) as [_ Hm].
    rewrite !Forall_app in Hf. destruct Hf as (_ & HfM & _). pose proof (proj1 (Forall_forall _ _) HfM m0 Hh).
    simpl in *. rewrite Ed in Hm. change (zlen (@nil byte)) with 0 in Hm. lia.
Qed.

End Fragments.

(** ** The reassembler *)

Module AnyOrder.
Import StreamReassembler.

(** The byte at index [i] has come. *)
Definition knows (r : t) (i : Z) : Prop :=
  i < _top_pointer r \/ is_Some (BufferStringList.content (_buffer_list r) i).

(** The end mark has come. *)
Definition knows_end (r : t) : Prop :=
  ByteStream.is_input_end (_output r) = true \/ exists b, b ∈ _buffer_list r /\ BufferString.eof b = true.

Section AnyOrder.
Context (base : Z) (D : string) (limit : Z).

(** Nothing that waits could be delivered, and all of it is inside the window. *)
Record gathering (r : t) : Prop := {
  ga_inv : inv base D r;
  ga_limit : _top_pointer r + room r = limit;
  ga_settled : Forall (fun b => _top_pointer r < first b) (_buffer_list r);
  ga_within : Forall (fun b => second b <= limit) (_buffer_list r);
  ga_end : Forall (fun b => second b <= base + zlen D) (_buffer_list r)
}.

(** Without gap up to [z], the top pointer is there. *)
Lemma gathering_top r z :
  gathering r -> (forall i, base <= i < z -> knows r i) -> z <= _top_pointer r.
Proof using.
  intros Hg Hk. destruct (Z.le_gt_cases z (_top_pointer r)) as [|Hlt]; [done|exfalso].
  pose proof (inv_top _ _ _ (ga_inv _ Hg)). pose proof (ByteStream.wf_read _ (inv_output _ _ _ (ga_inv _ Hg))) as [? _].
  zlen_pose. destruct (Hk (_top_pointer r)) as [?|[x Hx]]; [lia|lia|].
  rewrite BufferStringList.content_out in Hx; [done|].
  apply (Forall_impl _ _ _ (ga_settled _ Hg)). intros b Hb. simpl in Hb. lia.
Qed.

(** And the end mark is delivered with the last byte. *)
Lemma gathering_ended r :
  gathering r -> _top_pointer r = base + zlen D -> knows_end r -> ByteStream.is_input_end (_output r) = true.
Proof using.
  intros Hg Ht [He|(b & Hb & He)]; [done|exfalso].
  pose proof (proj1 (Forall_forall _ _) (ga_settled _ Hg) b Hb). pose proof (proj1 (Forall_forall _ _) (ga_end _ Hg) b Hb).
  pose proof (BufferStringList.frag_ordered b (proj1 (Forall_forall _ _)
    (BufferStringList.wf_frags _ (inv_list _ _ _ (ga_inv _ Hg))) b Hb)). simpl in *. lia.
Qed.

(** A fragment that is not ignored is stored, and what can be is delivered. *)
Lemma push_stores r data index eof :
  inv base D r -> segment_of base D data index eof -> _top_pointer r <= index + zlen data ->
  index + zlen data <= _top_pointer r + room r -> Z.max index (_top_pointer r) < _top_pointer r + room r ->
  let i := Z.max index (_top_pointer r) in
  let d := slice data (i - index) (zlen data - (i - index)) in
  push_substring r data index eof
  = (l ← BufferStringList.push_back (_buffer_list r) d i eof; assemble (mk (_top_pointer r) (_output r) (_capacity r) l))
  /\ segment_of base D d i eof /\ i + zlen d = index + zlen data.
Proof using.
  intros Hr Hseg H1 H2 H3 i d. destruct (current_capacity_room _ _ _ Hr) as [Ecap Hroom].
  pose proof Hseg as [Hs1 Hs2 Hs3 Hs4]. pose proof (inv_base _ _ _ Hr). pose proof (inv_bound _ _ _ Hr).
  pose proof (inv_top_le _ _ _ Hr). zlen_pose.
  assert (zlen d = zlen data - (i - index)) as El by (apply zlen_slice_le; lia).
  split; [|split; [|lia]].
  2: { replace i with (index + (i - index)) by lia. apply (segment_drop base D data index eof (i - index)); [done|lia]. }
  unfold push_substring. cbv zeta. rewrite Ecap. nowrap.
  assert ((index <? _top_pointer r) && (index + zlen data <? _top_pointer r) = false) as ->
    by (apply andb_false_intro2, Z.ltb_ge; lia).
  assert ((if index <? _top_pointer r then _top_pointer r else index) = i
    /\ (if index <? _top_pointer r
        then substr data (uint64 (_top_pointer r - index)) (uint64 (zlen data - uint64 (_top_pointer r - index)))
        else Ret data) = Ret d) as [-> ->].
  { unfold d, i. destruct (index <? _top_pointer r) eqn:E; zbool.
    - rewrite Z.max_r by lia. nowrap. rewrite substr_ok by lia. done.
    - rewrite Z.max_l, Z.sub_diag, Z.sub_0_r, slice_all by lia. done. }
  cbn [mbind outcome_bind]. nowrap. rewrite (proj2 (Z.ltb_ge (room r) (i - _top_pointer r + 1))) by lia.
  rewrite (proj2 (Z.ltb_ge (room r) (zlen d))) by lia. done.
Qed.

(** Delivering the front fragment forgets nothing. *)
Lemma assemble_gathers r b l :
  inv base D r -> _buffer_list r = b :: l -> _top_pointer r + room r = limit ->
  Forall (fun b => second b <= limit) (b :: l) -> Forall (fun b => second b <= base + zlen D) (b :: l) ->
  exists r' n, assemble r = Ret r' /\ gathering r' /\ delivered base D r r' n
    /\ (forall i, knows r' i <-> knows r i) /\ (knows_end r <-> knows_end r')
    /\ _buffer_list r' = (if first b =? _top_pointer r then l else b :: l).
Proof using.
  intros Hr El Hlim Hw He. pose proof (inv_list _ _ _ Hr) as Hl. pose proof (inv_window _ _ _ Hr) as Hwin. rewrite El in Hl, Hwin.
  apply BufferStringList.bsl_wf_cons in Hl as (Hb & Hbl & Hl). pose proof (BufferStringList.frag_ordered b Hb).
  destruct (decide (first b = _top_pointer r)) as [Ef|Ef].
  - destruct (assemble_whole base D r b l Hr El Ef) as (r' & E & Hr' & Hd & Hend & Hrest).
    { inversion Hw; subst. destruct Hb. lia. }
    specialize (Hrest l eq_refl). destruct Hb as [_ _ Es _]. pose proof Hd as (_ & Ht & Hc & Hrd & Hby).
    exists r', (zlen (BufferStringList.str b)). split; [done|].
    assert (_top_pointer r' = second b) as Et by lia. rewrite (proj2 (Z.eqb_eq _ _) Ef).
    split; [|split; [done|split; [|split; [split|done]]]].
    + inversion Hw; inversion He; subst. split; rewrite ?Hrest; try done.
      * rewrite <- Hlim, Ht. unfold room. rewrite Hc, Hby, zlen_app.
        pose proof (inv_top_le _ _ _ Hr'). pose proof (inv_top _ _ _ Hr).
        pose proof (ByteStream.wf_read _ (inv_output _ _ _ Hr)) as [? _]. zlen_pose.
        rewrite zlen_slice_le by lia. lia.
      * rewrite Et. apply (Forall_impl _ _ _ Hbl). by unfold BufferStringList.before.
    + intros i. unfold knows. rewrite Hrest, El, Et. simpl. unfold BufferStringList.char_at.
      destruct ((first b <=? i) && (i <? second b)) eqn:Ei.
      * apply andb_true_iff in Ei as [E1 E2]. apply Z.leb_le in E1. apply Z.ltb_lt in E2.
        destruct (BufferStringList.str b !! Z.to_nat (i - first b)) eqn:Ex.
        { split; [by right|by left]. }
        apply lookup_ge_None in Ex. unfold zlen in Es. lia.
      * apply out_of_interval in Ei. split; (intros [?|?]; [left; lia|by right]).
    + intros [Hx|(c & Hc' & Hx)]; [left; rewrite Hend, Hx; done|]. rewrite El in Hc'.
      apply elem_of_cons in Hc' as [->|Hc']; [left; rewrite Hend, Hx; by rewrite orb_true_r|].
      right. exists c. by rewrite Hrest.
    + intros [Hx|(c & Hc' & Hx)].
      * rewrite Hend in Hx. apply orb_true_iff in Hx as [Hx|Hx]; [by left|right]. exists b. rewrite El. split; [left|done].
      * right. exists c. rewrite El. rewrite Hrest in Hc'. split; [by right|done].
  - exists r, 0. rewrite (proj2 (Z.eqb_neq _ _) Ef). split_and!; try done.
    + unfold assemble. rewrite El. simpl. by rewrite (proj2 (Z.eqb_neq _ _)) by lia.
    + inversion Hwin; subst. split; rewrite ?El; try done. constructor; [lia|].
      apply (Forall_impl _ _ _ Hbl). unfold BufferStringList.before. intros. lia.
    + apply delivered_inv; try done; try lia.
      * by rewrite slice_empty, app_nil_r by lia.
      * pose proof (inv_top_le _ _ _ Hr). lia.
Qed.

(** What a fragment adds to what is known. *)
Lemma push_back_knows l d i eof l' :
  BufferStringList.wf l -> 0 <= i -> i + zlen d < 2 ^ 64 -> BufferStringList.push_back l d i eof = Ret l' ->
  forall j, is_Some (BufferStringList.content l' j)
    <-> is_Some (BufferStringList.content l j) \/ i <= j < i + zlen d.
Proof using.
  intros Hl Hi Hb E j. destruct (BufferStringList.push_back_spec l d i eof Hl Hi Hb) as (l'' & E' & _ & _ & _ & Hc).
  rewrite E in E'. injection E' as <-. rewrite Hc.
  destruct ((i <=? j) && (j <? i + zlen d)) eqn:Ej; cbn [andb].
  2: { apply out_of_interval in Ej. split; [by left|]. intros [?|?]; [done|lia]. }
  apply andb_true_iff in Ej as [E1 E2]. apply Z.leb_le in E1. apply Z.ltb_lt in E2.
  destruct (BufferStringList.inside l i (i + zlen d)) eqn:Ein; cbn [negb].
  - split; [by left|intros _]. apply existsb_exists in Ein as (low & Hlow & Hin). apply andb_true_iff in Hin as [H1 H2].
    apply Z.leb_le in H1, H2. apply list_elem_of_In in Hlow.
    rewrite (BufferStringList.content_holds l low) by (done || unfold BufferStringList.holds; lia).
    apply lookup_lt_is_Some. pose proof (proj1 (Forall_forall _ _) (BufferStringList.wf_frags _ Hl) low Hlow) as [_ ? Es _].
    unfold zlen in Es. lia.
  - split; [by right|intros _]. apply lookup_lt_is_Some. unfold zlen in *. lia.
Qed.

(** What the reassembler promises of one fragment: it stays well formed, delivers what
    became contiguous, and knows exactly the old bytes and those of the fragment. *)
Definition gathers (r : t) (data : string) (index : Z) (eof : bool) : Prop :=
  exists r' n, push_substring r data index eof = Ret r' /\ gathering r' /\ delivered base D r r' n
    /\ (forall i, knows r' i <-> knows r i \/ index <= i < index + zlen data)
    /\ (knows_end r -> knows_end r') /\ (eof = true -> _buffer_list r = [] -> knows_end r')
    /\ (knows_end r' -> knows_end r \/ eof = true)
    /\ (Forall Fragments.solid (_buffer_list r) -> index <= _top_pointer r \/ 0 < zlen data \/ eof = true ->
        Forall Fragments.solid (_buffer_list r')).

(** A fragment that leaves the reassembler as it was. *)
Lemma gathers_same r data index :
  gathering r -> push_substring r data index false = Ret r ->
  index + zlen data <= _top_pointer r \/ zlen data = 0 -> gathers r data index false.
Proof using.
  intros Hg E Hold. pose proof Hg as [Hr _ _ _ _]. pose proof (inv_top_le _ _ _ Hr).
  exists r, 0. split_and!; try done; [|..|by left].
  - apply delivered_inv; try done; try lia. by rewrite slice_empty, app_nil_r by lia.
  - intros i. split; [by left|]. intros [?|?]; [done|left; lia].
Qed.

(** After the assembly no waiting fragment is empty and unmarked: an empty one can only
    have been stored at the top, where the assembly takes it. *)
Lemma assembled_solid r d i eof b l0 :
  gathering r -> Forall Fragments.solid (_buffer_list r) -> 0 <= i -> i + zlen d < 2 ^ 64 ->
  BufferStringList.push_result (_buffer_list r) d i eof (b :: l0) ->
  0 < zlen d \/ eof = true \/ i = _top_pointer r ->
  Forall Fragments.solid (if first b =? _top_pointer r then l0 else b :: l0).
Proof using.
  intros Hg Hsolid Hi Hb Hres Hd0. pose proof Hg as [Hr _ Hset _ _]. pose proof (inv_top_le _ _ _ Hr). pose proof (inv_base _ _ _ Hr).
  zlen_pose. destruct (decide (0 < zlen d \/ eof = true)) as [Hd1|Hd1].
  - assert (Forall Fragments.solid (b :: l0)) as Hsl
      by (eapply Fragments.push_result_solid; [apply Hr| | |exact Hres|done|done]; lia).
    case_if; [by inversion Hsl|done].
  - destruct eof; [exfalso; apply Hd1; by right|]. assert (d = []) as Ed by (apply zlen_zero_nil; lia).
    assert (i = _top_pointer r) as Ei by (destruct Hd0 as [?|[?|?]]; [lia|done|done]).
    rewrite Ed, Ei in Hres. apply Fragments.push_result_empty in Hres as [= -> ->]; [|apply Hr|done].
    destruct (BufferStringList.make_wf (_top_pointer r) [] false) as (_ & -> & _); [lia|rewrite zlen_nil; lia|].
    by rewrite Z.eqb_refl.
Qed.

(** A fragment with something above the top and below the limit. *)
Lemma gathers_store r data index eof :
  gathering r -> segment_of base D data index eof -> index + zlen data <= limit -> index + zlen data <= base + zlen D ->
  _top_pointer r <= index + zlen data -> Z.max index (_top_pointer r) < limit -> gathers r data index eof.
Proof using.
  intros Hg Hseg Hfit Hin Hge Hin'. pose proof Hg as [Hr Hlim Hset Hw He]. pose proof Hseg as [Hs1 Hs2 Hs3 Hs4].
  pose proof (inv_top_le _ _ _ Hr). pose proof (inv_base _ _ _ Hr). pose proof (inv_bound _ _ _ Hr).
  destruct (current_capacity_room _ _ _ Hr) as [Ecap Hroom]. pose proof (inv_top _ _ _ Hr).
  pose proof (ByteStream.wf_read _ (inv_output _ _ _ Hr)) as [? ?]. zlen_pose. unfold gathers.
  destruct (push_stores r data index eof Hr Hseg) as (-> & Hseg' & Elen); [lia..|].
  set (i := Z.max index (_top_pointer r)) in *. set (d := slice data (i - index) (zlen data - (i - index))) in *.
  destruct (BufferStringList.push_back_spec (_buffer_list r) d i eof) as (l & El & Hl & Hne & Hres & _);
    [apply Hr|lia|lia|].
  destruct (store_inv base D r d i eof Hr Hseg') as (b & l0 & El' & Hinv & _ & Hnil); [lia|].
  rewrite El in El'. injection El' as ->. rewrite El. cbn [mbind outcome_bind].
  assert (Forall (fun b => second b <= limit) (b :: l0)) as Hw'
    by (eapply Fragments.push_result_bound; [apply Hr| | |exact Hres|done|]; lia).
  assert (Forall (fun b => second b <= base + zlen D) (b :: l0)) as He'
    by (eapply Fragments.push_result_bound; [apply Hr| | |exact Hres|done|]; lia).
  destruct (assemble_gathers _ b l0 Hinv eq_refl Hlim Hw' He') as (r' & n & E & Hg' & Hd & Hk & Hend & Hlist).
  exists r', n. split; [done|]. split; [done|]. split; [exact Hd|]. split; [|split; [|split; [|split]]].
  - intros j. rewrite Hk. unfold knows. cbn [_top_pointer _buffer_list].
    rewrite (push_back_knows (_buffer_list r) d i eof (b :: l0)) by (done || apply Hr || lia).
    split; [intros [?|[?|?]]; [by left; left|by left; right|right; lia]|].
    intros [[?|?]|?]; [by left|by right; left|]. destruct (decide (j < _top_pointer r)); [by left|right; right; lia].
  - intros Hx. apply Hend. destruct Hx as [Hx|Hx]; [by left|right].
    eapply Fragments.push_result_keeps_eof; [apply Hr| | |exact Hres|exact He|apply Hr|exact Hx]; lia.
  - intros -> Enil. apply Hend. right. destruct (Hnil Enil) as [-> ->]. eexists. split; [left|done].
  - intros Hx. apply Hend in Hx as [Hx|Hx]; [by left; left|].
    destruct (Fragments.push_result_eof_from _ _ _ _ _ Hres Hx) as [?|?]; [by right|left; by right].
  - intros Hsolid Hd0. rewrite Hlist. apply (assembled_solid r d i eof); try done; try lia.
    destruct Hd0 as [?|[?|?]]; [|destruct (decide (0 < zlen d))|]; [right; right; lia|by left|right; right; lia|by right; left].
Qed.

(** A fragment of the stream inside the window; the one that carries the end mark must
    leave room for the mark and come when nothing waits. *)
Lemma gathering_push r data index eof :
  gathering r -> segment_of base D data index eof -> index + zlen data <= limit -> index + zlen data <= base + zlen D ->
  (eof = true -> index + zlen data < limit) -> gathers r data index eof.
Proof using.
  intros Hg Hseg Hfit Hin Heof. pose proof Hg as [Hr Hlim _ _ _]. pose proof Hseg as [Hs1 Hs2 Hs3 Hs4].
  pose proof (inv_top_le _ _ _ Hr). pose proof (inv_base _ _ _ Hr). pose proof (inv_bound _ _ _ Hr).
  destruct (current_capacity_room _ _ _ Hr) as [Ecap Hroom]. pose proof (inv_top _ _ _ Hr).
  pose proof (ByteStream.wf_read _ (inv_output _ _ _ Hr)) as [? ?]. zlen_pose.
  destruct (decide (index + zlen data < _top_pointer r)) as [Hlt|Hge].
  { destruct eof; [specialize (Hs4 eq_refl); lia|]. apply gathers_same; [done| |lia].
    apply (push_ignored base D); [done|done|lia|lia]. }
  destruct (decide (Z.max index (_top_pointer r) < limit)) as [Hin'|Hout]; [apply gathers_store; (done || lia)|].
  destruct eof; [specialize (Heof eq_refl); lia|]. apply gathers_same; [done| |lia].
  destruct (decide (index <= _top_pointer r)) as [Hle|Hgt]; [apply (push_ignored base D); (done || lia)|].
  unfold push_substring. cbv zeta. rewrite Ecap. nowrap. rewrite (proj2 (Z.ltb_ge index (_top_pointer r))) by lia.
  cbn [andb mbind outcome_bind].
  nowrap. by rewrite (proj2 (Z.ltb_lt (room r) (index - _top_pointer r + 1))) by lia.
Qed.

(** ** Sequences of fragments *)

(** A fragment: its bytes, its index and its end mark. *)
Definition fragment : Type := string * Z * bool.
Definition push (f : fragment) : op := let '(data, index, eof) := f in Push data index eof.
Definition covers (f : fragment) (i : Z) : Prop := let '(data, index, _) := f in index <= i < index + zlen data.
Definition marked (f : fragment) : bool := let '(_, _, eof) := f in eof.

(** Part of the stream and of the window, with room for the end mark. *)
Definition fits (f : fragment) : Prop :=
  let '(data, index, eof) := f in
  segment_of base D data index eof /\ index + zlen data <= Z.min limit (base + zlen D)
  /\ (eof = true -> index + zlen data < limit).

Lemma gathering_run frags r :
  gathering r -> Forall fits frags ->
  exists r' ds, run step r (push <$> frags) = Ret (r', ds) /\ gathering r'
    /\ _capacity r' = _capacity r /\ ByteStream._bytes_read (_output r') = ByteStream._bytes_read (_output r)
    /\ (forall i, knows r' i <-> knows r i \/ exists f, f ∈ frags /\ covers f i)
    /\ (knows_end r -> knows_end r')
    /\ (forall f, head frags = Some f -> marked f = true -> _buffer_list r = [] -> knows_end r').
Proof using.
  revert r. induction frags as [|[[data index] eof] frags IH]; intros r Hg Hf.
  { exists r, []. split_and!; try done. intros i. split; [by left|]. intros [?|(f & Hn & _)]; [done|by apply elem_of_nil in Hn]. }
  apply Forall_cons in Hf as [Hfit Hf']. unfold fits in Hfit. destruct Hfit as (Hs & Hin & He).
  destruct (gathering_push r data index eof Hg Hs) as (r1 & n & E & Hg1 & Hd & Hk & Hend & Hmark & _); [lia|lia|done|].
  destruct (IH r1 Hg1 Hf') as (r' & ds & E' & Hg' & Hc & Hrd & Hk' & Hend' & _).
  exists r', ([] :: ds). destruct Hd as (_ & _ & Hc1 & Hrd1 & _). split.
  { cbn [fmap list_fmap push run step]. rewrite E. cbn [mbind outcome_bind].
    change (list_fmap _ _ push frags) with (push <$> frags). by rewrite E'. }
  split; [done|]. split; [congruence|]. split; [congruence|]. split; [|split; [by auto|]].
  - intros i. rewrite Hk', Hk. split.
    + intros [[?|?]|(f & Hfl & Hcv)]; [by left|right|right; exists f; split; [by right|done]].
      eexists. split; [left|done].
    + intros [?|(f & [->|Hfl]%elem_of_cons & Hcv)]; [by left; left|left; by right|right; by exists f].
  - intros f [= <-] Hm Enil. auto.
Qed.

End AnyOrder.
End AnyOrder.

(** ** Properties *)

(** C7: Fragments that together cover the first [z] bytes of the stream and lie in
    the window (one with the end mark ends strictly before the window's limit) are
    all delivered, whatever order they come in and however they overlap; when the
    first to come carries the end mark and [z] is the length of the stream, the
    output has ended. *)
Theorem reassembler_any_order (c : Z) (D : string) (frags : list AnyOrder.fragment) (z : Z) :
  is_u64 c -> zlen D < 2 ^ 64 - 1 -> Forall (AnyOrder.fits 0 D c) frags ->
  (forall i, 0 <= i < z -> exists f, f ∈ frags /\ AnyOrder.covers f i) ->
  exists r ds, run StreamReassembler.step (StreamReassembler.new c) (AnyOrder.push <$> frags) = Ret (r, ds)
    /\ z <= StreamReassembler._top_pointer r
    /\ ByteStream.bytes (StreamReassembler.stream_out r) = take (Z.to_nat (StreamReassembler._top_pointer r)) D
    /\ (z = zlen D -> (exists f, head frags = Some f /\ AnyOrder.marked f = true) ->
        ByteStream.input_ended (StreamReassembler.stream_out r) = true).
Proof.
  intros Hc HD Hf Hcov. pose proof (StreamReassembler.reassembler_new_inv c D Hc HD) as Hr0.
  assert (AnyOrder.gathering 0 D c (StreamReassembler.new c)) as Hg0.
  { split; [done| |constructor..]. change (0 + (c - 0) = c). lia. }
  destruct (AnyOrder.gathering_run 0 D c frags _ Hg0 Hf) as (r & ds & E & Hg & _ & Hrd & Hk & _ & Hmark).
  assert (z <= StreamReassembler._top_pointer r) as Hz.
  { apply (AnyOrder.gathering_top 0 D c r z Hg). intros i Hi. apply Hk. right. by apply Hcov. }
  pose proof (AnyOrder.ga_inv _ _ _ _ Hg) as Hr. exists r, ds. split; [done|]. split; [done|]. split.
  - pose proof (StreamReassembler.inv_delivered 0 D r Hr) as Ed. rewrite Hrd, Z.sub_0_r in Ed. simpl in Ed. exact Ed.
  - intros -> (f & Hh & Hm). pose proof (StreamReassembler.inv_top_le _ _ _ Hr).
    apply (AnyOrder.gathering_ended 0 D c r Hg); [lia|]. by apply (Hmark f).
Qed.

Lemma reassembler_any_order_witness :
  let D := [Byte.x61; Byte.x62; Byte.x63; Byte.x64] in
  let frags := [([Byte.x64], 3, true); ([Byte.x62; Byte.x63], 1, false); ([Byte.x61; Byte.x62], 0, false)] in
  exists r ds, run StreamReassembler.step (StreamReassembler.new 8) (AnyOrder.push <$> frags) = Ret (r, ds)
    /\ 4 <= StreamReassembler._top_pointer r
    /\ ByteStream.bytes (StreamReassembler.stream_out r) = take (Z.to_nat (StreamReassembler._top_pointer r)) D
    /\ (4 = zlen D -> (exists f, head frags = Some f /\ AnyOrder.marked f = true) ->
        ByteStream.input_ended (StreamReassembler.stream_out r) = true).
Proof.
  intros D frags. apply (reassembler_any_order 8 D frags 4); [done|done| |].
  - repeat constructor; done.
  - intros i Hi. assert (i = 0 \/ i = 1 \/ i = 2 \/ i = 3) as [->|[->|[->| ->]]] by lia; eexists;
      (split; [|]); [right; right; left|done|right; left|done|right; left|done|left|done].
Defined.
