(* ===== verification/UtilBuffer.v ===== *)
(** * Packet buffers (util/buffer.hh, util/buffer.cc)

    [Buffer] is the reference-counted string that packets are parsed from: a
    shared string and the number of bytes discarded from its front, the string
    being released when nothing is left of it.  [BufferList] is a list of such
    buffers, [BufferViewList] a list of views of them.  The lemmas read each as
    the string it stands for. *)

From S2P Require Import Prelude.

Module Buffer.

Record t := mk { _storage : option string; _starting_offset : Z }.

Definition null : t := mk None 0.
Definition of_string (str : string) : t := mk (Some str) 0.

Definition str (b : t) : string :=
  match _storage b with
  | None => []
  | Some s => drop (Z.to_nat (_starting_offset b)) s
  end.

Definition size (b : t) : Z := zlen (str b).
Definition copy (b : t) : string := str b.

(** [str().at(n)], which checks its bounds *)
Definition at_ (b : t) (n : Z) : outcome Z :=
  match str b !! Z.to_nat n with
  | Some c => Ret (byte_to_Z c)
  | None => Throw out_of_range
  end.

Definition remove_prefix (b : t) (n : Z) : outcome t :=
  if zlen (str b) <? n then Throw out_of_range else
  let starting_offset := uint64 (_starting_offset b + n) in
  match _storage b with
  | Some s => if starting_offset =? zlen s then Ret (mk None starting_offset)
              else Ret (mk (Some s) starting_offset)
  | None => Ret (mk None starting_offset)
  end.

(** The offset stays inside the string. *)
Definition wf (b : t) : Prop :=
  match _storage b with
  | None => True
  | Some s => 0 <= _starting_offset b <= zlen s /\ zlen s < 2 ^ 64
  end.

Lemma buf_of_string_wf s : zlen s < 2 ^ 64 -> wf (of_string s).
Proof. unfold wf; simpl. zlen_lia. Qed.

Lemma str_of_string s : str (of_string s) = s.
Proof. reflexivity. Qed.

Lemma buf_remove_prefix_spec b n :
  wf b -> 0 <= n <= zlen (str b) ->
  exists b', remove_prefix b n = Ret b' /\ wf b' /\ str b' = drop (Z.to_nat n) (str b).
Proof.
  intros Hb Hn. unfold remove_prefix. rewrite (proj2 (Z.ltb_ge _ _)) by lia.
  unfold wf, str in *. destruct (_storage b) as [s|] eqn:Es.
  - autorewrite with sponge in Hn. zlen_pose. nowrap. case_if; eexists; (split; [done|]); simpl.
    + split; [done|]. rewrite drop_drop, drop_ge; [done|]. unfold zlen in *. lia.
    + split; [lia|]. rewrite drop_drop. f_equal. lia.
  - eexists; split; [done|]. simpl. by rewrite drop_nil.
Qed.

Lemma buf_remove_prefix_throws b n : zlen (str b) < n -> remove_prefix b n = Throw out_of_range.
Proof. intros. unfold remove_prefix. by rewrite (proj2 (Z.ltb_lt _ _)) by lia. Qed.

Lemma at_spec b n c : str b !! Z.to_nat n = Some c -> at_ b n = Ret (byte_to_Z c).
Proof. intros E. unfold at_. by rewrite E. Qed.

End Buffer.

Module BufferList.

Definition t : Type := list Buffer.t.

Definition of_buffer (b : Buffer.t) : t := [b].
Definition of_string (s : string) : t := [Buffer.of_string s].

Definition append (l other : t) : t := l ++ other.

(** The conversion to a [Buffer] throws unless the list is contiguous. *)
Definition to_Buffer (l : t) : outcome Buffer.t :=
  match l with
  | [] => Ret Buffer.null
  | [b] => Ret b
  | _ => Throw runtime_error
  end.

Definition concatenate (l : t) : string := fold_left (fun ret buf => ret ++ Buffer.str buf) l [].

Definition size (l : t) : Z := fold_left (fun ret buf => uint64 (ret + Buffer.size buf)) l 0.

Fixpoint remove_prefix (l : t) (n : Z) : outcome t :=
  if n <=? 0 then Ret l else
  match l with
  | [] => Throw out_of_range
  | front :: rest =>
      if n <? zlen (Buffer.str front)
      then front' ← Buffer.remove_prefix front n; Ret (front' :: rest)
      else remove_prefix rest (uint64 (n - zlen (Buffer.str front)))
  end.

(** The string a list stands for. *)
Definition bytes (l : t) : string := concat (Buffer.str <$> l).

Lemma bl_bytes_cons b l : bytes (b :: l) = Buffer.str b ++ bytes l.
Proof. reflexivity. Qed.

Lemma bytes_append l k : bytes (append l k) = bytes l ++ bytes k.
Proof. unfold bytes, append. rewrite fmap_app. apply concat_app. Qed.

Lemma bl_bytes_of_string s : bytes (of_string s) = s.
Proof. unfold bytes; simpl. apply app_nil_r. Qed.

Lemma bytes_of_buffer b : bytes (of_buffer b) = Buffer.str b.
Proof. unfold bytes; simpl. apply app_nil_r. Qed.

Lemma concatenate_bytes l : concatenate l = bytes l.
Proof.
  unfold concatenate. enough (forall acc, fold_left (fun ret buf => ret ++ Buffer.str buf) l acc
    = acc ++ bytes l) as H by apply H.
  induction l as [|b l IH]; intros acc; simpl; [by rewrite app_nil_r|].
  by rewrite IH, bl_bytes_cons, app_assoc.
Qed.

Lemma bl_size_bytes l : zlen (bytes l) < 2 ^ 64 -> size l = zlen (bytes l).
Proof.
  intros Hl. unfold size.
  enough (forall acc, 0 <= acc -> acc + zlen (bytes l) < 2 ^ 64 ->
    fold_left (fun ret buf => uint64 (ret + Buffer.size buf)) l acc = acc + zlen (bytes l)) as H
    by (apply H; lia).
  clear Hl. induction l as [|b l IH]; intros acc Ha Hb; simpl.
  - unfold bytes; simpl. zlen_lia.
  - rewrite bl_bytes_cons in *. unfold Buffer.size. zlen_lia. nowrap. rewrite IH by lia. lia.
Qed.

Lemma bl_remove_prefix_spec l n :
  Forall Buffer.wf l -> 0 <= n <= zlen (bytes l) -> n < 2 ^ 64 ->
  exists l', remove_prefix l n = Ret l' /\ bytes l' = drop (Z.to_nat n) (bytes l).
Proof.
  revert n. induction l as [|b l IH]; intros n Hl Hn Hb; simpl.
  - unfold bytes in Hn; simpl in Hn. zlen_lia. replace n with 0 by lia. by exists [].
  - inversion Hl; subst. rewrite bl_bytes_cons in *. zlen_lia.
    case_if. { exists (b :: l). replace n with 0 by lia. by rewrite drop_0. }
    case_if.
    + destruct (Buffer.buf_remove_prefix_spec b n) as (b' & -> & _ & Eb); [done|lia|]. simpl.
      eexists. split; [done|]. rewrite bl_bytes_cons, Eb, drop_app_le by (unfold zlen in *; lia). done.
    + nowrap. destruct (IH (n - zlen (Buffer.str b))) as (l' & -> & El); [done|lia|lia|].
      exists l'. split; [done|]. rewrite El, drop_app_ge by (unfold zlen in *; lia).
      f_equal. unfold zlen. lia.
Qed.

End BufferList.

Module BufferViewList.

Definition t : Type := list string.

Definition of_string (s : string) : t := [s].
Definition of_BufferList (buffers : BufferList.t) : t := Buffer.str <$> buffers.

Fixpoint remove_prefix (l : t) (n : Z) : outcome t :=
  if n <=? 0 then Ret l else
  match l with
  | [] => Throw out_of_range
  | front :: rest =>
      if n <? zlen front then Ret (drop (Z.to_nat n) front :: rest)
      else remove_prefix rest (uint64 (n - zlen front))
  end.

Definition size (l : t) : Z := fold_left (fun ret buf => uint64 (ret + zlen buf)) l 0.

(** The address and length of each view; the address is the view itself here. *)
Definition as_iovecs (l : t) : list (string * Z) := (fun x => (x, zlen x)) <$> l.

Lemma iovecs_bytes l : concat ((as_iovecs l).*1) = concat l.
Proof. unfold as_iovecs. rewrite <- list_fmap_compose. simpl. by rewrite list_fmap_id. Qed.

Lemma view_size_bytes l : zlen (concat l) < 2 ^ 64 -> size l = zlen (concat l).
Proof.
  intros Hl. unfold size.
  enough (forall acc, 0 <= acc -> acc + zlen (concat l) < 2 ^ 64 ->
    fold_left (fun ret buf => uint64 (ret + zlen buf)) l acc = acc + zlen (concat l)) as H
    by (apply H; lia).
  clear Hl. induction l as [|b l IH]; intros acc Ha Hb; simpl in *; [zlen_lia|].
  zlen_lia. nowrap. rewrite IH by lia. lia.
Qed.

Lemma view_remove_prefix_spec l n :
  0 <= n <= zlen (concat l) -> n < 2 ^ 64 ->
  exists l', remove_prefix l n = Ret l' /\ concat l' = drop (Z.to_nat n) (concat l).
Proof.
  revert n. induction l as [|b l IH]; intros n Hn Hb; simpl in *.
  - zlen_lia. replace n with 0 by lia. by exists [].
  - zlen_lia. case_if. { exists (b :: l). replace n with 0 by lia. by rewrite drop_0. }
    case_if.
    + eexists. split; [done|]. simpl. rewrite drop_app_le by (unfold zlen in *; lia). done.
    + nowrap. destruct (IH (n - zlen b)) as (l' & -> & El); [lia|lia|].
      exists l'. split; [done|]. rewrite El, drop_app_ge by (unfold zlen in *; lia).
      f_equal. unfold zlen. lia.
Qed.

End BufferViewList.
