(* ===== verification/Parser.v ===== *)
(** * Parsing and serialising integers (util/parser.hh, util/parser.cc)

    [NetParser] reads big-endian integers from the front of a [Buffer] and
    remembers the first lack of data as an error; [NetUnparser] appends them to
    a string. *)

From Stdlib Require Strings.String.
From S2P Require Import Prelude UtilBuffer.

Inductive ParseResult :=
  | NoError
  | BadChecksum
  | PacketTooShort
  | WrongIPVersion
  | HeaderTooShort
  | TruncatedPacket
  | Unsupported.

#[export] Instance ParseResult_eq_dec : EqDecision ParseResult.
Proof. solve_decision. Defined.

(** The enumerator's value and the table of names [as_string] indexes with it. *)
Definition parse_result_index (r : ParseResult) : nat :=
  match r with
  | NoError => 0 | BadChecksum => 1 | PacketTooShort => 2 | WrongIPVersion => 3
  | HeaderTooShort => 4 | TruncatedPacket => 5 | Unsupported => 6
  end.

Module ParseResultNames.
Import Stdlib.Strings.String.
Local Open Scope string_scope.

Definition names : list (list byte) :=
  List.map list_byte_of_string
    ["NoError"; "BadChecksum"; "PacketTooShort"; "WrongIPVersion"; "HeaderTooShort"; "TruncatedPacket"].

End ParseResultNames.

(** Reading past the end of the table is undefined. *)
Definition as_string (r : ParseResult) : outcome string :=
  match ParseResultNames.names !! parse_result_index r with
  | Some s => Ret s
  | None => Throw undefined_behaviour
  end.

(** The value of a big-endian string of bytes. *)
Definition be_value (s : string) : Z := fold_left (fun acc c => acc * 256 + byte_to_Z c) s 0.

Lemma be_value_snoc s c : be_value (s ++ [c]) = be_value s * 256 + byte_to_Z c.
Proof. unfold be_value. by rewrite fold_left_app. Qed.

Lemma be_value_range s : 0 <= be_value s < 2 ^ (8 * zlen s).
Proof.
  induction s as [|c s IH] using rev_ind; [by vm_compute|].
  pose proof (byte_to_Z_range c) as Hc. unfold is_u8 in Hc.
  replace (8 * zlen (s ++ [c])) with (8 * zlen s + 8) by (rewrite zlen_app; unfold zlen; simpl; lia).
  rewrite be_value_snoc, Z.pow_add_r by (zlen_pose; lia). lia.
Qed.

Module NetParser.

Record t := mk { _buffer : Buffer.t; _error : ParseResult }.

Definition new (buffer : Buffer.t) : t := mk buffer NoError.
Definition buffer (p : t) : Buffer.t := _buffer p.
Definition get_error (p : t) : ParseResult := _error p.
Definition set_error (p : t) (res : ParseResult) : t := mk (_buffer p) res.
Definition error (p : t) : bool := negb (bool_decide (get_error p = NoError)).

Definition _check_size (p : t) (size : Z) : t :=
  if Buffer.size (_buffer p) <? size then set_error p PacketTooShort else p.

(** The loop of [_parse_int]: [len] bytes from the [i]th, on [8 * width] bits. *)
Fixpoint parse_loop (b : Buffer.t) (width : nat) (i : Z) (len : nat) (ret : Z) : outcome Z :=
  match len with
  | O => Ret ret
  | S len =>
      c ← Buffer.at_ b i;
      let m := 2 ^ (8 * Z.of_nat width) in
      parse_loop b width (i + 1) len ((Z.shiftl ret 8 mod m + c) mod m)
  end.

(** [len] is [sizeof(T)]. *)
Definition _parse_int (len : nat) (p : t) : outcome (Z * t) :=
  let p := _check_size p (Z.of_nat len) in
  if error p then Ret (0, p) else
  ret ← parse_loop (_buffer p) len 0 len 0;
  b ← Buffer.remove_prefix (_buffer p) (Z.of_nat len);
  Ret (ret, mk b (_error p)).

Definition u32 (p : t) : outcome (Z * t) := _parse_int 4 p.
Definition u16 (p : t) : outcome (Z * t) := _parse_int 2 p.
Definition u8 (p : t) : outcome (Z * t) := _parse_int 1 p.

Definition remove_prefix (p : t) (n : Z) : outcome t :=
  let p := _check_size p n in
  if error p then Ret p else
  b ← Buffer.remove_prefix (_buffer p) n;
  Ret (mk b (_error p)).

(** A parser at the front of [s] with no error so far. *)
Record at_front (p : t) (s : string) : Prop := {
  af_wf : Buffer.wf (_buffer p);
  af_str : Buffer.str (_buffer p) = s;
  af_error : _error p = NoError
}.

Lemma new_at_front_buffer b : Buffer.wf b -> at_front (new b) (Buffer.str b).
Proof. by split. Qed.

Lemma new_at_front s : zlen s < 2 ^ 64 -> at_front (new (Buffer.of_string s)) s.
Proof. intros. split; [by apply Buffer.buf_of_string_wf|done|done]. Qed.

Lemma parser_remove_prefix_spec p s n :
  at_front p s -> 0 <= n <= zlen s ->
  exists p', remove_prefix p n = Ret p' /\ at_front p' (drop (Z.to_nat n) s).
Proof.
  intros [Hw <- He] Hn. unfold remove_prefix, _check_size, Buffer.size.
  rewrite (proj2 (Z.ltb_ge _ _)) by lia. unfold error, get_error. rewrite He. simpl.
  destruct (Buffer.buf_remove_prefix_spec (_buffer p) n) as (b' & -> & Hw' & Eb); [done|lia|].
  eexists. split; [done|]. by split.
Qed.

(** Too little data is an error, and nothing is consumed. *)
Lemma remove_prefix_short p n :
  Buffer.size (_buffer p) < n -> remove_prefix p n = Ret (set_error p PacketTooShort).
Proof. intros. unfold remove_prefix, _check_size. by rewrite (proj2 (Z.ltb_lt _ _)) by lia. Qed.

Lemma parse_int_short p len :
  Buffer.size (_buffer p) < Z.of_nat len -> _parse_int len p = Ret (0, set_error p PacketTooShort).
Proof. intros. unfold _parse_int, _check_size. by rewrite (proj2 (Z.ltb_lt _ _)) by lia. Qed.

Lemma parse_loop_spec b width s1 s2 rest :
  Buffer.str b = s1 ++ s2 ++ rest -> (length (s1 ++ s2) <= width)%nat ->
  parse_loop b width (zlen s1) (length s2) (be_value s1) = Ret (be_value (s1 ++ s2)).
Proof.
  revert s1. induction s2 as [|c s2 IH]; intros s1 Eb Hw; simpl; [by rewrite app_nil_r|].
  rewrite (Buffer.at_spec _ _ c).
  2: { rewrite Eb. unfold zlen. rewrite Nat2Z.id. by apply list_lookup_middle. }
  simpl. pose proof (be_value_range (s1 ++ [c])) as Hr. pose proof (be_value_range s1) as Hr1.
  pose proof (byte_to_Z_range c) as Hc. unfold is_u8 in Hc.
  rewrite be_value_snoc in Hr. rewrite !length_app in Hw. simpl in Hw.
  assert (2 ^ (8 * zlen (s1 ++ [c])) <= 2 ^ (8 * Z.of_nat width)).
  { apply Z.pow_le_mono_r; [lia|]. unfold zlen. rewrite length_app. simpl. lia. }
  rewrite Z.shiftl_mul_pow2 by lia. change (2 ^ 8) with 256.
  rewrite !Z.mod_small by (rewrite ?Z.mod_small; lia). rewrite <- be_value_snoc.
  replace (zlen s1 + 1) with (zlen (s1 ++ [c])) by (rewrite zlen_app; done).
  replace (s1 ++ c :: s2) with ((s1 ++ [c]) ++ s2) by (by rewrite <- app_assoc).
  apply IH; [by rewrite Eb, <- app_assoc | rewrite !length_app in *; simpl; lia].
Qed.

(** With enough data the big-endian value is read and its bytes are consumed. *)
Lemma parse_int_spec len p s rest :
  at_front p (s ++ rest) -> length s = len ->
  exists p', _parse_int len p = Ret (be_value s, p') /\ at_front p' rest.
Proof.
  intros [Hw Es He] Hl. unfold _parse_int, _check_size, Buffer.size. rewrite Es.
  rewrite (proj2 (Z.ltb_ge _ _)) by (unfold zlen; rewrite length_app; lia).
  unfold error, get_error. rewrite He. simpl.
  assert (parse_loop (_buffer p) len 0 len 0 = Ret (be_value s)) as ->.
  { rewrite <- Hl. by apply (parse_loop_spec _ _ [] s rest). }
  simpl.
  destruct (Buffer.buf_remove_prefix_spec (_buffer p) (Z.of_nat len)) as (b' & -> & Hw' & Eb).
  { done. } { rewrite Es. unfold zlen. rewrite length_app. lia. }
  eexists. split; [done|]. split; [done| |done]. simpl. rewrite Eb, Es, Nat2Z.id, <- Hl.
  apply drop_app_length.
Qed.

(** A parser that started on [s] and was asked for [n] bytes of it in all: it has
    them, or the shortage is recorded. *)
Definition after (p : t) (s : string) (n : Z) : Prop :=
  Buffer.wf (_buffer p) /\
  if n <=? zlen s then Buffer.str (_buffer p) = drop (Z.to_nat n) s /\ _error p = NoError
  else _error p = PacketTooShort.

Lemma after_0 p s : at_front p s -> after p s 0.
Proof.
  intros [Hw Hs He]. split; [done|]. rewrite (proj2 (Z.leb_le _ _)) by zlen_lia. by rewrite drop_0.
Qed.

Lemma after_at_front p s n : after p s n -> n <= zlen s -> at_front p (drop (Z.to_nat n) s).
Proof. intros [Hw H] Hn. rewrite (proj2 (Z.leb_le _ _)) in H by done. destruct H. by split. Qed.

Lemma at_front_after p s n : 0 <= n <= zlen s -> at_front p (drop (Z.to_nat n) s) -> after p s n.
Proof. intros Hn [Hw Hs He]. split; [done|]. by rewrite (proj2 (Z.leb_le _ _)) by lia. Qed.

Lemma after_error p s n : after p s n -> zlen s < n -> _error p = PacketTooShort.
Proof. intros [Hw H] Hn. by rewrite (proj2 (Z.leb_gt _ _)) in H by done. Qed.

Lemma after_get_error p s n :
  after p s n -> get_error p = if n <=? zlen s then NoError else PacketTooShort.
Proof. intros [_ H]. unfold get_error. case_if; [apply H|done]. Qed.

Lemma after_short_any p s n m : after p s n -> zlen s < n -> zlen s < m -> after p s m.
Proof.
  intros [Hw H] Hn Hm. split; [done|]. rewrite (proj2 (Z.leb_gt n _)) in H by done.
  by rewrite (proj2 (Z.leb_gt m _)) by done.
Qed.

Lemma after_has_error p s n : after p s n -> error p = (zlen s <? n).
Proof.
  intros H. unfold error. rewrite (after_get_error _ _ _ H).
  rewrite Z.leb_antisym. by destruct (zlen s <? n).
Qed.

(** A parser that has run short stays so. *)
Lemma after_short p s n m :
  after p s n -> zlen s < n + m -> (zlen s < n \/ Buffer.size (_buffer p) < m) ->
  after (_check_size p m) s (n + m) /\ error (_check_size p m) = true.
Proof.
  intros H Hm Hc. unfold after, _check_size, error, get_error.
  rewrite (proj2 (Z.leb_gt (n + m) _)) by lia. destruct (_ <? m) eqn:E; zbool; simpl.
  - split; [|done]. split; [apply H|done].
  - destruct Hc as [Hc|Hc]; [|lia]. rewrite (after_error _ _ _ H) by done.
    split; [|done]. split; [apply H|done].
Qed.

Lemma parse_int_after len p s n :
  0 <= n -> after p s n ->
  exists v p', _parse_int len p = Ret (v, p') /\ after p' s (n + Z.of_nat len)
    /\ (n + Z.of_nat len <= zlen s -> v = be_value (slice s n (Z.of_nat len))).
Proof.
  intros Hn H. destruct (Z.le_gt_cases (n + Z.of_nat len) (zlen s)) as [Hl|Hl].
  - pose proof (after_at_front _ _ _ H) as Hf. rewrite <- (take_drop len (drop _ _)) in Hf.
    destruct (parse_int_spec len p _ _ (Hf ltac:(lia))) as (p' & -> & Hp').
    { rewrite length_take, length_drop. unfold zlen in Hl. lia. }
    do 2 eexists. split; [done|]. split; [|intros _; unfold slice; by rewrite Nat2Z.id].
    apply at_front_after; [lia|]. rewrite drop_drop in Hp'.
    by replace (Z.to_nat (n + Z.of_nat len)) with (Z.to_nat n + len)%nat by lia.
  - destruct (after_short p s n (Z.of_nat len) H) as [Ha Hx]; [lia| |].
    { destruct (Z.le_gt_cases n (zlen s)) as [Hc|]; [right|by left].
      unfold Buffer.size. rewrite (af_str _ _ (after_at_front _ _ _ H Hc)), zlen_drop. lia. }
    unfold _parse_int. rewrite Hx. do 2 eexists. split; [done|]. split; [done|lia].
Qed.

Lemma remove_prefix_after m p s n :
  0 <= n -> 0 <= m -> after p s n ->
  exists p', remove_prefix p m = Ret p' /\ after p' s (n + m).
Proof.
  intros Hn Hm H. destruct (Z.le_gt_cases (n + m) (zlen s)) as [Hl|Hl].
  - destruct (parser_remove_prefix_spec p _ m (after_at_front _ _ _ H ltac:(lia))) as (p' & -> & Hp').
    { rewrite zlen_drop. lia. }
    eexists. split; [done|]. apply at_front_after; [lia|]. rewrite drop_drop in Hp'.
    by replace (Z.to_nat (n + m)) with (Z.to_nat n + Z.to_nat m)%nat by lia.
  - destruct (after_short p s n m H) as [Ha Hx]; [lia| |].
    { destruct (Z.le_gt_cases n (zlen s)) as [Hc|]; [right|by left].
      unfold Buffer.size. rewrite (af_str _ _ (after_at_front _ _ _ H Hc)), zlen_drop. lia. }
    unfold remove_prefix. rewrite Hx. eauto.
Qed.

End NetParser.

Module NetUnparser.

(** The bytes appended to the string. *)
Definition _unparse_int (len : nat) (val : Z) : string :=
  (fun i => byte_of_Z (Z.land (Z.shiftr val (Z.of_nat (len - i - 1) * 8)) 255)) <$> seq 0 len.

Definition u32 (s : string) (val : Z) : string := s ++ _unparse_int 4 val.
Definition u16 (s : string) (val : Z) : string := s ++ _unparse_int 2 val.
Definition u8 (s : string) (val : Z) : string := s ++ _unparse_int 1 val.

Lemma zlen_unparse len val : zlen (_unparse_int len val) = Z.of_nat len.
Proof. unfold zlen, _unparse_int. by rewrite length_fmap, length_seq. Qed.

Lemma unparse_S len val :
  _unparse_int (S len) val = _unparse_int len (Z.shiftr val 8) ++ [byte_of_Z val].
Proof.
  unfold _unparse_int. rewrite seq_S, fmap_app. f_equal.
  - apply list_fmap_ext. intros i j Hj. apply lookup_seq in Hj as [-> Hi].
    do 2 f_equal. rewrite Z.shiftr_shiftr by lia. f_equal. lia.
  - simpl. f_equal. unfold byte_of_Z. replace (Z.of_nat (S len - len - 1)) with 0 by lia.
    rewrite Z.shiftr_0_r. unfold uint8. change 255 with (Z.ones 8).
    by rewrite Z.land_ones, Z.mod_mod by lia.
Qed.

(** Reading back what was written gives the value on its width ... *)
Lemma be_value_unparse len val :
  0 <= val < 2 ^ (8 * Z.of_nat len) -> be_value (_unparse_int len val) = val.
Proof.
  revert val. induction len as [|len IH]; intros val Hv; [simpl in Hv; by replace val with 0 by lia|].
  rewrite unparse_S, be_value_snoc, byte_to_of_Z, IH.
  - rewrite Z.shiftr_div_pow2 by lia. uint_lia.
  - rewrite Z.shiftr_div_pow2 by lia.
    replace (8 * Z.of_nat (S len)) with (8 * Z.of_nat len + 8) in Hv by lia.
    rewrite Z.pow_add_r in Hv by lia. split; [apply Z.div_pos; lia|].
    apply Z.div_lt_upper_bound; lia.
Qed.

(** ... and writing back what was read gives the bytes. *)
Lemma unparse_be_value s : _unparse_int (length s) (be_value s) = s.
Proof.
  induction s as [|c s IH] using rev_ind; [done|].
  rewrite length_app, Nat.add_comm. simpl. rewrite unparse_S, be_value_snoc.
  pose proof (byte_to_Z_range c) as Hc. unfold is_u8 in Hc. f_equal.
  - rewrite Z.shiftr_div_pow2, Z.div_add_l, (Z.div_small (byte_to_Z c)) by lia.
    by rewrite Z.add_0_r.
  - f_equal. rewrite <- (byte_of_to_Z c) at 2. unfold byte_of_Z.
    assert (uint8 (be_value s * 256 + byte_to_Z c) = uint8 (byte_to_Z c)) as -> by uint_lia. done.
Qed.

End NetUnparser.

(** Reading what [NetUnparser] wrote. *)
Lemma parse_unparse len val rest p :
  0 <= val < 2 ^ (8 * Z.of_nat len) ->
  NetParser.at_front p (NetUnparser._unparse_int len val ++ rest) ->
  exists p', NetParser._parse_int len p = Ret (val, p') /\ NetParser.at_front p' rest.
Proof.
  intros Hv Hp. destruct (NetParser.parse_int_spec len p _ rest Hp) as (p' & E & Hp').
  { pose proof (NetUnparser.zlen_unparse len val). unfold zlen in *. lia. }
  rewrite NetUnparser.be_value_unparse in E by done. eauto.
Qed.
