(* ===== verification/Checksum.v ===== *)
(** * The Internet checksum (util/util.hh, util/util.cc)

    The 32-bit sum of the big-endian 16-bit words of the data added so far, one
    byte at a time, and its one's-complement fold.  The lemmas read the fold
    modulo 65535; the theorem is that it is the sum of RFC 1071. *)

From S2P Require Import Prelude Parser.

Module InternetChecksum.

Record t := mk { _sum : Z; _parity : bool }.

Definition new (initial_sum : Z) : t := mk initial_sum false.

(** The body of the loop of [add]. *)
Definition add_byte (c : t) (d : byte) : t :=
  let val := byte_to_Z d in
  let val := if _parity c then val else uint16 (Z.shiftl val 8) in
  mk (uint32 (_sum c + val)) (negb (_parity c)).

Definition add (c : t) (data : string) : t := fold_left add_byte data c.

(** The [while] loop of [value]; [fold_loop_done] shows that two turns reach its exit. *)
Fixpoint fold_loop (fuel : nat) (ret : Z) : Z :=
  match fuel with
  | O => ret
  | S fuel =>
      if 65535 <? ret then fold_loop fuel (uint32 (Z.shiftr ret 16 + Z.land ret 65535)) else ret
  end.

Definition value (c : t) : Z := uint16 (Z.lnot (fold_loop 2 (_sum c))).

Lemma fold_step z : Z.shiftr z 16 + Z.land z 65535 = z / 65536 + z mod 65536.
Proof.
  rewrite Z.shiftr_div_pow2 by lia. change 65535 with (Z.ones 16). by rewrite Z.land_ones by lia.
Qed.

(** The loop has left when its fuel ends: its condition is false. *)
Lemma fold_loop_done z : is_u32 z -> 0 <= fold_loop 2 z <= 65535.
Proof.
  unfold is_u32. intros Hz. simpl. rewrite !fold_step.
  case_if; [|lia]. set (y := uint32 (z / 65536 + z mod 65536)).
  assert (0 <= y <= 131070) by (subst y; uint_lia). clearbody y.
  case_if; [|lia]. uint_lia.
Qed.

(** Extra fuel changes nothing. *)
Lemma fold_loop_fuel n fuel z : fold_loop n z <= 65535 -> fold_loop (n + fuel) z = fold_loop n z.
Proof.
  revert z. induction n as [|n IH]; intros z Hz; simpl in *.
  - destruct fuel; simpl; [reflexivity|]. by rewrite (proj2 (Z.ltb_ge _ _)) by lia.
  - destruct (65535 <? z); [by apply IH|reflexivity].
Qed.

Lemma fold_loop_zero z : is_u32 z -> fold_loop 2 z = 0 -> z = 0.
Proof.
  unfold is_u32. intros Hz. simpl. rewrite !fold_step. case_if; [|lia].
  set (y := uint32 (z / 65536 + z mod 65536)).
  assert (1 <= y <= 131070) by (subst y; uint_lia). clearbody y.
  case_if; [|lia]. intros. uint_lia.
Qed.

(** The fold keeps the sum modulo 65535. *)
Lemma fold_loop_mod z : is_u32 z -> (fold_loop 2 z) mod 65535 = z mod 65535.
Proof.
  unfold is_u32. intros Hz.
  assert (forall y, 0 <= y < 2 ^ 32 ->
    uint32 (y / 65536 + y mod 65536) mod 65535 = y mod 65535) as Hs.
  { intros y Hy. rewrite uint32_small by uint_lia.
    rewrite <- (Z_mod_plus_full _ (y / 65536)). f_equal. Z.to_euclidean_division_equations. lia. }
  simpl. rewrite !fold_step. case_if; [|done].
  pose proof (uint32_range (z / 65536 + z mod 65536)) as Hr. unfold is_u32 in Hr.
  case_if; rewrite Hs; auto.
Qed.

Lemma value_fold c : is_u32 (_sum c) -> value c = 65535 - fold_loop 2 (_sum c).
Proof.
  intros Hc. pose proof (fold_loop_done _ Hc). unfold value, Z.lnot. uint_lia.
Qed.

(** The sum of the words of [data], the first byte being a high one unless [odd]. *)
Fixpoint word_sum (odd : bool) (data : string) : Z :=
  match data with
  | [] => 0
  | d :: data => (if odd then byte_to_Z d else 256 * byte_to_Z d) + word_sum (negb odd) data
  end.

Lemma word_sum_range odd data : 0 <= word_sum odd data <= 65280 * zlen data.
Proof.
  revert odd. induction data as [|d data IH]; intros odd; simpl; [done|].
  specialize (IH (negb odd)). pose proof (byte_to_Z_range d). unfold is_u8 in *.
  rewrite zlen_cons. destruct odd; lia.
Qed.

Definition parity_after (odd : bool) (data : string) : bool := xorb odd (Nat.odd (length data)).

Lemma parity_after_cons odd d data : parity_after (negb odd) data = parity_after odd (d :: data).
Proof.
  unfold parity_after. rewrite length_cons, Nat.odd_succ, <- Nat.negb_odd.
  by destruct odd, (Nat.odd _).
Qed.

Lemma word_sum_app odd a b :
  word_sum odd (a ++ b) = word_sum odd a + word_sum (parity_after odd a) b.
Proof.
  revert odd. induction a as [|d a IH]; intros odd; simpl.
  - unfold parity_after. simpl. by rewrite xorb_false_r.
  - rewrite IH, parity_after_cons with (d := d). lia.
Qed.

Lemma add_spec c data :
  is_u32 (_sum c) ->
  add c data = mk (uint32 (_sum c + word_sum (_parity c) data)) (parity_after (_parity c) data).
Proof.
  unfold add. revert c. induction data as [|d data IH]; intros c Hc; simpl.
  - destruct c as [s p]. simpl in *. unfold parity_after; simpl.
    rewrite xorb_false_r, Z.add_0_r, uint32_small by done. done.
  - rewrite IH by (simpl; auto with sponge). simpl. rewrite parity_after_cons with (d := d).
    f_equal. rewrite Z.shiftl_mul_pow2 by lia. pose proof (byte_to_Z_range d). unfold is_u8 in *.
    unfold uint32. rewrite Zplus_mod_idemp_l. f_equal. destruct (_parity c); nowrap; lia.
Qed.

Lemma add_wf c data : is_u32 (_sum c) -> is_u32 (_sum (add c data)).
Proof. intros. rewrite add_spec by done. simpl. auto with sponge. Qed.

(** How the data is cut into calls of [add] is irrelevant. *)
Lemma add_app c a b : add (add c a) b = add c (a ++ b).
Proof. unfold add. by rewrite fold_left_app. Qed.

(** A sum whose words include its own checksum folds to zero. *)
Lemma value_zero s : 0 <= s -> s + 65535 < 2 ^ 32 -> forall p q,
  value (mk (s + value (mk s p)) q) = 0.
Proof.
  intros Hs Hb p q. assert (is_u32 s) as Hu by (unfold is_u32; lia).
  pose proof (fold_loop_done s Hu) as Hf. pose proof (fold_loop_mod s Hu) as Hm.
  rewrite (value_fold (mk s p)) by done. cbn [_sum].
  set (s' := s + (65535 - fold_loop 2 s)).
  assert (is_u32 s') as Hu' by (unfold is_u32; lia).
  rewrite value_fold by done. cbn [_sum].
  pose proof (fold_loop_done s' Hu') as Hf'. pose proof (fold_loop_mod s' Hu') as Hm'.
  assert (s' mod 65535 = 0) as E0.
  { subst s'. replace (s + (65535 - fold_loop 2 s)) with (s - fold_loop 2 s + 1 * 65535) by lia.
    by rewrite Z_mod_plus_full, Zminus_mod, Hm, Z.sub_diag. }
  assert (fold_loop 2 s' <> 0) as Hn.
  { intros E. apply fold_loop_zero in E; [|done].
    assert (s = 0) by lia. subst s. clear -E. vm_compute in E. done. }
  rewrite E0 in Hm'. Z.to_euclidean_division_equations. lia.
Qed.

(** The checksum of a string in which a zero word at an even offset is replaced
    by the checksum computed with the zero there is zero. *)
Lemma value_with_checksum init pre post :
  0 <= init -> init + 65280 * (zlen pre + zlen post) + 65535 < 2 ^ 32 ->
  Nat.Even (length pre) ->
  let ck := value (add (new init) (pre ++ NetUnparser._unparse_int 2 0 ++ post)) in
  value (add (new init) (pre ++ NetUnparser._unparse_int 2 ck ++ post)) = 0.
Proof.
  intros Hi Hb He ck.
  assert (is_u32 (_sum (new init))) as Hu by (unfold is_u32; simpl; zlen_lia).
  assert (forall v, is_u16 v ->
    word_sum false (pre ++ NetUnparser._unparse_int 2 v ++ post)
      = word_sum false pre + v + word_sum false post) as Hw.
  { intros v Hv. rewrite !word_sum_app.
    assert (Nat.odd (length pre) = false) as E.
    { rewrite <- Nat.negb_even. by rewrite (proj2 (Nat.even_spec _) He). }
    unfold parity_after. rewrite E. simpl. rewrite !byte_to_of_Z.
    change 255 with (Z.ones 8). rewrite !Z.land_ones, Z.shiftr_0_r, Z.shiftr_div_pow2 by lia.
    change (Nat.odd 2) with false. change (2 ^ (Z.of_nat 1 * 8)) with 256. uint_lia. }
  pose proof (word_sum_range false pre). pose proof (word_sum_range false post).
  set (s := init + word_sum false pre + word_sum false post).
  assert (forall v, is_u16 v -> exists q,
    add (new init) (pre ++ NetUnparser._unparse_int 2 v ++ post) = mk (s + v) q) as Hadd.
  { intros v Hv. rewrite add_spec by done. eexists. cbn [_sum _parity new].
    rewrite Hw by done. unfold is_u16 in Hv. f_equal. subst s. nowrap. lia. }
  assert (is_u16 ck) as Hck by apply uint16_range.
  destruct (Hadd ck Hck) as [q ->]. destruct (Hadd 0) as [q0 E0]; [done|].
  unfold ck. rewrite E0, Z.add_0_r. apply value_zero; subst s; lia.
Qed.

End InternetChecksum.

(** ** The checksum of RFC 1071

    The reference definition: the data as big-endian 16-bit words, an odd byte
    padded with zero; their one's complement sum, with the carry out of the top
    bit added at the bottom; its complement. *)
Module RFC1071.

Fixpoint words (data : string) : list Z :=
  match data with
  | hi :: lo :: data => (256 * byte_to_Z hi + byte_to_Z lo) :: words data
  | [hi] => [256 * byte_to_Z hi]
  | [] => []
  end.

Definition ones_add (a b : Z) : Z := if a + b <? 65536 then a + b else a + b - 65536 + 1.
Definition ones_sum (ws : list Z) : Z := fold_left ones_add ws 0.
Definition checksum (data : string) : Z := 65535 - ones_sum (words data).

(** Two numbers of 16 bits that stand for the same residue modulo 65535, and are
    zero together, are equal. *)
Definition stands_for (r s : Z) : Prop := 0 <= r <= 65535 /\ r mod 65535 = s mod 65535 /\ (r = 0 <-> s = 0).

Lemma stands_for_unique r r' s : stands_for r s -> stands_for r' s -> r = r'.
Proof.
  intros (H1 & E1 & Z1) (H2 & E2 & Z2). rewrite <- E2 in E1.
  destruct (decide (s = 0)) as [Hs|Hs]; [rewrite (proj2 Z1 Hs), (proj2 Z2 Hs); done|].
  assert (r <> 0 /\ r' <> 0) by tauto. Z.to_euclidean_division_equations. lia.
Qed.

Lemma ones_add_stands r s w :
  stands_for r s -> 0 <= s -> 0 <= w <= 65535 -> stands_for (ones_add r w) (s + w).
Proof.
  intros (H1 & E1 & Z1) Hs Hw. unfold ones_add. split; [|split].
  - case_if; lia.
  - transitivity ((r + w) mod 65535); [|by rewrite (Zplus_mod r), (Zplus_mod s), E1].
    case_if; [done|]. rewrite <- (Z_mod_plus_full _ 1). f_equal. lia.
  - case_if; lia.
Qed.

Lemma words_range data w : w ∈ words data -> 0 <= w <= 65535.
Proof.
  assert (forall n data, (length data <= n)%nat -> forall w, w ∈ words data -> 0 <= w <= 65535) as H.
  { clear. induction n as [|n IH]; intros [|hi [|lo data]] Hn w; simpl in *; try lia;
      rewrite ?elem_of_cons, ?elem_of_nil; try done; intros [->|Hw];
      try (pose proof (byte_to_Z_range hi); unfold is_u8 in *; lia); try done.
    - pose proof (byte_to_Z_range hi); pose proof (byte_to_Z_range lo); unfold is_u8 in *; lia.
    - apply (IH data); [lia|done]. }
  by apply (H (length data) data).
Qed.

Lemma words_sum data : InternetChecksum.word_sum false data = fold_right Z.add 0 (words data).
Proof.
  assert (forall n data, (length data <= n)%nat ->
    InternetChecksum.word_sum false data = fold_right Z.add 0 (words data)) as H.
  { clear. induction n as [|n IH]; intros [|hi [|lo data]] Hn; simpl in *; try lia; try done.
    rewrite IH by lia. lia. }
  by apply (H (length data)).
Qed.

Lemma ones_sum_stands ws :
  (forall w, w ∈ ws -> 0 <= w <= 65535) -> stands_for (ones_sum ws) (fold_right Z.add 0 ws).
Proof.
  unfold ones_sum. assert (forall r s, stands_for r s -> 0 <= s -> (forall w, w ∈ ws -> 0 <= w <= 65535) ->
    stands_for (fold_left ones_add ws r) (s + fold_right Z.add 0 ws)) as H.
  { induction ws as [|w ws IH]; intros r s Hr Hs Hw; simpl; [by rewrite Z.add_0_r|].
    assert (0 <= w <= 65535) by (apply Hw; constructor).
    rewrite Z.add_assoc. apply IH; [by apply ones_add_stands|lia|]. intros w' Hw'. apply Hw. by constructor. }
  intros Hw. apply (H 0 0); [|done|done]. by unfold stands_for.
Qed.

Lemma words_sum_bound data : 0 <= fold_right Z.add 0 (words data) <= 65535 * ((zlen data + 1) / 2).
Proof.
  assert (forall n data, (length data <= n)%nat ->
    0 <= fold_right Z.add 0 (words data) <= 65535 * ((zlen data + 1) / 2)) as H.
  { clear. induction n as [|n IH]; intros [|hi [|lo data]] Hn; simpl in Hn; try lia; try (vm_compute; done).
    - simpl. pose proof (byte_to_Z_range hi). unfold is_u8 in *. change ((zlen [hi] + 1) / 2) with 1. lia.
    - assert ((zlen (hi :: lo :: data) + 1) / 2 = 1 + (zlen data + 1) / 2) as ->.
      { rewrite !zlen_cons. rewrite <- Z.div_add_l by lia. f_equal. lia. }
      specialize (IH data ltac:(lia)). simpl.
      pose proof (byte_to_Z_range hi); pose proof (byte_to_Z_range lo); unfold is_u8 in *; lia. }
  by apply (H (length data)).
Qed.

End RFC1071.

(** C33: The checksum is that of RFC 1071.  However the data is cut into calls of
    [add], for up to 128 KiB, twice the length of any IP datagram, the value is
    the complement of the one's complement sum of its words. *)
Theorem checksum_is_rfc1071 (chunks : list string) :
  zlen (concat chunks) <= 131072 ->
  InternetChecksum.value (fold_left InternetChecksum.add chunks (InternetChecksum.new 0))
  = RFC1071.checksum (concat chunks).
Proof.
  intros Hl. set (data := concat chunks) in *.
  assert (fold_left InternetChecksum.add chunks (InternetChecksum.new 0)
    = InternetChecksum.add (InternetChecksum.new 0) data) as ->.
  { subst data. clear Hl. generalize (InternetChecksum.new 0).
    induction chunks as [|x l IH]; intros c; simpl; [done|]. by rewrite IH, InternetChecksum.add_app. }
  rewrite InternetChecksum.add_spec by done. cbn [InternetChecksum._sum InternetChecksum._parity InternetChecksum.new].
  rewrite RFC1071.words_sum, Z.add_0_l. pose proof (RFC1071.words_sum_bound data) as Hb.
  set (s := fold_right Z.add 0 (RFC1071.words data)) in *.
  assert (is_u32 s) as Hu.
  { unfold is_u32. split; [lia|]. assert ((zlen data + 1) / 2 <= 65536) by (Z.to_euclidean_division_equations; lia). lia. }
  rewrite uint32_small, InternetChecksum.value_fold by done. unfold RFC1071.checksum. f_equal.
  apply (RFC1071.stands_for_unique _ _ s); [|apply RFC1071.ones_sum_stands, RFC1071.words_range].
  cbn [InternetChecksum._sum]. split; [|split; [|split]].
  - apply (InternetChecksum.fold_loop_done s Hu).
  - by apply InternetChecksum.fold_loop_mod.
  - by apply InternetChecksum.fold_loop_zero.
  - intros ->. reflexivity.
Qed.

(** The example of the RFC, cut unevenly. *)
Lemma checksum_is_rfc1071_witness :
  zlen (concat [[Byte.x00; Byte.x01; Byte.xf2]; [Byte.x03; Byte.xf4; Byte.xf5]; [Byte.xf6; Byte.xf7]]) <= 131072
  /\ InternetChecksum.value (fold_left InternetChecksum.add
       [[Byte.x00; Byte.x01; Byte.xf2]; [Byte.x03; Byte.xf4; Byte.xf5]; [Byte.xf6; Byte.xf7]]
       (InternetChecksum.new 0)) = 0x220d.
Proof.
  split; [vm_compute; discriminate|]. rewrite checksum_is_rfc1071 by (vm_compute; discriminate).
  vm_compute. reflexivity.
Defined.
