(* ===== verification/Codec.v ===== *)
(** * What a header promises to the packet that contains it

    Every packet of the stack is a header followed by a payload, and is parsed by
    the same three steps: a [NetParser] on the buffer, the header's [parse], the
    rest of the buffer as payload.  [HeaderCodec] is the contract between the two,
    [ChecksummedHeader] the extra one of the headers that carry an Internet
    checksum.  The lemmas about whole packets are proved against the classes;
    TCPSegment.v, IPv4Datagram.v and EthernetFrame.v give the instances. *)

From S2P Require Import Prelude UtilBuffer Parser Checksum.

(** [ret.resize(n)]: cuts, or pads with zero bytes. *)
Definition resize (s : string) (n : Z) : string :=
  take (Z.to_nat n) s ++ replicate (Z.to_nat n - length s) Byte.x00.

Lemma resize_grow s n :
  zlen s <= n -> resize s n = s ++ replicate (Z.to_nat (n - zlen s)) Byte.x00.
Proof.
  intros. unfold resize, zlen in *. rewrite take_ge by lia. do 2 f_equal. lia.
Qed.

Class HeaderCodec (H : Type) := {
  (** [parse] assigns the fields of an existing header and moves the parser. *)
  hc_parse : H -> NetParser.t -> outcome (ParseResult * H * NetParser.t);
  hc_serialize : H -> outcome string;
  (** the headers that can stand in front of a given payload *)
  hc_valid : H -> string -> Prop;
  (** parsing never throws: it consumes some bytes or records that they are missing *)
  hc_total h p s : NetParser.at_front p s ->
    exists r h' p' n, hc_parse h p = Ret (r, h', p') /\ 0 <= n /\ NetParser.after p' s n;
  hc_roundtrip h0 h rest : hc_valid h rest ->
    exists s, hc_serialize h = Ret s /\
      forall p, NetParser.at_front p (s ++ rest) ->
        exists p', hc_parse h0 p = Ret (NoError, h, p') /\ NetParser.at_front p' rest
}.

(** The bytes of the header around its checksum do not depend on it. *)
Class ChecksummedHeader (H : Type) `{HeaderCodec H} := {
  ch_cksum : H -> Z;
  ch_set : H -> Z -> H;
  ch_valid : H -> Prop;
  ch_split h : ch_valid h ->
    exists pre post, Nat.Even (length pre) /\ zlen pre + zlen post <= 1024 /\
      forall ck, hc_serialize (ch_set h ck) = Ret (pre ++ NetUnparser._unparse_int 2 ck ++ post)
}.

Section Packet.
Context {H : Type} `{HeaderCodec H}.

(** The steps the [parse] of every packet shares: the parser's error, the header
    and the payload.  The header's own result is not looked at. *)
Definition parse_packet (h0 : H) (buffer : Buffer.t) : outcome (ParseResult * H * Buffer.t) :=
  let p := NetParser.new buffer in
  '(r, h, p) ← hc_parse h0 p;
  Ret (NetParser.get_error p, h, NetParser.buffer p).

Lemma parse_packet_total h0 s :
  zlen s < 2 ^ 64 ->
  exists r h payload, parse_packet h0 (Buffer.of_string s) = Ret (r, h, payload)
    /\ Buffer.wf payload /\ (r = NoError \/ r = PacketTooShort).
Proof.
  intros Hb. destruct (hc_total h0 _ s (NetParser.new_at_front s Hb)) as (r & h & p & n & E & Hn & Hp).
  unfold parse_packet. rewrite E. simpl. do 3 eexists. split; [done|].
  rewrite (NetParser.after_get_error _ _ _ Hp). split; [apply Hp|]. case_if; auto.
Qed.

Lemma parse_packet_buffer h0 h payload :
  hc_valid h payload ->
  exists s, hc_serialize h = Ret s /\
    forall buffer, Buffer.wf buffer -> Buffer.str buffer = s ++ payload ->
      exists b, parse_packet h0 buffer = Ret (NoError, h, b) /\ Buffer.str b = payload /\ Buffer.wf b.
Proof.
  intros Hv. destruct (hc_roundtrip h0 h payload Hv) as (s & Es & Hp). exists s. split; [done|].
  intros buffer Hw Hs. destruct (Hp (NetParser.new buffer)) as (p' & E & Hp').
  { rewrite <- Hs. by apply NetParser.new_at_front_buffer. }
  unfold parse_packet. rewrite E. simpl. destruct Hp' as [Hw' Hs' He].
  unfold NetParser.get_error. rewrite He. eauto.
Qed.

Lemma parse_packet_roundtrip h0 h payload :
  hc_valid h payload ->
  exists s, hc_serialize h = Ret s /\
    (zlen (s ++ payload) < 2 ^ 64 ->
     exists b, parse_packet h0 (Buffer.of_string (s ++ payload)) = Ret (NoError, h, b)
       /\ Buffer.str b = payload).
Proof.
  intros Hv. destruct (parse_packet_buffer h0 h payload Hv) as (s & Es & Hs). exists s. split; [done|].
  intros Hl. destruct (Hs (Buffer.of_string (s ++ payload))) as (b & E & Hb & _); [by apply Buffer.buf_of_string_wf|done|eauto].
Qed.

End Packet.

Section Checksummed.
Context {H : Type} `{ChecksummedHeader H}.

(** A header that carries the checksum computed with its field set to zero makes
    the checksum of the whole zero, whatever follows it under the checksum. *)
Lemma checksum_filled h init payload :
  ch_valid h -> 0 <= init -> init + 65280 * (1026 + zlen payload) + 65535 < 2 ^ 32 ->
  exists s0, hc_serialize (ch_set h 0) = Ret s0 /\
  let ck := InternetChecksum.value
              (InternetChecksum.add (InternetChecksum.add (InternetChecksum.new init) s0) payload) in
  is_u16 ck /\ exists s, hc_serialize (ch_set h ck) = Ret s /\
    InternetChecksum.value (InternetChecksum.add (InternetChecksum.new init) (s ++ payload)) = 0.
Proof.
  intros Hv Hi Hb. destruct (ch_split h Hv) as (pre & post & He & Hl & Hs).
  eexists. split; [apply Hs|]. intros ck. split; [apply uint16_range|].
  eexists. split; [apply Hs|].
  pose proof (InternetChecksum.value_with_checksum init pre (post ++ payload) Hi) as Hc.
  cbv zeta in Hc. rewrite <- !app_assoc. unfold ck.
  rewrite InternetChecksum.add_app, <- !app_assoc. apply Hc; [|done].
  rewrite zlen_app. zlen_pose. lia.
Qed.

End Checksummed.

(** Advances the goal's parser over the integer at its front. *)
Ltac parse_next :=
  match goal with
  | Hp : NetParser.at_front ?p (NetUnparser._unparse_int ?n ?v ++ ?rest) |- _ =>
      let p' := fresh "p" in
      let E := fresh "E" in
      let Hv := fresh "Hv" in
      assert (0 <= v < 2 ^ (8 * Z.of_nat n)) as Hv;
        [change (8 * Z.of_nat n) with (ltac:(let x := eval vm_compute in (8 * Z.of_nat n) in exact x))
        |destruct (parse_unparse n v rest p Hv Hp) as (p' & E & ?); clear Hp Hv;
         unfold NetParser.u8, NetParser.u16, NetParser.u32; rewrite E; clear E; cbn [mbind outcome_bind]]
  end.

(** Advances the goal's parser over an integer, whether or not one is there; a
    value that was read is a slice of the string the parser started on. *)
Ltac parse_any :=
  match goal with
  | Hp : NetParser.after ?p ?s ?k |- context [NetParser._parse_int ?n ?p] =>
      let v := fresh "v" in
      let p' := fresh "p" in
      let Ha := fresh "Ha" in
      let Hv := fresh "Hv" in
      destruct (NetParser.parse_int_after n p s k ltac:(lia) Hp) as (v & p' & -> & Ha & Hv);
      let k' := eval vm_compute in (k + Z.of_nat n) in
      let n' := eval vm_compute in (Z.of_nat n) in
      change (k + Z.of_nat n) with k' in Ha, Hv; change (Z.of_nat n) with n' in Hv;
      clear Hp; cbn [mbind outcome_bind]
  end.
