(* ===== verification/TCPSegment.v ===== *)
(** * TCP segments (tcp_helpers/tcp_header.hh/.cc, tcp_helpers/tcp_segment.hh/.cc)

    The header with its fields in the order of the source, its [parse] and
    [serialize], and the segment: header, payload, checksum over both and the
    lower layer's pseudo-header. *)

From S2P Require Import Prelude WrappingIntegers UtilBuffer Parser Checksum Codec.

Module TCPHeader.

Definition LENGTH : Z := 20.

Record t := mk {
  sport : Z; dport : Z;
  seqno : WrappingInt32; ackno : WrappingInt32;
  doff : Z;
  urg : bool; ack : bool; psh : bool; rst : bool; syn : bool; fin : bool;
  win : Z; cksum : Z; uptr : Z
}.

Definition default : t :=
  mk 0 0 (mkWrappingInt32 0) (mkWrappingInt32 0) (LENGTH / 4) false false false false false false 0 0 0.

(** [static_cast<bool>(fl_b & mask)] *)
Definition flag (fl_b mask : Z) : bool := negb (Z.land fl_b mask =? 0).

Definition parse (h : t) (p : NetParser.t) : outcome (ParseResult * t * NetParser.t) :=
  '(sport, p) ← NetParser.u16 p;
  '(dport, p) ← NetParser.u16 p;
  '(seqno, p) ← NetParser.u32 p;
  '(ackno, p) ← NetParser.u32 p;
  '(doff_b, p) ← NetParser.u8 p;
  let doff := Z.shiftr doff_b 4 in
  '(fl_b, p) ← NetParser.u8 p;
  '(win, p) ← NetParser.u16 p;
  '(cksum, p) ← NetParser.u16 p;
  '(uptr, p) ← NetParser.u16 p;
  let h := mk sport dport (mkWrappingInt32 seqno) (mkWrappingInt32 ackno) doff
              (flag fl_b 32) (flag fl_b 16) (flag fl_b 8) (flag fl_b 4) (flag fl_b 2) (flag fl_b 1)
              win cksum uptr in
  if doff <? 5 then Ret (HeaderTooShort, h, p) else
  p ← NetParser.remove_prefix p (doff * 4 - LENGTH);
  if NetParser.error p then Ret (NetParser.get_error p, h, p) else
  Ret (NoError, h, p).

(** The byte of flags. *)
Definition flags (h : t) : Z :=
  let b (x : bool) mask := if x then mask else 0 in
  Z.lor (Z.lor (Z.lor (Z.lor (Z.lor (b (urg h) 32) (b (ack h) 16)) (b (psh h) 8)) (b (rst h) 4))
    (b (syn h) 2)) (b (fin h) 1).

Definition serialize (h : t) : outcome string :=
  if doff h <? 5 then Throw runtime_error else
  let ret : string := [] in
  let ret := NetUnparser.u16 ret (sport h) in
  let ret := NetUnparser.u16 ret (dport h) in
  let ret := NetUnparser.u32 ret (raw_value (seqno h)) in
  let ret := NetUnparser.u32 ret (raw_value (ackno h)) in
  let ret := NetUnparser.u8 ret (uint8 (Z.shiftl (doff h) 4)) in
  let ret := NetUnparser.u8 ret (flags h) in
  let ret := NetUnparser.u16 ret (win h) in
  let ret := NetUnparser.u16 ret (cksum h) in
  let ret := NetUnparser.u16 ret (uptr h) in
  Ret (resize ret (4 * doff h)).

(** [operator==], which leaves out the ports and the checksum. *)
Definition eqb (h other : t) : bool :=
  wi_eqb (seqno h) (seqno other) && wi_eqb (ackno h) (ackno other) && (doff h =? doff other)
  && Bool.eqb (urg h) (urg other) && Bool.eqb (ack h) (ack other) && Bool.eqb (psh h) (psh other)
  && Bool.eqb (rst h) (rst other) && Bool.eqb (syn h) (syn other) && Bool.eqb (fin h) (fin other)
  && (win h =? win other) && (uptr h =? uptr other).

Definition set_cksum (h : t) (c : Z) : t :=
  mk (sport h) (dport h) (seqno h) (ackno h) (doff h) (urg h) (ack h) (psh h) (rst h) (syn h) (fin h)
     (win h) c (uptr h).

(** The fields are on their widths and the data offset can be written. *)
Record valid (h : t) : Prop := {
  v_sport : is_u16 (sport h);
  v_dport : is_u16 (dport h);
  v_seqno : is_u32 (raw_value (seqno h));
  v_ackno : is_u32 (raw_value (ackno h));
  v_doff : 5 <= doff h <= 15;
  v_win : is_u16 (win h);
  v_cksum : is_u16 (cksum h);
  v_uptr : is_u16 (uptr h)
}.

Lemma flags_roundtrip h :
  is_u8 (flags h) /\ flag (flags h) 32 = urg h /\ flag (flags h) 16 = ack h /\ flag (flags h) 8 = psh h
  /\ flag (flags h) 4 = rst h /\ flag (flags h) 2 = syn h /\ flag (flags h) 1 = fin h.
Proof.
  unfold flags, is_u8. destruct (urg h), (ack h), (psh h), (rst h), (syn h), (fin h);
    vm_compute; repeat split; discriminate.
Qed.

(** The header's bytes: what precedes the checksum, the checksum, what follows. *)
Definition bytes_before (h : t) : string :=
  NetUnparser._unparse_int 2 (sport h) ++ NetUnparser._unparse_int 2 (dport h)
  ++ NetUnparser._unparse_int 4 (raw_value (seqno h)) ++ NetUnparser._unparse_int 4 (raw_value (ackno h))
  ++ NetUnparser._unparse_int 1 (uint8 (Z.shiftl (doff h) 4)) ++ NetUnparser._unparse_int 1 (flags h)
  ++ NetUnparser._unparse_int 2 (win h).
Definition bytes_after (h : t) : string :=
  NetUnparser._unparse_int 2 (uptr h) ++ replicate (Z.to_nat (4 * doff h - 20)) Byte.x00.

Lemma tcp_header_serialize_bytes h :
  5 <= doff h ->
  serialize h = Ret (bytes_before h ++ NetUnparser._unparse_int 2 (cksum h) ++ bytes_after h).
Proof.
  intros Hd. unfold serialize. rewrite (proj2 (Z.ltb_ge _ _)) by lia. f_equal.
  unfold NetUnparser.u8, NetUnparser.u16, NetUnparser.u32.
  rewrite resize_grow by (rewrite !zlen_app, !NetUnparser.zlen_unparse; unfold zlen; simpl; lia).
  rewrite !zlen_app, !NetUnparser.zlen_unparse. unfold bytes_before, bytes_after, zlen. simpl length.
  rewrite <- !app_assoc. repeat f_equal.
Qed.

Lemma serialize_length h s : serialize h = Ret s -> 5 <= doff h -> zlen s = 4 * doff h.
Proof.
  intros E Hd. rewrite tcp_header_serialize_bytes in E by done.
  assert (s = bytes_before h ++ NetUnparser._unparse_int 2 (cksum h) ++ bytes_after h) as -> by congruence.
  unfold bytes_before, bytes_after. rewrite !zlen_app, !NetUnparser.zlen_unparse.
  unfold zlen. rewrite length_replicate. lia.
Qed.

Lemma set_cksum_id h : set_cksum h (cksum h) = h.
Proof. by destruct h. Qed.

(** The number of bytes the parser asks for: the fixed part and, when the data
    offset is not too small, the options. *)
Definition claimed (s : string) : Z :=
  let d := Z.shiftr (be_value (slice s 12 1)) 4 in
  if (zlen s <? 20) || (d <? 5) then 20 else 4 * d.

Lemma claimed_nonneg s : 0 <= claimed s.
Proof. unfold claimed. case_if; lia. Qed.

Lemma parse_after h p s :
  NetParser.at_front p s ->
  exists r h' p', parse h p = Ret (r, h', p') /\ NetParser.after p' s (claimed s)
    /\ (20 <= zlen s -> doff h' = Z.shiftr (be_value (slice s 12 1)) 4)
    /\ (r = NoError <-> 20 <= zlen s /\ 5 <= doff h' /\ claimed s <= zlen s).
Proof.
  intros Hp%NetParser.after_0. unfold parse, NetParser.u8, NetParser.u16, NetParser.u32.
  do 9 parse_any. unfold claimed. destruct (Z.lt_ge_cases (zlen s) 20) as [Hs|Hs].
  - rewrite (proj2 (Z.ltb_lt (zlen s) 20)) by done. simpl orb.
    case_if. { do 3 eexists. split; [done|]. split; [apply Ha|]. split; [lia|]. split; [done|lia]. }
    destruct (NetParser.remove_prefix_after (Z.shiftr v3 4 * 4 - LENGTH) p8 s 20)
      as (p' & -> & Hp'); [lia|unfold LENGTH; lia|done|].
    apply NetParser.after_short_any with (m := 20) in Hp'; [|unfold LENGTH; lia|done].
    cbn [mbind outcome_bind]. rewrite (NetParser.after_has_error _ _ _ Hp'), (proj2 (Z.ltb_lt _ _)) by done.
    rewrite (NetParser.after_get_error _ _ _ Hp'), (proj2 (Z.leb_gt _ _)) by done.
    do 3 eexists. split; [done|]. split; [apply Hp'|]. split; [lia|]. split; [done|lia].
  - rewrite Hv3 by lia. set (d := Z.shiftr _ 4).
    rewrite (proj2 (Z.ltb_ge (zlen s) 20)) by lia. simpl orb.
    case_if. { do 3 eexists. split; [done|]. split; [apply Ha|]. split; [done|]. simpl. split; [done|lia]. }
    destruct (NetParser.remove_prefix_after (d * 4 - LENGTH) p8 s 20)
      as (p' & -> & Hp'); [lia|unfold LENGTH; lia|done|].
    replace (20 + (d * 4 - LENGTH)) with (4 * d) in Hp' by (unfold LENGTH; lia).
    cbn [mbind outcome_bind]. rewrite (NetParser.after_has_error _ _ _ Hp').
    case_if.
    + rewrite (NetParser.after_get_error _ _ _ Hp'), (proj2 (Z.leb_gt _ _)) by done.
      do 3 eexists. split; [done|]. split; [apply Hp'|]. split; [done|]. split; [done|lia].
    + do 3 eexists. split; [done|]. split; [apply Hp'|]. split; [done|]. simpl. split; [lia|done].
Qed.

(** The parser reads back the header that was written, whatever follows it. *)
Lemma tcp_header_serialize_parse h0 h rest p :
  valid h ->
  NetParser.at_front p
    ((bytes_before h ++ NetUnparser._unparse_int 2 (cksum h) ++ bytes_after h) ++ rest) ->
  exists p', parse h0 p = Ret (NoError, h, p') /\ NetParser.at_front p' rest.
Proof.
  intros Hv Hp. destruct (flags_roundtrip h) as (Hf & F1 & F2 & F3 & F4 & F5 & F6). destruct Hv.
  unfold bytes_before, bytes_after in Hp. rewrite <- !app_assoc in Hp. uint_unfold. unfold parse.
  do 4 (parse_next; [lia|]). parse_next; [uint_lia|]. do 4 (parse_next; [lia|]).
  assert (Z.shiftr ((Z.shiftl (doff h) 4) mod 2 ^ 8) 4 = doff h) as Ed.
  { rewrite Z.shiftl_mul_pow2, Z.shiftr_div_pow2 by lia. uint_lia. }
  rewrite Ed, F1, F2, F3, F4, F5, F6, (proj2 (Z.ltb_ge _ _)) by lia.
  match goal with
  | Hp : NetParser.at_front ?p (replicate ?n ?b ++ _) |- _ =>
      destruct (NetParser.parser_remove_prefix_spec p _ (doff h * 4 - LENGTH) Hp) as (p' & -> & Hp')
  end.
  { rewrite zlen_app. unfold zlen at 1. rewrite length_replicate. unfold LENGTH. zlen_pose. lia. }
  rewrite drop_app_length' in Hp' by (rewrite length_replicate; unfold LENGTH; lia).
  simpl. unfold NetParser.error, NetParser.get_error. rewrite (NetParser.af_error _ _ Hp'). simpl.
  eexists. split; [|done]. by destruct h as [?? [] [] ??????????].
Qed.

End TCPHeader.

#[export] Program Instance TCPHeader_codec : HeaderCodec TCPHeader.t := {|
  hc_parse := TCPHeader.parse;
  hc_serialize := TCPHeader.serialize;
  hc_valid h rest := TCPHeader.valid h
|}.
Next Obligation.
  intros h p s Hp. destruct (TCPHeader.parse_after h p s Hp) as (r & h' & p' & E & Ha & _).
  do 4 eexists. split; [apply E|]. split; [|apply Ha]. apply TCPHeader.claimed_nonneg.
Qed.
Next Obligation.
  intros h0 h rest Hv. eexists. split.
  - apply TCPHeader.tcp_header_serialize_bytes. apply Hv.
  - intros p Hp. by apply TCPHeader.tcp_header_serialize_parse.
Qed.

#[export] Program Instance TCPHeader_checksummed : ChecksummedHeader TCPHeader.t := {|
  ch_cksum := TCPHeader.cksum;
  ch_set := TCPHeader.set_cksum;
  ch_valid := TCPHeader.valid
|}.
Next Obligation.
  intros h Hv. exists (TCPHeader.bytes_before h), (TCPHeader.bytes_after h).
  pose proof (TCPHeader.v_doff _ Hv). split; [by exists 8%nat|]. split.
  - unfold TCPHeader.bytes_before, TCPHeader.bytes_after.
    rewrite !zlen_app, !NetUnparser.zlen_unparse. unfold zlen. rewrite length_replicate. lia.
  - intros ck. by rewrite TCPHeader.tcp_header_serialize_bytes by (simpl; lia).
Qed.

Module TCPSegment.

Record t := mk { _header : TCPHeader.t; _payload : Buffer.t }.

Definition default : t := mk TCPHeader.default Buffer.null.
Definition header (seg : t) : TCPHeader.t := _header seg.
Definition payload (seg : t) : Buffer.t := _payload seg.

Definition parse (seg : t) (buffer : Buffer.t) (datagram_layer_checksum : Z)
    : outcome (ParseResult * t) :=
  let check := InternetChecksum.new datagram_layer_checksum in
  let check := InternetChecksum.add check (Buffer.str buffer) in
  if negb (InternetChecksum.value check =? 0) then Ret (BadChecksum, seg) else
  '(r, h, b) ← parse_packet (_header seg) buffer;
  Ret (r, mk h b).

Definition length_in_sequence_space (seg : t) : Z :=
  uint64 (zlen (Buffer.str (payload seg)) + (if TCPHeader.syn (header seg) then 1 else 0)
          + (if TCPHeader.fin (header seg) then 1 else 0)).

Definition serialize (seg : t) (datagram_layer_checksum : Z) : outcome BufferList.t :=
  let header_out := TCPHeader.set_cksum (_header seg) 0 in
  let check := InternetChecksum.new datagram_layer_checksum in
  h0 ← TCPHeader.serialize header_out;
  let check := InternetChecksum.add check h0 in
  let check := InternetChecksum.add check (Buffer.str (_payload seg)) in
  let header_out := TCPHeader.set_cksum header_out (InternetChecksum.value check) in
  h1 ← TCPHeader.serialize header_out;
  Ret (BufferList.append (BufferList.append [] (BufferList.of_string h1))
        (BufferList.of_buffer (_payload seg))).

Lemma tcp_segment_set_cksum_valid h ck : is_u16 ck -> TCPHeader.valid h -> TCPHeader.valid (TCPHeader.set_cksum h ck).
Proof. intros Hc []. by split. Qed.

End TCPSegment.

(** What [serialize] writes, [parse] reads back. *)
Lemma segment_wire_buffer (seg seg0 : TCPSegment.t) (pseudo : Z) :
  TCPHeader.valid (TCPSegment.header seg) ->
  zlen (Buffer.str (TCPSegment.payload seg)) <= 64000 -> 0 <= pseudo < 2 ^ 20 ->
  exists bl ck,
    TCPSegment.serialize seg pseudo = Ret bl /\
    zlen (BufferList.bytes bl)
      = 4 * TCPHeader.doff (TCPSegment.header seg) + zlen (Buffer.str (TCPSegment.payload seg)) /\
    forall buffer, Buffer.wf buffer -> Buffer.str buffer = BufferList.bytes bl ->
    exists b, TCPSegment.parse seg0 buffer pseudo
      = Ret (NoError, TCPSegment.mk (TCPHeader.set_cksum (TCPSegment.header seg) ck) b) /\
    Buffer.str b = Buffer.str (TCPSegment.payload seg).
Proof.
  destruct seg as [h pl]. simpl. intros Hv Hl Hp. set (payload := Buffer.str pl) in *.
  destruct (checksum_filled h pseudo payload) as (s0 & E0 & Hck & s & Es & Hz); [exact Hv|lia|lia|].
  set (ck := InternetChecksum.value _) in *.
  destruct (parse_packet_buffer (TCPSegment._header seg0) (TCPHeader.set_cksum h ck) payload)
    as (s' & Es' & Hs').
  { by apply TCPSegment.tcp_segment_set_cksum_valid. }
  simpl in E0, Es, Es', Hs'. assert (s' = s) as -> by congruence.
  pose proof (TCPHeader.serialize_length _ _ Es) as Hls. pose proof (TCPHeader.v_doff _ Hv). simpl in Hls.
  exists (BufferList.append (BufferList.append [] (BufferList.of_string s)) (BufferList.of_buffer pl)), ck.
  assert (BufferList.bytes (BufferList.append (BufferList.append [] (BufferList.of_string s))
    (BufferList.of_buffer pl)) = s ++ payload) as Eb.
  { rewrite !BufferList.bytes_append, BufferList.bl_bytes_of_string, BufferList.bytes_of_buffer. reflexivity. }
  split; [|split].
  - unfold TCPSegment.serialize. simpl. rewrite E0. simpl. fold payload ck.
    change (TCPHeader.serialize (TCPHeader.set_cksum (TCPHeader.set_cksum h 0) ck))
      with (TCPHeader.serialize (TCPHeader.set_cksum h ck)).
    rewrite Es. reflexivity.
  - rewrite Eb, zlen_app. lia.
  - rewrite Eb. intros buffer Hw Hb. destruct (Hs' buffer Hw Hb) as (b & Ep & Hb' & _).
    exists b. split; [|done]. unfold TCPSegment.parse. rewrite Hb, Hz. simpl. by rewrite Ep.
Qed.

(** C28: A TCP segment whose fields fit their widths and whose payload has at most
    64000 bytes is serialised without error, and parsing the bytes with the same
    pseudo-header checksum (below 2^20) gives back its header (with the checksum
    field filled in) and its payload, with no error. The checksum that [serialize]
    computes is therefore the one [parse] accepts. *)
Theorem tcp_segment_roundtrip (seg seg0 : TCPSegment.t) (pseudo : Z) :
  TCPHeader.valid (TCPSegment.header seg) ->
  zlen (Buffer.str (TCPSegment.payload seg)) <= 64000 -> 0 <= pseudo < 2 ^ 20 ->
  exists bl ck b,
    TCPSegment.serialize seg pseudo = Ret bl /\
    TCPSegment.parse seg0 (Buffer.of_string (BufferList.concatenate bl)) pseudo
      = Ret (NoError, TCPSegment.mk (TCPHeader.set_cksum (TCPSegment.header seg) ck) b) /\
    Buffer.str b = Buffer.str (TCPSegment.payload seg).
Proof.
  intros Hv Hl Hp. destruct (segment_wire_buffer seg seg0 pseudo Hv Hl Hp) as (bl & ck & E & Hz & H).
  pose proof (TCPHeader.v_doff _ Hv).
  destruct (H (Buffer.of_string (BufferList.concatenate bl))) as (b & Ep & Hb).
  - apply Buffer.buf_of_string_wf. rewrite BufferList.concatenate_bytes. lia.
  - by rewrite BufferList.concatenate_bytes.
  - by exists bl, ck, b.
Qed.

(** C29: what [TCPSegment::parse] returns on any bytes: [BadChecksum] (and the
    segment unchanged) when the checksum over the bytes and the pseudo-header is
    not zero; otherwise [PacketTooShort] when the bytes end before the fixed
    header or before the end of the options the data offset announces; otherwise
    [NoError].  It never throws. *)
Theorem tcp_segment_parse_errors (seg : TCPSegment.t) (s : string) (pseudo : Z) :
  zlen s < 2 ^ 64 ->
  let ck := InternetChecksum.value (InternetChecksum.add (InternetChecksum.new pseudo) s) in
  exists r seg',
    TCPSegment.parse seg (Buffer.of_string s) pseudo = Ret (r, seg') /\
    r = (if negb (ck =? 0) then BadChecksum
         else if TCPHeader.claimed s <=? zlen s then NoError else PacketTooShort) /\
    (r = BadChecksum -> seg' = seg).
Proof.
  intros Hs ck. unfold TCPSegment.parse. rewrite Buffer.str_of_string. fold ck.
  destruct (negb _); [by do 2 eexists|].
  destruct (TCPHeader.parse_after (TCPSegment._header seg) (NetParser.new (Buffer.of_string s)) s)
    as (r & h' & p' & E & Ha & _); [by apply NetParser.new_at_front|].
  unfold parse_packet. simpl. rewrite E. simpl. rewrite (NetParser.after_get_error _ _ _ Ha).
  do 2 eexists. split; [done|]. split; [done|]. case_if; done.
Qed.

(** A segment whose data offset is below the minimum is accepted: its header
    reports [HeaderTooShort], but the segment's [parse] looks only at the error
    of the parser and returns [NoError]. *)
Theorem tcp_segment_accepts_short_header :
  exists s seg, TCPSegment.parse TCPSegment.default (Buffer.of_string s) 0 = Ret (NoError, seg)
    /\ TCPHeader.doff (TCPSegment.header seg) = 0
    /\ exists p, TCPHeader.parse TCPHeader.default (NetParser.new (Buffer.of_string s))
                 = Ret (HeaderTooShort, TCPSegment.header seg, p).
Proof.
  exists ([Byte.xff; Byte.xff] ++ replicate 18 Byte.x00). eexists.
  split; [vm_compute; reflexivity|]. split; [reflexivity|]. eexists. vm_compute. reflexivity.
Qed.

Definition tcp_segment_example : TCPSegment.t :=
  TCPSegment.mk (TCPHeader.mk 80 4000 (mkWrappingInt32 7) (mkWrappingInt32 9) 6
                   false true false false false true 1000 0 0)
    (Buffer.of_string [Byte.x68; Byte.x69; Byte.x21]).

Lemma tcp_segment_roundtrip_witness :
  exists bl ck b,
    TCPSegment.serialize tcp_segment_example 77 = Ret bl /\
    TCPSegment.parse TCPSegment.default (Buffer.of_string (BufferList.concatenate bl)) 77
      = Ret (NoError, TCPSegment.mk (TCPHeader.set_cksum (TCPSegment.header tcp_segment_example) ck) b) /\
    Buffer.str b = Buffer.str (TCPSegment.payload tcp_segment_example).
Proof.
  apply (tcp_segment_roundtrip tcp_segment_example TCPSegment.default 77).
  - split; vm_compute; split; (reflexivity || discriminate).
  - vm_compute. discriminate.
  - lia.
Defined.

Lemma tcp_segment_parse_errors_witness :
  exists r seg', TCPSegment.parse TCPSegment.default (Buffer.of_string [Byte.xff; Byte.xff]) 0 = Ret (r, seg')
    /\ r = PacketTooShort.
Proof.
  destruct (tcp_segment_parse_errors TCPSegment.default [Byte.xff; Byte.xff] 0) as (r & seg' & E & Hr & _).
  - vm_compute. reflexivity.
  - exists r, seg'. split; [exact E|]. rewrite Hr. vm_compute. reflexivity.
Defined.
