(* ===== verification/IPv4Datagram.v ===== *)
(** * IPv4 datagrams (tcp_helpers/ipv4_header.hh/.cc, tcp_helpers/ipv4_datagram.hh/.cc)

    The IPv4 header, its [parse], [serialize] and the pseudo-header checksum it
    lends to TCP, and the datagram made of a header and a list of buffers. *)

From S2P Require Import Prelude UtilBuffer Parser Checksum Codec.

Module IPv4Header.

Definition LENGTH : Z := 20.
Definition DEFAULT_TTL : Z := 128.
Definition PROTO_TCP : Z := 6.

Record t := mk {
  ver : Z; hlen : Z; tos : Z; len : Z; id : Z;
  df : bool; mf : bool; offset : Z;
  ttl : Z; proto : Z; cksum : Z; src : Z; dst : Z
}.

Definition default : t :=
  mk 4 (LENGTH / 4) 0 0 0 true false 0 DEFAULT_TTL PROTO_TCP 0 0 0.

Definition parse (h : t) (p : NetParser.t) : outcome (ParseResult * t * NetParser.t) :=
  let original_serialized_version := NetParser.buffer p in
  let data_size := Buffer.size (NetParser.buffer p) in
  if data_size <? LENGTH then Ret (PacketTooShort, h, p) else
  '(first_byte, p) ← NetParser.u8 p;
  let ver := Z.shiftr first_byte 4 in
  let hlen := Z.land first_byte 15 in
  '(tos, p) ← NetParser.u8 p;
  '(len, p) ← NetParser.u16 p;
  '(id, p) ← NetParser.u16 p;
  '(fo_val, p) ← NetParser.u16 p;
  let df := negb (Z.land fo_val 0x4000 =? 0) in
  let mf := negb (Z.land fo_val 0x2000 =? 0) in
  let offset := Z.land fo_val 0x1fff in
  '(ttl, p) ← NetParser.u8 p;
  '(proto, p) ← NetParser.u8 p;
  '(cksum, p) ← NetParser.u16 p;
  '(src, p) ← NetParser.u32 p;
  '(dst, p) ← NetParser.u32 p;
  let h := mk ver hlen tos len id df mf offset ttl proto cksum src dst in
  if data_size <? 4 * hlen then Ret (PacketTooShort, h, p) else
  if negb (ver =? 4) then Ret (WrongIPVersion, h, p) else
  if hlen <? 5 then Ret (HeaderTooShort, h, p) else
  if negb (data_size =? len) then Ret (TruncatedPacket, h, p) else
  p ← NetParser.remove_prefix p (hlen * 4 - LENGTH);
  if NetParser.error p then Ret (NetParser.get_error p, h, p) else
  let check := InternetChecksum.new 0 in
  let check := InternetChecksum.add check
                 (take (Z.to_nat (4 * hlen)) (Buffer.str original_serialized_version)) in
  if negb (InternetChecksum.value check =? 0) then Ret (BadChecksum, h, p) else
  Ret (NoError, h, p).

(** The byte of the version and header length, and the word of flags and offset. *)
Definition first_byte (h : t) : Z := uint8 (Z.lor (Z.shiftl (ver h) 4) (Z.land (hlen h) 15)).
Definition fo_val (h : t) : Z :=
  Z.lor (Z.lor (if df h then 0x4000 else 0) (if mf h then 0x2000 else 0)) (Z.land (offset h) 0x1fff).

Definition serialize (h : t) : outcome string :=
  if negb (ver h =? 4) then Throw runtime_error else
  if 4 * hlen h <? LENGTH then Throw runtime_error else
  let ret : string := [] in
  let ret := NetUnparser.u8 ret (first_byte h) in
  let ret := NetUnparser.u8 ret (tos h) in
  let ret := NetUnparser.u16 ret (len h) in
  let ret := NetUnparser.u16 ret (id h) in
  let ret := NetUnparser.u16 ret (fo_val h) in
  let ret := NetUnparser.u8 ret (ttl h) in
  let ret := NetUnparser.u8 ret (proto h) in
  let ret := NetUnparser.u16 ret (cksum h) in
  let ret := NetUnparser.u32 ret (src h) in
  let ret := NetUnparser.u32 ret (dst h) in
  Ret (resize ret (4 * hlen h)).

Definition payload_length (h : t) : Z := uint16 (len h - 4 * hlen h).

Definition pseudo_cksum (h : t) : Z :=
  let pcksum := uint32 (Z.shiftr (src h) 16 + Z.land (src h) 0xffff) in
  let pcksum := uint32 (pcksum + uint32 (Z.shiftr (dst h) 16 + Z.land (dst h) 0xffff)) in
  let pcksum := uint32 (pcksum + proto h) in
  uint32 (pcksum + payload_length h).

Definition set_cksum (h : t) (c : Z) : t :=
  mk (ver h) (hlen h) (tos h) (len h) (id h) (df h) (mf h) (offset h) (ttl h) (proto h) c (src h) (dst h).

Record valid (h : t) : Prop := {
  v_ver : ver h = 4;
  v_hlen : 5 <= hlen h <= 15;
  v_tos : is_u8 (tos h);
  v_len : is_u16 (len h);
  v_id : is_u16 (id h);
  v_offset : 0 <= offset h < 2 ^ 13;
  v_ttl : is_u8 (ttl h);
  v_proto : is_u8 (proto h);
  v_cksum : is_u16 (cksum h);
  v_src : is_u32 (src h);
  v_dst : is_u32 (dst h)
}.

(** The pseudo-header's sum is far from wrapping around. *)
Lemma pseudo_cksum_range h :
  is_u32 (src h) -> is_u32 (dst h) -> is_u8 (proto h) -> 0 <= pseudo_cksum h < 2 ^ 20.
Proof.
  intros Hs Hd Hp. unfold pseudo_cksum. rewrite !InternetChecksum.fold_step.
  pose proof (uint16_range (len h - 4 * hlen h)) as Hl. fold (payload_length h) in Hl.
  unfold is_u32, is_u16, is_u8 in *.
  assert (forall a, 0 <= a < 2 ^ 32 -> 0 <= a / 65536 + a mod 65536 < 2 ^ 17) as Hb.
  { intros. Z.to_euclidean_division_equations. lia. }
  pose proof (Hb _ Hs) as Bs. pose proof (Hb _ Hd) as Bd.
  generalize dependent (src h / 65536 + src h mod 65536). intros a Ba.
  generalize dependent (dst h / 65536 + dst h mod 65536). intros b Bb.
  rewrite (uint32_small a), (uint32_small b) by (unfold is_u32; lia). nowrap. lia.
Qed.

Lemma testbit_small b n i : 0 <= b < 2 ^ n -> 0 <= n <= i -> Z.testbit b i = false.
Proof. intros Hb Hi. rewrite <- (Z.mod_small b (2 ^ n)) by done. apply Z.mod_pow2_bits_high. lia. Qed.

Lemma lor_disjoint_add a b n : 0 <= n -> a mod 2 ^ n = 0 -> 0 <= b < 2 ^ n -> Z.lor a b = a + b.
Proof.
  intros Hn Ha Hb. assert (Z.land a b = 0) as E.
  { apply Z.bits_inj'. intros i Hi. rewrite Z.land_spec, Z.bits_0.
    destruct (Z.lt_ge_cases i n).
    - by rewrite <- (Z.mod_pow2_bits_low a n i), Ha, Z.bits_0 by lia.
    - rewrite (testbit_small b n i) by lia. apply andb_false_r. }
  by rewrite <- Z.lxor_lor, Z.add_nocarry_lxor.
Qed.

Lemma first_byte_roundtrip h :
  ver h = 4 -> 5 <= hlen h <= 15 ->
  is_u8 (first_byte h) /\ Z.shiftr (first_byte h) 4 = ver h /\ Z.land (first_byte h) 15 = hlen h.
Proof.
  intros Hv Hh. unfold first_byte. change 15 with (Z.ones 4).
  rewrite !Z.land_ones, Hv, (Z.mod_small (hlen h)) by lia.
  rewrite (lor_disjoint_add _ _ 4) by (reflexivity || lia). change (Z.shiftl 4 4) with 64.
  rewrite Z.shiftr_div_pow2 by lia. unfold is_u8. nowrap.
  split; [lia|]. Z.to_euclidean_division_equations. lia.
Qed.

Lemma fo_val_roundtrip h :
  0 <= offset h < 2 ^ 13 ->
  is_u16 (fo_val h) /\ negb (Z.land (fo_val h) 0x4000 =? 0) = df h
  /\ negb (Z.land (fo_val h) 0x2000 =? 0) = mf h /\ Z.land (fo_val h) 0x1fff = offset h.
Proof.
  intros Ho. unfold fo_val. change 0x1fff with (Z.ones 13). rewrite !Z.land_ones by lia.
  rewrite (Z.mod_small (offset h)) by lia.
  assert (forall m, (m = 0x4000 \/ m = 0x2000) -> Z.land (offset h) m = 0) as Hm.
  { intros m Hm. apply Z.bits_inj'. intros i Hi. rewrite Z.land_spec, Z.bits_0.
    assert (exists k, 13 <= k /\ m = 2 ^ k) as (k & Hk & ->).
    { destruct Hm as [->| ->]; [by exists 14|by exists 13]. }
    rewrite Z.pow2_bits_eqb by lia. destruct (Z.eqb_spec k i) as [->|]; [|by rewrite andb_false_r].
    by rewrite (testbit_small (offset h) 13 i) by lia. }
  assert (forall a, (a = 0 \/ a = 0x4000 \/ a = 0x2000 \/ a = 0x6000) ->
    is_u16 (Z.lor a (offset h)) /\ Z.land (Z.lor a (offset h)) 0x4000 = Z.land a 0x4000
    /\ Z.land (Z.lor a (offset h)) 0x2000 = Z.land a 0x2000
    /\ Z.lor a (offset h) mod 2 ^ 13 = offset h) as Hc.
  { intros a Ha. rewrite !Z.land_lor_distr_l, !Hm, !Z.lor_0_r by auto.
    rewrite (lor_disjoint_add a _ 13) by (lia || (destruct Ha as [->|[->|[->| ->]]]; done)).
    unfold is_u16. repeat split; try (destruct Ha as [->|[->|[->| ->]]]; lia).
    assert (a mod 2 ^ 13 = 0) as Ea by (destruct Ha as [->|[->|[->| ->]]]; done).
    by rewrite Z.add_mod, Ea, Z.add_0_l, Z.mod_mod, Z.mod_small by lia. }
  destruct (Hc (Z.lor (if df h then 0x4000 else 0) (if mf h then 0x2000 else 0)))
    as (H1 & -> & -> & ->); [by destruct (df h), (mf h); vm_compute; auto|].
  by destruct (df h), (mf h).
Qed.

(** The header's bytes: what precedes the checksum, the checksum, what follows. *)
Definition bytes_before (h : t) : string :=
  NetUnparser._unparse_int 1 (first_byte h) ++ NetUnparser._unparse_int 1 (tos h)
  ++ NetUnparser._unparse_int 2 (len h) ++ NetUnparser._unparse_int 2 (id h)
  ++ NetUnparser._unparse_int 2 (fo_val h) ++ NetUnparser._unparse_int 1 (ttl h)
  ++ NetUnparser._unparse_int 1 (proto h).
Definition bytes_after (h : t) : string :=
  NetUnparser._unparse_int 4 (src h) ++ NetUnparser._unparse_int 4 (dst h)
  ++ replicate (Z.to_nat (4 * hlen h - 20)) Byte.x00.
Definition bytes (h : t) : string :=
  bytes_before h ++ NetUnparser._unparse_int 2 (cksum h) ++ bytes_after h.

Lemma ipv4_header_serialize_bytes h : ver h = 4 -> 5 <= hlen h -> serialize h = Ret (bytes h).
Proof.
  intros Hv Hd. unfold serialize. rewrite Hv. simpl negb. cbn iota.
  rewrite (proj2 (Z.ltb_ge _ _)) by (unfold LENGTH; lia). f_equal.
  unfold NetUnparser.u8, NetUnparser.u16, NetUnparser.u32.
  rewrite resize_grow by (rewrite !zlen_app, !NetUnparser.zlen_unparse; unfold zlen; simpl; lia).
  rewrite !zlen_app, !NetUnparser.zlen_unparse. unfold bytes, bytes_before, bytes_after, zlen. simpl length.
  rewrite <- !app_assoc. repeat f_equal.
Qed.

Lemma zlen_bytes h : 5 <= hlen h -> zlen (bytes h) = 4 * hlen h.
Proof.
  intros Hh. unfold bytes, bytes_before, bytes_after. rewrite !zlen_app, !NetUnparser.zlen_unparse.
  unfold zlen. rewrite length_replicate. lia.
Qed.

(** Is the checksum field of the header right? *)
Definition cksum_ok (h : t) : bool :=
  InternetChecksum.value (InternetChecksum.add (InternetChecksum.new 0) (bytes h)) =? 0.

(** The parser reads back the header that was written in front of a payload of the
    announced length, and reports whether its checksum is right. *)
Lemma ipv4_header_serialize_parse h0 h rest p :
  valid h -> len h = 4 * hlen h + zlen rest -> NetParser.at_front p (bytes h ++ rest) ->
  exists p', parse h0 p = Ret (if cksum_ok h then NoError else BadChecksum, h, p')
    /\ NetParser.at_front p' rest.
Proof.
  intros Hv Hl Hp. pose proof (zlen_bytes h (proj1 (v_hlen _ Hv))) as Hz.
  destruct (first_byte_roundtrip h) as (Hf & F1 & F2); [apply Hv..|].
  destruct (fo_val_roundtrip h) as (Ho & O1 & O2 & O3); [apply Hv|].
  pose proof (zlen_nonneg rest) as Hr. destruct Hv as [Hver].
  assert (zlen (bytes h ++ rest) = len h) as Hlen by (rewrite zlen_app; lia).
  assert (take (Z.to_nat (4 * hlen h)) (bytes h ++ rest) = bytes h) as Htake.
  { apply take_app_length'. unfold zlen in Hz. lia. }
  unfold parse, Buffer.size, NetParser.buffer. rewrite (NetParser.af_str _ _ Hp), Hlen.
  rewrite (proj2 (Z.ltb_ge _ _)) by (unfold LENGTH; lia).
  unfold bytes, bytes_before, bytes_after in Hp. rewrite <- !app_assoc in Hp. uint_unfold.
  do 10 (parse_next; [lia|]). rewrite F1, F2, O1, O2, O3, Htake. fold (cksum_ok h).
  rewrite Hver. simpl (negb (4 =? 4)). cbn iota.
  rewrite !(proj2 (Z.ltb_ge _ _)) by lia. rewrite Z.eqb_refl. simpl negb. cbn iota.
  match goal with
  | Hp : NetParser.at_front ?p (replicate ?n ?b ++ _) |- _ =>
      destruct (NetParser.parser_remove_prefix_spec p _ (hlen h * 4 - LENGTH) Hp) as (p' & -> & Hp')
  end.
  { rewrite zlen_app. unfold zlen at 1. rewrite length_replicate. unfold LENGTH. lia. }
  rewrite drop_app_length' in Hp' by (rewrite length_replicate; unfold LENGTH; lia).
  cbn [mbind outcome_bind]. unfold NetParser.error, NetParser.get_error.
  rewrite (NetParser.af_error _ _ Hp'). simpl bool_decide. cbn iota.
  exists p'. split; [|done]. destruct (cksum_ok h); simpl; do 3 f_equal; destruct h; simpl in *; by subst.
Qed.

Lemma parse_total h p s :
  NetParser.at_front p s ->
  exists r h' p' n, parse h p = Ret (r, h', p') /\ 0 <= n /\ NetParser.after p' s n.
Proof.
  intros Hp. unfold parse, Buffer.size, NetParser.buffer. rewrite (NetParser.af_str _ _ Hp).
  apply NetParser.after_0 in Hp. case_if; [by do 3 eexists; exists 0|].
  unfold NetParser.u8, NetParser.u16, NetParser.u32.
  do 10 parse_any.
  do 4 (case_if; [by do 3 eexists; exists 20|]).
  destruct (NetParser.remove_prefix_after (Z.land v 15 * 4 - LENGTH) p9 s 20) as (p' & -> & Hp');
    [lia|unfold LENGTH; lia|done|].
  cbn [mbind outcome_bind].
  assert (0 <= 20 + (Z.land v 15 * 4 - LENGTH)) by (unfold LENGTH; lia).
  do 2 (case_if; [by do 4 eexists|]). by do 4 eexists.
Qed.

End IPv4Header.

#[export] Program Instance IPv4Header_codec : HeaderCodec IPv4Header.t := {|
  hc_parse := IPv4Header.parse;
  hc_serialize := IPv4Header.serialize;
  hc_valid h rest :=
    IPv4Header.valid h /\ IPv4Header.len h = 4 * IPv4Header.hlen h + zlen rest
    /\ IPv4Header.cksum_ok h = true
|}.
Next Obligation. apply IPv4Header.parse_total. Qed.
Next Obligation.
  intros h0 h rest (Hv & Hl & Hc). eexists. split.
  - apply IPv4Header.ipv4_header_serialize_bytes; apply Hv.
  - intros p Hp. destruct (IPv4Header.ipv4_header_serialize_parse h0 h rest p Hv Hl Hp) as (p' & E & Hp').
    rewrite Hc in E. eauto.
Qed.

#[export] Program Instance IPv4Header_checksummed : ChecksummedHeader IPv4Header.t := {|
  ch_cksum := IPv4Header.cksum;
  ch_set := IPv4Header.set_cksum;
  ch_valid := IPv4Header.valid
|}.
Next Obligation.
  intros h Hv. exists (IPv4Header.bytes_before h), (IPv4Header.bytes_after h).
  pose proof (IPv4Header.v_hlen _ Hv). split; [by exists 5%nat|]. split.
  - unfold IPv4Header.bytes_before, IPv4Header.bytes_after.
    rewrite !zlen_app, !NetUnparser.zlen_unparse. unfold zlen. rewrite length_replicate. lia.
  - intros ck. rewrite IPv4Header.ipv4_header_serialize_bytes; [done|apply Hv|simpl; lia].
Qed.

Module IPv4Datagram.

Record t := mk { _header : IPv4Header.t; _payload : BufferList.t }.

Definition default : t := mk IPv4Header.default [].
Definition header (d : t) : IPv4Header.t := _header d.
Definition payload (d : t) : BufferList.t := _payload d.

Definition parse (d : t) (buffer : Buffer.t) : outcome (ParseResult * t) :=
  '(err, h, b) ← parse_packet (_header d) buffer;
  let d := mk h (BufferList.of_buffer b) in
  if negb (BufferList.size (_payload d) =? IPv4Header.payload_length (_header d))
  then Ret (PacketTooShort, d)
  else Ret (err, d).

Definition serialize (d : t) : outcome BufferList.t :=
  if negb (BufferList.size (_payload d) =? IPv4Header.payload_length (_header d))
  then Throw runtime_error else
  let header_out := IPv4Header.set_cksum (_header d) 0 in
  header_zero_checksum ← IPv4Header.serialize header_out;
  let check := InternetChecksum.new 0 in
  let check := InternetChecksum.add check header_zero_checksum in
  let header_out := IPv4Header.set_cksum header_out (InternetChecksum.value check) in
  h ← IPv4Header.serialize header_out;
  Ret (BufferList.append (BufferList.append [] (BufferList.of_string h)) (_payload d)).

Lemma ipv4_datagram_set_cksum_valid h ck : is_u16 ck -> IPv4Header.valid h -> IPv4Header.valid (IPv4Header.set_cksum h ck).
Proof. intros Hc []. by split. Qed.

(** The announced length is the header's and the payload's. *)
Definition fits (d : t) : Prop :=
  IPv4Header.valid (_header d) /\
  IPv4Header.len (_header d) = 4 * IPv4Header.hlen (_header d) + zlen (BufferList.bytes (_payload d)).

Lemma fits_payload_length h n :
  IPv4Header.valid h -> 0 <= n -> IPv4Header.len h = 4 * IPv4Header.hlen h + n ->
  IPv4Header.payload_length h = n.
Proof.
  intros Hv Hn Hl. pose proof (IPv4Header.v_len _ Hv) as Hb. pose proof (IPv4Header.v_hlen _ Hv).
  unfold is_u16 in Hb. unfold IPv4Header.payload_length. rewrite Hl. nowrap. lia.
Qed.

(** Parsing a header with any checksum in front of a payload of the announced length. *)
Lemma parse_any_cksum d0 h rest :
  IPv4Header.valid h -> IPv4Header.len h = 4 * IPv4Header.hlen h + zlen rest ->
  exists b, parse d0 (Buffer.of_string (IPv4Header.bytes h ++ rest))
      = Ret (NoError, mk h (BufferList.of_buffer b))
    /\ Buffer.str b = rest /\ Buffer.wf b
    /\ exists p, IPv4Header.parse (_header d0) (NetParser.new (Buffer.of_string (IPv4Header.bytes h ++ rest)))
         = Ret (if IPv4Header.cksum_ok h then NoError else BadChecksum, h, p).
Proof.
  intros Hv Hl. pose proof (zlen_nonneg rest). pose proof (IPv4Header.v_hlen _ Hv). pose proof (IPv4Header.v_len _ Hv) as Hb. unfold is_u16 in Hb.
  destruct (IPv4Header.ipv4_header_serialize_parse (_header d0) h rest
    (NetParser.new (Buffer.of_string (IPv4Header.bytes h ++ rest))) Hv Hl) as (p & E & [Hw Hs He]).
  { apply NetParser.new_at_front. rewrite zlen_app, IPv4Header.zlen_bytes by apply Hv. lia. }
  exists (NetParser._buffer p). unfold parse, parse_packet. cbn [hc_parse IPv4Header_codec]. rewrite E.
  cbn [mbind outcome_bind _payload _header]. unfold NetParser.get_error, NetParser.buffer. rewrite He.
  rewrite (fits_payload_length h (zlen rest)) by done.
  rewrite BufferList.bl_size_bytes; rewrite BufferList.bytes_of_buffer, Hs; [|lia].
  rewrite Z.eqb_refl. simpl. eauto.
Qed.

End IPv4Datagram.

(** What [serialize] writes, [parse] reads back. *)
Lemma datagram_wire (d d0 : IPv4Datagram.t) :
  IPv4Datagram.fits d ->
  exists bl ck b,
    IPv4Datagram.serialize d = Ret bl /\
    IPv4Datagram.parse d0 (Buffer.of_string (BufferList.concatenate bl))
      = Ret (NoError, IPv4Datagram.mk (IPv4Header.set_cksum (IPv4Datagram.header d) ck) (BufferList.of_buffer b)) /\
    Buffer.str b = BufferList.bytes (IPv4Datagram.payload d) /\ Buffer.wf b /\
    IPv4Header.cksum_ok (IPv4Header.set_cksum (IPv4Datagram.header d) ck) = true /\ is_u16 ck.
Proof.
  destruct d as [h pl]. intros [Hv Hl]. simpl in *. set (payload := BufferList.bytes pl) in *.
  pose proof (IPv4Header.v_len _ Hv) as Hb. unfold is_u16 in Hb. pose proof (IPv4Header.v_hlen _ Hv).
  destruct (checksum_filled h 0 []) as (s0 & E0 & Hck & s & Es & Hz); [exact Hv|lia|by vm_compute|].
  rewrite app_nil_r in Hz. simpl in E0, Es. simpl (InternetChecksum.add _ []) in Hck, Es.
  set (ck := InternetChecksum.value _) in *.
  assert (IPv4Header.valid (IPv4Header.set_cksum h ck)) as Hv' by (by apply IPv4Datagram.ipv4_datagram_set_cksum_valid).
  assert (s = IPv4Header.bytes (IPv4Header.set_cksum h ck)) as ->.
  { rewrite IPv4Header.ipv4_header_serialize_bytes in Es by apply Hv'. congruence. }
  destruct (IPv4Datagram.parse_any_cksum d0 (IPv4Header.set_cksum h ck) payload Hv' Hl) as (b & Ep & Hb' & Hw & _).
  exists (BufferList.append (BufferList.append [] (BufferList.of_string
    (IPv4Header.bytes (IPv4Header.set_cksum h ck)))) pl), ck, b.
  split; [|split; [|split; [done|split; [done|split; [|done]]]]].
  - unfold IPv4Datagram.serialize. cbn [IPv4Datagram._payload IPv4Datagram._header].
    rewrite (IPv4Datagram.fits_payload_length h (zlen payload)) by (done || zlen_lia).
    rewrite BufferList.bl_size_bytes by (fold payload; lia). fold payload. rewrite Z.eqb_refl. cbn [negb].
    rewrite E0. cbn [mbind outcome_bind]. fold ck.
    change (IPv4Header.set_cksum (IPv4Header.set_cksum h 0) ck) with (IPv4Header.set_cksum h ck).
    by rewrite Es.
  - rewrite BufferList.concatenate_bytes, !BufferList.bytes_append, BufferList.bl_bytes_of_string.
    change (BufferList.bytes []) with (@nil byte). rewrite app_nil_l. exact Ep.
  - unfold IPv4Header.cksum_ok. rewrite Hz. reflexivity.
Qed.

(** C30: A datagram of version 4 with a header length of 5 to 15 words and a
    fragment offset of 13 bits, whose other fields fit their widths and whose length
    field matches its payload, is serialised without error, and parsing the bytes
    gives back its header (checksum filled in) and its payload with no error; the
    checksum written is one that the header's own check accepts. *)
Theorem ipv4_datagram_roundtrip (d d0 : IPv4Datagram.t) :
  IPv4Datagram.fits d ->
  exists bl ck b,
    IPv4Datagram.serialize d = Ret bl /\
    IPv4Datagram.parse d0 (Buffer.of_string (BufferList.concatenate bl))
      = Ret (NoError, IPv4Datagram.mk (IPv4Header.set_cksum (IPv4Datagram.header d) ck) (BufferList.of_buffer b)) /\
    Buffer.str b = BufferList.bytes (IPv4Datagram.payload d) /\
    IPv4Header.cksum_ok (IPv4Header.set_cksum (IPv4Datagram.header d) ck) = true.
Proof. intros H. destruct (datagram_wire d d0 H) as (bl & ck & b & E & Ep & Hb & _ & Hc & _). eauto 8. Qed.

(** The datagram's [parse] accepts any header checksum: on the bytes of a
    datagram whose checksum field is arbitrary it returns [NoError], even when
    the header's [parse] reports [BadChecksum], because that result is dropped. *)
Theorem ipv4_datagram_accepts_any_checksum (d d0 : IPv4Datagram.t) (ck : Z) :
  IPv4Datagram.fits d -> is_u16 ck ->
  let h := IPv4Header.set_cksum (IPv4Datagram.header d) ck in
  let s := IPv4Header.bytes h ++ BufferList.bytes (IPv4Datagram.payload d) in
  IPv4Header.serialize h = Ret (IPv4Header.bytes h) /\
  (exists b, IPv4Datagram.parse d0 (Buffer.of_string s)
     = Ret (NoError, IPv4Datagram.mk h (BufferList.of_buffer b))) /\
  (exists p, IPv4Header.parse (IPv4Datagram.header d0) (NetParser.new (Buffer.of_string s))
     = Ret (if IPv4Header.cksum_ok h then NoError else BadChecksum, h, p)).
Proof.
  intros [Hv Hl] Hck h s.
  assert (IPv4Header.valid h) as Hv' by (by apply IPv4Datagram.ipv4_datagram_set_cksum_valid).
  destruct (IPv4Datagram.parse_any_cksum d0 h (BufferList.bytes (IPv4Datagram.payload d)) Hv' Hl)
    as (b & E & _ & _ & p & Ep).
  split; [apply IPv4Header.ipv4_header_serialize_bytes; apply Hv'|]. split; [by exists b|by exists p].
Qed.

Definition ipv4_example : IPv4Datagram.t :=
  IPv4Datagram.mk
    (IPv4Header.mk 4 6 0 27 1 true false 3 64 6 0 0x0a000001 0x0a000002)
    [Buffer.of_string [Byte.x68; Byte.x69]; Buffer.of_string [Byte.x21]].

Lemma ipv4_example_fits : IPv4Datagram.fits ipv4_example.
Proof. split; [split; vm_compute; try split; (reflexivity || discriminate)|reflexivity]. Qed.

Lemma ipv4_datagram_roundtrip_witness :
  exists bl ck b,
    IPv4Datagram.serialize ipv4_example = Ret bl /\
    IPv4Datagram.parse IPv4Datagram.default (Buffer.of_string (BufferList.concatenate bl))
      = Ret (NoError, IPv4Datagram.mk (IPv4Header.set_cksum (IPv4Datagram.header ipv4_example) ck)
                        (BufferList.of_buffer b)) /\
    Buffer.str b = BufferList.bytes (IPv4Datagram.payload ipv4_example) /\
    IPv4Header.cksum_ok (IPv4Header.set_cksum (IPv4Datagram.header ipv4_example) ck) = true.
Proof. exact (ipv4_datagram_roundtrip ipv4_example IPv4Datagram.default ipv4_example_fits). Defined.

Lemma ipv4_datagram_accepts_any_checksum_witness :
  let h := IPv4Header.set_cksum (IPv4Datagram.header ipv4_example) 0xdead in
  let s := IPv4Header.bytes h ++ BufferList.bytes (IPv4Datagram.payload ipv4_example) in
  IPv4Header.cksum_ok h = false /\
  exists b, IPv4Datagram.parse IPv4Datagram.default (Buffer.of_string s)
     = Ret (NoError, IPv4Datagram.mk h (BufferList.of_buffer b)).
Proof.
  split; [vm_compute; reflexivity|].
  apply (ipv4_datagram_accepts_any_checksum ipv4_example IPv4Datagram.default 0xdead ipv4_example_fits).
  split; lia.
Defined.
