(* ===== verification/EthernetFrame.v ===== *)
(** * Ethernet frames and ARP messages (tcp_helpers/ethernet_header.hh/.cc,
      tcp_helpers/ethernet_frame.hh/.cc, tcp_helpers/arp_message.hh/.cc)

    The link layer's packets.  An Ethernet address is an array of six bytes; its
    printable form is a key elsewhere, and is shown to determine the address. *)

From Stdlib Require Strings.String.
From S2P Require Import Prelude UtilBuffer Parser Checksum Codec.

(** [std::array<uint8_t, 6>]; the length is part of the well-formedness conditions. *)
Abbreviation EthernetAddress := (list byte).
Definition is_address (a : EthernetAddress) : Prop := length a = 6%nat.

Definition ETHERNET_BROADCAST : EthernetAddress := replicate 6 Byte.xff.
Definition zero_address : EthernetAddress := replicate 6 Byte.x00.

(** Two lower-case hexadecimal digits. *)
Definition hex_digit (n : Z) : byte := byte_of_Z (if n <? 10 then 48 + n else 87 + n).
Definition hex_byte (b : byte) : string := [hex_digit (byte_to_Z b / 16); hex_digit (byte_to_Z b mod 16)].

(** The printable form: the bytes in hexadecimal, separated by colons. *)
Fixpoint to_string (address : EthernetAddress) : string :=
  match address with
  | [] => []
  | [b] => hex_byte b
  | b :: rest => hex_byte b ++ [Byte.x3a] ++ to_string rest
  end.

(** The loop [for (auto &byte : a) byte = p.u8()] over an array of [n] bytes. *)
Fixpoint parse_bytes (n : nat) (p : NetParser.t) : outcome (list byte * NetParser.t) :=
  match n with
  | O => Ret ([], p)
  | S n =>
      '(b, p) ← NetParser.u8 p;
      '(bs, p) ← parse_bytes n p;
      Ret (byte_of_Z b :: bs, p)
  end.

(** The loop [for (auto &byte : a) NetUnparser::u8(ret, byte)]. *)
Definition unparse_bytes (ret : string) (a : EthernetAddress) : string :=
  fold_left (fun ret b => NetUnparser.u8 ret (byte_to_Z b)) a ret.

Module EthernetHeader.

Definition LENGTH : Z := 14.
Definition TYPE_IPv4 : Z := 0x800.
Definition TYPE_ARP : Z := 0x806.

Record t := mk { dst : EthernetAddress; src : EthernetAddress; type : Z }.

Definition default : t := mk zero_address zero_address 0.

Definition parse (h : t) (p : NetParser.t) : outcome (ParseResult * t * NetParser.t) :=
  if Buffer.size (NetParser.buffer p) <? LENGTH then Ret (PacketTooShort, h, p) else
  '(dst, p) ← parse_bytes 6 p;
  '(src, p) ← parse_bytes 6 p;
  '(type, p) ← NetParser.u16 p;
  Ret (NetParser.get_error p, mk dst src type, p).

Definition serialize (h : t) : outcome string :=
  let ret : string := [] in
  let ret := unparse_bytes ret (dst h) in
  let ret := unparse_bytes ret (src h) in
  let ret := NetUnparser.u16 ret (type h) in
  Ret ret.

Record valid (h : t) : Prop := {
  v_dst : is_address (dst h);
  v_src : is_address (src h);
  v_type : is_u16 (type h)
}.

End EthernetHeader.

(** ** The loops over arrays *)

Lemma unparse_byte b : NetUnparser._unparse_int 1 (byte_to_Z b) = [b].
Proof. rewrite NetUnparser.unparse_S, byte_of_to_Z. reflexivity. Qed.

Lemma unparse_bytes_app ret a : unparse_bytes ret a = ret ++ a.
Proof.
  unfold unparse_bytes. revert ret. induction a as [|b a IH]; intros ret; simpl.
  - by rewrite app_nil_r.
  - rewrite IH. unfold NetUnparser.u8. by rewrite unparse_byte, <- app_assoc.
Qed.

Lemma be_value_byte b : be_value [b] = byte_to_Z b.
Proof. reflexivity. Qed.

Lemma slice_S (s : string) k n :
  0 <= k -> k + 1 + Z.of_nat n <= zlen s ->
  slice s k (Z.of_nat (S n)) = byte_of_Z (be_value (slice s k 1)) :: slice s (k + 1) (Z.of_nat n).
Proof.
  intros Hk Hn. rewrite (slice_split s k _ 1) by lia.
  replace (Z.of_nat (S n) - 1) with (Z.of_nat n) by lia.
  pose proof (zlen_slice_le s k 1 Hk ltac:(lia) ltac:(lia)) as Hl. destruct (slice s k 1) as [|b [|c r]];
    rewrite ?zlen_cons, ?zlen_nil in Hl; zlen_pose; try lia.
  by rewrite be_value_byte, byte_of_to_Z.
Qed.

Lemma parse_bytes_after n p s k :
  0 <= k -> NetParser.after p s k ->
  exists bs p', parse_bytes n p = Ret (bs, p') /\ NetParser.after p' s (k + Z.of_nat n)
    /\ (k + Z.of_nat n <= zlen s -> bs = slice s k (Z.of_nat n)).
Proof.
  revert p k. induction n as [|n IH]; intros p k Hk Hp; cbn [parse_bytes].
  { rewrite Z.add_0_r. do 2 eexists. split; [done|]. split; [done|]. intros _. by rewrite slice_empty. }
  unfold NetParser.u8.
  destruct (NetParser.parse_int_after 1 p s k Hk Hp) as (v & p1 & -> & Hp1 & Hv). cbn [mbind outcome_bind].
  destruct (IH p1 (k + 1)) as (bs & p2 & -> & Hp2 & Hbs); [lia|done|]. cbn [mbind outcome_bind].
  do 2 eexists. split; [done|]. replace (k + Z.of_nat (S n)) with (k + 1 + Z.of_nat n) by lia.
  split; [done|]. intros Hl. rewrite Hbs, Hv by lia. symmetry. apply slice_S; lia.
Qed.

(** Advances the goal's parser over an array of bytes. *)
Ltac parse_array :=
  match goal with
  | Hp : NetParser.after ?p ?s ?k |- context [parse_bytes ?n ?p] =>
      let v := fresh "v" in
      let p' := fresh "p" in
      let Ha := fresh "Ha" in
      let Hv := fresh "Hv" in
      destruct (parse_bytes_after n p s k ltac:(lia) Hp) as (v & p' & -> & Ha & Hv);
      let k' := eval vm_compute in (k + Z.of_nat n) in
      let n' := eval vm_compute in (Z.of_nat n) in
      change (k + Z.of_nat n) with k' in Ha, Hv; change (Z.of_nat n) with n' in Hv;
      clear Hp; cbn [mbind outcome_bind]
  end.

(** ** The header and the frame *)

Lemma ethernet_parse_short h p s :
  NetParser.at_front p s -> zlen s < 14 -> EthernetHeader.parse h p = Ret (PacketTooShort, h, p).
Proof.
  intros Hp Hs. unfold EthernetHeader.parse, Buffer.size, NetParser.buffer.
  rewrite (NetParser.af_str _ _ Hp). by rewrite (proj2 (Z.ltb_lt _ _)).
Qed.

Lemma ethernet_parse_ok h p s :
  NetParser.at_front p s -> 14 <= zlen s ->
  exists p', EthernetHeader.parse h p
      = Ret (NoError, EthernetHeader.mk (slice s 0 6) (slice s 6 6) (be_value (slice s 12 2)), p')
    /\ NetParser.at_front p' (drop 14 s).
Proof.
  intros Hp Hs. unfold EthernetHeader.parse, Buffer.size, NetParser.buffer, NetParser.u16.
  rewrite (NetParser.af_str _ _ Hp), (proj2 (Z.ltb_ge _ _)) by done.
  apply NetParser.after_0 in Hp. do 2 parse_array. parse_any.
  rewrite Hv, Hv0, Hv1 by lia. exists p2.
  rewrite (NetParser.after_get_error _ _ _ Ha), (proj2 (Z.leb_le _ _)) by lia.
  split; [done|]. apply (NetParser.after_at_front _ _ 14); [done|lia].
Qed.

Lemma ethernet_serialize h :
  EthernetHeader.serialize h
    = Ret (EthernetHeader.dst h ++ EthernetHeader.src h ++ NetUnparser._unparse_int 2 (EthernetHeader.type h)).
Proof.
  unfold EthernetHeader.serialize, NetUnparser.u16. rewrite !unparse_bytes_app.
  by rewrite app_nil_l, <- app_assoc.
Qed.

(** Slices of a string cut where its parts meet. *)
Lemma slice_front (a b : string) n : zlen a = n -> slice (a ++ b) 0 n = a.
Proof. intros <-. rewrite slice_app_l by lia. by apply slice_all. Qed.

Lemma slice_join (s : string) k n k' m :
  k' = k + n -> 0 <= k -> 0 <= n -> 0 <= m -> slice s k n ++ slice s k' m = slice s k (n + m).
Proof. intros ->. apply slice_app. Qed.

Lemma slice_skip (a b : string) k n : zlen a <= k -> slice (a ++ b) k n = slice b (k - zlen a) n.
Proof. apply slice_app_r. Qed.

#[export] Program Instance EthernetHeader_codec : HeaderCodec EthernetHeader.t := {|
  hc_parse := EthernetHeader.parse;
  hc_serialize := EthernetHeader.serialize;
  hc_valid h rest := EthernetHeader.valid h
|}.
Next Obligation.
  intros h p s Hp. destruct (Z.lt_ge_cases (zlen s) 14) as [Hs|Hs].
  - rewrite (ethernet_parse_short h p s) by done. do 3 eexists. exists 0.
    split; [done|]. split; [done|]. by apply NetParser.after_0.
  - destruct (ethernet_parse_ok h p s) as (p' & -> & Hp'); [done..|]. do 3 eexists. exists 14.
    split; [done|]. split; [done|]. apply NetParser.at_front_after; [lia|done].
Qed.
Next Obligation.
  intros h0 h rest [Hd Hs Ht]. eexists. split; [apply ethernet_serialize|]. intros p Hp.
  unfold is_address, is_u16 in *.
  destruct (ethernet_parse_ok h0 p _ Hp) as (p' & E & Hp').
  { rewrite !zlen_app, NetUnparser.zlen_unparse. unfold zlen. lia. }
  exists p'. split.
  - rewrite E. rewrite <- !app_assoc.
    assert (zlen (EthernetHeader.dst h) = 6) as Zd by (unfold zlen; lia).
    assert (zlen (EthernetHeader.src h) = 6) as Zs by (unfold zlen; lia).
    rewrite slice_front by done. rewrite slice_skip, Zd, slice_front by (simpl; lia).
    rewrite slice_skip, Zd, slice_skip, Zs, slice_front by (rewrite ?NetUnparser.zlen_unparse; lia).
    rewrite NetUnparser.be_value_unparse by (simpl; lia). by destruct h.
  - rewrite drop_app_length' in Hp'; [done|].
    pose proof (NetUnparser.zlen_unparse 2 (EthernetHeader.type h)) as Hz. unfold zlen in Hz.
    rewrite !length_app. lia.
Qed.

Module EthernetFrame.

Record t := mk { _header : EthernetHeader.t; _payload : BufferList.t }.

Definition default : t := mk EthernetHeader.default [].
Definition header (f : t) : EthernetHeader.t := _header f.
Definition payload (f : t) : BufferList.t := _payload f.

Definition parse (f : t) (buffer : Buffer.t) : outcome (ParseResult * t) :=
  '(err, h, b) ← parse_packet (_header f) buffer;
  Ret (err, mk h (BufferList.of_buffer b)).

Definition serialize (f : t) : outcome BufferList.t :=
  h ← EthernetHeader.serialize (_header f);
  Ret (BufferList.append (BufferList.append [] (BufferList.of_string h)) (_payload f)).

End EthernetFrame.

(** What [serialize] writes, [parse] reads back. *)
Lemma frame_wire (f f0 : EthernetFrame.t) :
  EthernetHeader.valid (EthernetFrame.header f) ->
  zlen (BufferList.bytes (EthernetFrame.payload f)) < 2 ^ 63 ->
  exists bl b, EthernetFrame.serialize f = Ret bl /\
    EthernetFrame.parse f0 (Buffer.of_string (BufferList.concatenate bl))
      = Ret (NoError, EthernetFrame.mk (EthernetFrame.header f) (BufferList.of_buffer b)) /\
    Buffer.str b = BufferList.bytes (EthernetFrame.payload f).
Proof.
  destruct f as [h pl]. simpl. intros Hv Hl.
  destruct (parse_packet_roundtrip (EthernetFrame._header f0) h (BufferList.bytes pl)) as (s & Es & Hs).
  { exact Hv. }
  simpl in Es. destruct Hs as (b & Eb & Hb).
  { rewrite ethernet_serialize in Es. injection Es as <-. destruct Hv as [Hd Hsr _].
    rewrite !zlen_app, NetUnparser.zlen_unparse. unfold zlen, is_address in *. lia. }
  exists (BufferList.append (BufferList.append [] (BufferList.of_string s)) pl), b.
  split; [|split; [|done]].
  - unfold EthernetFrame.serialize. cbn [EthernetFrame._header EthernetFrame._payload]. by rewrite Es.
  - rewrite BufferList.concatenate_bytes, !BufferList.bytes_append, BufferList.bl_bytes_of_string.
    change (BufferList.bytes []) with (@nil byte). rewrite app_nil_l.
    unfold EthernetFrame.parse. by rewrite Eb.
Qed.

(** A frame is serialised without error, and parsing the bytes gives back its
    header and the bytes of its payload. *)
Theorem ethernet_frame_roundtrip (f f0 : EthernetFrame.t) :
  EthernetHeader.valid (EthernetFrame.header f) ->
  zlen (BufferList.bytes (EthernetFrame.payload f)) < 2 ^ 63 ->
  exists bl b, EthernetFrame.serialize f = Ret bl /\
    EthernetFrame.parse f0 (Buffer.of_string (BufferList.concatenate bl))
      = Ret (NoError, EthernetFrame.mk (EthernetFrame.header f) (BufferList.of_buffer b)) /\
    Buffer.str b = BufferList.bytes (EthernetFrame.payload f).
Proof. apply frame_wire. Qed.

(** A frame too short to hold an Ethernet header is accepted: the header's
    [parse] reports [PacketTooShort] without telling the parser, so the frame's
    [parse] returns [NoError], keeps the old header and takes every byte as
    payload. *)
Theorem ethernet_frame_accepts_short (f : EthernetFrame.t) (s : string) :
  zlen s < EthernetHeader.LENGTH ->
  EthernetFrame.parse f (Buffer.of_string s)
    = Ret (NoError, EthernetFrame.mk (EthernetFrame.header f) (BufferList.of_string s)) /\
  EthernetHeader.parse (EthernetFrame.header f) (NetParser.new (Buffer.of_string s))
    = Ret (PacketTooShort, EthernetFrame.header f, NetParser.new (Buffer.of_string s)).
Proof.
  unfold EthernetHeader.LENGTH. intros Hs.
  assert (NetParser.at_front (NetParser.new (Buffer.of_string s)) s) as Hp by (apply NetParser.new_at_front; lia).
  unfold EthernetFrame.parse, parse_packet. cbn [hc_parse EthernetHeader_codec].
  by rewrite !(ethernet_parse_short _ _ _ Hp Hs).
Qed.

(** ** ARP messages *)

Module ARPMessage.

Definition LENGTH : Z := 28.
Definition TYPE_ETHERNET : Z := 1.
Definition OPCODE_REQUEST : Z := 1.
Definition OPCODE_REPLY : Z := 2.

Record t := mk {
  hardware_type : Z; protocol_type : Z;
  hardware_address_size : Z; protocol_address_size : Z;
  opcode : Z;
  sender_ethernet_address : EthernetAddress; sender_ip_address : Z;
  target_ethernet_address : EthernetAddress; target_ip_address : Z
}.

(** The sizes are those of [EthernetHeader::src] and [IPv4Header::src]. *)
Definition default : t :=
  mk TYPE_ETHERNET EthernetHeader.TYPE_IPv4 6 4 0 zero_address 0 zero_address 0.

Definition supported (m : t) : bool :=
  (hardware_type m =? TYPE_ETHERNET) && (protocol_type m =? EthernetHeader.TYPE_IPv4)
  && (hardware_address_size m =? 6) && (protocol_address_size m =? 4)
  && ((opcode m =? OPCODE_REQUEST) || (opcode m =? OPCODE_REPLY)).

(** An unsupported message keeps the old addresses. *)
Definition parse (m : t) (buffer : Buffer.t) : outcome (ParseResult * t) :=
  let p := NetParser.new buffer in
  if Buffer.size (NetParser.buffer p) <? LENGTH then Ret (PacketTooShort, m) else
  '(hardware_type, p) ← NetParser.u16 p;
  '(protocol_type, p) ← NetParser.u16 p;
  '(hardware_address_size, p) ← NetParser.u8 p;
  '(protocol_address_size, p) ← NetParser.u8 p;
  '(opcode, p) ← NetParser.u16 p;
  let m := mk hardware_type protocol_type hardware_address_size protocol_address_size opcode
              (sender_ethernet_address m) (sender_ip_address m)
              (target_ethernet_address m) (target_ip_address m) in
  if negb (supported m) then Ret (Unsupported, m) else
  '(sender_ethernet_address, p) ← parse_bytes 6 p;
  '(sender_ip_address, p) ← NetParser.u32 p;
  '(target_ethernet_address, p) ← parse_bytes 6 p;
  '(target_ip_address, p) ← NetParser.u32 p;
  let m := mk hardware_type protocol_type hardware_address_size protocol_address_size opcode
              sender_ethernet_address sender_ip_address target_ethernet_address target_ip_address in
  Ret (NetParser.get_error p, m).

Definition serialize (m : t) : outcome string :=
  if negb (supported m) then Throw runtime_error else
  let ret : string := [] in
  let ret := NetUnparser.u16 ret (hardware_type m) in
  let ret := NetUnparser.u16 ret (protocol_type m) in
  let ret := NetUnparser.u8 ret (hardware_address_size m) in
  let ret := NetUnparser.u8 ret (protocol_address_size m) in
  let ret := NetUnparser.u16 ret (opcode m) in
  let ret := unparse_bytes ret (sender_ethernet_address m) in
  let ret := NetUnparser.u32 ret (sender_ip_address m) in
  let ret := unparse_bytes ret (target_ethernet_address m) in
  let ret := NetUnparser.u32 ret (target_ip_address m) in
  Ret ret.

(** The message the 28 bytes of [s] stand for. *)
Definition of_bytes (s : string) : t :=
  mk (be_value (slice s 0 2)) (be_value (slice s 2 2)) (be_value (slice s 4 1)) (be_value (slice s 5 1))
     (be_value (slice s 6 2)) (slice s 8 6) (be_value (slice s 14 4)) (slice s 18 6) (be_value (slice s 24 4)).

Definition to_bytes (m : t) : string :=
  NetUnparser._unparse_int 2 (hardware_type m) ++ NetUnparser._unparse_int 2 (protocol_type m)
  ++ NetUnparser._unparse_int 1 (hardware_address_size m) ++ NetUnparser._unparse_int 1 (protocol_address_size m)
  ++ NetUnparser._unparse_int 2 (opcode m) ++ sender_ethernet_address m
  ++ NetUnparser._unparse_int 4 (sender_ip_address m) ++ target_ethernet_address m
  ++ NetUnparser._unparse_int 4 (target_ip_address m).

Record valid (m : t) : Prop := {
  v_supported : supported m = true;
  v_sender : is_address (sender_ethernet_address m);
  v_sender_ip : is_u32 (sender_ip_address m);
  v_target : is_address (target_ethernet_address m);
  v_target_ip : is_u32 (target_ip_address m)
}.

Lemma serialize_to_bytes m : supported m = true -> serialize m = Ret (to_bytes m).
Proof.
  intros E. unfold serialize, to_bytes. rewrite E. cbn [negb].
  unfold NetUnparser.u8, NetUnparser.u16, NetUnparser.u32. rewrite !unparse_bytes_app.
  by rewrite <- !app_assoc.
Qed.

(** What [parse] returns on any bytes. *)
Lemma parse_spec m s :
  zlen s < 2 ^ 64 ->
  exists m', parse m (Buffer.of_string s)
    = Ret (if zlen s <? 28 then PacketTooShort else
           if supported (of_bytes s) then NoError else Unsupported, m')
    /\ (28 <= zlen s -> supported (of_bytes s) = true -> m' = of_bytes s).
Proof.
  intros Hl. pose proof (NetParser.after_0 _ _ (NetParser.new_at_front s Hl)) as Hp.
  unfold parse, Buffer.size. change (NetParser.buffer _) with (Buffer.of_string s) at 1.
  rewrite Buffer.str_of_string. unfold LENGTH. case_if; [eexists; split; [done|lia]|].
  unfold NetParser.u8, NetParser.u16, NetParser.u32. do 5 parse_any.
  assert (forall a b c d, supported (mk v v0 v1 v2 v3 a b c d) = supported (of_bytes s)) as Hs.
  { intros. rewrite Hv, Hv0, Hv1, Hv2, Hv3 by lia. reflexivity. }
  rewrite Hs. destruct (supported (of_bytes s)); cbn [negb]; [|eexists; by split].
  parse_array. parse_any. parse_array. parse_any.
  rewrite (NetParser.after_get_error _ _ _ Ha), (proj2 (Z.leb_le _ _)) by lia.
  eexists. split; [done|]. intros _ _.
  rewrite Hv, Hv0, Hv1, Hv2, Hv3, Hv4, Hv5, Hv6, Hv7 by lia. reflexivity.
Qed.

(** Bytes to message to bytes. *)
Lemma to_bytes_of_bytes s : 28 <= zlen s -> to_bytes (of_bytes s) = take 28 s.
Proof.
  intros Hl. unfold to_bytes, of_bytes.
  cbn [hardware_type protocol_type hardware_address_size protocol_address_size opcode
       sender_ethernet_address sender_ip_address target_ethernet_address target_ip_address].
  assert (forall n k z, z = Z.of_nat n -> 0 <= k -> k + z <= 28 ->
    NetUnparser._unparse_int n (be_value (slice s k z)) = slice s k z) as Hu.
  { intros n k z -> Hk Hn. pose proof (zlen_slice_le s k (Z.of_nat n) Hk ltac:(lia) ltac:(lia)) as Hz.
    unfold zlen in Hz. apply Nat2Z.inj in Hz. rewrite <- Hz at 1. apply NetUnparser.unparse_be_value. }
  rewrite !(Hu 2%nat), !(Hu 1%nat), !(Hu 4%nat) by lia.
  change (take 28 s) with (slice s 0 28).
  by rewrite !slice_join by lia.
Qed.

(** Message to bytes to message. *)
Lemma of_bytes_to_bytes m rest : valid m -> of_bytes (to_bytes m ++ rest) = m.
Proof.
  intros [Hs Ha Hi Hb Hj]. unfold supported, TYPE_ETHERNET, EthernetHeader.TYPE_IPv4,
    OPCODE_REQUEST, OPCODE_REPLY in Hs.
  zbool. assert (is_u16 (opcode m)) as Ho.
  { unfold is_u16. match goal with H : _ || _ = true |- _ => apply orb_true_iff in H as [H|H] end; zbool; lia. }
  assert (zlen (sender_ethernet_address m) = 6) as Za by (unfold zlen, is_address in *; lia).
  assert (zlen (target_ethernet_address m) = 6) as Zb by (unfold zlen, is_address in *; lia).
  uint_unfold. unfold of_bytes, to_bytes. rewrite <- !app_assoc.
  assert (forall n v, zlen (NetUnparser._unparse_int n v) = Z.of_nat n) as Hz by apply NetUnparser.zlen_unparse.
  repeat first [rewrite slice_front by (rewrite ?Hz; lia)
               |rewrite slice_skip by (rewrite ?Hz; lia); rewrite ?Hz, ?Za, ?Zb; simpl Z.sub].
  rewrite !NetUnparser.be_value_unparse by (simpl; lia). by destruct m.
Qed.

End ARPMessage.

(** ** The printable form of an address determines it *)

Lemma hex_digit_inj m n : 0 <= m < 16 -> 0 <= n < 16 -> hex_digit m = hex_digit n -> m = n.
Proof.
  intros Hm Hn E%(f_equal byte_to_Z). unfold hex_digit in E. rewrite !byte_to_of_Z in E.
  destruct (m <? 10) eqn:Em, (n <? 10) eqn:En; zbool; nowrap in E; lia.
Qed.

Lemma hex_byte_inj a b : hex_byte a = hex_byte b -> a = b.
Proof.
  unfold hex_byte. intros [= E1 E2].
  pose proof (byte_to_Z_range a) as Ha. pose proof (byte_to_Z_range b) as Hb. unfold is_u8 in *.
  apply hex_digit_inj in E1; [|Z.to_euclidean_division_equations; lia..].
  apply hex_digit_inj in E2; [|Z.to_euclidean_division_equations; lia..].
  rewrite <- (byte_of_to_Z a), <- (byte_of_to_Z b). f_equal.
  rewrite (Z.div_mod (byte_to_Z a) 16), (Z.div_mod (byte_to_Z b) 16) by lia. congruence.
Qed.

Lemma to_string_inj a b : length a = length b -> to_string a = to_string b -> a = b.
Proof.
  revert b. induction a as [|x a IH]; intros [|y b] Hl E; try done.
  injection Hl as Hl. destruct a as [|x' a], b as [|y' b]; try done.
  - f_equal. by apply hex_byte_inj.
  - change (hex_byte x ++ [Byte.x3a] ++ to_string (x' :: a)
      = hex_byte y ++ [Byte.x3a] ++ to_string (y' :: b)) in E.
    apply app_inj_1 in E as [E1 E2%app_inv_head]; [|done].
    f_equal; [by apply hex_byte_inj|by apply IH].
Qed.

(** The comparison of two addresses through their printable forms. *)
Definition same_address (a b : EthernetAddress) : bool := bool_decide (to_string a = to_string b).

Lemma same_address_spec a b : is_address a -> is_address b -> same_address a b = bool_decide (a = b).
Proof.
  intros Ha Hb. unfold same_address. apply bool_decide_ext. split; [|by intros ->].
  apply to_string_inj. unfold is_address in *. congruence.
Qed.

(** What [serialize] writes, [parse] reads back. *)
Lemma arp_wire (m m0 : ARPMessage.t) (padding : string) :
  ARPMessage.valid m -> zlen padding < 2 ^ 63 ->
  exists s, ARPMessage.serialize m = Ret s /\ zlen s = ARPMessage.LENGTH /\
    ARPMessage.parse m0 (Buffer.of_string (s ++ padding)) = Ret (NoError, m).
Proof.
  intros Hv Hl. exists (ARPMessage.to_bytes m).
  split; [by apply ARPMessage.serialize_to_bytes, Hv|].
  assert (zlen (ARPMessage.to_bytes m) = 28) as Hz.
  { destruct Hv as [_ Ha _ Hb _]. unfold ARPMessage.to_bytes. rewrite !zlen_app, !NetUnparser.zlen_unparse.
    unfold zlen, is_address in *. lia. }
  split; [done|].
  destruct (ARPMessage.parse_spec m0 (ARPMessage.to_bytes m ++ padding)) as (m' & -> & Hm);
    [rewrite zlen_app; lia|].
  rewrite ARPMessage.of_bytes_to_bytes in * by done. rewrite (ARPMessage.v_supported _ Hv) in *.
  rewrite zlen_app in *. zlen_pose. rewrite (proj2 (Z.ltb_ge _ _)) by lia. by rewrite Hm by lia.
Qed.

(** An ARP message that is supported and whose fields fit is serialised to
    exactly 28 bytes, and parsing them gives it back with no error, whatever
    padding follows in the frame. *)
Theorem arp_serialize_parse (m m0 : ARPMessage.t) (padding : string) :
  ARPMessage.valid m -> zlen padding < 2 ^ 63 ->
  exists s, ARPMessage.serialize m = Ret s /\ zlen s = ARPMessage.LENGTH /\
    ARPMessage.parse m0 (Buffer.of_string (s ++ padding)) = Ret (NoError, m).
Proof. apply arp_wire. Qed.

(** The first eight bytes of the ARP messages for IPv4 over Ethernet: hardware type
    1, protocol 0x0800, addresses of 6 and 4 bytes, and the operation, 1 for a
    request and 2 for a reply. *)
Definition arp_request_prefix : string :=
  [Byte.x00; Byte.x01; Byte.x08; Byte.x00; Byte.x06; Byte.x04; Byte.x00; Byte.x01].
Definition arp_reply_prefix : string :=
  [Byte.x00; Byte.x01; Byte.x08; Byte.x00; Byte.x06; Byte.x04; Byte.x00; Byte.x02].

Lemma supported_prefix (s : string) :
  28 <= zlen s ->
  ARPMessage.supported (ARPMessage.of_bytes s)
  = bool_decide (take 8 s = arp_request_prefix \/ take 8 s = arp_reply_prefix).
Proof.
  intros Hl. apply eq_true_iff_eq. rewrite bool_decide_eq_true. split.
  - intros Es. unfold ARPMessage.supported in Es. zbool.
    replace (take 8 s) with (take 8 (take 28 s)) by (by rewrite take_take).
    rewrite <- ARPMessage.to_bytes_of_bytes by lia. unfold ARPMessage.to_bytes.
    assert (ARPMessage.opcode (ARPMessage.of_bytes s) = 1 \/ ARPMessage.opcode (ARPMessage.of_bytes s) = 2) as Ho
      by (apply orb_true_iff in H0 as [?|?]; zbool; auto).
    rewrite H, H1, H2, H3. destruct Ho as [-> | ->]; [left|right]; reflexivity.
  - intros Ht. rewrite <- (take_drop 8 s). destruct Ht as [-> | ->]; reflexivity.
Qed.

(** C34: on any bytes [ARPMessage::parse] returns without throwing: [PacketTooShort]
    below 28 bytes, [Unsupported] unless the first eight bytes are those of a
    request or of a reply for IPv4 over Ethernet, [NoError] otherwise.  A message
    that was accepted has its operation and addresses from their places, and
    serialises back to the very bytes it was parsed from. *)
Theorem arp_parse_serialize (m : ARPMessage.t) (s : string) :
  zlen s < 2 ^ 64 ->
  exists r m', ARPMessage.parse m (Buffer.of_string s) = Ret (r, m') /\
    r = (if zlen s <? 28 then PacketTooShort else
         if bool_decide (take 8 s = arp_request_prefix \/ take 8 s = arp_reply_prefix) then NoError
         else Unsupported) /\
    (r = NoError ->
       ARPMessage.opcode m' = be_value (slice s 6 2) /\
       ARPMessage.sender_ethernet_address m' = slice s 8 6 /\
       ARPMessage.sender_ip_address m' = be_value (slice s 14 4) /\
       ARPMessage.target_ethernet_address m' = slice s 18 6 /\
       ARPMessage.target_ip_address m' = be_value (slice s 24 4) /\
       ARPMessage.serialize m' = Ret (take 28 s)).
Proof.
  intros Hl. destruct (ARPMessage.parse_spec m s Hl) as (m' & -> & Hm).
  do 2 eexists. split; [done|]. destruct (Z.ltb_spec (zlen s) 28); [done|].
  rewrite <- supported_prefix by done. split; [done|].
  destruct (ARPMessage.supported _) eqn:Es; [|done]. intros _.
  rewrite (Hm ltac:(lia) eq_refl), ARPMessage.serialize_to_bytes by done.
  by rewrite ARPMessage.to_bytes_of_bytes by lia.
Qed.

Definition ethernet_example : EthernetFrame.t :=
  EthernetFrame.mk (EthernetHeader.mk ETHERNET_BROADCAST zero_address EthernetHeader.TYPE_ARP)
    [Buffer.of_string [Byte.x01]; Buffer.of_string [Byte.x02]].

Lemma ethernet_frame_roundtrip_witness :
  exists bl b, EthernetFrame.serialize ethernet_example = Ret bl /\
    EthernetFrame.parse EthernetFrame.default (Buffer.of_string (BufferList.concatenate bl))
      = Ret (NoError, EthernetFrame.mk (EthernetFrame.header ethernet_example) (BufferList.of_buffer b)) /\
    Buffer.str b = BufferList.bytes (EthernetFrame.payload ethernet_example).
Proof.
  apply (ethernet_frame_roundtrip ethernet_example EthernetFrame.default).
  - split; [reflexivity|reflexivity|split; vm_compute; (reflexivity || discriminate)].
  - vm_compute. reflexivity.
Defined.

Lemma ethernet_frame_accepts_short_witness :
  EthernetFrame.parse EthernetFrame.default (Buffer.of_string [Byte.x01])
    = Ret (NoError, EthernetFrame.mk EthernetHeader.default (BufferList.of_string [Byte.x01])).
Proof. apply (ethernet_frame_accepts_short EthernetFrame.default [Byte.x01]). vm_compute. reflexivity. Defined.

Definition arp_example : ARPMessage.t :=
  ARPMessage.mk 1 0x800 6 4 2 (replicate 6 Byte.x0a) 0x0a000001 (replicate 6 Byte.x0b) 0x0a000002.

Lemma arp_serialize_parse_witness :
  exists s, ARPMessage.serialize arp_example = Ret s /\ zlen s = ARPMessage.LENGTH /\
    ARPMessage.parse ARPMessage.default (Buffer.of_string (s ++ [Byte.x00])) = Ret (NoError, arp_example).
Proof.
  apply (arp_serialize_parse arp_example ARPMessage.default [Byte.x00]).
  - split; (reflexivity || (split; vm_compute; (reflexivity || discriminate))).
  - vm_compute. reflexivity.
Defined.

Lemma arp_parse_serialize_witness :
  let s := ARPMessage.to_bytes arp_example ++ [Byte.x00] in
  exists m', ARPMessage.parse ARPMessage.default (Buffer.of_string s) = Ret (NoError, m')
    /\ ARPMessage.serialize m' = Ret (take 28 s).
Proof.
  intros s. destruct (arp_parse_serialize ARPMessage.default s) as (r & m' & E & Hr & Hs).
  - vm_compute. reflexivity.
  - assert (r = NoError) as En by (rewrite Hr; vm_compute; reflexivity).
    exists m'. rewrite <- En at 1. split; [exact E|]. apply (Hs En).
Defined.
