(* ===== verification/Address.v ===== *)
(** * Socket addresses (util/address.hh, util/address.cc)

    An [Address] is a [sockaddr_storage] and the size of the address in it.  The
    layout is that of the platform the program runs on: the family is a 16-bit
    number in the little-endian order of the host, the port and the IPv4 address
    are in network order.

    The resolver ([getaddrinfo], [getnameinfo], [inet_ntoa]) is not part of the
    program: it is the parameter [NetDb], and [NetDbLaws] states what its manual
    pages promise of numeric addresses. *)

From S2P Require Import Prelude Parser Codec.

(** ** Decimal numbers of the standard library *)

Definition is_digit (c : byte) : bool := (48 <=? byte_to_Z c) && (byte_to_Z c <=? 57).
Definition digit_value (c : byte) : Z := byte_to_Z c - 48.
Definition digit (n : Z) : byte := byte_of_Z (48 + n).

(** [std::to_string] of an unsigned number; 20 digits are enough for 64 bits. *)
Fixpoint dec_digits (fuel : nat) (n : Z) : string :=
  match fuel with
  | O => []
  | S fuel => if n <? 10 then [digit n] else dec_digits fuel (n / 10) ++ [digit (n mod 10)]
  end.
Definition std_to_string (n : Z) : string := dec_digits 20 n.

(** The digits at the front of a string, and what follows them. *)
Fixpoint span_digits (s : string) : string * string :=
  match s with
  | [] => ([], [])
  | c :: s' => if is_digit c then let '(d, r) := span_digits s' in (c :: d, r) else ([], s)
  end.

Definition dec_value (s : string) : Z := fold_left (fun acc c => acc * 10 + digit_value c) s 0.

Definition is_space (c : byte) : bool := (byte_to_Z c =? 32) || ((9 <=? byte_to_Z c) && (byte_to_Z c <=? 13)).
Fixpoint skip_spaces (s : string) : string :=
  match s with
  | [] => []
  | c :: s' => if is_space c then skip_spaces s' else s
  end.

(** [std::stoi]: white space, an optional sign, digits; what follows is ignored. *)
Definition stoi (s : string) : outcome Z :=
  let s := skip_spaces s in
  let '(neg, s) := match s with
                   | Byte.x2d :: s' => (true, s')
                   | Byte.x2b :: s' => (false, s')
                   | _ => (false, s)
                   end in
  let '(d, _) := span_digits s in
  if zlen d =? 0 then Throw invalid_argument else
  let v := if neg : bool then - dec_value d else dec_value d in
  if (- 2 ^ 31 <=? v) && (v <? 2 ^ 31) then Ret v else Throw out_of_range.

Lemma digit_spec n : 0 <= n < 10 -> is_digit (digit n) = true /\ digit_value (digit n) = n.
Proof.
  intros Hn. unfold is_digit, digit_value, digit. rewrite byte_to_of_Z. nowrap.
  split; [|lia]. apply andb_true_iff. rewrite !Z.leb_le. lia.
Qed.

Lemma dec_digits_spec fuel n :
  0 <= n < 10 ^ Z.of_nat fuel ->
  forallb is_digit (dec_digits fuel n) = true /\ dec_value (dec_digits fuel n) = n
  /\ (fuel <> O -> dec_digits fuel n <> []).
Proof.
  revert n. induction fuel as [|fuel IH]; intros n Hn; cbn [dec_digits].
  { change (10 ^ Z.of_nat 0) with 1 in Hn. assert (n = 0) as -> by lia. done. }
  case_if.
  - destruct (digit_spec n) as [H1 H2]; [lia|]. cbn. by rewrite H1, H2.
  - destruct (IH (n / 10)) as (H1 & H2 & _).
    { rewrite Nat2Z.inj_succ, Z.pow_succ_r in Hn by lia. Z.to_euclidean_division_equations. lia. }
    destruct (digit_spec (n mod 10)) as [H3 H4]; [Z.to_euclidean_division_equations; lia|].
    rewrite forallb_app. unfold dec_value in *. rewrite fold_left_app, H1, H2. cbn. rewrite H3, H4.
    split; [done|]. split; [Z.to_euclidean_division_equations; lia|].
    intros _ E%(f_equal length). rewrite length_app in E. simpl in E. lia.
Qed.

(** 64-bit numbers have at most 20 digits. *)
Lemma std_to_string_spec n :
  is_u64 n -> forallb is_digit (std_to_string n) = true /\ dec_value (std_to_string n) = n
    /\ std_to_string n <> [].
Proof.
  intros Hn. destruct (dec_digits_spec 20 n) as (H1 & H2 & H3); [unfold is_u64 in Hn; lia|].
  split; [done|]. split; [done|]. by apply H3.
Qed.

Lemma span_digits_app d r :
  forallb is_digit d = true -> (forall c r', r = c :: r' -> is_digit c = false) ->
  span_digits (d ++ r) = (d, r).
Proof.
  intros Hd Hr. induction d as [|c d IH]; simpl in *.
  - destruct r as [|c r]; [done|]. simpl. by rewrite (Hr c r eq_refl).
  - apply andb_true_iff in Hd as [-> Hd]. by rewrite IH.
Qed.

Lemma stoi_digits d :
  forallb is_digit d = true -> d <> [] -> 0 <= dec_value d < 2 ^ 31 -> stoi d = Ret (dec_value d).
Proof.
  intros Hd Hn Hv. unfold stoi.
  assert (skip_spaces d = d) as ->.
  { destruct d as [|c d]; [done|]. simpl in *. apply andb_true_iff in Hd as [Hc _].
    unfold is_digit in Hc. zbool. unfold is_space.
    rewrite (proj2 (Z.eqb_neq _ _)), (proj2 (Z.leb_gt (byte_to_Z c) 13)), andb_false_r by lia. done. }
  pose proof (span_digits_app d [] Hd ltac:(done)) as Hs. rewrite app_nil_r in Hs.
  assert (zlen d <> 0) as Hz by (by rewrite zlen_zero_nil).
  assert (match d with Byte.x2d :: s' => (true, s') | Byte.x2b :: s' => (false, s') | _ => (false, d) end
    = (false, d)) as ->.
  { destruct d as [|c d]; [done|]. simpl in Hd. apply andb_true_iff in Hd as [Hc _].
    destruct c; (reflexivity || discriminate). }
  rewrite Hs, (proj2 (Z.eqb_neq _ _)) by done.
  by rewrite (proj2 (Z.leb_le _ _)), (proj2 (Z.ltb_lt _ _)) by lia.
Qed.

Lemma stoi_to_string n : 0 <= n < 2 ^ 31 -> stoi (std_to_string n) = Ret n.
Proof.
  intros Hn. destruct (std_to_string_spec n) as (H1 & H2 & H3); [unfold is_u64; lia|].
  rewrite stoi_digits by (rewrite ?H2; done). by rewrite H2.
Qed.

(** ** The resolver *)

(** The fields of [addrinfo] that the program sets. *)
Record addrinfo := mk_hints { ai_flags : Z; ai_family : Z }.

Definition AF_INET : Z := 2.
Definition AI_NUMERICHOST : Z := 0x4.
Definition AI_ALL : Z := 0x10.
Definition AI_NUMERICSERV : Z := 0x400.
Definition NI_NUMERICHOST : Z := 1.
Definition NI_NUMERICSERV : Z := 2.

(** The functions of the C library that the program calls.  [getaddrinfo] returns
    an error code, or the first address of the list (none when it is empty) as
    its bytes and length; [getnameinfo] an error code or the host and service. *)
Class NetDb := {
  getaddrinfo : string -> string -> addrinfo -> Z + option (string * Z);
  getnameinfo : string -> Z -> Z -> Z + (string * string);
  inet_ntoa : Z -> string
}.

Definition sizeof_sockaddr_storage : Z := 128.
Definition sizeof_sockaddr_in : Z := 16.

(** The bytes of a [sockaddr_in], the port and the address given in host order. *)
Definition sockaddr_in (family port addr : Z) : string :=
  rev (NetUnparser._unparse_int 2 family) ++ NetUnparser._unparse_int 2 port
  ++ NetUnparser._unparse_int 4 addr ++ replicate 8 Byte.x00.

Module Address.

Record t := mk { _size : Z; storage : string }.

#[global] Instance t_eq_dec : EqDecision t.
Proof. solve_decision. Defined.

(** [Address(const sockaddr *, size)]: copies [size] bytes into a zeroed storage. *)
Definition of_sockaddr (addr : string) (size : Z) : outcome t :=
  if sizeof_sockaddr_storage <? size then Throw runtime_error else
  if zlen addr <? size then Throw undefined_behaviour else
  Ret (mk size (resize (take (Z.to_nat size) addr) sizeof_sockaddr_storage)).

Definition ss_family (a : t) : Z := be_value (rev (slice (storage a) 0 2)).

Definition ipv4_numeric (a : t) : outcome Z :=
  if negb (ss_family a =? AF_INET) || negb (_size a =? sizeof_sockaddr_in) then Throw runtime_error
  else Ret (be_value (slice (storage a) 4 4)).

Definition from_ipv4_numeric (ip_address : Z) : outcome t :=
  of_sockaddr (sockaddr_in AF_INET 0 ip_address) sizeof_sockaddr_in.

Definition eqb (a b : t) : bool :=
  if negb (_size a =? _size b) then false
  else bool_decide (take (Z.to_nat (_size a)) (storage a) = take (Z.to_nat (_size a)) (storage b)).

Section Resolver.
Context `{NetDb}.

Definition make_hints (ai_flags ai_family : Z) : addrinfo := mk_hints ai_flags ai_family.

Definition of_node (node service : string) (hints : addrinfo) : outcome t :=
  match getaddrinfo node service hints with
  | inl gai_ret => Throw runtime_error
  | inr None => Throw runtime_error
  | inr (Some (ai_addr, ai_addrlen)) => of_sockaddr ai_addr ai_addrlen
  end.

Definition of_host (hostname service : string) : outcome t :=
  of_node hostname service (make_hints AI_ALL AF_INET).

Definition of_ip (ip : string) (port : Z) : outcome t :=
  of_node ip (std_to_string port) (make_hints (Z.lor AI_NUMERICHOST AI_NUMERICSERV) AF_INET).

Definition ip_port (a : t) : outcome (string * Z) :=
  match getnameinfo (storage a) (_size a) (Z.lor NI_NUMERICHOST NI_NUMERICSERV) with
  | inl gni_ret => Throw runtime_error
  | inr (ip, port) => p ← stoi port; Ret (ip, uint16 p)
  end.

Definition ip (a : t) : outcome string := fst <$> ip_port a.
Definition port (a : t) : outcome Z := snd <$> ip_port a.

Definition to_string (a : t) : outcome string :=
  '(ip, port) ← ip_port a; Ret (ip ++ [Byte.x3a] ++ std_to_string port).

End Resolver.

(** The IPv4 address [addr] with port [port]. *)
Definition ipv4 (addr port : Z) : t :=
  mk sizeof_sockaddr_in (resize (sockaddr_in AF_INET port addr) sizeof_sockaddr_storage).

(** What the constructors establish: a whole storage, zero after the address. *)
Record wf (a : t) : Prop := {
  wf_size : 0 <= _size a <= sizeof_sockaddr_storage;
  wf_storage : storage a = resize (take (Z.to_nat (_size a)) (storage a)) sizeof_sockaddr_storage
}.

End Address.

(** What the manual pages say of numeric IPv4 addresses: [getnameinfo] with the
    numeric flags prints the address as [inet_ntoa] does and the port in decimal,
    and [getaddrinfo] with the numeric flags reads both back into a
    [sockaddr_in]. *)
Class NetDbLaws `{NetDb} := {
  getnameinfo_numeric addr port : is_u32 addr -> is_u16 port ->
    getnameinfo (Address.storage (Address.ipv4 addr port)) sizeof_sockaddr_in
      (Z.lor NI_NUMERICHOST NI_NUMERICSERV) = inr (inet_ntoa addr, std_to_string port);
  getaddrinfo_numeric addr port : is_u32 addr -> is_u16 port ->
    getaddrinfo (inet_ntoa addr) (std_to_string port)
      (mk_hints (Z.lor AI_NUMERICHOST AI_NUMERICSERV) AF_INET)
    = inr (Some (sockaddr_in AF_INET port addr, sizeof_sockaddr_in))
}.

Lemma zlen_sockaddr_in family port addr : zlen (sockaddr_in family port addr) = sizeof_sockaddr_in.
Proof.
  unfold sockaddr_in. rewrite !zlen_app, !NetUnparser.zlen_unparse. unfold zlen at 1 2.
  rewrite length_rev, length_replicate. pose proof (NetUnparser.zlen_unparse 2 family) as Hz.
  unfold zlen in Hz. rewrite Hz. reflexivity.
Qed.

(** The leading bytes of a storage filled from a [sockaddr_in]. *)
Lemma storage_ipv4 addr port :
  exists rest, Address.storage (Address.ipv4 addr port)
    = rev (NetUnparser._unparse_int 2 AF_INET) ++ NetUnparser._unparse_int 2 port
      ++ NetUnparser._unparse_int 4 addr ++ rest.
Proof.
  eexists. unfold Address.ipv4. cbn [Address.storage].
  rewrite resize_grow by (rewrite zlen_sockaddr_in; vm_compute; discriminate).
  unfold sockaddr_in. by rewrite <- !app_assoc.
Qed.

Lemma storage_fields addr port : is_u32 addr -> is_u16 port ->
  be_value (slice (Address.storage (Address.ipv4 addr port)) 4 4) = addr
  /\ be_value (slice (Address.storage (Address.ipv4 addr port)) 2 2) = port.
Proof.
  intros Ha Hp. destruct (storage_ipv4 addr port) as (rest & ->).
  set (f := rev (NetUnparser._unparse_int 2 AF_INET)). assert (zlen f = 2) as Hf by reflexivity.
  unfold is_u32, is_u16 in *.
  rewrite !(slice_app_r f) by lia. rewrite Hf. change (2 - 2) with 0.
  set (p := NetUnparser._unparse_int 2 port). assert (zlen p = 2) as Hz by apply NetUnparser.zlen_unparse.
  rewrite (slice_app_l p _ 0), (slice_all p) by lia. rewrite (slice_app_r p) by lia. rewrite Hz.
  rewrite slice_app_l, slice_all by (rewrite ?NetUnparser.zlen_unparse; lia). unfold p.
  by rewrite !NetUnparser.be_value_unparse by lia.
Qed.

Lemma of_sockaddr_ipv4 addr port :
  Address.of_sockaddr (sockaddr_in AF_INET port addr) sizeof_sockaddr_in = Ret (Address.ipv4 addr port).
Proof.
  unfold Address.of_sockaddr. rewrite zlen_sockaddr_in. cbn [Z.ltb]. change (16 <? 16) with false.
  unfold Address.ipv4. rewrite take_ge; [reflexivity|].
  pose proof (zlen_sockaddr_in AF_INET port addr) as Hz. unfold zlen in Hz. lia.
Qed.

Lemma from_ipv4_numeric_ipv4 addr : Address.from_ipv4_numeric addr = Ret (Address.ipv4 addr 0).
Proof. unfold Address.from_ipv4_numeric. apply of_sockaddr_ipv4. Qed.

Lemma ipv4_numeric_ipv4 addr port : is_u32 addr -> Address.ipv4_numeric (Address.ipv4 addr port) = Ret addr.
Proof.
  intros Ha. unfold Address.ipv4_numeric, Address.ss_family.
  destruct (storage_ipv4 addr port) as (rest & ->).
  set (f := rev (NetUnparser._unparse_int 2 AF_INET)). set (p := NetUnparser._unparse_int 2 port).
  assert (zlen f = 2) as Hf by reflexivity. assert (zlen p = 2) as Hp by apply NetUnparser.zlen_unparse.
  rewrite (slice_app_l f), (slice_all f) by lia.
  rewrite (slice_app_r f), (slice_app_r p) by lia. rewrite Hf, Hp.
  rewrite slice_app_l, slice_all by (rewrite ?NetUnparser.zlen_unparse; lia).
  rewrite NetUnparser.be_value_unparse by (unfold is_u32 in Ha; lia). reflexivity.
Qed.

Lemma ipv4_wf addr port : Address.wf (Address.ipv4 addr port).
Proof.
  split; [split; vm_compute; discriminate|]. unfold Address.ipv4. cbn [Address.storage Address._size].
  rewrite (resize_grow (sockaddr_in _ _ _)) by (rewrite zlen_sockaddr_in; vm_compute; discriminate).
  rewrite take_app_length' by (pose proof (zlen_sockaddr_in AF_INET port addr) as Hz; unfold zlen in Hz; lia).
  rewrite (resize_grow (sockaddr_in _ _ _)) by (rewrite zlen_sockaddr_in; vm_compute; discriminate).
  reflexivity.
Qed.

Section Numeric.
Context `{NetDbLaws}.

Lemma of_ip_ipv4 addr port :
  is_u32 addr -> is_u16 port -> Address.of_ip (inet_ntoa addr) port = Ret (Address.ipv4 addr port).
Proof.
  intros Ha Hp. unfold Address.of_ip, Address.of_node, Address.make_hints.
  rewrite getaddrinfo_numeric by done. apply of_sockaddr_ipv4.
Qed.

Lemma ip_port_ipv4 addr port :
  is_u32 addr -> is_u16 port -> Address.ip_port (Address.ipv4 addr port) = Ret (inet_ntoa addr, port).
Proof.
  intros Ha Hp. unfold Address.ip_port. change (Address._size _) with sizeof_sockaddr_in.
  rewrite getnameinfo_numeric by done. unfold is_u16 in Hp.
  rewrite stoi_to_string by lia. cbn [mbind outcome_bind]. nowrap. done.
Qed.

Lemma ip_ipv4 addr port :
  is_u32 addr -> is_u16 port -> Address.ip (Address.ipv4 addr port) = Ret (inet_ntoa addr).
Proof. intros. unfold Address.ip. by rewrite ip_port_ipv4. Qed.

Lemma port_ipv4 addr port :
  is_u32 addr -> is_u16 port -> Address.port (Address.ipv4 addr port) = Ret port.
Proof. intros. unfold Address.port. by rewrite ip_port_ipv4. Qed.

End Numeric.

(** ** Numeric conversions and equality *)

(** The address made from a number has that number, and the address made from
    its printed form and a port has the same number and that port. *)
Theorem address_numeric_roundtrip `{NetDbLaws} (addr port : Z) :
  is_u32 addr -> is_u16 port ->
  (exists a, Address.from_ipv4_numeric addr = Ret a /\ Address.ipv4_numeric a = Ret addr) /\
  (exists a, Address.of_ip (inet_ntoa addr) port = Ret a /\ Address.ipv4_numeric a = Ret addr
     /\ Address.port a = Ret port /\ Address.ip a = Ret (inet_ntoa addr)
     /\ Address.to_string a = Ret (inet_ntoa addr ++ [Byte.x3a] ++ std_to_string port)).
Proof.
  intros Ha Hp. split; [exists (Address.ipv4 addr 0)|exists (Address.ipv4 addr port)].
  - by rewrite from_ipv4_numeric_ipv4, ipv4_numeric_ipv4.
  - rewrite of_ip_ipv4, ipv4_numeric_ipv4, port_ipv4 by done.
    unfold Address.ip, Address.to_string. rewrite ip_port_ipv4 by done. done.
Qed.

Lemma address_eqb_spec a b : Address.wf a -> Address.wf b -> Address.eqb a b = bool_decide (a = b).
Proof.
  intros [Ha1 Ha2] [Hb1 Hb2]. unfold Address.eqb. destruct a as [sa a], b as [sb b]. simpl in *.
  destruct (Z.eqb_spec sa sb) as [->|Hne]; cbn [negb].
  - apply bool_decide_ext. split; [|by intros [= ->]].
    intros E. rewrite Ha2, Hb2, E. reflexivity.
  - symmetry. apply bool_decide_eq_false. congruence.
Qed.

(** ** A resolver for numeric addresses: dotted quads

    An implementation of the laws, to show that they can hold. *)

Definition dotted_quad (addr : Z) : string :=
  std_to_string (Z.land (Z.shiftr addr 24) 255) ++ [Byte.x2e]
  ++ std_to_string (Z.land (Z.shiftr addr 16) 255) ++ [Byte.x2e]
  ++ std_to_string (Z.land (Z.shiftr addr 8) 255) ++ [Byte.x2e] ++ std_to_string (Z.land addr 255).

(** Reads [n + 1] numbers separated by dots. *)
Fixpoint read_quad (n : nat) (s : string) (acc : Z) : option Z :=
  let '(d, r) := span_digits s in
  let acc := acc * 256 + dec_value d in
  match n, r with
  | O, [] => Some acc
  | S n, Byte.x2e :: r => read_quad n r acc
  | _, _ => None
  end.

#[local] Instance quad_db : NetDb := {|
  getaddrinfo node service hints :=
    match read_quad 3 node 0 with
    | Some addr => inr (Some (sockaddr_in AF_INET (dec_value service) addr, sizeof_sockaddr_in))
    | None => inl (-2)
    end;
  getnameinfo addr size flags :=
    inr (dotted_quad (be_value (slice addr 4 4)), std_to_string (be_value (slice addr 2 2)));
  inet_ntoa := dotted_quad
|}.

Lemma land_255 z : 0 <= Z.land z 255 < 256.
Proof. change 255 with (Z.ones 8). rewrite Z.land_ones by lia. apply Z.mod_pos_bound. lia. Qed.

Lemma read_quad_step n v s acc :
  0 <= v < 256 ->
  read_quad (S n) (std_to_string v ++ [Byte.x2e] ++ s) acc = read_quad n s (acc * 256 + v).
Proof.
  intros Hv. destruct (std_to_string_spec v) as (H1 & H2 & _); [unfold is_u64; lia|]. cbn [read_quad].
  rewrite span_digits_app by (done || (intros ?? [= <- _]; reflexivity)). rewrite H2. reflexivity.
Qed.

Lemma read_quad_last v acc : 0 <= v < 256 -> read_quad 0 (std_to_string v) acc = Some (acc * 256 + v).
Proof.
  intros Hv. destruct (std_to_string_spec v) as (H1 & H2 & _); [unfold is_u64; lia|]. cbn [read_quad].
  pose proof (span_digits_app (std_to_string v) [] H1 ltac:(done)) as Hs. rewrite app_nil_r in Hs.
  by rewrite Hs, H2.
Qed.

Lemma read_dotted_quad addr : is_u32 addr -> read_quad 3 (dotted_quad addr) 0 = Some addr.
Proof.
  intros Ha. unfold dotted_quad.
  rewrite !read_quad_step, read_quad_last by apply land_255. f_equal.
  change 255 with (Z.ones 8). rewrite !Z.land_ones, !Z.shiftr_div_pow2 by lia.
  unfold is_u32 in Ha. Z.to_euclidean_division_equations. lia.
Qed.

#[local] Instance quad_db_laws : NetDbLaws.
Proof.
  split.
  - intros addr port Ha Hp. cbn [getnameinfo quad_db inet_ntoa]. by destruct (storage_fields addr port Ha Hp) as [-> ->].
  - intros addr port Ha Hp. cbn [getaddrinfo quad_db inet_ntoa]. rewrite read_dotted_quad by done.
    destruct (std_to_string_spec port) as (_ & -> & _); [unfold is_u16, is_u64 in *; lia|done].
Qed.

Lemma address_numeric_roundtrip_witness :
  exists a, Address.of_ip (dotted_quad 0x0a000001) 80 = Ret a /\ Address.ipv4_numeric a = Ret 0x0a000001
    /\ Address.port a = Ret 80.
Proof.
  destruct (address_numeric_roundtrip 0x0a000001 80) as (_ & a & E & Hn & Hp & _).
  - split; lia.
  - split; lia.
  - exists a. split; [exact E|]. split; [exact Hn|exact Hp].
Defined.
