(* ===== verification/NetworkInterface.v ===== *)
(** * The network interface (network_interface.hh, network_interface.cc)

    The link between IP and Ethernet: datagrams are sent in frames to the Ethernet
    address of the next hop, which the interface learns by ARP and remembers for 30
    seconds.  [IP2EthernetCache] keeps a map from IP to Ethernet addresses and a
    queue of expiry times; it is shown to refine a map whose entries carry their
    own expiry time. *)

From stdpp Require Import sorting.
From S2P Require Import Prelude UtilBuffer Parser Codec IPv4Datagram EthernetFrame Address.

Module IP2EthernetCache.

(** [_ip_mac_cache] and [_cach_expire_queue]; the shared pointers of the map are
    to addresses that nothing modifies. *)
Record t := mk { _ip_mac_cache : gmap Z EthernetAddress; _cach_expire_queue : list (Z * Z) }.

Definition new : t := mk ∅ [].

(** The loop that erases the first entry of an address from the queue. *)
Fixpoint erase_first (ip_address : Z) (queue : list (Z * Z)) : list (Z * Z) :=
  match queue with
  | [] => []
  | it :: queue => if snd it =? ip_address then queue else it :: erase_first ip_address queue
  end.

Definition set_cache (c : t) (ip_address : Z) (ether_address : EthernetAddress)
    (ms_since_last_tick expire_time : Z) : t :=
  let queue := if bool_decide (is_Some (_ip_mac_cache c !! ip_address))
               then erase_first ip_address (_cach_expire_queue c) else _cach_expire_queue c in
  mk (<[ip_address := ether_address]> (_ip_mac_cache c))
     (queue ++ [(uint64 (ms_since_last_tick + expire_time), ip_address)]).

Definition get_cache (c : t) (ip_address : Z) : option EthernetAddress := _ip_mac_cache c !! ip_address.

(** The loop over the front of the queue. *)
Fixpoint clean_loop (cache : gmap Z EthernetAddress) (queue : list (Z * Z)) (current_time : Z) : t :=
  match queue with
  | [] => mk cache []
  | front :: rest =>
      if fst front <? current_time then clean_loop (delete (snd front) cache) rest current_time
      else mk cache queue
  end.

Definition try_clean_expire_cache (c : t) (current_time : Z) : t :=
  clean_loop (_ip_mac_cache c) (_cach_expire_queue c) current_time.

(** ** The cache as a map with expiry times *)

Abbreviation timed := (gmap Z (Z * EthernetAddress)).

(** Drops the entries that expired before [now]. *)
Definition unexpired (now : Z) (m : timed) : timed := filter (fun kv => now <= kv.2.1) m.

(** The cache and its queue together say what the timed map says; the queue is
    sorted, so that looking at its front is enough. *)
Record repr (c : t) (m : timed) : Prop := {
  rp_cache : _ip_mac_cache c = snd <$> m;
  rp_queue e ip : (e, ip) ∈ _cach_expire_queue c <-> fst <$> (m !! ip) = Some e;
  rp_nodup : NoDup (_cach_expire_queue c).*2;
  rp_sorted : StronglySorted (fun x y => x.1 <= y.1) (_cach_expire_queue c)
}.

Lemma new_repr : repr new ∅.
Proof.
  split; simpl; [by rewrite fmap_empty| |constructor|constructor].
  intros e ip. rewrite lookup_empty. split; [by intros ?%not_elem_of_nil|done].
Qed.

Lemma elem_of_erase_first ip q e i :
  NoDup q.*2 -> (e, i) ∈ erase_first ip q <-> (e, i) ∈ q /\ i <> ip.
Proof.
  induction q as [|[e' i'] q IH]; simpl; intros Hn.
  { split; [by intros ?%not_elem_of_nil|by intros [?%not_elem_of_nil _]]. }
  apply NoDup_cons in Hn as [Hi Hn]. case_if; rewrite ?elem_of_cons, ?IH by done.
  - subst. split; [|by intros [[[= -> ->]|?] ?]]. intros Hin. split; [by right|].
    intros ->. apply Hi. apply list_elem_of_fmap. by exists (e, ip).
  - split; [intros [[= -> ->]|[? ?]]; auto|intros [[?|?] ?]; auto].
Qed.

Lemma erase_first_sublist ip q : sublist (erase_first ip q) q.
Proof.
  induction q as [|x q IH]; simpl; [constructor|]. case_if; [by apply sublist_cons|by apply sublist_skip].
Qed.

Lemma StronglySorted_sublist {A} (R : relation A) (l k : list A) :
  sublist l k -> StronglySorted R k -> StronglySorted R l.
Proof.
  induction 1 as [|x l k Hs IH|x l k Hs IH]; intros Hk; [done|..]; apply StronglySorted_inv in Hk as [Hk Hx].
  - constructor; [by apply IH|]. rewrite Forall_forall in *. intros y Hy. apply Hx. by eapply elem_of_sublist.
  - by apply IH.
Qed.

Lemma set_cache_repr c m ip a now expire :
  repr c m -> 0 <= now + expire < 2 ^ 64 -> Forall (fun x => x.1 <= now + expire) (_cach_expire_queue c) ->
  repr (set_cache c ip a now expire) (<[ip := (now + expire, a)]> m).
Proof.
  intros [Hc Hq Hn Hs] Ht Hb. unfold set_cache. nowrap.
  set (q := if bool_decide _ then _ else _).
  assert (forall e i, (e, i) ∈ q <-> (e, i) ∈ _cach_expire_queue c /\ i <> ip) as Hin.
  { intros e i. subst q. case_bool_decide as Hsome; [by apply elem_of_erase_first|].
    split; [|by intros [? _]]. intros Hi. split; [done|]. intros ->. apply Hsome.
    apply Hq in Hi. rewrite Hc, lookup_fmap. destruct (m !! ip); [done|discriminate]. }
  assert (sublist q (_cach_expire_queue c)) as Hsub.
  { subst q. case_bool_decide; [apply erase_first_sublist|done]. }
  split; simpl.
  - by rewrite Hc, fmap_insert.
  - intros e i. rewrite elem_of_app, list_elem_of_singleton, Hin, Hq.
    destruct (decide (i = ip)) as [->|Hne].
    + rewrite lookup_insert_eq. simpl. split; [intros [[_ ?]|[= ->]]; done|intros [= ->]; by right].
    + rewrite lookup_insert_ne by done. split; [intros [[? _]|[= ? ?]]; done|auto].
  - rewrite fmap_app. apply NoDup_app. split; [|split; [|apply NoDup_singleton]].
    + eapply sublist_NoDup; [exact Hn|]. by apply fmap_sublist.
    + intros i ([e i'] & E1 & Hi)%list_elem_of_fmap E2%list_elem_of_singleton. simpl in E1. subst.
      by apply Hin in Hi as [_ ?].
  - apply StronglySorted_app. split; [|split; [|repeat constructor]].
    + intros x y Hx ->%list_elem_of_singleton. simpl. rewrite Forall_forall in Hb.
      apply (Hb x). eapply elem_of_sublist; [|exact Hsub]. done.
    + by eapply StronglySorted_sublist.
Qed.

Lemma clean_loop_repr now q cache m :
  repr (mk cache q) m -> repr (clean_loop cache q now) (unexpired now m).
Proof.
  revert cache m. induction q as [|[e ip] q IH]; intros cache m Hr; simpl.
  - enough (unexpired now m = m) as -> by done. apply map_filter_id. intros i [e a] Hm.
    exfalso. apply (not_elem_of_nil (e, i)). apply (rp_queue _ _ Hr). simpl. by rewrite Hm.
  - destruct Hr as [Hc Hq Hn Hs]. simpl in *.
    apply NoDup_cons in Hn as [Hi Hn]. apply StronglySorted_inv in Hs as [Hs Hx]. case_if.
    + assert (repr (mk (delete ip cache) q) (delete ip m)) as Hr'.
      { split; simpl; [by rewrite Hc, fmap_delete| |done..]. intros e' i.
        destruct (decide (i = ip)) as [->|Hne].
        - rewrite lookup_delete_eq. split; [|done]. intros Hin. destruct Hi.
          apply list_elem_of_fmap. by exists (e', ip).
        - rewrite lookup_delete_ne by done. rewrite <- Hq, elem_of_cons. split; [auto|].
          intros [[= ??]|?]; done. }
      specialize (IH _ _ Hr'). replace (unexpired now m) with (unexpired now (delete ip m)); [done|].
      unfold unexpired. apply map_eq. intros i. apply option_eq. intros [e' a].
      rewrite !map_lookup_filter_Some. destruct (decide (i = ip)) as [->|Hne].
      * rewrite lookup_delete_eq. split; [by intros [? _]|]. intros [Hm Hle]. exfalso. simpl in Hle.
        assert (e = e'); [|lia]. pose proof (proj1 (Hq e ip) ltac:(left)) as H1. rewrite Hm in H1.
        simpl in H1. congruence.
      * by rewrite lookup_delete_ne by done.
    + replace (unexpired now m) with m; [by split; simpl; try (constructor; done)|].
      symmetry. apply map_filter_id. intros i [e' a] Hm. simpl.
      assert ((e', i) ∈ (e, ip) :: q) as Hin by (apply Hq; by rewrite Hm).
      rewrite Forall_forall in Hx. apply elem_of_cons in Hin as [[= -> ->]|Hin]; [done|].
      specialize (Hx _ Hin). simpl in Hx. lia.
Qed.

Lemma try_clean_repr now c m :
  repr c m -> repr (try_clean_expire_cache c now) (unexpired now m).
Proof. intros Hr. apply clean_loop_repr. by destruct c. Qed.

Lemma get_cache_repr c m ip : repr c m -> get_cache c ip = snd <$> (m !! ip).
Proof. intros Hr. unfold get_cache. rewrite (rp_cache _ _ Hr). apply lookup_fmap. Qed.

(** Every entry of the queue carries the time of one of the map. *)
Lemma repr_bound c m b :
  repr c m -> map_Forall (fun _ x => x.1 <= b) m -> Forall (fun x => x.1 <= b) (_cach_expire_queue c).
Proof.
  intros Hr Hb. apply Forall_forall. intros [e ip] Hin. apply (rp_queue _ _ Hr) in Hin. simpl.
  destruct (m !! ip) as [[e' a]|] eqn:Hm; [|done]. simplify_eq/=. apply (Hb _ _ Hm).
Qed.

End IP2EthernetCache.

(** ** The refinement *)

Section CacheRuns.
Variable expire_time : Z.
Hypothesis expire_pos : 0 <= expire_time.

(** What the interface does with its cache, and the time it has counted. *)
Inductive CacheOp :=
  | Learn (ip : Z) (mac : EthernetAddress)
  | Lookup (ip : Z)
  | Elapse (ms : Z).

Definition cache_step (s : IP2EthernetCache.t * Z) (o : CacheOp)
    : outcome (IP2EthernetCache.t * Z * option EthernetAddress) :=
  let '(c, now) := s in
  match o with
  | Learn ip mac => Ret (IP2EthernetCache.set_cache c ip mac now expire_time, now, None)
  | Lookup ip => Ret (c, now, IP2EthernetCache.get_cache c ip)
  | Elapse ms => let now := uint64 (now + ms) in
                 Ret (IP2EthernetCache.try_clean_expire_cache c now, now, None)
  end.

(** The specification: a map whose entries are forgotten when their time is past. *)
Definition timed_step (s : gmap Z (Z * EthernetAddress) * Z) (o : CacheOp)
    : outcome (gmap Z (Z * EthernetAddress) * Z * option EthernetAddress) :=
  let '(m, now) := s in
  match o with
  | Learn ip mac => Ret (<[ip := (now + expire_time, mac)]> m, now, None)
  | Lookup ip => Ret (m, now, snd <$> m !! ip)
  | Elapse ms => Ret (IP2EthernetCache.unexpired (now + ms) m, now + ms, None)
  end.

(** The clock does not wrap around. *)
Definition clock_fits (s : gmap Z (Z * EthernetAddress) * Z) (o : CacheOp) : Prop :=
  match o with Elapse ms => 0 <= ms /\ s.2 + ms + expire_time < 2 ^ 64 | _ => True end.

Record cache_rel (s : IP2EthernetCache.t * Z) (t : gmap Z (Z * EthernetAddress) * Z) : Prop := {
  cr_repr : IP2EthernetCache.repr s.1 t.1;
  cr_now : s.2 = t.2;
  cr_clock : 0 <= t.2 /\ t.2 + expire_time < 2 ^ 64;
  cr_bound : map_Forall (fun _ x => x.1 <= t.2 + expire_time) t.1
}.

Lemma cache_step_rel s t o :
  cache_rel s t -> clock_fits t o ->
  exists s' t' r, cache_step s o = Ret (s', r) /\ timed_step t o = Ret (t', r) /\ cache_rel s' t'.
Proof.
  destruct s as [c n], t as [m now]. intros [Hr Hn Hc Hb] Ho. simpl in *. subst n.
  destruct o as [ip mac|ip|ms]; simpl in *.
  - do 3 eexists. split; [done|]. split; [done|]. split; simpl; [|done|done|].
    + apply IP2EthernetCache.set_cache_repr; [done|lia|]. by eapply IP2EthernetCache.repr_bound.
    + by apply map_Forall_insert_2.
  - do 3 eexists. split; [done|]. rewrite (IP2EthernetCache.get_cache_repr c m) by done. by split.
  - nowrap. do 3 eexists. split; [done|]. split; [done|]. split; simpl; [|done|lia|].
    + by apply IP2EthernetCache.try_clean_repr.
    + intros ip x [Hx _]%map_lookup_filter_Some. specialize (Hb _ _ Hx). simpl in Hb. lia.
Qed.

End CacheRuns.

(** C35: the cache of Ethernet addresses refines a map with expiry times: over any
    sequence of learning, looking up and letting time pass that does not
    overflow the clock, it answers every lookup as that map does, so an address
    is known exactly until [expire_time] milliseconds after it was last learnt. *)
Theorem cache_refines (expire_time : Z) (ops : list CacheOp) :
  0 <= expire_time < 2 ^ 64 ->
  valid_run (timed_step expire_time) (clock_fits expire_time) (∅, 0) ops ->
  exists c m now rs,
    run (cache_step expire_time) (IP2EthernetCache.new, 0) ops = Ret (c, now, rs) /\
    run (timed_step expire_time) (∅, 0) ops = Ret (m, now, rs) /\
    IP2EthernetCache.repr c m.
Proof.
  intros He Hv.
  destruct (run_simulates (cache_step expire_time) (timed_step expire_time) (cache_rel expire_time) _
    (cache_step_rel expire_time ltac:(lia)) ops (IP2EthernetCache.new, 0) (∅, 0)) as ([c n] & [m now] & rs & E1 & E2 & Hr).
  - split; simpl; [apply IP2EthernetCache.new_repr|done|lia|apply map_Forall_empty].
  - done.
  - exists c, m, now, rs. destruct Hr as [Hr Hn _ _]. simpl in *. subst. done.
Qed.

(** ** The interface *)

Module NetworkInterface.

(** [_arp_ip_queue] holds, per address, the time until which no new request is
    sent and the datagram that waits. *)
Record t := mk {
  _ethernet_address : EthernetAddress;
  _ip_address : Address.t;
  _frames_out : list EthernetFrame.t;
  _arp_ip_queue : gmap Z (Z * IPv4Datagram.t);
  _ip_mac_map : IP2EthernetCache.t;
  _ms_since_last_tick : Z;
  _expire_time : Z
}.

(** The members as they are initialised, and the constructor: its debug output looks
    up the text of the address, which can throw. *)
Definition new (ethernet_address : EthernetAddress) (ip_address : Address.t) : t :=
  mk ethernet_address ip_address [] ∅ IP2EthernetCache.new 0 (30 * 1000).
Definition construct `{NetDb} (ethernet_address : EthernetAddress) (ip_address : Address.t) : outcome t :=
  _ ← Address.ip ip_address;
  Ret (new ethernet_address ip_address).

Definition frames_out (n : t) : list EthernetFrame.t := _frames_out n.

Definition push_frame (n : t) (f : EthernetFrame.t) : t :=
  mk (_ethernet_address n) (_ip_address n) (_frames_out n ++ [f]) (_arp_ip_queue n)
     (_ip_mac_map n) (_ms_since_last_tick n) (_expire_time n).
Definition set_queue (n : t) (q : gmap Z (Z * IPv4Datagram.t)) : t :=
  mk (_ethernet_address n) (_ip_address n) (_frames_out n) q
     (_ip_mac_map n) (_ms_since_last_tick n) (_expire_time n).
Definition set_map (n : t) (c : IP2EthernetCache.t) : t :=
  mk (_ethernet_address n) (_ip_address n) (_frames_out n) (_arp_ip_queue n)
     c (_ms_since_last_tick n) (_expire_time n).
Definition set_time (n : t) (ms : Z) : t :=
  mk (_ethernet_address n) (_ip_address n) (_frames_out n) (_arp_ip_queue n)
     (_ip_mac_map n) ms (_expire_time n).
(** The owner of the interface takes the frames. *)
Definition take_frames (n : t) : t :=
  mk (_ethernet_address n) (_ip_address n) [] (_arp_ip_queue n)
     (_ip_mac_map n) (_ms_since_last_tick n) (_expire_time n).

(** Only real addresses are learnt: not the broadcast one and not the zero one. *)
Definition _try_set_cache_if_need (n : t) (ip_address : Z) (ether_address : EthernetAddress) : t :=
  if negb (same_address ether_address ETHERNET_BROADCAST) && negb (same_address ether_address zero_address)
  then set_map n (IP2EthernetCache.set_cache (_ip_mac_map n) ip_address ether_address
                    (_ms_since_last_tick n) (_expire_time n))
  else n.

Definition make_frame (dst src : EthernetAddress) (type : Z) (payload : string) : EthernetFrame.t :=
  EthernetFrame.mk (EthernetHeader.mk dst src type) (BufferList.of_string payload).

Definition make_arp (opcode : Z) (sender : EthernetAddress) (sender_ip : Z)
    (target : EthernetAddress) (target_ip : Z) : ARPMessage.t :=
  ARPMessage.mk (ARPMessage.hardware_type ARPMessage.default) (ARPMessage.protocol_type ARPMessage.default)
    (ARPMessage.hardware_address_size ARPMessage.default) (ARPMessage.protocol_address_size ARPMessage.default)
    opcode sender sender_ip target target_ip.

Definition send_datagram (n : t) (dgram : IPv4Datagram.t) (next_hop : Address.t) : outcome t :=
  next_hop_ip ← Address.ipv4_numeric next_hop;
  match IP2EthernetCache.get_cache (_ip_mac_map n) next_hop_ip with
  | Some mac =>
      bl ← IPv4Datagram.serialize dgram;
      Ret (push_frame n (make_frame mac (_ethernet_address n) EthernetHeader.TYPE_IPv4
                           (BufferList.concatenate bl)))
  | None =>
      own ← Address.ipv4_numeric (_ip_address n);
      if match _arp_ip_queue n !! own with
         | Some (until, _) => _ms_since_last_tick n <=? until
         | None => false
         end
      then Ret n else
      payload ← ARPMessage.serialize
        (make_arp ARPMessage.OPCODE_REQUEST (_ethernet_address n) own zero_address next_hop_ip);
      let n := set_queue n (<[own := (uint64 (_ms_since_last_tick n + 5 * 1000), dgram)]> (_arp_ip_queue n)) in
      Ret (push_frame n (make_frame ETHERNET_BROADCAST (_ethernet_address n) EthernetHeader.TYPE_ARP payload))
  end.

(** The answer to an ARP request, when the address asked for is known or our own. *)
Definition recv_request (n : t) (get_msg : ARPMessage.t) : outcome t :=
  let target_ip := ARPMessage.target_ip_address get_msg in
  mac_cache ← match IP2EthernetCache.get_cache (_ip_mac_map n) target_ip with
              | Some mac => Ret (Some mac)
              | None => own ← Address.ipv4_numeric (_ip_address n);
                        Ret (if target_ip =? own then Some (_ethernet_address n) else None)
              end;
  n ← match mac_cache with
      | Some mac =>
          payload ← ARPMessage.serialize
            (make_arp ARPMessage.OPCODE_REPLY mac target_ip
               (ARPMessage.sender_ethernet_address get_msg) (ARPMessage.sender_ip_address get_msg));
          Ret (push_frame n (make_frame (ARPMessage.sender_ethernet_address get_msg) (_ethernet_address n)
                               EthernetHeader.TYPE_ARP payload))
      | None => Ret n
      end;
  let n := _try_set_cache_if_need n (ARPMessage.sender_ip_address get_msg)
             (ARPMessage.sender_ethernet_address get_msg) in
  Ret (_try_set_cache_if_need n target_ip (ARPMessage.target_ethernet_address get_msg)).

(** An ARP reply releases the datagram that waits under the address it is sent to. *)
Definition recv_reply (n : t) (get_msg : ARPMessage.t) : outcome t :=
  let target_ip := ARPMessage.target_ip_address get_msg in
  n ← match _arp_ip_queue n !! target_ip with
      | Some (_, dgram) =>
          bl ← IPv4Datagram.serialize dgram;
          let n := push_frame n (make_frame (ARPMessage.sender_ethernet_address get_msg)
                     (ARPMessage.target_ethernet_address get_msg) EthernetHeader.TYPE_IPv4
                     (BufferList.concatenate bl)) in
          Ret (set_queue n (delete target_ip (_arp_ip_queue n)))
      | None => Ret n
      end;
  let n := _try_set_cache_if_need n (ARPMessage.sender_ip_address get_msg)
             (ARPMessage.sender_ethernet_address get_msg) in
  Ret (_try_set_cache_if_need n target_ip (ARPMessage.target_ethernet_address get_msg)).

Definition recv_frame (n : t) (frame : EthernetFrame.t) : outcome (t * option IPv4Datagram.t) :=
  let header := EthernetFrame.header frame in
  let payload := Buffer.of_string (BufferList.concatenate (EthernetFrame.payload frame)) in
  if EthernetHeader.type header =? EthernetHeader.TYPE_IPv4 then
    if negb (same_address (EthernetHeader.dst header) (_ethernet_address n)) then Ret (n, None) else
    '(r, ip_datagram) ← IPv4Datagram.parse IPv4Datagram.default payload;
    if negb (bool_decide (r = NoError)) then Throw runtime_error else Ret (n, Some ip_datagram)
  else if EthernetHeader.type header =? EthernetHeader.TYPE_ARP then
    '(r, get_msg) ← ARPMessage.parse ARPMessage.default payload;
    if negb (bool_decide (r = NoError)) then Throw runtime_error else
    n ← if ARPMessage.opcode get_msg =? ARPMessage.OPCODE_REQUEST then recv_request n get_msg
        else if ARPMessage.opcode get_msg =? ARPMessage.OPCODE_REPLY then recv_reply n get_msg
        else Ret n;
    Ret (n, None)
  else Ret (n, None).

Definition tick (n : t) (ms_since_last_tick : Z) : t :=
  let n := set_time n (uint64 (_ms_since_last_tick n + ms_since_last_tick)) in
  set_map n (IP2EthernetCache.try_clean_expire_cache (_ip_mac_map n) (_ms_since_last_tick n)).

End NetworkInterface.

(** ** What goes over the wire *)

(** The datagram [d'] as it arrives when [d] is sent: the same header, apart from
    the checksum, and the same payload in one buffer. *)
Definition same_datagram (d d' : IPv4Datagram.t) : Prop :=
  exists ck b, d' = IPv4Datagram.mk (IPv4Header.set_cksum (IPv4Datagram.header d) ck) (BufferList.of_buffer b)
    /\ Buffer.str b = BufferList.bytes (IPv4Datagram.payload d) /\ Buffer.wf b /\ is_u16 ck.

Lemma datagram_serialize d :
  IPv4Datagram.fits d ->
  exists bl d', IPv4Datagram.serialize d = Ret bl /\
    IPv4Datagram.parse IPv4Datagram.default (Buffer.of_string (BufferList.concatenate bl)) = Ret (NoError, d')
    /\ same_datagram d d'.
Proof.
  intros Hd. destruct (datagram_wire d IPv4Datagram.default Hd) as (bl & ck & b & E1 & E2 & Hb & Hw & _ & Hck).
  do 2 eexists. split; [done|]. split; [done|]. by exists ck, b.
Qed.

(** A frame written to a device and read from it. *)
Definition transmit (f : EthernetFrame.t) : outcome EthernetFrame.t :=
  bl ← EthernetFrame.serialize f;
  '(r, f') ← EthernetFrame.parse EthernetFrame.default (Buffer.of_string (BufferList.concatenate bl));
  if bool_decide (r = NoError) then Ret f' else Throw runtime_error.

(** Frames with the same header and the same bytes. *)
Definition same_frame (f f' : EthernetFrame.t) : Prop :=
  EthernetFrame.header f' = EthernetFrame.header f /\
  BufferList.bytes (EthernetFrame.payload f') = BufferList.bytes (EthernetFrame.payload f).

(** A frame that can be serialised. *)
Definition frame_fits (f : EthernetFrame.t) : Prop :=
  EthernetHeader.valid (EthernetFrame.header f) /\ zlen (BufferList.bytes (EthernetFrame.payload f)) < 2 ^ 63.

Lemma transmit_ok f : frame_fits f -> exists f', transmit f = Ret f' /\ same_frame f f'.
Proof.
  intros [Hv Hl]. destruct (frame_wire f EthernetFrame.default Hv Hl) as (bl & b & E1 & E2 & Hb).
  unfold transmit. rewrite E1. cbn [mbind outcome_bind]. rewrite E2. cbn [mbind outcome_bind].
  eexists. split; [reflexivity|]. split; [done|]. simpl. by rewrite BufferList.bytes_of_buffer.
Qed.

(** The interface sees only the header and the bytes of a frame. *)
Lemma recv_frame_same n f f' :
  same_frame f f' -> NetworkInterface.recv_frame n f' = NetworkInterface.recv_frame n f.
Proof.
  intros [Hh Hp]. unfold NetworkInterface.recv_frame. rewrite !BufferList.concatenate_bytes.
  by rewrite Hh, Hp.
Qed.

Lemma make_frame_payload dst src type s :
  BufferList.bytes (EthernetFrame.payload (NetworkInterface.make_frame dst src type s)) = s.
Proof. apply BufferList.bl_bytes_of_string. Qed.

(** The addresses an interface may have: six bytes, not broadcast and not zero. *)
Record real_address (a : EthernetAddress) : Prop := {
  ra_length : is_address a;
  ra_not_broadcast : a <> ETHERNET_BROADCAST;
  ra_not_zero : a <> zero_address
}.

Lemma real_address_learnt a :
  is_address a ->
  negb (same_address a ETHERNET_BROADCAST) && negb (same_address a zero_address)
  = bool_decide (a <> ETHERNET_BROADCAST /\ a <> zero_address).
Proof.
  intros Ha. rewrite !same_address_spec by (done || reflexivity).
  symmetry. destruct (decide (a = ETHERNET_BROADCAST)) as [->|H1]; [reflexivity|].
  rewrite (bool_decide_eq_false_2 (a = ETHERNET_BROADCAST)) by done.
  destruct (decide (a = zero_address)) as [->|H2]; [reflexivity|].
  rewrite (bool_decide_eq_false_2 (a = zero_address)) by done. by apply bool_decide_eq_true_2.
Qed.

Lemma learn_real n ip a :
  real_address a ->
  NetworkInterface._try_set_cache_if_need n ip a
  = NetworkInterface.set_map n
      (IP2EthernetCache.set_cache (NetworkInterface._ip_mac_map n) ip a
         (NetworkInterface._ms_since_last_tick n) (NetworkInterface._expire_time n)).
Proof.
  intros [H1 H2 H3]. unfold NetworkInterface._try_set_cache_if_need.
  by rewrite real_address_learnt, bool_decide_eq_true_2.
Qed.

Lemma learn_zero n ip : NetworkInterface._try_set_cache_if_need n ip zero_address = n.
Proof. reflexivity. Qed.

Lemma get_set_cache c ip a now e ip' :
  IP2EthernetCache.get_cache (IP2EthernetCache.set_cache c ip a now e) ip'
  = if bool_decide (ip' = ip) then Some a else IP2EthernetCache.get_cache c ip'.
Proof.
  unfold IP2EthernetCache.get_cache, IP2EthernetCache.set_cache. cbn [IP2EthernetCache._ip_mac_cache].
  case_bool_decide as H; [subst; apply lookup_insert_eq|by apply lookup_insert_ne].
Qed.

(** The ARP messages that the interface writes. *)
Lemma make_arp_valid opcode sender sender_ip target target_ip :
  opcode = ARPMessage.OPCODE_REQUEST \/ opcode = ARPMessage.OPCODE_REPLY ->
  is_address sender -> is_u32 sender_ip -> is_address target -> is_u32 target_ip ->
  ARPMessage.valid (NetworkInterface.make_arp opcode sender sender_ip target target_ip).
Proof. intros Ho H1 H2 H3 H4. split; [by destruct Ho as [-> | ->]|done..]. Qed.

(** What a received ARP message does. *)
Definition recv_arp (n : NetworkInterface.t) (m : ARPMessage.t) : outcome NetworkInterface.t :=
  if ARPMessage.opcode m =? ARPMessage.OPCODE_REQUEST then NetworkInterface.recv_request n m
  else NetworkInterface.recv_reply n m.

Lemma recv_arp_frame n m dst src :
  ARPMessage.valid m ->
  exists s, ARPMessage.serialize m = Ret s /\ zlen s = ARPMessage.LENGTH /\
    NetworkInterface.recv_frame n (NetworkInterface.make_frame dst src EthernetHeader.TYPE_ARP s)
    = (n' ← recv_arp n m; Ret (n', None)).
Proof.
  intros Hv. destruct (arp_wire m ARPMessage.default [] Hv) as (s & E1 & Hz & E2); [by vm_compute|].
  exists s. split; [done|]. split; [done|]. rewrite app_nil_r in E2.
  unfold NetworkInterface.recv_frame. rewrite BufferList.concatenate_bytes, make_frame_payload, E2.
  cbn [EthernetFrame.header EthernetFrame._header NetworkInterface.make_frame EthernetHeader.type].
  change (EthernetHeader.TYPE_ARP =? EthernetHeader.TYPE_IPv4) with false.
  change (EthernetHeader.TYPE_ARP =? EthernetHeader.TYPE_ARP) with true. cbn [mbind outcome_bind].
  change (negb (bool_decide (NoError = NoError))) with false. cbv iota.
  pose proof (ARPMessage.v_supported _ Hv) as Hs. unfold ARPMessage.supported in Hs.
  apply andb_true_iff in Hs as [_ Hs]. unfold recv_arp. destruct (_ =? ARPMessage.OPCODE_REQUEST); [done|].
  simpl in Hs. by rewrite Hs.
Qed.

Lemma datagram_length d bl :
  IPv4Datagram.fits d -> IPv4Datagram.serialize d = Ret bl ->
  zlen (BufferList.concatenate bl) = IPv4Header.len (IPv4Datagram.header d).
Proof.
  intros [Hv Hl] E. unfold IPv4Datagram.serialize in E.
  destruct (negb _); [discriminate|]. apply bind_Ret in E as (s0 & _ & E). apply bind_Ret in E as (s & Es & E).
  apply Ret_inj in E as <-. rewrite IPv4Header.ipv4_header_serialize_bytes in Es by (apply Hv). apply Ret_inj in Es as <-.
  rewrite BufferList.concatenate_bytes, !BufferList.bytes_append, BufferList.bl_bytes_of_string, !zlen_app.
  rewrite IPv4Header.zlen_bytes by apply Hv. change (zlen (BufferList.bytes [])) with 0.
  unfold IPv4Datagram.header. rewrite Hl. simpl. lia.
Qed.

Section Exchange.
Import NetworkInterface.

(** An interface with a real Ethernet address and the IPv4 address [own]. *)
Record host (n : t) (own : Z) : Prop := {
  h_address : real_address (_ethernet_address n);
  h_ip : Address.ipv4_numeric (_ip_address n) = Ret own;
  h_own : is_u32 own
}.

Lemma frame_fits_arp dst src s :
  is_address dst -> is_address src -> zlen s = ARPMessage.LENGTH ->
  frame_fits (make_frame dst src EthernetHeader.TYPE_ARP s).
Proof.
  intros Hd Hs Hl. split; [split; [done|done|split; vm_compute; (reflexivity || discriminate)]|].
  rewrite make_frame_payload, Hl. by vm_compute.
Qed.

Lemma frame_fits_ip dst src d bl :
  is_address dst -> is_address src -> IPv4Datagram.fits d -> IPv4Datagram.serialize d = Ret bl ->
  frame_fits (make_frame dst src EthernetHeader.TYPE_IPv4 (BufferList.concatenate bl)).
Proof.
  intros Hd Hs Hf E. split; [split; [done|done|split; vm_compute; (reflexivity || discriminate)]|].
  rewrite make_frame_payload, (datagram_length d) by done. destruct Hf as [Hv _].
  pose proof (IPv4Header.v_len _ Hv) as Hl. unfold is_u16 in Hl. unfold IPv4Datagram.header. lia.
Qed.

(** The next hop is known: the datagram goes to its Ethernet address. *)
Lemma send_known n dgram hop ip mac :
  Address.ipv4_numeric hop = Ret ip -> IP2EthernetCache.get_cache (_ip_mac_map n) ip = Some mac ->
  IPv4Datagram.fits dgram ->
  exists bl, IPv4Datagram.serialize dgram = Ret bl /\
    send_datagram n dgram hop
    = Ret (push_frame n (make_frame mac (_ethernet_address n) EthernetHeader.TYPE_IPv4 (BufferList.concatenate bl))).
Proof.
  intros Hh Hc Hf. destruct (datagram_serialize dgram Hf) as (bl & d' & E & _).
  exists bl. split; [done|]. unfold send_datagram. rewrite Hh. cbn [mbind outcome_bind]. by rewrite Hc, E.
Qed.

(** No request of the last five seconds is on the way. *)
Definition may_request (n : t) (own : Z) : Prop :=
  forall until dgram, _arp_ip_queue n !! own = Some (until, dgram) -> until < _ms_since_last_tick n.

(** The next hop is unknown and no request is on the way: one is broadcast. *)
Lemma send_request n own dgram hop ip :
  host n own -> Address.ipv4_numeric hop = Ret ip -> is_u32 ip ->
  IP2EthernetCache.get_cache (_ip_mac_map n) ip = None -> may_request n own ->
  exists s, ARPMessage.serialize
      (make_arp ARPMessage.OPCODE_REQUEST (_ethernet_address n) own zero_address ip) = Ret s /\
    send_datagram n dgram hop
    = Ret (push_frame (set_queue n (<[own := (uint64 (_ms_since_last_tick n + 5 * 1000), dgram)]> (_arp_ip_queue n)))
             (make_frame ETHERNET_BROADCAST (_ethernet_address n) EthernetHeader.TYPE_ARP s)).
Proof.
  intros [[Ha _ _] Hi Ho] Hh Hip Hc Hq. eexists.
  assert (ARPMessage.valid (make_arp ARPMessage.OPCODE_REQUEST (_ethernet_address n) own zero_address ip)) as Hv.
  { apply make_arp_valid; (done || reflexivity || by left). }
  pose proof (ARPMessage.serialize_to_bytes _ (ARPMessage.v_supported _ Hv)) as E. split; [exact E|].
  unfold send_datagram. rewrite Hh. cbn [mbind outcome_bind]. rewrite Hc, Hi. cbn [mbind outcome_bind].
  replace (match _arp_ip_queue n !! own with Some (until, _) => _ms_since_last_tick n <=? until | None => false end)
    with false; [by rewrite E|].
  destruct (_ !! own) as [[until d]|] eqn:Eq; [|done]. symmetry. apply Z.leb_gt. by apply (Hq until d).
Qed.

Lemma send_unknown n own dgram hop ip :
  host n own -> Address.ipv4_numeric hop = Ret ip -> is_u32 ip ->
  IP2EthernetCache.get_cache (_ip_mac_map n) ip = None -> _arp_ip_queue n !! own = None ->
  exists s, ARPMessage.serialize
      (make_arp ARPMessage.OPCODE_REQUEST (_ethernet_address n) own zero_address ip) = Ret s /\
    send_datagram n dgram hop
    = Ret (push_frame (set_queue n (<[own := (uint64 (_ms_since_last_tick n + 5 * 1000), dgram)]> (_arp_ip_queue n)))
             (make_frame ETHERNET_BROADCAST (_ethernet_address n) EthernetHeader.TYPE_ARP s)).
Proof. intros Hn Hh Hip Hc Hq. apply send_request; try done. intros u d E. by rewrite Hq in E. Qed.

(** A request for our own address is answered, and its sender is learnt. *)
Lemma recv_request_own n own sender sender_ip :
  host n own -> real_address sender -> is_u32 sender_ip ->
  IP2EthernetCache.get_cache (_ip_mac_map n) own = None
    \/ IP2EthernetCache.get_cache (_ip_mac_map n) own = Some (_ethernet_address n) ->
  exists s, ARPMessage.serialize
      (make_arp ARPMessage.OPCODE_REPLY (_ethernet_address n) own sender sender_ip) = Ret s /\
    recv_request n (make_arp ARPMessage.OPCODE_REQUEST sender sender_ip zero_address own)
    = Ret (set_map (push_frame n (make_frame sender (_ethernet_address n) EthernetHeader.TYPE_ARP s))
             (IP2EthernetCache.set_cache (_ip_mac_map n) sender_ip sender (_ms_since_last_tick n) (_expire_time n))).
Proof.
  intros [[Ha _ _] Hi Ho] Hs Hsip Hc. eexists.
  assert (ARPMessage.valid (make_arp ARPMessage.OPCODE_REPLY (_ethernet_address n) own sender sender_ip)) as Hv.
  { apply make_arp_valid; (done || apply Hs || by right). }
  pose proof (ARPMessage.serialize_to_bytes _ (ARPMessage.v_supported _ Hv)) as E. split; [exact E|].
  unfold recv_request.
  cbn [ARPMessage.target_ip_address ARPMessage.sender_ethernet_address ARPMessage.sender_ip_address
       ARPMessage.target_ethernet_address make_arp].
  change (ARPMessage.mk _ _ _ _ ARPMessage.OPCODE_REPLY ?a ?b ?c ?d) with (make_arp ARPMessage.OPCODE_REPLY a b c d).
  assert (forall m, (match IP2EthernetCache.get_cache (_ip_mac_map n) own with
      | Some mac => Ret (Some mac)
      | None => own' ← Address.ipv4_numeric (_ip_address n);
                Ret (if own =? own' then Some (_ethernet_address n) else None)
      end ≫= m) = (m (Some (_ethernet_address n)) : outcome t)) as ->.
  { intros m. destruct Hc as [-> | ->]; [|reflexivity]. rewrite Hi. cbn [mbind outcome_bind]. by rewrite Z.eqb_refl. }
  rewrite E. cbn [mbind outcome_bind]. rewrite (learn_real _ _ sender) by done. reflexivity.
Qed.

(** A reply sent to us releases the datagram that waits, and its sender is learnt. *)
Lemma recv_reply_releases n own sender sender_ip until dgram :
  host n own -> real_address sender ->
  _arp_ip_queue n !! own = Some (until, dgram) -> IPv4Datagram.fits dgram ->
  exists bl n', IPv4Datagram.serialize dgram = Ret bl /\
    recv_reply n (make_arp ARPMessage.OPCODE_REPLY sender sender_ip (_ethernet_address n) own) = Ret n' /\
    frames_out n' = frames_out n
      ++ [make_frame sender (_ethernet_address n) EthernetHeader.TYPE_IPv4 (BufferList.concatenate bl)] /\
    _arp_ip_queue n' = delete own (_arp_ip_queue n) /\
    (sender_ip <> own -> IP2EthernetCache.get_cache (_ip_mac_map n') sender_ip = Some sender).
Proof.
  intros [Ha Hi Ho] Hs Hq Hf. destruct (datagram_serialize dgram Hf) as (bl & _ & E & _).
  exists bl. eexists. split; [done|]. unfold recv_reply.
  cbn [ARPMessage.target_ip_address ARPMessage.sender_ethernet_address ARPMessage.sender_ip_address
       ARPMessage.target_ethernet_address make_arp].
  rewrite Hq, E. cbn [mbind outcome_bind]. rewrite (learn_real _ _ sender) by done.
  rewrite learn_real by done. split; [reflexivity|]. split; [done|]. split; [done|]. intros Hne.
  cbn [_ip_mac_map set_map]. by rewrite !get_set_cache, bool_decide_eq_false_2, bool_decide_eq_true_2.
Qed.

(** A datagram in a frame for us is handed up. *)
Lemma recv_datagram n own src d bl :
  host n own -> IPv4Datagram.fits d -> IPv4Datagram.serialize d = Ret bl ->
  exists d', recv_frame n (make_frame (_ethernet_address n) src EthernetHeader.TYPE_IPv4 (BufferList.concatenate bl))
    = Ret (n, Some d') /\ same_datagram d d'.
Proof.
  intros [[Ha _ _] _ _] Hf E. destruct (datagram_serialize d Hf) as (bl' & d' & E' & Ep & Hs).
  assert (bl' = bl) as -> by congruence. exists d'. split; [|done].
  set (s := BufferList.concatenate bl) in *. unfold recv_frame.
  rewrite BufferList.concatenate_bytes, make_frame_payload, Ep.
  cbn [EthernetFrame.header EthernetFrame._header make_frame EthernetHeader.type EthernetHeader.dst].
  change (EthernetHeader.TYPE_IPv4 =? EthernetHeader.TYPE_IPv4) with true. cbv iota.
  rewrite same_address_spec, bool_decide_eq_true_2 by done. reflexivity.
Qed.

(** The first half of address resolution: the request and the answer to it. *)
Lemma request_round A B ownA ownB hop dgram :
  host A ownA -> host B ownB -> Address.ipv4_numeric hop = Ret ownB ->
  IP2EthernetCache.get_cache (_ip_mac_map A) ownB = None -> may_request A ownA ->
  IP2EthernetCache.get_cache (_ip_mac_map B) ownB = None
    \/ IP2EthernetCache.get_cache (_ip_mac_map B) ownB = Some (_ethernet_address B) ->
  exists A1 request request' B1 s until,
    send_datagram A dgram hop = Ret A1 /\ frames_out A1 = frames_out A ++ [request] /\
    (exists s1, request = make_frame ETHERNET_BROADCAST (_ethernet_address A) EthernetHeader.TYPE_ARP s1 /\
       ARPMessage.serialize (make_arp ARPMessage.OPCODE_REQUEST (_ethernet_address A) ownA zero_address ownB) = Ret s1) /\
    transmit request = Ret request' /\ recv_frame B request' = Ret (B1, None) /\
    frames_out B1 = frames_out B
      ++ [make_frame (_ethernet_address A) (_ethernet_address B) EthernetHeader.TYPE_ARP s] /\
    ARPMessage.serialize (make_arp ARPMessage.OPCODE_REPLY (_ethernet_address B) ownB (_ethernet_address A) ownA)
      = Ret s /\
    host A1 ownA /\ _ethernet_address A1 = _ethernet_address A /\ _arp_ip_queue A1 !! ownA = Some (until, dgram) /\
    host B1 ownB /\ _ethernet_address B1 = _ethernet_address B /\
    IP2EthernetCache.get_cache (_ip_mac_map B1) ownA = Some (_ethernet_address A).
Proof.
  intros HA HB Hh HcA HqA HcB. pose proof HA as [RA JA IA]. pose proof HB as [RB JB IB].
  destruct (send_request A ownA dgram hop ownB) as (s1 & S1 & E1); [done..|].
  destruct (recv_arp_frame B (make_arp ARPMessage.OPCODE_REQUEST (_ethernet_address A) ownA zero_address ownB)
    ETHERNET_BROADCAST (_ethernet_address A)) as (s1' & S1' & Z1 & F1).
  { apply make_arp_valid; (done || apply RA || by left). }
  assert (s1' = s1) as -> by congruence.
  destruct (transmit_ok (make_frame ETHERNET_BROADCAST (_ethernet_address A) EthernetHeader.TYPE_ARP s1))
    as (f1 & T1 & W1); [apply frame_fits_arp; (done || apply RA)|].
  destruct (recv_request_own B ownB (_ethernet_address A) ownA) as (s2 & S2 & E2); [done..|].
  do 2 eexists. exists f1. do 3 eexists. split; [exact E1|]. split; [reflexivity|]. split; [by exists s1|]. split; [done|].
  split. { rewrite (recv_frame_same _ _ _ W1), F1. change (recv_arp B ?m) with (recv_request B m). by rewrite E2. }
  split; [reflexivity|]. split; [done|]. split; [by split|]. split; [done|]. split; [apply lookup_insert_eq|].
  split; [by split|]. split; [done|]. cbn [_ip_mac_map set_map].
  by rewrite get_set_cache, bool_decide_eq_true_2.
Qed.

(** The second half: the answer releases the datagram, and it arrives. *)
Lemma reply_round A B ownA ownB s until dgram :
  host A ownA -> host B ownB -> ownA <> ownB -> IPv4Datagram.fits dgram ->
  _arp_ip_queue A !! ownA = Some (until, dgram) ->
  ARPMessage.serialize (make_arp ARPMessage.OPCODE_REPLY (_ethernet_address B) ownB (_ethernet_address A) ownA)
    = Ret s ->
  exists reply' A2 frame frame' d,
    transmit (make_frame (_ethernet_address A) (_ethernet_address B) EthernetHeader.TYPE_ARP s) = Ret reply' /\
    recv_frame A reply' = Ret (A2, None) /\ frames_out A2 = frames_out A ++ [frame] /\
    EthernetHeader.dst (EthernetFrame.header frame) = _ethernet_address B /\
    transmit frame = Ret frame' /\ recv_frame B frame' = Ret (B, Some d) /\ same_datagram dgram d /\
    IP2EthernetCache.get_cache (_ip_mac_map A2) ownB = Some (_ethernet_address B).
Proof.
  intros HA HB Hne Hd Hq S2. pose proof HA as [RA JA IA]. pose proof HB as [RB JB IB].
  destruct (recv_arp_frame A (make_arp ARPMessage.OPCODE_REPLY (_ethernet_address B) ownB (_ethernet_address A) ownA)
    (_ethernet_address A) (_ethernet_address B)) as (s2 & S2' & Z2 & F2).
  { apply make_arp_valid; (done || apply RA || apply RB || by right). }
  assert (s2 = s) as -> by congruence.
  destruct (transmit_ok (make_frame (_ethernet_address A) (_ethernet_address B) EthernetHeader.TYPE_ARP s))
    as (f2 & T2 & W2); [apply frame_fits_arp; (done || apply RA || apply RB)|].
  destruct (recv_reply_releases A ownA (_ethernet_address B) ownB until dgram)
    as (bl & A2 & S3 & E3 & O3 & _ & C3); [done..|].
  destruct (transmit_ok (make_frame (_ethernet_address B) (_ethernet_address A) EthernetHeader.TYPE_IPv4
    (BufferList.concatenate bl))) as (f3 & T3 & W3);
    [apply (frame_fits_ip _ _ dgram); (done || apply RA || apply RB)|].
  destruct (recv_datagram B ownB (_ethernet_address A) dgram bl) as (d & E4 & Hs); [done..|].
  exists f2, A2. eexists. exists f3, d. split; [done|].
  split. { rewrite (recv_frame_same _ _ _ W2), F2. change (recv_arp A ?m) with (recv_reply A m). by rewrite E3. }
  split; [done|]. split; [done|]. split; [done|]. split; [by rewrite (recv_frame_same _ _ _ W3)|]. split; [done|]. by apply C3.
Qed.

End Exchange.

(** C18: address resolution works between two interfaces on a link.  A sends a datagram
    to an address of B that it does not know; no request of A from the last five
    seconds is on the way, and B has no other Ethernet address cached for itself.
    Then A sends an ARP request for B's address to the Ethernet broadcast address;
    B answers to A; the answer makes A send the waiting datagram to B, and B hands
    up that very datagram.  Each frame goes over the wire as bytes.  Afterwards
    each interface knows the other's Ethernet address. *)
Theorem arp_resolution_delivers (A B : NetworkInterface.t) (ownA ownB : Z) (hop : Address.t)
    (dgram : IPv4Datagram.t) :
  host A ownA -> host B ownB -> ownA <> ownB -> Address.ipv4_numeric hop = Ret ownB ->
  IP2EthernetCache.get_cache (NetworkInterface._ip_mac_map A) ownB = None -> may_request A ownA ->
  IP2EthernetCache.get_cache (NetworkInterface._ip_mac_map B) ownB = None
    \/ IP2EthernetCache.get_cache (NetworkInterface._ip_mac_map B) ownB = Some (NetworkInterface._ethernet_address B) ->
  IPv4Datagram.fits dgram ->
  exists A1 request request' s B1 reply reply' A2 frame frame' d,
    NetworkInterface.send_datagram A dgram hop = Ret A1 /\
    NetworkInterface.frames_out A1 = NetworkInterface.frames_out A ++ [request] /\
    EthernetFrame.header request
      = EthernetHeader.mk (replicate 6 Byte.xff) (NetworkInterface._ethernet_address A) EthernetHeader.TYPE_ARP /\
    BufferList.bytes (EthernetFrame.payload request) = s /\
    ARPMessage.serialize (NetworkInterface.make_arp ARPMessage.OPCODE_REQUEST
      (NetworkInterface._ethernet_address A) ownA zero_address ownB) = Ret s /\
    transmit request = Ret request' /\
    NetworkInterface.recv_frame B request' = Ret (B1, None) /\
    NetworkInterface.frames_out B1 = NetworkInterface.frames_out B ++ [reply] /\
    EthernetHeader.dst (EthernetFrame.header reply) = NetworkInterface._ethernet_address A /\
    transmit reply = Ret reply' /\
    NetworkInterface.recv_frame A1 reply' = Ret (A2, None) /\
    NetworkInterface.frames_out A2 = NetworkInterface.frames_out A1 ++ [frame] /\
    EthernetHeader.dst (EthernetFrame.header frame) = NetworkInterface._ethernet_address B /\
    transmit frame = Ret frame' /\
    NetworkInterface.recv_frame B1 frame' = Ret (B1, Some d) /\ same_datagram dgram d /\
    IP2EthernetCache.get_cache (NetworkInterface._ip_mac_map A2) ownB
      = Some (NetworkInterface._ethernet_address B) /\
    IP2EthernetCache.get_cache (NetworkInterface._ip_mac_map B1) ownA
      = Some (NetworkInterface._ethernet_address A).
Proof.
  intros HA HB Hne Hh HcA HqA HcB Hd.
  destruct (request_round A B ownA ownB hop dgram)
    as (A1 & req & req' & B1 & s & until & E1 & O1 & (s1 & R1 & R2) & T1 & E2 & O2 & S & HA1 & EA & Q & HB1 & EB & C);
    [done..|].
  rewrite <- EA in C. rewrite <- EA, <- EB in S, O2.
  destruct (reply_round A1 B1 ownA ownB s until dgram)
    as (reply' & A2 & frame & frame' & d & T2 & E3 & O3 & D3 & T3 & E4 & Hs & C2); [done..|].
  exists A1, req, req', s1, B1. eexists. exists reply', A2, frame, frame', d.
  rewrite <- EA, <- EB. rewrite <- EA in R1, R2. do 2 (split; [done|]). split; [by rewrite R1|].
  split; [by rewrite R1, make_frame_payload|]. by repeat (split; [done|]).
Qed.

(** ** Any sequence of operations *)

Inductive IfaceOp :=
  | Send (dgram : IPv4Datagram.t) (next_hop : Address.t)
  | Recv (frame : EthernetFrame.t)
  | Tick (ms : Z)
  | TakeFrames.

Definition iface_step (n : NetworkInterface.t) (o : IfaceOp)
    : outcome (NetworkInterface.t * option IPv4Datagram.t) :=
  match o with
  | Send dgram hop => n ← NetworkInterface.send_datagram n dgram hop; Ret (n, None)
  | Recv frame => NetworkInterface.recv_frame n frame
  | Tick ms => Ret (NetworkInterface.tick n ms, None)
  | TakeFrames => Ret (NetworkInterface.take_frames n, None)
  end.

Definition parses_as_ip (s : string) : Prop :=
  exists d, IPv4Datagram.parse IPv4Datagram.default (Buffer.of_string s) = Ret (NoError, d).
Definition parses_as_arp (s : string) : Prop :=
  exists m, ARPMessage.parse ARPMessage.default (Buffer.of_string s) = Ret (NoError, m).

(** A frame that carries what its type says. *)
Definition good_frame (f : EthernetFrame.t) : Prop :=
  frame_fits f /\
  (EthernetHeader.type (EthernetFrame.header f) = EthernetHeader.TYPE_IPv4
     /\ parses_as_ip (BufferList.bytes (EthernetFrame.payload f))
   \/ EthernetHeader.type (EthernetFrame.header f) = EthernetHeader.TYPE_ARP
     /\ parses_as_arp (BufferList.bytes (EthernetFrame.payload f))).

(** What the interface's clients and the link may do: send datagrams that fit to
    IPv4 addresses, deliver frames that are good or of another type, and let
    time pass without overflowing the clock. *)
Definition op_allowed (n : NetworkInterface.t) (o : IfaceOp) : Prop :=
  match o with
  | Send dgram hop => IPv4Datagram.fits dgram /\ exists ip, is_u32 ip /\ Address.ipv4_numeric hop = Ret ip
  | Recv f => good_frame f \/ (EthernetHeader.type (EthernetFrame.header f) <> EthernetHeader.TYPE_IPv4
                               /\ EthernetHeader.type (EthernetFrame.header f) <> EthernetHeader.TYPE_ARP)
  | Tick ms => 0 <= ms /\ NetworkInterface._ms_since_last_tick n + ms + 30000 < 2 ^ 64
  | TakeFrames => True
  end.

Record iface_inv (own : Z) (n : NetworkInterface.t) : Prop := {
  ii_address : is_address (NetworkInterface._ethernet_address n);
  ii_ip : Address.ipv4_numeric (NetworkInterface._ip_address n) = Ret own;
  ii_own : is_u32 own;
  ii_expire : NetworkInterface._expire_time n = 30000;
  ii_cache : exists m,
    cache_rel 30000 (NetworkInterface._ip_mac_map n, NetworkInterface._ms_since_last_tick n)
                    (m, NetworkInterface._ms_since_last_tick n)
    /\ map_Forall (fun _ x => real_address x.2) m;
  ii_queue : map_Forall (fun _ x => IPv4Datagram.fits x.2) (NetworkInterface._arp_ip_queue n);
  ii_frames : Forall good_frame (NetworkInterface.frames_out n)
}.

Lemma arp_parse_valid m0 s m :
  zlen s < 2 ^ 64 -> ARPMessage.parse m0 (Buffer.of_string s) = Ret (NoError, m) -> ARPMessage.valid m.
Proof.
  intros Hl E. destruct (ARPMessage.parse_spec m0 s Hl) as (m' & E' & Hm). rewrite E in E'.
  injection E' as Er <-. revert Er. case_if; [done|].
  destruct (ARPMessage.supported _) eqn:Es; [|done]. intros _. specialize (Hm ltac:(lia) eq_refl). subst m.
  assert (forall k n, 0 <= k -> 0 <= n -> k + n <= 28 -> zlen (slice s k n) = n) as Hz
    by (intros; apply zlen_slice_le; lia).
  split; [done|..]; unfold is_address, is_u32; cbn.
  - pose proof (Hz 8 6) as H. unfold zlen in H. lia.
  - pose proof (be_value_range (slice s 14 4)) as H. rewrite Hz in H by lia. exact H.
  - pose proof (Hz 18 6) as H. unfold zlen in H. lia.
  - pose proof (be_value_range (slice s 24 4)) as H. rewrite Hz in H by lia. exact H.
Qed.

Lemma good_ip_frame dst src d bl :
  is_address dst -> is_address src -> IPv4Datagram.fits d -> IPv4Datagram.serialize d = Ret bl ->
  good_frame (NetworkInterface.make_frame dst src EthernetHeader.TYPE_IPv4 (BufferList.concatenate bl)).
Proof.
  intros Hd Hs Hf E. split; [by eapply frame_fits_ip|]. left. split; [done|]. rewrite make_frame_payload.
  destruct (datagram_serialize d Hf) as (bl' & d' & E' & Ep & _). exists d'. by assert (bl = bl') as -> by congruence.
Qed.

Lemma good_arp_frame dst src m :
  is_address dst -> is_address src -> ARPMessage.valid m ->
  exists s, ARPMessage.serialize m = Ret s /\
    good_frame (NetworkInterface.make_frame dst src EthernetHeader.TYPE_ARP s).
Proof.
  intros Hd Hs Hv. destruct (arp_wire m ARPMessage.default [] Hv) as (s & E1 & Hz & E2); [by vm_compute|].
  rewrite app_nil_r in E2. exists s. split; [done|]. split; [by apply frame_fits_arp|]. right.
  split; [done|]. rewrite make_frame_payload. by exists m.
Qed.

Section Invariant.
Import NetworkInterface.
Variable own : Z.

Lemma push_frame_inv n f : iface_inv own n -> good_frame f -> iface_inv own (push_frame n f).
Proof. intros [] Hf. split; try done. simpl. by apply Forall_app_2; [|constructor]. Qed.

Lemma iface_set_queue_inv n q :
  iface_inv own n -> map_Forall (fun _ x => IPv4Datagram.fits x.2) q -> iface_inv own (set_queue n q).
Proof. intros [] Hq. by split. Qed.

Lemma learn_inv n ip a : iface_inv own n -> is_address a -> iface_inv own (_try_set_cache_if_need n ip a).
Proof.
  intros Hn Ha. unfold _try_set_cache_if_need. rewrite real_address_learnt by done.
  case_bool_decide as Hr; [|done]. destruct Hn as [H1 H2 H3 He (m & Hm & Hreal) H5 H6].
  split; try done. simpl. rewrite He. exists (<[ip := (_ms_since_last_tick n + 30000, a)]> m). split.
  - destruct (cache_step_rel 30000 ltac:(lia) _ _ (Learn ip a) Hm I) as (s' & t' & r & E1 & E2 & Hr').
    simpl in E1, E2. apply Ret_inj in E1, E2. simplify_eq. exact Hr'.
  - apply map_Forall_insert_2; [|done]. split; [done|apply Hr..].
Qed.

Lemma iface_tick_inv n ms :
  iface_inv own n -> 0 <= ms /\ _ms_since_last_tick n + ms + 30000 < 2 ^ 64 -> iface_inv own (tick n ms).
Proof.
  intros [H1 H2 H3 He (m & Hm & Hreal) H5 H6] Hms. split; try done.
  destruct (cache_step_rel 30000 ltac:(lia) _ _ (Elapse ms) Hm Hms) as (s' & t' & r & E1 & E2 & Hr').
  simpl in E1, E2. apply Ret_inj in E1, E2. simplify_eq/=.
  exists (IP2EthernetCache.unexpired (_ms_since_last_tick n + ms) m).
  pose proof (cr_now _ _ _ Hr') as En. simpl in En. split.
  - rewrite En in Hr' |- *. exact Hr'.
  - intros ip x [Hx _]%map_lookup_filter_Some. exact (Hreal _ _ Hx).
Qed.

Lemma cached_real n ip mac :
  iface_inv own n -> IP2EthernetCache.get_cache (_ip_mac_map n) ip = Some mac -> real_address mac.
Proof.
  intros [_ _ _ _ (m & [Hr _ _ _] & Hreal) _ _] E. simpl in Hr.
  rewrite (IP2EthernetCache.get_cache_repr _ _ _ Hr) in E.
  apply fmap_Some in E as (x & Hx & ->). exact (Hreal _ _ Hx).
Qed.

Lemma send_datagram_inv n dgram hop ip :
  iface_inv own n -> IPv4Datagram.fits dgram -> is_u32 ip -> Address.ipv4_numeric hop = Ret ip ->
  exists n', send_datagram n dgram hop = Ret n' /\ iface_inv own n'.
Proof.
  intros Hn Hf Hip Hh. unfold send_datagram. rewrite Hh. cbn [mbind outcome_bind].
  destruct (IP2EthernetCache.get_cache _ _) as [mac|] eqn:Ec.
  - destruct (datagram_serialize dgram Hf) as (bl & _ & E & _). rewrite E. eexists. split; [reflexivity|].
    apply push_frame_inv; [done|]. apply (good_ip_frame _ _ dgram); [|apply Hn|done|done].
    by eapply ra_length, cached_real.
  - rewrite (ii_ip _ _ Hn). cbn [mbind outcome_bind].
    case_if; [by exists n|].
    destruct (good_arp_frame ETHERNET_BROADCAST (_ethernet_address n)
      (make_arp ARPMessage.OPCODE_REQUEST (_ethernet_address n) own zero_address ip)) as (s & -> & Hg);
      [done|apply Hn|apply make_arp_valid; try done; [by left|apply Hn..]|].
    eexists. split; [reflexivity|]. apply push_frame_inv; [|done]. apply iface_set_queue_inv; [done|].
    apply map_Forall_insert_2; [done|apply Hn].
Qed.

(** Both addresses of an ARP message are learnt. *)
Definition learn_both (n : t) (m : ARPMessage.t) : t :=
  _try_set_cache_if_need
    (_try_set_cache_if_need n (ARPMessage.sender_ip_address m) (ARPMessage.sender_ethernet_address m))
    (ARPMessage.target_ip_address m) (ARPMessage.target_ethernet_address m).

Lemma learn_both_inv n m : iface_inv own n -> ARPMessage.valid m -> iface_inv own (learn_both n m).
Proof. intros Hn []. by apply learn_inv; [apply learn_inv|]. Qed.

Lemma recv_request_inv n m :
  iface_inv own n -> ARPMessage.valid m ->
  exists n', recv_request n m = Ret (learn_both n' m) /\ iface_inv own n'
    /\ _ms_since_last_tick n' = _ms_since_last_tick n.
Proof.
  intros Hn Hm. unfold recv_request. set (known := IP2EthernetCache.get_cache _ _).
  assert (exists k, match known with
    | Some mac => Ret (Some mac)
    | None => own0 ← Address.ipv4_numeric (_ip_address n);
        Ret (if ARPMessage.target_ip_address m =? own0 then Some (_ethernet_address n) else None)
    end = Ret k /\ forall mac, k = Some mac -> is_address mac) as (k & -> & Hk).
  { destruct known as [mac|] eqn:Ek; [|rewrite (ii_ip _ _ Hn)]; eexists; (split; [reflexivity|]).
    - intros ? [= <-]. by eapply ra_length, cached_real.
    - case_if; [intros ? [= <-]; apply Hn|done]. }
  cbn [mbind outcome_bind]. destruct k as [mac|]; cbn [mbind outcome_bind].
  - destruct (good_arp_frame (ARPMessage.sender_ethernet_address m) (_ethernet_address n)
      (make_arp ARPMessage.OPCODE_REPLY mac (ARPMessage.target_ip_address m)
        (ARPMessage.sender_ethernet_address m) (ARPMessage.sender_ip_address m))) as (s & -> & Hg);
      [apply Hm|apply Hn|apply make_arp_valid; try apply Hm; [by right|by apply Hk]|].
    eexists. split; [reflexivity|]. split; [by apply push_frame_inv|done].
  - eexists. by split; [reflexivity|].
Qed.

Lemma recv_reply_inv n m :
  iface_inv own n -> ARPMessage.valid m ->
  exists n', recv_reply n m = Ret (learn_both n' m) /\ iface_inv own n'
    /\ _ms_since_last_tick n' = _ms_since_last_tick n.
Proof.
  intros Hn Hm. unfold recv_reply. destruct (_ !! _) as [[until dgram]|] eqn:Eq; cbn [mbind outcome_bind].
  - pose proof (ii_queue _ _ Hn _ _ Eq) as Hf. simpl in Hf.
    destruct (datagram_serialize dgram Hf) as (bl & _ & E & _). rewrite E. cbn [mbind outcome_bind].
    eexists. split; [reflexivity|]. split; [apply iface_set_queue_inv|done].
    + apply push_frame_inv; [done|]. apply (good_ip_frame _ _ dgram); (apply Hm || done).
    + apply map_Forall_delete, Hn.
  - eexists. by split; [reflexivity|].
Qed.

Lemma recv_frame_inv n f :
  iface_inv own n -> op_allowed n (Recv f) ->
  exists n' r, recv_frame n f = Ret (n', r) /\ iface_inv own n'.
Proof.
  intros Hn Hf. unfold recv_frame. rewrite BufferList.concatenate_bytes.
  destruct Hf as [[[_ Hl] [[-> [d Ed]]|[-> [m Em]]]]|[H1 H2]].
  - change (EthernetHeader.TYPE_IPv4 =? EthernetHeader.TYPE_IPv4) with true. cbv iota.
    destruct (negb _); [by do 2 eexists|]. rewrite Ed. by do 2 eexists.
  - change (EthernetHeader.TYPE_ARP =? EthernetHeader.TYPE_IPv4) with false.
    change (EthernetHeader.TYPE_ARP =? EthernetHeader.TYPE_ARP) with true. cbv iota.
    rewrite Em. cbn [mbind outcome_bind]. change (negb (bool_decide (NoError = NoError))) with false. cbv iota.
    assert (ARPMessage.valid m) as Hm by (eapply arp_parse_valid, Em; lia).
    destruct (recv_request_inv n m Hn Hm) as (n1 & E1 & H1 & _).
    destruct (recv_reply_inv n m Hn Hm) as (n2 & E2 & H2 & _). rewrite E1, E2.
    repeat case_if; do 2 eexists; (split; [reflexivity|]); by try apply learn_both_inv.
  - rewrite (proj2 (Z.eqb_neq _ _) H1), (proj2 (Z.eqb_neq _ _) H2). by do 2 eexists.
Qed.

Lemma recv_arp_learns n m :
  iface_inv own n -> ARPMessage.valid m ->
  exists n', recv_arp n m = Ret (learn_both n' m) /\ iface_inv own n'
    /\ _ms_since_last_tick n' = _ms_since_last_tick n.
Proof. intros Hn Hm. unfold recv_arp. case_if; [by apply recv_request_inv|by apply recv_reply_inv]. Qed.

(** The Ethernet address that an ARP message from a real address leaves behind for its
    sender: the sender's, or the target's when the message has the same IP address
    for both and the target's is real. *)
Definition announced (m : ARPMessage.t) : EthernetAddress :=
  let target := ARPMessage.target_ethernet_address m in
  if bool_decide (ARPMessage.sender_ip_address m = ARPMessage.target_ip_address m)
     && bool_decide (target <> ETHERNET_BROADCAST /\ target <> zero_address)
  then target else ARPMessage.sender_ethernet_address m.

(** What the timed map of the specification holds of the sender afterwards. *)
Lemma learn_both_sender n m :
  iface_inv own n -> ARPMessage.valid m -> real_address (ARPMessage.sender_ethernet_address m) ->
  exists k, cache_rel 30000 (_ip_mac_map (learn_both n m), _ms_since_last_tick n) (k, _ms_since_last_tick n)
    /\ k !! ARPMessage.sender_ip_address m = Some (_ms_since_last_tick n + 30000, announced m).
Proof.
  intros Hn Hm Hr. pose proof (ii_expire _ _ Hn) as He. destruct (ii_cache _ _ Hn) as (k & Hk & _).
  unfold learn_both, announced. rewrite (learn_real n) by done.
  destruct (cache_step_rel 30000 ltac:(lia) _ _ (Learn (ARPMessage.sender_ip_address m)
    (ARPMessage.sender_ethernet_address m)) Hk I) as (s1 & t1 & r1 & E1 & E2 & H1).
  simpl in E1, E2. apply Ret_inj in E1, E2. simplify_eq.
  unfold _try_set_cache_if_need. rewrite real_address_learnt by apply Hm.
  destruct (bool_decide (_ /\ _)).
  2: { rewrite andb_false_r, He. eexists. split; [exact H1|apply lookup_insert_eq]. }
  destruct (cache_step_rel 30000 ltac:(lia) _ _ (Learn (ARPMessage.target_ip_address m)
    (ARPMessage.target_ethernet_address m)) H1 I) as (s2 & t2 & r2 & E1 & E2 & H2).
  simpl in E1, E2. apply Ret_inj in E1, E2. simplify_eq. cbn [_ip_mac_map set_map _ms_since_last_tick _expire_time].
  rewrite He. eexists. split; [exact H2|]. case_bool_decide as Hip; cbn [andb].
  - rewrite Hip. apply lookup_insert_eq.
  - rewrite lookup_insert_ne by done. apply lookup_insert_eq.
Qed.

(** And what it answers once [ms] milliseconds have elapsed. *)
Lemma tick_lifetime n k ip mac ms :
  cache_rel 30000 (_ip_mac_map n, _ms_since_last_tick n) (k, _ms_since_last_tick n) ->
  k !! ip = Some (_ms_since_last_tick n + 30000, mac) ->
  0 <= ms -> _ms_since_last_tick n + ms + 30000 < 2 ^ 64 ->
  IP2EthernetCache.get_cache (_ip_mac_map (tick n ms)) ip = if ms <=? 30000 then Some mac else None.
Proof.
  intros Hk Hip Hms Ht.
  destruct (cache_step_rel 30000 ltac:(lia) _ _ (Elapse ms) Hk (conj Hms Ht)) as (s1 & t1 & r1 & E1 & E2 & H1).
  simpl in E1, E2. apply Ret_inj in E1, E2. simplify_eq.
  change (_ip_mac_map (tick n ms)) with
    (IP2EthernetCache.try_clean_expire_cache (_ip_mac_map n) (uint64 (_ms_since_last_tick n + ms))).
  rewrite (IP2EthernetCache.get_cache_repr _ _ _ (cr_repr _ _ _ H1)). cbn [fst].
  unfold IP2EthernetCache.unexpired. case_if.
  - by rewrite (map_lookup_filter_Some_2 _ _ _ _ Hip) by (simpl; lia).
  - rewrite map_lookup_filter_None_2; [done|]. right. intros x Hx. rewrite Hip in Hx. simplify_eq/=. lia.
Qed.

Lemma iface_step_inv n o :
  iface_inv own n -> op_allowed n o -> exists n' r, iface_step n o = Ret (n', r) /\ iface_inv own n'.
Proof.
  intros Hn Ho. destruct o as [dgram hop|f|ms|]; simpl.
  - destruct Ho as (Hf & ip & Hip & Hh).
    destruct (send_datagram_inv n dgram hop ip) as (n' & -> & Hn'); [done..|]. by do 2 eexists.
  - by apply recv_frame_inv.
  - do 2 eexists. split; [done|]. by apply iface_tick_inv.
  - do 2 eexists. split; [done|]. destruct Hn. split; try done.
Qed.

Lemma iface_new_inv eth ip :
  is_address eth -> is_u32 own -> Address.ipv4_numeric ip = Ret own -> iface_inv own (new eth ip).
Proof.
  intros He Ho Hi. split; try done; simpl.
  - exists ∅. split; [|apply map_Forall_empty].
    split; simpl; [apply IP2EthernetCache.new_repr|done|lia|apply map_Forall_empty].
Qed.

End Invariant.

(** C36: a network interface is safe under any sequence of datagrams sent, good
    frames received and time elapsed: it never throws, every frame it emits can
    be serialised and carries a well-formed datagram or ARP message, the
    datagrams that wait for an address can be sent, and the addresses it has
    learnt are real ones, held consistently by the map and the expiry queue. *)
Theorem interface_safe (own : Z) (eth : EthernetAddress) (ip : Address.t) (ops : list IfaceOp) :
  is_address eth -> is_u32 own -> Address.ipv4_numeric ip = Ret own ->
  valid_run iface_step op_allowed (NetworkInterface.new eth ip) ops ->
  exists n rs, run iface_step (NetworkInterface.new eth ip) ops = Ret (n, rs) /\ iface_inv own n.
Proof.
  intros He Ho Hi Hv.
  destruct (run_ghost iface_step op_allowed (fun _ : unit => iface_inv own) (fun g _ => g)
    ltac:(intros g n o; apply iface_step_inv) ops tt _ (iface_new_inv own eth ip He Ho Hi) Hv) as (n & rs & E & Hn).
  eauto.
Qed.

(** C37: a mapping learnt from an ARP message lives for 30 seconds. After a frame
    with an ARP message whose sender has a real Ethernet address, a datagram to the
    sender's IP address goes out at once, in a frame to that Ethernet address, as
    long as at most 30000 ms have elapsed; after that the address is unknown again.
    (The interface's clock does not run over its 64 bits.) There is one exception: a
    message that has the same IP address for its sender and its target (gratuitous
    ARP) leaves the target's Ethernet address behind, if that one is real too. *)
Theorem mapping_lifetime (own : Z) (n : NetworkInterface.t) (m : ARPMessage.t) (dst src : EthernetAddress)
    (s : string) (ms : Z) (dgram : IPv4Datagram.t) (hop : Address.t) :
  iface_inv own n -> ARPMessage.valid m -> ARPMessage.serialize m = Ret s ->
  real_address (ARPMessage.sender_ethernet_address m) ->
  0 <= ms -> NetworkInterface._ms_since_last_tick n + ms + 30000 < 2 ^ 64 ->
  Address.ipv4_numeric hop = Ret (ARPMessage.sender_ip_address m) -> IPv4Datagram.fits dgram ->
  exists n1 n2, NetworkInterface.recv_frame n (NetworkInterface.make_frame dst src EthernetHeader.TYPE_ARP s)
      = Ret (n1, None) /\
    n2 = NetworkInterface.tick n1 ms /\
    if ms <=? 30000
    then exists bl, IPv4Datagram.serialize dgram = Ret bl /\
      NetworkInterface.send_datagram n2 dgram hop
      = Ret (NetworkInterface.push_frame n2
          (NetworkInterface.make_frame (announced m)
             (NetworkInterface._ethernet_address n2) EthernetHeader.TYPE_IPv4 (BufferList.concatenate bl)))
    else IP2EthernetCache.get_cache (NetworkInterface._ip_mac_map n2) (ARPMessage.sender_ip_address m) = None.
Proof.
  intros Hn Hm Es Hr Hms Ht Hh Hf.
  destruct (recv_arp_frame n m dst src Hm) as (s' & Es' & _ & E). assert (s' = s) as -> by congruence.
  destruct (recv_arp_learns own n m Hn Hm) as (n1 & E1 & Hn1 & Et). rewrite E1 in E.
  destruct (learn_both_sender own n1 m Hn1 Hm Hr) as (k & Hk & Hip).
  assert (NetworkInterface._ms_since_last_tick (learn_both n1 m) = NetworkInterface._ms_since_last_tick n1) as Eb.
  { unfold learn_both, NetworkInterface._try_set_cache_if_need. by repeat case_match. }
  do 2 eexists. split; [exact E|]. split; [reflexivity|].
  pose proof (tick_lifetime (learn_both n1 m) k _ _ ms
    ltac:(rewrite Eb; exact Hk) ltac:(rewrite Eb; exact Hip) Hms ltac:(lia)) as Hc.
  destruct (ms <=? 30000); [|exact Hc]. by apply (send_known _ _ _ _ _ Hh).
Qed.

(** Time makes no address known. *)
Lemma tick_unknown n ip ms :
  IP2EthernetCache.get_cache (NetworkInterface._ip_mac_map n) ip = None ->
  IP2EthernetCache.get_cache (NetworkInterface._ip_mac_map (NetworkInterface.tick n ms)) ip = None.
Proof.
  unfold NetworkInterface.tick, IP2EthernetCache.try_clean_expire_cache, IP2EthernetCache.get_cache. simpl.
  generalize (IP2EthernetCache._ip_mac_cache (NetworkInterface._ip_mac_map n)).
  induction (IP2EthernetCache._cach_expire_queue (NetworkInterface._ip_mac_map n)) as [|[e i] q IH];
    intros cache E; simpl; [done|]. case_if; [|done]. apply IH. by apply lookup_delete_None; right.
Qed.

(** C40: the datagram that waits for an address is kept under the interface's own
    address and not under the next hop's.  So for five seconds after the request a
    datagram to any other unknown next hop is dropped without an ARP request for it;
    after that time it takes the place of the waiting one, which is lost, and a
    request goes out.  An ARP reply from any host to this interface, whichever address
    it is for, makes the interface send the waiting datagram to that host. *)
Theorem pending_keyed_by_own_address (own : Z) (n : NetworkInterface.t) (dgram dgram2 : IPv4Datagram.t)
    (hop hop2 : Address.t) (ip ip2 ip3 : Z) (mac : EthernetAddress) (ms : Z) :
  host n own -> Address.ipv4_numeric hop = Ret ip -> is_u32 ip -> Address.ipv4_numeric hop2 = Ret ip2 -> is_u32 ip2 ->
  IP2EthernetCache.get_cache (NetworkInterface._ip_mac_map n) ip = None ->
  IP2EthernetCache.get_cache (NetworkInterface._ip_mac_map n) ip2 = None -> may_request n own ->
  0 <= NetworkInterface._ms_since_last_tick n < 2 ^ 63 -> 0 <= ms < 2 ^ 62 ->
  IPv4Datagram.fits dgram -> real_address mac ->
  exists n1 n2 bl s,
    NetworkInterface.send_datagram n dgram hop = Ret n1 /\
    let later := NetworkInterface.tick n1 ms in
    ARPMessage.serialize (NetworkInterface.make_arp ARPMessage.OPCODE_REQUEST
      (NetworkInterface._ethernet_address n) own zero_address ip2) = Ret s /\
    NetworkInterface.send_datagram later dgram2 hop2
    = Ret (if ms <=? 5000 then later
           else NetworkInterface.push_frame
                  (NetworkInterface.set_queue later
                     (<[own := (NetworkInterface._ms_since_last_tick later + 5000, dgram2)]>
                        (NetworkInterface._arp_ip_queue later)))
                  (NetworkInterface.make_frame ETHERNET_BROADCAST (NetworkInterface._ethernet_address n)
                     EthernetHeader.TYPE_ARP s)) /\
    NetworkInterface.recv_reply later
      (NetworkInterface.make_arp ARPMessage.OPCODE_REPLY mac ip3 (NetworkInterface._ethernet_address n) own)
      = Ret n2 /\
    IPv4Datagram.serialize dgram = Ret bl /\
    NetworkInterface.frames_out n2 = NetworkInterface.frames_out n1
      ++ [NetworkInterface.make_frame mac (NetworkInterface._ethernet_address n) EthernetHeader.TYPE_IPv4
            (BufferList.concatenate bl)].
Proof.
  intros Hn Hh Hip Hh2 Hip2 Hc Hc2 Hq Ht Hms Hf Hm. pose proof Hn as [RA JA IA].
  destruct (send_request n own dgram hop ip) as (s1 & _ & E1); [done..|].
  match type of E1 with _ = Ret ?x => set (n1 := x) in * end. set (later := NetworkInterface.tick n1 ms).
  set (until := uint64 (NetworkInterface._ms_since_last_tick n + 5 * 1000)).
  assert (NetworkInterface._arp_ip_queue later !! own = Some (until, dgram)) as Q by apply lookup_insert_eq.
  assert (NetworkInterface._ms_since_last_tick later = NetworkInterface._ms_since_last_tick n + ms) as El.
  { change (uint64 (NetworkInterface._ms_since_last_tick n + ms) = NetworkInterface._ms_since_last_tick n + ms).
    nowrap. done. }
  assert (until = NetworkInterface._ms_since_last_tick n + 5000) as Eu by (subst until; nowrap; lia).
  assert (host later own) as Hl by exact (Build_host later own RA JA IA).
  assert (IP2EthernetCache.get_cache (NetworkInterface._ip_mac_map later) ip2 = None) as Hcl by by apply tick_unknown.
  destruct (recv_reply_releases later own mac ip3 until dgram) as (bl & n2 & Es & E2 & O2 & _); [done..|].
  assert (ARPMessage.valid (NetworkInterface.make_arp ARPMessage.OPCODE_REQUEST
    (NetworkInterface._ethernet_address n) own zero_address ip2)) as Hv
    by (apply make_arp_valid; (done || apply RA || by left)).
  pose proof (ARPMessage.serialize_to_bytes _ (ARPMessage.v_supported _ Hv)) as Es2.
  exists n1, n2, bl. eexists. split; [done|]. cbv zeta. fold later. split; [exact Es2|]. split; [|done].
  destruct (Z.leb_spec ms 5000).
  - unfold NetworkInterface.send_datagram. rewrite Hh2. cbn [mbind outcome_bind].
    rewrite Hcl, (h_ip _ _ Hl). cbn [mbind outcome_bind]. rewrite Q. by rewrite (proj2 (Z.leb_le _ _)) by lia.
  - destruct (send_request later own dgram2 hop2 ip2) as (s3 & Es3 & E3); try done.
    { intros u d. rewrite Q. intros [= <- _]. lia. }
    change (NetworkInterface._ethernet_address later) with (NetworkInterface._ethernet_address n) in Es3, E3.
    rewrite Es2 in Es3. apply Ret_inj in Es3. rewrite E3, <- Es3.
    rewrite (uint64_small (_ + 5 * 1000)) by (unfold is_u64; lia). done.
Qed.

(** ** Concrete inputs *)

Definition host_a : NetworkInterface.t :=
  NetworkInterface.new (replicate 6 Byte.x0a) (Address.ipv4 0x0a000001 0).
Definition host_b : NetworkInterface.t :=
  NetworkInterface.new (replicate 6 Byte.x0b) (Address.ipv4 0x0a000002 0).

Lemma host_a_host : host host_a 0x0a000001.
Proof. split; [by split|reflexivity|split; lia]. Qed.
Lemma host_b_host : host host_b 0x0a000002.
Proof. split; [by split|reflexivity|split; lia]. Qed.

Lemma arp_resolution_delivers_witness :
  exists A1 request request' B1,
    NetworkInterface.send_datagram host_a ipv4_example (Address.ipv4 0x0a000002 0) = Ret A1 /\
    NetworkInterface.frames_out A1 = [request] /\ transmit request = Ret request' /\
    NetworkInterface.recv_frame host_b request' = Ret (B1, None).
Proof.
  destruct (arp_resolution_delivers host_a host_b 0x0a000001 0x0a000002 (Address.ipv4 0x0a000002 0) ipv4_example)
    as (A1 & request & request' & s & B1 & _ & _ & _ & _ & _ & _ & H1 & H2 & _ & _ & _ & H3 & H4 & _).
  - exact host_a_host.
  - exact host_b_host.
  - lia.
  - reflexivity.
  - reflexivity.
  - discriminate.
  - left. reflexivity.
  - exact ipv4_example_fits.
  - exists A1, request, request', B1. split; [exact H1|]. split; [exact H2|]. split; [exact H3|exact H4].
Defined.

Lemma cache_refines_witness :
  exists c m now,
    run (cache_step 30000) (IP2EthernetCache.new, 0)
      [Learn 1 zero_address; Elapse 20000; Learn 2 ETHERNET_BROADCAST; Elapse 10001; Lookup 1; Lookup 2]
      = Ret (c, now, [None; None; None; None; None; Some ETHERNET_BROADCAST])
    /\ IP2EthernetCache.repr c m.
Proof.
  destruct (cache_refines 30000
    [Learn 1 zero_address; Elapse 20000; Learn 2 ETHERNET_BROADCAST; Elapse 10001; Lookup 1; Lookup 2])
    as (c & m & now & rs & E1 & E2 & H).
  - lia.
  - vm_compute. repeat split; discriminate.
  - exists c, m, now. split; [|exact H]. rewrite E1.
    assert (rs = [None; None; None; None; None; Some ETHERNET_BROADCAST]) as ->; [|reflexivity].
    apply (f_equal (fun o => match o with Ret (_, l) => l | Throw _ => [] end)) in E1.
    rewrite <- E1. vm_compute. reflexivity.
Defined.

Definition arp_from_b : ARPMessage.t :=
  NetworkInterface.make_arp ARPMessage.OPCODE_REPLY (replicate 6 Byte.x0b) 0x0a000002
    (replicate 6 Byte.x0a) 0x0a000001.

Lemma arp_from_b_valid : ARPMessage.valid arp_from_b.
Proof. apply make_arp_valid; [by right|done|split; lia|done|split; lia]. Qed.

Definition arp_frame_from_b : EthernetFrame.t :=
  NetworkInterface.make_frame (replicate 6 Byte.x0a) (replicate 6 Byte.x0b) EthernetHeader.TYPE_ARP
    (ARPMessage.to_bytes arp_from_b).

Lemma arp_frame_from_b_good : good_frame arp_frame_from_b.
Proof.
  destruct (good_arp_frame (replicate 6 Byte.x0a) (replicate 6 Byte.x0b) arp_from_b) as (s & E & H);
    [reflexivity|reflexivity|apply arp_from_b_valid|].
  rewrite ARPMessage.serialize_to_bytes in E by reflexivity. by apply Ret_inj in E as <-.
Qed.

Lemma interface_safe_witness :
  exists n rs, run iface_step host_a
      [Send ipv4_example (Address.ipv4 0x0a000002 0); Recv arp_frame_from_b; Tick 1000; TakeFrames] = Ret (n, rs)
    /\ iface_inv 0x0a000001 n.
Proof.
  apply (interface_safe 0x0a000001 (replicate 6 Byte.x0a) (Address.ipv4 0x0a000001 0)).
  - reflexivity.
  - split; lia.
  - reflexivity.
  - split; [split; [exact ipv4_example_fits|exists 0x0a000002; split; [split; lia|reflexivity]]|].
    split.
    + left. exact arp_frame_from_b_good.
    + vm_compute. repeat split; discriminate.
Defined.

Lemma mapping_lifetime_witness :
  exists n1, NetworkInterface.recv_frame host_a
      (NetworkInterface.make_frame zero_address zero_address EthernetHeader.TYPE_ARP (ARPMessage.to_bytes arp_from_b))
      = Ret (n1, None) /\
    IP2EthernetCache.get_cache (NetworkInterface._ip_mac_map (NetworkInterface.tick n1 30001)) 0x0a000002 = None.
Proof.
  destruct (mapping_lifetime 0x0a000001 host_a arp_from_b zero_address zero_address
    (ARPMessage.to_bytes arp_from_b) 30001 ipv4_example (Address.ipv4 0x0a000002 0)) as (n1 & n2 & E & H2 & H3).
  - apply iface_new_inv; [reflexivity|split; lia|reflexivity].
  - exact arp_from_b_valid.
  - apply ARPMessage.serialize_to_bytes. reflexivity.
  - split; [reflexivity|discriminate|discriminate].
  - lia.
  - vm_compute. reflexivity.
  - reflexivity.
  - exact ipv4_example_fits.
  - exists n1. split; [exact E|]. rewrite H2 in H3. exact H3.
Defined.

Lemma pending_keyed_by_own_address_witness :
  exists n1, NetworkInterface.send_datagram host_a ipv4_example (Address.ipv4 0x0a000002 0) = Ret n1 /\
    NetworkInterface.send_datagram (NetworkInterface.tick n1 5000) ipv4_example (Address.ipv4 0x0a000003 0)
    = Ret (NetworkInterface.tick n1 5000).
Proof.
  destruct (pending_keyed_by_own_address 0x0a000001 host_a ipv4_example ipv4_example (Address.ipv4 0x0a000002 0)
    (Address.ipv4 0x0a000003 0) 0x0a000002 0x0a000003 0x0a000004 (replicate 6 Byte.x0c) 5000)
    as (n1 & n2 & bl & s & E1 & _ & E2 & _).
  - exact host_a_host.
  - reflexivity.
  - split; lia.
  - reflexivity.
  - split; lia.
  - reflexivity.
  - reflexivity.
  - discriminate.
  - simpl. lia.
  - lia.
  - exact ipv4_example_fits.
  - split; [reflexivity|discriminate|discriminate].
  - exists n1. split; [exact E1|exact E2].
Defined.
