(* ===== verification/Router.v ===== *)
(** * The router (router.hh, router.cc)

    Longest-prefix-match routing between network interfaces.  The interfaces queue
    the datagrams they receive; [Router.route] takes them in order, looks up the
    route of each, decrements its time to live and sends it on.  The loops over the
    queues are fuelled by the length of the queue, which no iteration extends. *)

From S2P Require Import Prelude UtilBuffer Parser Codec IPv4Datagram EthernetFrame Address NetworkInterface.

Module AsyncNetworkInterface.

Record t := mk { base : NetworkInterface.t; _datagrams_out : list IPv4Datagram.t }.

Definition of_interface (interface : NetworkInterface.t) : t := mk interface [].

Definition recv_frame (i : t) (frame : EthernetFrame.t) : outcome t :=
  '(n, optional_dgram) ← NetworkInterface.recv_frame (base i) frame;
  Ret (mk n (match optional_dgram with
             | Some dgram => _datagrams_out i ++ [dgram]
             | None => _datagrams_out i
             end)).

Definition datagrams_out (i : t) : list IPv4Datagram.t := _datagrams_out i.

(** [datagrams_out().pop()] *)
Definition pop_datagram (i : t) : t := mk (base i) (tail (_datagrams_out i)).

(** The methods of the base class. *)
Definition send_datagram (i : t) (dgram : IPv4Datagram.t) (next_hop : Address.t) : outcome t :=
  n ← NetworkInterface.send_datagram (base i) dgram next_hop; Ret (mk n (_datagrams_out i)).
Definition tick (i : t) (ms : Z) : t := mk (NetworkInterface.tick (base i) ms) (_datagrams_out i).

End AsyncNetworkInterface.

Record RouterInfo := mk_info {
  router_prefix : Z;
  prefix_length : Z;
  next_hop : option Address.t;
  interface_num : Z
}.

Module Router.

Record t := mk { _interfaces : list AsyncNetworkInterface.t; _router_list : list RouterInfo }.

Definition new : t := mk [] [].

Definition add_interface (r : t) (interface : AsyncNetworkInterface.t) : t * Z :=
  let interfaces := _interfaces r ++ [interface] in
  (mk interfaces (_router_list r), zlen interfaces - 1).

(** [_interfaces.at(N)] *)
Definition interface (r : t) (N : Z) : outcome AsyncNetworkInterface.t :=
  match _interfaces r !! Z.to_nat N with
  | Some i => Ret i
  | None => Throw out_of_range
  end.

Definition set_interface (r : t) (N : Z) (i : AsyncNetworkInterface.t) : t :=
  mk (<[Z.to_nat N := i]> (_interfaces r)) (_router_list r).

(** The route at the end of the list, and the method: its debug output looks up the
    texts of the two addresses, which can throw. *)
Definition push_route (r : t) (route_prefix prefix_length : Z) (next_hop : option Address.t)
    (interface_num : Z) : t :=
  mk (_interfaces r) (_router_list r ++ [mk_info route_prefix prefix_length next_hop interface_num]).
Definition add_route `{NetDb} (r : t) (route_prefix prefix_length : Z) (next_hop : option Address.t)
    (interface_num : Z) : outcome t :=
  prefix ← Address.from_ipv4_numeric route_prefix;
  _ ← Address.ip prefix;
  _ ← match next_hop with Some hop => Address.ip hop | None => Ret (chars "(direct)") end;
  Ret (push_route r route_prefix prefix_length next_hop interface_num).

(** The comparison of the leading bits; a shift by a negative amount is undefined. *)
Definition prefix_match (ip_dst : Z) (it : RouterInfo) : outcome bool :=
  if 32 <? prefix_length it then Throw undefined_behaviour else
  Ret (Z.shiftr ip_dst (32 - prefix_length it) =? Z.shiftr (router_prefix it) (32 - prefix_length it)).

(** The loop over the routes, with [max_prefix] and [route_info]. *)
Fixpoint find_route (ip_dst : Z) (router_list : list RouterInfo) (max_prefix : Z)
    (route_info : option RouterInfo) : outcome (option RouterInfo) :=
  match router_list with
  | [] => Ret route_info
  | it :: router_list =>
      b ← prefix_match ip_dst it;
      if b && (max_prefix <=? prefix_length it)
      then find_route ip_dst router_list (prefix_length it) (Some it)
      else find_route ip_dst router_list max_prefix route_info
  end.

(** [dgram.header().ttl--] *)
Definition decrement_ttl (dgram : IPv4Datagram.t) : IPv4Datagram.t :=
  let h := IPv4Datagram.header dgram in
  IPv4Datagram.mk
    (IPv4Header.mk (IPv4Header.ver h) (IPv4Header.hlen h) (IPv4Header.tos h) (IPv4Header.len h)
       (IPv4Header.id h) (IPv4Header.df h) (IPv4Header.mf h) (IPv4Header.offset h)
       (uint8 (IPv4Header.ttl h - 1)) (IPv4Header.proto h) (IPv4Header.cksum h)
       (IPv4Header.src h) (IPv4Header.dst h))
    (IPv4Datagram.payload dgram).

Definition route_one_datagram (r : t) (dgram : IPv4Datagram.t) : outcome t :=
  if IPv4Header.ttl (IPv4Datagram.header dgram) <=? 1 then Ret r else
  let ip_dst := IPv4Header.dst (IPv4Datagram.header dgram) in
  route_info ← find_route ip_dst (_router_list r) 0 None;
  match route_info with
  | None => Ret r
  | Some info =>
      address ← Address.from_ipv4_numeric ip_dst;
      net_interface ← interface r (interface_num info);
      let dgram := decrement_ttl dgram in
      let address := match next_hop info with Some a => a | None => address end in
      net_interface ← AsyncNetworkInterface.send_datagram net_interface dgram address;
      Ret (set_interface r (interface_num info) net_interface)
  end.

(** The loop that empties the queue of the interface [N]. *)
Fixpoint route_queue (fuel : nat) (r : t) (N : Z) : outcome t :=
  i ← interface r N;
  match AsyncNetworkInterface.datagrams_out i, fuel with
  | dgram :: _, S fuel =>
      r ← route_one_datagram r dgram;
      i ← interface r N;
      route_queue fuel (set_interface r N (AsyncNetworkInterface.pop_datagram i)) N
  | _, _ => Ret r
  end.

(** The loop over the interfaces, by index. *)
Fixpoint route_from (n : nat) (r : t) (N : Z) : outcome t :=
  match n with
  | O => Ret r
  | S n =>
      i ← interface r N;
      r ← route_queue (length (AsyncNetworkInterface.datagrams_out i)) r N;
      route_from n r (N + 1)
  end.

Definition route (r : t) : outcome t := route_from (length (_interfaces r)) r 0.

(** The debug output does not throw for addresses that have a text. *)
Lemma add_route_ret `{NetDb} r route_prefix prefix_length next_hop interface_num text :
  Address.ip (Address.ipv4 route_prefix 0) = Ret text ->
  (forall hop, next_hop = Some hop -> exists text', Address.ip hop = Ret text') ->
  add_route r route_prefix prefix_length next_hop interface_num
  = Ret (push_route r route_prefix prefix_length next_hop interface_num).
Proof.
  intros Ep Eh. unfold add_route. rewrite from_ipv4_numeric_ipv4. cbn [mbind outcome_bind]. rewrite Ep. cbn [mbind outcome_bind].
  destruct next_hop as [hop|]; [|done]. by destruct (Eh hop eq_refl) as (text' & ->).
Qed.

End Router.

(** ** Longest prefix match *)

(** The leading [prefix_length] bits of the address are those of the route. *)
Definition in_prefix (ip_dst : Z) (it : RouterInfo) : Prop :=
  forall b, 32 - prefix_length it <= b < 32 -> Z.testbit ip_dst b = Z.testbit (router_prefix it) b.

Record route_ok (it : RouterInfo) : Prop := {
  ro_prefix : is_u32 (router_prefix it);
  ro_length : 0 <= prefix_length it <= 32
}.

Lemma testbit_high z b : is_u32 z -> 32 <= b -> Z.testbit z b = false.
Proof. intros Hz Hb. apply (IPv4Header.testbit_small z 32); [exact Hz|lia]. Qed.

Lemma prefix_match_spec ip_dst it :
  is_u32 ip_dst -> route_ok it ->
  exists b, Router.prefix_match ip_dst it = Ret b /\ (b = true <-> in_prefix ip_dst it).
Proof.
  intros Hd [Hp Hl]. unfold Router.prefix_match. rewrite (proj2 (Z.ltb_ge _ _)) by lia.
  eexists. split; [done|]. rewrite Z.eqb_eq. split.
  - intros E b Hb. apply (f_equal (fun z => Z.testbit z (b - (32 - prefix_length it)))) in E.
    rewrite !Z.shiftr_spec in E by lia. by replace (b - _ + _) with b in E by lia.
  - intros H. apply Z.bits_inj'. intros b Hb. rewrite !Z.shiftr_spec by lia.
    destruct (Z.lt_ge_cases (b + (32 - prefix_length it)) 32); [apply H; lia|].
    by rewrite !testbit_high by (done || lia).
Qed.

(** The best of two choices: the later one unless it is shorter. *)
Definition best_match (ip_dst : Z) (l : list RouterInfo) (info : RouterInfo) : Prop :=
  exists l1 l2, l = l1 ++ info :: l2 /\ in_prefix ip_dst info
    /\ (forall it, it ∈ l1 -> in_prefix ip_dst it -> prefix_length it <= prefix_length info)
    /\ (forall it, it ∈ l2 -> in_prefix ip_dst it -> prefix_length it < prefix_length info).

Lemma find_route_spec ip_dst l max acc :
  is_u32 ip_dst -> Forall route_ok l -> 0 <= max ->
  exists res, Router.find_route ip_dst l max acc = Ret res /\
    ((res = acc /\ forall it, it ∈ l -> in_prefix ip_dst it -> prefix_length it < max)
     \/ (exists info, res = Some info /\ max <= prefix_length info /\ best_match ip_dst l info)).
Proof.
  intros Hd Hl. revert max acc. induction Hl as [|it l Hit Hl IH]; intros max acc Hm; cbn [Router.find_route].
  { eexists. split; [done|]. left. split; [done|]. by intros it ?%not_elem_of_nil. }
  destruct (prefix_match_spec ip_dst it Hd Hit) as (b & -> & Hb). cbn [mbind outcome_bind].
  destruct (b && (max <=? prefix_length it)) eqn:Eb.
  - zbool. destruct Hb as [Hb _]. destruct (IH (prefix_length it) (Some it)) as (res & -> & Hres); [lia|].
    eexists. split; [done|]. right. destruct Hres as [[-> Hn]|(info & -> & Hi & l1 & l2 & -> & Hb1 & Hb2 & Hb3)].
    + exists it. split; [done|]. split; [done|]. exists [], l. split; [done|]. split; [by apply Hb|].
      split; [by intros ? ?%not_elem_of_nil|done].
    + exists info. split; [done|]. split; [lia|]. exists (it :: l1), l2. split; [done|]. split; [done|].
      split; [|done]. intros it' [->|Hin]%elem_of_cons Hp; [done|by apply Hb2].
  - assert (in_prefix ip_dst it -> prefix_length it < max) as Hit'.
    { intros Hp%Hb. subst b. simpl in Eb. by zbool. }
    destruct (IH max acc Hm) as (res & -> & Hres). eexists. split; [done|].
    destruct Hres as [[-> Hn]|(info & -> & Hi & l1 & l2 & -> & Hb1 & Hb2 & Hb3)].
    + left. split; [done|]. intros it' [->|Hin]%elem_of_cons Hp; [auto|by apply Hn].
    + right. exists info. split; [done|]. split; [done|]. exists (it :: l1), l2. split; [done|]. split; [done|].
      split; [|done]. intros it' [->|Hin]%elem_of_cons Hp; [specialize (Hit' Hp); lia|by apply Hb2].
Qed.

(** C20: the router finds the longest prefix that matches: the route it chooses
    agrees with the destination on all the leading bits of its prefix, no route
    that matches is longer, and of equally long ones it is the one added last;
    it chooses none exactly when none matches. *)
Theorem longest_prefix_match (ip_dst : Z) (l : list RouterInfo) :
  is_u32 ip_dst -> Forall route_ok l ->
  exists res, Router.find_route ip_dst l 0 None = Ret res /\
    match res with
    | Some info => best_match ip_dst l info
    | None => forall it, it ∈ l -> ~ in_prefix ip_dst it
    end.
Proof.
  intros Hd Hl. destruct (find_route_spec ip_dst l 0 None Hd Hl ltac:(lia)) as (res & E & H).
  exists res. split; [done|]. destruct H as [[-> H]|(info & -> & _ & H)]; [|done].
  intros it Hin Hp. specialize (H it Hin Hp).
  rewrite Forall_forall in Hl. pose proof (ro_length _ (Hl it Hin)). lia.
Qed.

(** ** Routing *)

Section Routing.
Import Router.

Definition hop_ok (a : Address.t) : Prop := exists ip, is_u32 ip /\ Address.ipv4_numeric a = Ret ip.

Record entry_ok (r : t) (it : RouterInfo) : Prop := {
  eo_route : route_ok it;
  eo_interface : 0 <= interface_num it < zlen (_interfaces r);
  eo_hop a : next_hop it = Some a -> hop_ok a
}.

Definition interface_ok (i : AsyncNetworkInterface.t) : Prop :=
  (exists own, iface_inv own (AsyncNetworkInterface.base i))
  /\ Forall IPv4Datagram.fits (AsyncNetworkInterface.datagrams_out i).

Record router_inv (r : t) : Prop := {
  ri_interfaces : Forall interface_ok (_interfaces r);
  ri_routes : Forall (entry_ok r) (_router_list r)
}.

(** The queues of the interfaces, and the router without them. *)
Definition queues (r : t) : list (list IPv4Datagram.t) := AsyncNetworkInterface.datagrams_out <$> _interfaces r.
Definition clear (i : AsyncNetworkInterface.t) : AsyncNetworkInterface.t :=
  AsyncNetworkInterface.mk (AsyncNetworkInterface.base i) [].
Definition clear_queues (r : t) : t := mk (clear <$> _interfaces r) (_router_list r).

(** The datagrams of a list, routed one after the other. *)
Fixpoint route_list (r : t) (ds : list IPv4Datagram.t) : outcome t :=
  match ds with
  | [] => Ret r
  | d :: ds => r ← route_one_datagram r d; route_list r ds
  end.

Lemma route_list_app r ds ds' : route_list r (ds ++ ds') = (r ← route_list r ds; route_list r ds').
Proof.
  revert r. induction ds as [|d ds IH]; intros r; simpl; [done|].
  destruct (route_one_datagram r d); simpl; [apply IH|done].
Qed.

Lemma decrement_ttl_fits d :
  IPv4Datagram.fits d -> IPv4Datagram.fits (decrement_ttl d).
Proof. intros [[] Hl]. split; [|done]. split; try done. apply uint8_range. Qed.

(** What arrives can be sent on, and lowering the time to live keeps two datagrams the same. *)
Lemma same_fits d d' : IPv4Datagram.fits d -> same_datagram d d' -> IPv4Datagram.fits d'.
Proof.
  intros [Hv Hl] (ck & b & -> & Hb & _ & Hc). split; [by apply IPv4Datagram.ipv4_datagram_set_cksum_valid|].
  cbn [IPv4Datagram._payload IPv4Datagram._header]. rewrite BufferList.bytes_of_buffer, Hb. exact Hl.
Qed.

Lemma same_decrement d d' :
  same_datagram d d' -> same_datagram (decrement_ttl d) (decrement_ttl d').
Proof. intros (ck & b & -> & Hb & Hw & Hc). by exists ck, b. Qed.

Lemma same_ttl_dst d d' :
  same_datagram d d' ->
  IPv4Header.ttl (IPv4Datagram.header d') = IPv4Header.ttl (IPv4Datagram.header d)
  /\ IPv4Header.dst (IPv4Datagram.header d') = IPv4Header.dst (IPv4Datagram.header d).
Proof. by intros (ck & b & -> & _). Qed.

(** Routing does not look at the queues, and does not change them. *)
Lemma interface_clear r N : interface (clear_queues r) N = clear <$> interface r N.
Proof.
  unfold interface, clear_queues. cbn [_interfaces]. rewrite list_lookup_fmap.
  by destruct (_interfaces r !! Z.to_nat N).
Qed.

Lemma route_one_clear r d : route_one_datagram (clear_queues r) d = clear_queues <$> route_one_datagram r d.
Proof.
  unfold route_one_datagram. case_if; [done|]. change (_router_list (clear_queues r)) with (_router_list r).
  destruct (find_route _ _ _ _) as [[info|]|]; [|done|done]. cbn [mbind outcome_bind].
  destruct (Address.from_ipv4_numeric _) as [a|]; [|done]. cbn [mbind outcome_bind].
  rewrite interface_clear. destruct (interface r _) as [i|]; [|done]. cbn [fmap outcome_fmap mbind outcome_bind].
  unfold AsyncNetworkInterface.send_datagram. cbn [clear AsyncNetworkInterface.base].
  destruct (NetworkInterface.send_datagram _ _ _) as [n|]; [|done]. cbn [fmap outcome_fmap mbind outcome_bind].
  unfold set_interface, clear_queues. cbn [_interfaces _router_list]. by rewrite list_fmap_insert.
Qed.

Lemma interface_lookup r N i : _interfaces r !! Z.to_nat N = Some i -> interface r N = Ret i.
Proof. intros E. unfold interface. by rewrite E. Qed.

Lemma set_interface_inv r N i : router_inv r -> interface_ok i -> router_inv (set_interface r N i).
Proof.
  intros [H1 H2] Hi. split; simpl; [by apply Forall_insert|].
  eapply Forall_impl; [exact H2|]. intros it [E1 E2 E3]. split; [done| |done].
  unfold set_interface, zlen in *. cbn [_interfaces]. by rewrite length_insert.
Qed.

Lemma set_interface_queues r N i i' :
  _interfaces r !! Z.to_nat N = Some i ->
  AsyncNetworkInterface.datagrams_out i' = AsyncNetworkInterface.datagrams_out i ->
  queues (set_interface r N i') = queues r.
Proof.
  intros E Eq. unfold queues, set_interface. cbn [_interfaces]. rewrite list_fmap_insert, Eq.
  apply list_insert_id. by rewrite list_lookup_fmap, E.
Qed.

Lemma route_one_inv r d :
  router_inv r -> IPv4Datagram.fits d ->
  exists r', route_one_datagram r d = Ret r' /\ router_inv r' /\ queues r' = queues r.
Proof.
  intros Hr Hd. unfold route_one_datagram. case_if; [by exists r|].
  assert (is_u32 (IPv4Header.dst (IPv4Datagram.header d))) as Hdst by apply Hd.
  pose proof (ri_routes _ Hr) as Hl.
  destruct (find_route_spec _ (_router_list r) 0 None Hdst) as (res & -> & Hres);
    [eapply Forall_impl; [exact Hl|by intros ? []]|lia|]. cbn [mbind outcome_bind].
  destruct Hres as [[-> _]|(info & -> & _ & l1 & l2 & El & _)]; [by exists r|].
  assert (entry_ok r info) as [_ Hi Hhop] by (rewrite Forall_forall in Hl; apply Hl; rewrite El; set_solver).
  rewrite from_ipv4_numeric_ipv4. cbn [mbind outcome_bind].
  destruct (lookup_lt_is_Some_2 (_interfaces r) (Z.to_nat (interface_num info))) as [i Ei];
    [unfold zlen in Hi; lia|].
  rewrite (interface_lookup _ _ _ Ei). cbn [mbind outcome_bind].
  destruct (Forall_lookup_1 _ _ _ _ (ri_interfaces _ Hr) Ei) as [[own Hown] Hq].
  set (hop := match next_hop info with Some a => a | None => _ end).
  assert (hop_ok hop) as (ip & Hip & Eip).
  { unfold hop. destruct (next_hop info) as [a|]; [by apply Hhop|].
    eexists. split; [exact Hdst|]. by apply ipv4_numeric_ipv4. }
  destruct (send_datagram_inv own (AsyncNetworkInterface.base i) (decrement_ttl d) hop ip)
    as (n' & En & Hn'); [done|by apply decrement_ttl_fits|done|done|].
  unfold AsyncNetworkInterface.send_datagram. rewrite En. cbn [mbind outcome_bind].
  eexists. split; [reflexivity|]. split.
  - apply set_interface_inv; [done|]. by split; [exists own|].
  - by eapply set_interface_queues.
Qed.

(** One interface's queue: its datagrams are routed in order and it is left empty. *)
Lemma route_queue_spec ds r N :
  router_inv r -> queues r !! Z.to_nat N = Some ds ->
  exists r', route_queue (length ds) r N = Ret r' /\ router_inv r'
    /\ queues r' = <[Z.to_nat N := []]> (queues r)
    /\ route_list (clear_queues r) ds = Ret (clear_queues r').
Proof.
  revert r. induction ds as [|d ds IH]; intros r Hr Hq; cbn [length route_queue].
  - unfold queues in Hq. rewrite list_lookup_fmap in Hq. apply fmap_Some in Hq as (i & Ei & Eq).
    rewrite (interface_lookup _ _ _ Ei). cbn [mbind outcome_bind]. rewrite <- Eq. exists r.
    split; [done|]. split; [done|]. split; [|done]. symmetry. apply list_insert_id.
    unfold queues. rewrite list_lookup_fmap, Ei. simpl. by rewrite Eq.
  - pose proof Hq as Hq'. unfold queues in Hq. rewrite list_lookup_fmap in Hq.
    apply fmap_Some in Hq as (i & Ei & Eq).
    rewrite (interface_lookup _ _ _ Ei). cbn [mbind outcome_bind]. rewrite <- Eq.
    pose proof (Forall_lookup_1 _ _ _ _ (ri_interfaces _ Hr) Ei) as [_ Hds].
    rewrite <- Eq in Hds. apply Forall_cons_1 in Hds as [Hd Hds].
    destruct (route_one_inv r d Hr Hd) as (r1 & E1 & Hr1 & Q1). rewrite E1. cbn [mbind outcome_bind].
    rewrite <- Q1 in Hq'. unfold queues in Hq'. rewrite list_lookup_fmap in Hq'.
    apply fmap_Some in Hq' as (i1 & Ei1 & Eq1).
    rewrite (interface_lookup _ _ _ Ei1). cbn [mbind outcome_bind].
    set (i2 := AsyncNetworkInterface.pop_datagram i1).
    assert (AsyncNetworkInterface.datagrams_out i2 = ds) as E2.
    { unfold AsyncNetworkInterface.datagrams_out in *. simpl. by rewrite <- Eq1. }
    assert (queues (set_interface r1 N i2) = <[Z.to_nat N := ds]> (queues r1)) as Q2.
    { unfold queues, set_interface. cbn [_interfaces]. by rewrite list_fmap_insert, E2. }
    destruct (IH (set_interface r1 N i2)) as (r' & -> & Hr' & Qr & Er).
    { apply set_interface_inv; [done|]. split; [|by rewrite E2].
      exact (proj1 (Forall_lookup_1 _ _ _ _ (ri_interfaces _ Hr1) Ei1)). }
    { rewrite Q2. apply list_lookup_insert_eq. unfold queues. rewrite length_fmap. by eapply lookup_lt_Some. }
    exists r'. split; [done|]. split; [done|]. split.
    + by rewrite Qr, Q2, list_insert_insert_eq, Q1.
    + simpl. rewrite route_one_clear, E1. cbn [fmap outcome_fmap mbind outcome_bind].
      rewrite <- Er. f_equal. unfold clear_queues, set_interface. cbn [_interfaces _router_list].
      rewrite list_fmap_insert. f_equal. symmetry. apply list_insert_id. by rewrite list_lookup_fmap, Ei1.
Qed.

Lemma route_from_spec n r N :
  router_inv r -> 0 <= N -> length (_interfaces r) = (Z.to_nat N + n)%nat ->
  exists r', route_from n r N = Ret r' /\ router_inv r'
    /\ queues r' = take (Z.to_nat N) (queues r) ++ replicate n []
    /\ route_list (clear_queues r) (concat (drop (Z.to_nat N) (queues r))) = Ret (clear_queues r').
Proof.
  revert r N. induction n as [|n IH]; intros r N Hr HN Hl; cbn [route_from].
  - assert (length (queues r) = Z.to_nat N) as Hq by (unfold queues; rewrite length_fmap; lia).
    exists r. rewrite take_ge, drop_ge, app_nil_r by lia. done.
  - destruct (lookup_lt_is_Some_2 (_interfaces r) (Z.to_nat N)) as [i Ei]; [lia|].
    rewrite (interface_lookup _ _ _ Ei). cbn [mbind outcome_bind].
    set (ds := AsyncNetworkInterface.datagrams_out i).
    assert (queues r !! Z.to_nat N = Some ds) as Hq by (unfold queues; by rewrite list_lookup_fmap, Ei).
    destruct (route_queue_spec ds r N Hr Hq) as (r1 & -> & Hr1 & Q1 & L1). cbn [mbind outcome_bind].
    assert (length (_interfaces r1) = length (_interfaces r)) as Hl1.
    { apply (f_equal length) in Q1. unfold queues in Q1. by rewrite length_insert, !length_fmap in Q1. }
    destruct (IH r1 (N + 1) Hr1) as (r' & -> & Hr' & Q' & L'); [lia|lia|].
    exists r'. split; [done|]. split; [done|].
    assert (Z.to_nat (N + 1) = S (Z.to_nat N)) as EN by lia. rewrite EN in *.
    assert ((Z.to_nat N < length (queues r))%nat) as Hlt by (by eapply lookup_lt_Some). split.
    + rewrite Q', Q1, (take_S_r _ _ []) by (by apply list_lookup_insert_eq).
      rewrite take_insert_ge by lia. by rewrite <- app_assoc.
    + rewrite (drop_S _ _ _ Hq). cbn [concat]. rewrite route_list_app, L1. cbn [mbind outcome_bind].
      rewrite <- L'. f_equal. rewrite Q1, drop_insert_lt by lia. done.
Qed.

Lemma clear_queues_empty r : Forall (fun q => q = []) (queues r) -> clear_queues r = r.
Proof.
  destruct r as [ifs rl]. unfold queues, clear_queues. cbn [_interfaces _router_list]. intros H. f_equal.
  apply Forall_fmap in H. induction H as [|i ifs Hi H IH]; [done|]. rewrite fmap_cons, IH. f_equal.
  destruct i. unfold clear. simpl in *. by rewrite Hi.
Qed.

End Routing.

(** C19: [Router::route] returns, and routes every datagram that the interfaces had
    received, each once and in order: its result is that of routing the
    concatenation of their queues one datagram after the other, and it leaves
    every queue empty.  It throws nothing, given interfaces that hold their
    invariant, routes that name an existing interface, and datagrams that fit. *)
Theorem route_routes_all (r : Router.t) :
  router_inv r ->
  exists r', Router.route r = Ret r' /\ router_inv r' /\ Forall (fun q => q = []) (queues r')
    /\ route_list (clear_queues r) (concat (queues r)) = Ret r'.
Proof.
  intros Hr. destruct (route_from_spec (length (Router._interfaces r)) r 0 Hr) as (r' & E & Hr' & Q & L); [lia|lia|].
  assert (Forall (fun q => q = []) (queues r')) as He.
  { rewrite Q. simpl. by apply Forall_replicate. }
  exists r'. split; [exact E|]. split; [done|]. split; [done|].
  change (Z.to_nat 0) with 0%nat in L. rewrite drop_0 in L. rewrite L. by rewrite clear_queues_empty.
Qed.

(** C38: what happens to one datagram.  It is dropped when its time to live is at
    most one or when no route matches; otherwise, when the next hop's Ethernet
    address is known to the interface of the longest matching route, that
    interface alone changes: it emits one frame to that address, and the host
    there is handed the datagram with its time to live one lower. *)
Theorem route_one_datagram_forwards (r : Router.t) (d : IPv4Datagram.t) :
  router_inv r -> IPv4Datagram.fits d ->
  let ttl := IPv4Header.ttl (IPv4Datagram.header d) in
  let dst := IPv4Header.dst (IPv4Datagram.header d) in
  (ttl <= 1 -> Router.route_one_datagram r d = Ret r) /\
  ((forall it, it ∈ Router._router_list r -> ~ in_prefix dst it) -> Router.route_one_datagram r d = Ret r) /\
  (1 < ttl -> forall info hop i mac B own,
     Router.find_route dst (Router._router_list r) 0 None = Ret (Some info) ->
     hop = match next_hop info with Some a => a | None => Address.ipv4 dst 0 end ->
     Router.interface r (interface_num info) = Ret i ->
     (ip ← Address.ipv4_numeric hop;
      Ret (IP2EthernetCache.get_cache (NetworkInterface._ip_mac_map (AsyncNetworkInterface.base i)) ip))
       = Ret (Some mac) ->
     host B own -> NetworkInterface._ethernet_address B = mac ->
     exists frame n' d',
       Router.route_one_datagram r d
         = Ret (Router.set_interface r (interface_num info)
                  (AsyncNetworkInterface.mk n' (AsyncNetworkInterface.datagrams_out i))) /\
       n' = NetworkInterface.push_frame (AsyncNetworkInterface.base i) frame /\
       NetworkInterface.recv_frame B frame = Ret (B, Some d') /\
       same_datagram (Router.decrement_ttl d) d' /\
       IPv4Header.ttl (IPv4Datagram.header d') = ttl - 1).
Proof.
  intros Hr Hd ttl dst. split; [|split].
  - intros Ht. unfold Router.route_one_datagram. by rewrite (proj2 (Z.leb_le _ _)) by done.
  - intros Hn. unfold Router.route_one_datagram. fold dst. case_if; [done|]. cbv zeta.
    destruct (find_route_spec dst (Router._router_list r) 0 None) as (res & -> & Hres);
      [apply Hd|eapply Forall_impl; [apply Hr|by intros ? []]|lia|]. cbn [mbind outcome_bind].
    destruct Hres as [[-> _]|(info & -> & _ & l1 & l2 & El & Hp & _)]; [done|].
    destruct (Hn info); [rewrite El; set_solver|done].
  - intros Ht info hop i mac B own Ef Eh Ei Ec HB Em. apply bind_Ret in Ec as (ip & Eip & Ec). apply Ret_inj in Ec.
    destruct (send_known (AsyncNetworkInterface.base i) (Router.decrement_ttl d) hop ip mac)
      as (bl & Es & En); [done|done|by apply decrement_ttl_fits|].
    destruct (recv_datagram B own (NetworkInterface._ethernet_address (AsyncNetworkInterface.base i))
      (Router.decrement_ttl d) bl) as (d' & Er & Hs); [done|by apply decrement_ttl_fits|done|].
    rewrite Em in Er. do 2 eexists. exists d'. split; [|split; [reflexivity|]].
    + unfold Router.route_one_datagram. fold ttl dst. rewrite (proj2 (Z.leb_gt _ _)) by done.
      rewrite Ef. cbn [mbind outcome_bind]. rewrite from_ipv4_numeric_ipv4. cbn [mbind outcome_bind].
      rewrite Ei. cbn [mbind outcome_bind]. rewrite <- Eh. unfold AsyncNetworkInterface.send_datagram. by rewrite En.
    + split; [done|]. split; [done|]. destruct Hs as (ck & b & -> & _).
      assert (is_u8 ttl) as Hu by apply Hd. unfold is_u8 in Hu. simpl. fold ttl. nowrap. done.
Qed.

(** ** Concrete inputs *)

Definition routes_example : list RouterInfo :=
  [mk_info 0 0 (Some (Address.ipv4 0x0a000003 0)) 0; mk_info 0x0a000000 8 None 0; mk_info 0x0a000000 24 None 1;
   mk_info 0x0a000000 8 None 1].

Lemma routes_example_ok : Forall route_ok routes_example.
Proof. repeat constructor; simpl; lia. Qed.

Lemma longest_prefix_match_witness :
  Router.find_route 0x0a000002 routes_example 0 None = Ret (Some (mk_info 0x0a000000 24 None 1)) /\
  best_match 0x0a000002 routes_example (mk_info 0x0a000000 24 None 1).
Proof.
  assert (Router.find_route 0x0a000002 routes_example 0 None = Ret (Some (mk_info 0x0a000000 24 None 1))) as E
    by (vm_compute; reflexivity).
  destruct (longest_prefix_match 0x0a000002 routes_example) as (res & Er & H).
  - split; lia.
  - exact routes_example_ok.
  - split; [exact E|]. rewrite E in Er. apply Ret_inj in Er. rewrite <- Er in H. exact H.
Defined.

(** The second interface of the router knows the address of [host_b]. *)
Definition router_example : Router.t :=
  Router.mk
    [AsyncNetworkInterface.mk (NetworkInterface.new (replicate 6 Byte.x01) (Address.ipv4 0x01000001 0)) [ipv4_example];
     AsyncNetworkInterface.mk
       (NetworkInterface._try_set_cache_if_need
          (NetworkInterface.new (replicate 6 Byte.x02) (Address.ipv4 0x0a000009 0))
          0x0a000002 (replicate 6 Byte.x0b)) []]
    routes_example.

Lemma router_example_inv : router_inv router_example.
Proof.
  split.
  - apply Forall_cons. split; [split|apply Forall_singleton; split].
    + exists 0x01000001. apply iface_new_inv; [reflexivity|split; lia|reflexivity].
    + apply Forall_singleton. exact ipv4_example_fits.
    + exists 0x0a000009. apply learn_inv; [apply iface_new_inv; [reflexivity|split; lia|reflexivity]|reflexivity].
    + constructor.
  - assert (forall p l n, 0 <= p < 2 ^ 32 -> 0 <= l <= 32 -> 0 <= n < 2 ->
      entry_ok router_example (mk_info p l None n)) as Hd by (intros; by split).
    apply Forall_cons. split.
    + split; [split; [by split|simpl; lia]|by split|]. intros a [= <-]. exists 0x0a000003. by split; [split|].
    + repeat (apply Forall_cons; split; [apply Hd; lia|]). by apply Forall_nil.
Qed.

Lemma route_routes_all_witness :
  exists r', Router.route router_example = Ret r' /\ Forall (fun q => q = []) (queues r').
Proof.
  destruct (route_routes_all router_example router_example_inv) as (r' & E & _ & H & _).
  exists r'. split; [exact E|exact H].
Defined.

Lemma route_one_datagram_forwards_witness :
  exists r' frame d',
    Router.route_one_datagram router_example ipv4_example = Ret r' /\
    NetworkInterface.recv_frame host_b frame = Ret (host_b, Some d') /\
    IPv4Header.ttl (IPv4Datagram.header d') = 63.
Proof.
  destruct (route_one_datagram_forwards router_example ipv4_example router_example_inv ipv4_example_fits)
    as (_ & _ & H).
  destruct (H ltac:(vm_compute; reflexivity) (mk_info 0x0a000000 24 None 1) (Address.ipv4 0x0a000002 0)
    (AsyncNetworkInterface.mk
       (NetworkInterface._try_set_cache_if_need
          (NetworkInterface.new (replicate 6 Byte.x02) (Address.ipv4 0x0a000009 0))
          0x0a000002 (replicate 6 Byte.x0b)) [])
    (replicate 6 Byte.x0b) host_b 0x0a000002) as (frame & n' & d' & E & _ & Er & _ & Ht).
  - vm_compute. reflexivity.
  - reflexivity.
  - reflexivity.
  - vm_compute. reflexivity.
  - exact host_b_host.
  - reflexivity.
  - eexists. exists frame, d'. split; [exact E|]. split; [exact Er|exact Ht].
Defined.
