(* ===== verification/FdAdapter.v ===== *)
(** * The adapters between TCP segments and the network (tcp_helpers/fd_adapter.hh/.cc,
      tcp_helpers/tcp_over_ip.hh/.cc, tcp_helpers/tuntap_adapter.hh/.cc,
      tcp_helpers/lossy_fd_adapter.hh)

    An adapter reads segments from a device and writes segments to it: in UDP
    payloads, in IPv4 datagrams on a TUN device, or in IPv4 datagrams in Ethernet
    frames on a TAP device.  What is read from the device is an argument and what
    is written to it is a result; TCPSpongeSocket.v makes the system calls.
    [Adapter] is the interface the [LossyFdAdapter] template expects of its
    parameter. *)

From S2P Require Import Prelude WrappingIntegers UtilBuffer Parser Checksum Codec TCPSegment IPv4Datagram EthernetFrame Address NetworkInterface.

Record FdAdapterConfig := mk_config {
  source : Address.t;
  destination : Address.t;
  loss_rate_dn : Z;
  loss_rate_up : Z
}.

Module FdAdapterBase.

Record t := mk { _cfg : FdAdapterConfig; _listen : bool }.

Definition set_listening (a : t) (l : bool) : t := mk (_cfg a) l.
Definition listening (a : t) : bool := _listen a.
Definition config (a : t) : FdAdapterConfig := _cfg a.
(** [config_mut() = cfg] *)
Definition set_config (a : t) (cfg : FdAdapterConfig) : t := mk cfg (_listen a).
(** Assignments through [config_mutable()]. *)
Definition set_source (a : t) (s : Address.t) : t :=
  mk (mk_config s (destination (_cfg a)) (loss_rate_dn (_cfg a)) (loss_rate_up (_cfg a))) (_listen a).
Definition set_destination (a : t) (d : Address.t) : t :=
  mk (mk_config (source (_cfg a)) d (loss_rate_dn (_cfg a)) (loss_rate_up (_cfg a))) (_listen a).
Definition tick (a : t) (ms : Z) : t := a.

End FdAdapterBase.

(** [seg.header().sport = ..., seg.header().dport = ...] *)
Definition set_ports (seg : TCPSegment.t) (sport dport : Z) : TCPSegment.t :=
  let h := TCPSegment.header seg in
  TCPSegment.mk
    (TCPHeader.mk sport dport (TCPHeader.seqno h) (TCPHeader.ackno h) (TCPHeader.doff h)
       (TCPHeader.urg h) (TCPHeader.ack h) (TCPHeader.psh h) (TCPHeader.rst h) (TCPHeader.syn h)
       (TCPHeader.fin h) (TCPHeader.win h) (TCPHeader.cksum h) (TCPHeader.uptr h))
    (TCPSegment.payload seg).

(** What the adapter template and the socket use of an adapter: [I] is what the
    device delivers at a read, [O] what is written to it. *)
Class Adapter (A I O : Type) := {
  adapter_read : A -> I -> outcome (A * option TCPSegment.t * list O);
  adapter_write : A -> TCPSegment.t -> outcome (A * TCPSegment.t * list O);
  adapter_tick : A -> Z -> outcome (A * list O);
  adapter_config : A -> FdAdapterConfig;
  adapter_set_config : A -> FdAdapterConfig -> A;
  adapter_set_listening : A -> bool -> A
}.

Module TCPOverUDPSocketAdapter.
Section WithNetDb.
Context `{NetDb}.

(** [UDPSocket::received_datagram] *)
Record received_datagram := mk_received { source_address : Address.t; payload : string }.

Definition read (a : FdAdapterBase.t) (datagram : received_datagram)
    : outcome (FdAdapterBase.t * option TCPSegment.t) :=
  if negb (FdAdapterBase.listening a)
     && negb (Address.eqb (source_address datagram) (destination (FdAdapterBase.config a)))
  then Ret (a, None) else
  '(r, seg) ← TCPSegment.parse TCPSegment.default (Buffer.of_string (payload datagram)) 0;
  if negb (bool_decide (r = NoError)) then Ret (a, None) else
  if FdAdapterBase.listening a then
    if TCPHeader.syn (TCPSegment.header seg) && negb (TCPHeader.rst (TCPSegment.header seg))
    then Ret (FdAdapterBase.set_listening
                (FdAdapterBase.set_destination a (source_address datagram)) false, Some seg)
    else Ret (a, None)
  else Ret (a, Some seg).

(** The datagram handed to [sendto], with its destination, and the segment with
    its ports set. *)
Definition write (a : FdAdapterBase.t) (seg : TCPSegment.t)
    : outcome (TCPSegment.t * (Address.t * BufferList.t)) :=
  sport ← Address.port (source (FdAdapterBase.config a));
  dport ← Address.port (destination (FdAdapterBase.config a));
  let seg := set_ports seg sport dport in
  bl ← TCPSegment.serialize seg 0;
  Ret (seg, (destination (FdAdapterBase.config a), bl)).

End WithNetDb.
End TCPOverUDPSocketAdapter.

Module TCPOverIPv4Adapter.
Section WithNetDb.
Context `{NetDb}.

Definition unwrap_tcp_in_ip (a : FdAdapterBase.t) (ip_dgram : IPv4Datagram.t)
    : outcome (FdAdapterBase.t * option TCPSegment.t) :=
  let h := IPv4Datagram.header ip_dgram in
  (* is the IPv4 datagram for us? *)
  not_for_us ← (if FdAdapterBase.listening a then Ret false else
                own ← Address.ipv4_numeric (source (FdAdapterBase.config a));
                Ret (negb (IPv4Header.dst h =? own)));
  if not_for_us : bool then Ret (a, None) else
  (* is the IPv4 datagram from our peer? *)
  not_from_peer ← (if FdAdapterBase.listening a then Ret false else
                   peer ← Address.ipv4_numeric (destination (FdAdapterBase.config a));
                   Ret (negb (IPv4Header.src h =? peer)));
  if not_from_peer : bool then Ret (a, None) else
  (* does the IPv4 datagram claim that its payload is a TCP segment? *)
  if negb (IPv4Header.proto h =? IPv4Header.PROTO_TCP) then Ret (a, None) else
  (* is the payload a valid TCP segment? *)
  buffer ← BufferList.to_Buffer (IPv4Datagram.payload ip_dgram);
  '(r, tcp_seg) ← TCPSegment.parse TCPSegment.default buffer (IPv4Header.pseudo_cksum h);
  if negb (bool_decide (r = NoError)) then Ret (a, None) else
  (* is the TCP segment for us? *)
  sport ← Address.port (source (FdAdapterBase.config a));
  if negb (TCPHeader.dport (TCPSegment.header tcp_seg) =? sport) then Ret (a, None) else
  (* should we target this source in reply? *)
  accepted ← (if FdAdapterBase.listening a then
                if TCPHeader.syn (TCPSegment.header tcp_seg) && negb (TCPHeader.rst (TCPSegment.header tcp_seg))
                then
                  src ← Address.of_ip (inet_ntoa (IPv4Header.dst h)) sport;
                  let a := FdAdapterBase.set_source a src in
                  dst ← Address.of_ip (inet_ntoa (IPv4Header.src h)) (TCPHeader.sport (TCPSegment.header tcp_seg));
                  let a := FdAdapterBase.set_destination a dst in
                  Ret (Some (FdAdapterBase.set_listening a false))
                else Ret None
              else Ret (Some a));
  match accepted with
  | None => Ret (a, None)
  | Some a =>
      (* is the TCP segment from our peer? *)
      dport ← Address.port (destination (FdAdapterBase.config a));
      if negb (TCPHeader.sport (TCPSegment.header tcp_seg) =? dport) then Ret (a, None)
      else Ret (a, Some tcp_seg)
  end.

(** A datagram header with its addresses and length set. *)
Definition make_header (src dst doff payload_size : Z) : IPv4Header.t :=
  let h := IPv4Header.default in
  IPv4Header.mk (IPv4Header.ver h) (IPv4Header.hlen h) (IPv4Header.tos h)
    (uint16 (IPv4Header.hlen h * 4 + doff * 4 + payload_size)) (IPv4Header.id h) (IPv4Header.df h)
    (IPv4Header.mf h) (IPv4Header.offset h) (IPv4Header.ttl h) (IPv4Header.proto h) (IPv4Header.cksum h) src dst.

Definition wrap_tcp_in_ip (a : FdAdapterBase.t) (seg : TCPSegment.t)
    : outcome (TCPSegment.t * IPv4Datagram.t) :=
  sport ← Address.port (source (FdAdapterBase.config a));
  dport ← Address.port (destination (FdAdapterBase.config a));
  let seg := set_ports seg sport dport in
  src ← Address.ipv4_numeric (source (FdAdapterBase.config a));
  dst ← Address.ipv4_numeric (destination (FdAdapterBase.config a));
  let h := make_header src dst (TCPHeader.doff (TCPSegment.header seg))
             (Buffer.size (TCPSegment.payload seg)) in
  payload ← TCPSegment.serialize seg (IPv4Header.pseudo_cksum h);
  Ret (seg, IPv4Datagram.mk h payload).

End WithNetDb.
End TCPOverIPv4Adapter.

Module TCPOverIPv4OverTunFdAdapter.
Section WithNetDb.
Context `{NetDb}.

(** [tun_read] is what [_tun.read()] returned. *)
Definition read (a : FdAdapterBase.t) (tun_read : string) : outcome (FdAdapterBase.t * option TCPSegment.t) :=
  '(r, ip_dgram) ← IPv4Datagram.parse IPv4Datagram.default (Buffer.of_string tun_read);
  if negb (bool_decide (r = NoError)) then Ret (a, None)
  else TCPOverIPv4Adapter.unwrap_tcp_in_ip a ip_dgram.

(** The bytes handed to [_tun.write]. *)
Definition write (a : FdAdapterBase.t) (seg : TCPSegment.t) : outcome (TCPSegment.t * BufferList.t) :=
  '(seg, ip_dgram) ← TCPOverIPv4Adapter.wrap_tcp_in_ip a seg;
  bl ← IPv4Datagram.serialize ip_dgram;
  Ret (seg, bl).

End WithNetDb.
End TCPOverIPv4OverTunFdAdapter.

Module TCPOverIPv4OverEthernetAdapter.
Section WithNetDb.
Context `{NetDb}.

Record t := mk { base : FdAdapterBase.t; _interface : NetworkInterface.t; _next_hop : Address.t }.

(** [send_pending]: every frame of the queue is written to the device. *)
Fixpoint serialize_frames (frames : list EthernetFrame.t) : outcome (list BufferList.t) :=
  match frames with
  | [] => Ret []
  | front :: rest =>
      bl ← EthernetFrame.serialize front;
      bls ← serialize_frames rest;
      Ret (bl :: bls)
  end.

Definition send_pending (a : t) : outcome (t * list BufferList.t) :=
  out ← serialize_frames (NetworkInterface.frames_out (_interface a));
  Ret (mk (base a) (NetworkInterface.take_frames (_interface a)) (_next_hop a), out).

(** The constructor, which writes a dummy frame to the device. *)
Definition new (base : FdAdapterBase.t) (eth_address : EthernetAddress) (ip_address next_hop : Address.t)
    : outcome (t * list BufferList.t) :=
  interface ← NetworkInterface.construct eth_address ip_address;
  bl ← EthernetFrame.serialize EthernetFrame.default;
  Ret (mk base interface next_hop, [bl]).

Definition read (a : t) (tap_read : string) : outcome (t * option TCPSegment.t * list BufferList.t) :=
  '(r, frame) ← EthernetFrame.parse EthernetFrame.default (Buffer.of_string tap_read);
  if negb (bool_decide (r = NoError)) then Ret (a, None, []) else
  '(n, ip_dgram) ← NetworkInterface.recv_frame (_interface a) frame;
  '(a, out) ← send_pending (mk (base a) n (_next_hop a));
  match ip_dgram with
  | Some d => '(b, seg) ← TCPOverIPv4Adapter.unwrap_tcp_in_ip (base a) d;
              Ret (mk b (_interface a) (_next_hop a), seg, out)
  | None => Ret (a, None, out)
  end.

Definition tick (a : t) (ms_since_last_tick : Z) : outcome (t * list BufferList.t) :=
  send_pending (mk (base a) (NetworkInterface.tick (_interface a) ms_since_last_tick) (_next_hop a)).

Definition write (a : t) (seg : TCPSegment.t) : outcome (t * TCPSegment.t * list BufferList.t) :=
  '(seg, d) ← TCPOverIPv4Adapter.wrap_tcp_in_ip (base a) seg;
  n ← NetworkInterface.send_datagram (_interface a) d (_next_hop a);
  '(a, out) ← send_pending (mk (base a) n (_next_hop a));
  Ret (a, seg, out).

End WithNetDb.
End TCPOverIPv4OverEthernetAdapter.

(** The three adapters implement the interface. *)
Section Instances.
Context `{NetDb}.

#[export] Instance udp_adapter :
    Adapter FdAdapterBase.t TCPOverUDPSocketAdapter.received_datagram (Address.t * BufferList.t) := {|
  adapter_read a i := '(a, seg) ← TCPOverUDPSocketAdapter.read a i; Ret (a, seg, []);
  adapter_write a seg := '(seg, o) ← TCPOverUDPSocketAdapter.write a seg; Ret (a, seg, [o]);
  adapter_tick a ms := Ret (FdAdapterBase.tick a ms, []);
  adapter_config := FdAdapterBase.config;
  adapter_set_config := FdAdapterBase.set_config;
  adapter_set_listening := FdAdapterBase.set_listening
|}.

#[export] Instance tun_adapter : Adapter FdAdapterBase.t string BufferList.t := {|
  adapter_read a i := '(a, seg) ← TCPOverIPv4OverTunFdAdapter.read a i; Ret (a, seg, []);
  adapter_write a seg := '(seg, o) ← TCPOverIPv4OverTunFdAdapter.write a seg; Ret (a, seg, [o]);
  adapter_tick a ms := Ret (FdAdapterBase.tick a ms, []);
  adapter_config := FdAdapterBase.config;
  adapter_set_config := FdAdapterBase.set_config;
  adapter_set_listening := FdAdapterBase.set_listening
|}.

#[export] Instance tap_adapter : Adapter TCPOverIPv4OverEthernetAdapter.t string BufferList.t := {|
  adapter_read := TCPOverIPv4OverEthernetAdapter.read;
  adapter_write := TCPOverIPv4OverEthernetAdapter.write;
  adapter_tick := TCPOverIPv4OverEthernetAdapter.tick;
  adapter_config a := FdAdapterBase.config (TCPOverIPv4OverEthernetAdapter.base a);
  adapter_set_config a cfg :=
    TCPOverIPv4OverEthernetAdapter.mk
      (FdAdapterBase.set_config (TCPOverIPv4OverEthernetAdapter.base a) cfg)
      (TCPOverIPv4OverEthernetAdapter._interface a) (TCPOverIPv4OverEthernetAdapter._next_hop a);
  adapter_set_listening a l :=
    TCPOverIPv4OverEthernetAdapter.mk
      (FdAdapterBase.set_listening (TCPOverIPv4OverEthernetAdapter.base a) l)
      (TCPOverIPv4OverEthernetAdapter._interface a) (TCPOverIPv4OverEthernetAdapter._next_hop a)
|}.

End Instances.

(** The adapter that drops at random.  The generator is the standard library's
    [std::mt19937]: any state [R] and any function that draws from it. *)
Module LossyFdAdapter.
Section Lossy.
Context {A I O R : Type} `{Adapter A I O}.
Variable draw : R -> Z * R.

Record t := mk { _rand : R; _adapter : A }.

(** The generator is asked only when there is a loss rate. *)
Definition _should_drop (a : t) (uplink : bool) : bool * t :=
  let cfg := adapter_config (_adapter a) in
  let loss := if uplink then loss_rate_up cfg else loss_rate_dn cfg in
  if loss =? 0 then (false, a) else
  let '(z, g) := draw (_rand a) in
  (uint16 z <? loss, mk g (_adapter a)).

Definition read (a : t) (i : I) : outcome (t * option TCPSegment.t * list O) :=
  '(ad, ret, out) ← adapter_read (_adapter a) i;
  let '(drop, a) := _should_drop (mk (_rand a) ad) false in
  Ret (a, if drop then None else ret, out).

Definition write (a : t) (seg : TCPSegment.t) : outcome (t * TCPSegment.t * list O) :=
  let '(drop, a) := _should_drop a true in
  if drop then Ret (a, seg, []) else
  '(ad, seg, out) ← adapter_write (_adapter a) seg;
  Ret (mk (_rand a) ad, seg, out).

Definition tick (a : t) (ms : Z) : outcome (t * list O) :=
  '(ad, out) ← adapter_tick (_adapter a) ms; Ret (mk (_rand a) ad, out).

Definition config (a : t) : FdAdapterConfig := adapter_config (_adapter a).
Definition set_config (a : t) (cfg : FdAdapterConfig) : t := mk (_rand a) (adapter_set_config (_adapter a) cfg).
Definition set_listening (a : t) (l : bool) : t := mk (_rand a) (adapter_set_listening (_adapter a) l).

End Lossy.
Arguments t : clear implicits.
End LossyFdAdapter.

(** A lossy adapter is an adapter, once the generator is chosen. *)
Definition lossy_adapter {A I O R : Type} `{Adapter A I O} (draw : R -> Z * R)
    : Adapter (LossyFdAdapter.t A R) I O := {|
  adapter_read := LossyFdAdapter.read draw;
  adapter_write := LossyFdAdapter.write draw;
  adapter_tick := LossyFdAdapter.tick;
  adapter_config := LossyFdAdapter.config;
  adapter_set_config := LossyFdAdapter.set_config;
  adapter_set_listening := LossyFdAdapter.set_listening
|}.

(** ** What arrives is what was sent *)

(** The same header, apart from the checksum, and the same payload. *)
Definition same_segment (seg seg' : TCPSegment.t) : Prop :=
  (exists ck, TCPSegment.header seg' = TCPHeader.set_cksum (TCPSegment.header seg) ck) /\
  Buffer.str (TCPSegment.payload seg') = Buffer.str (TCPSegment.payload seg).

(** A segment that can be sent in one datagram. *)
Definition segment_fits (seg : TCPSegment.t) : Prop :=
  TCPHeader.valid (TCPSegment.header seg) /\ zlen (Buffer.str (TCPSegment.payload seg)) <= 64000.

(** An adapter between the given addresses and ports. *)
Record between (a : FdAdapterBase.t) (src sport dst dport : Z) : Prop := {
  bt_source : source (FdAdapterBase.config a) = Address.ipv4 src sport;
  bt_destination : destination (FdAdapterBase.config a) = Address.ipv4 dst dport;
  bt_src : is_u32 src;
  bt_sport : is_u16 sport;
  bt_dst : is_u32 dst;
  bt_dport : is_u16 dport
}.

(** An adapter ready to receive a segment from [src:sport] to [dst:dport]: it is
    connected the other way round, or it listens on the port and the segment
    opens a connection. *)
Definition ready (b : FdAdapterBase.t) (src sport dst dport : Z) (seg : TCPSegment.t) : Prop :=
  if FdAdapterBase.listening b
  then (exists any, is_u32 any /\ source (FdAdapterBase.config b) = Address.ipv4 any dport)
       /\ TCPHeader.syn (TCPSegment.header seg) = true /\ TCPHeader.rst (TCPSegment.header seg) = false
  else between b dst dport src sport.

(** What it becomes: connected the other way round, the rest of it unchanged. *)
Definition connected (b : FdAdapterBase.t) (src sport dst dport : Z) : FdAdapterBase.t :=
  FdAdapterBase.mk (mk_config (Address.ipv4 dst dport) (Address.ipv4 src sport)
    (loss_rate_dn (FdAdapterBase.config b)) (loss_rate_up (FdAdapterBase.config b))) false.

Section RoundTrip.
Context `{NetDbLaws}.

Lemma set_ports_valid seg sport dport :
  is_u16 sport -> is_u16 dport -> TCPHeader.valid (TCPSegment.header seg) ->
  TCPHeader.valid (TCPSegment.header (set_ports seg sport dport)).
Proof. intros Hs Hd []. by split. Qed.

(** The checks of [unwrap_tcp_in_ip] that come after the segment is parsed. *)
Lemma unwrap_accepts b src sport dst dport seg h buffer seg' :
  is_u32 src -> is_u16 sport -> is_u32 dst -> is_u16 dport -> ready b src sport dst dport seg ->
  IPv4Header.src h = src -> IPv4Header.dst h = dst -> IPv4Header.proto h = IPv4Header.PROTO_TCP ->
  TCPSegment.parse TCPSegment.default buffer (IPv4Header.pseudo_cksum h) = Ret (NoError, seg') ->
  same_segment (set_ports seg sport dport) seg' ->
  TCPOverIPv4Adapter.unwrap_tcp_in_ip b (IPv4Datagram.mk h (BufferList.of_buffer buffer))
  = Ret (connected b src sport dst dport, Some seg').
Proof.
  intros Hs Hsp Hd Hdp Hb Es Ed Ep E [[ck Hck] _]. unfold ready in Hb.
  unfold TCPOverIPv4Adapter.unwrap_tcp_in_ip. cbn [IPv4Datagram.header IPv4Datagram._header IPv4Datagram.payload IPv4Datagram._payload].
  rewrite Es, Ed, Ep. cbn [BufferList.of_buffer BufferList.to_Buffer].
  destruct (FdAdapterBase.listening b) eqn:El.
  - destruct Hb as ((any & Ha & Hsrc) & Hsyn & Hrst). cbn [mbind outcome_bind].
    change (negb (IPv4Header.PROTO_TCP =? IPv4Header.PROTO_TCP)) with false. cbv iota. rewrite E.
    cbn [mbind outcome_bind]. change (negb (bool_decide (NoError = NoError))) with false. cbv iota.
    rewrite Hsrc, port_ipv4 by done. cbn [mbind outcome_bind]. rewrite Hck.
    cbn [TCPHeader.dport set_ports TCPSegment.header TCPSegment._header TCPHeader.set_cksum TCPHeader.syn
         TCPHeader.rst TCPHeader.sport].
    rewrite Z.eqb_refl, Hsyn, Hrst. cbn [negb andb].
    rewrite !of_ip_ipv4 by done. cbn [mbind outcome_bind].
    unfold FdAdapterBase.set_source, FdAdapterBase.set_destination, FdAdapterBase.set_listening, FdAdapterBase.config.
    cbn [FdAdapterBase._cfg destination]. rewrite port_ipv4 by done. cbn [mbind outcome_bind].
    rewrite Z.eqb_refl. reflexivity.
  - destruct Hb as [B1 B2 _ _ _ _]. rewrite B1, B2, !ipv4_numeric_ipv4 by done. cbn [mbind outcome_bind].
    rewrite !Z.eqb_refl. cbn [negb mbind outcome_bind]. rewrite E. cbn [mbind outcome_bind].
    change (negb (bool_decide (NoError = NoError))) with false. cbv iota.
    rewrite port_ipv4 by done. cbn [mbind outcome_bind]. rewrite Hck.
    cbn [TCPHeader.dport set_ports TCPSegment.header TCPSegment._header TCPHeader.set_cksum TCPHeader.sport].
    rewrite Z.eqb_refl. cbn [negb mbind outcome_bind]. rewrite B2, port_ipv4 by done. cbn [mbind outcome_bind].
    rewrite Z.eqb_refl. cbn [negb]. unfold connected. rewrite <- B1, <- B2.
    destruct b as [[] l]. simpl in *. by subst.
Qed.

Lemma make_header_valid src dst doff n :
  is_u32 src -> is_u32 dst -> IPv4Header.valid (TCPOverIPv4Adapter.make_header src dst doff n).
Proof.
  intros Hs Hd. split; [reflexivity|split; vm_compute; discriminate|by split|apply uint16_range|by split..|done|done].
Qed.

(** Wrapping a segment gives a datagram that unwraps to it, however the payload of
    the datagram is laid out in memory. *)
Lemma wrap_unwrap_ip a b src sport dst dport seg :
  between a src sport dst dport -> segment_fits seg -> ready b src sport dst dport seg ->
  exists d, TCPOverIPv4Adapter.wrap_tcp_in_ip a seg = Ret (set_ports seg sport dport, d) /\
    IPv4Datagram.fits d /\
    forall ck buffer, Buffer.wf buffer -> Buffer.str buffer = BufferList.bytes (IPv4Datagram.payload d) ->
    exists seg', TCPOverIPv4Adapter.unwrap_tcp_in_ip b
        (IPv4Datagram.mk (IPv4Header.set_cksum (IPv4Datagram.header d) ck) (BufferList.of_buffer buffer))
      = Ret (connected b src sport dst dport, Some seg') /\ same_segment (set_ports seg sport dport) seg'.
Proof.
  intros [A1 A2 Hs Hsp Hd Hdp] [Hv Hl] Hb.
  pose proof (set_ports_valid seg sport dport Hsp Hdp Hv) as Hv'.
  set (h := TCPOverIPv4Adapter.make_header src dst (TCPHeader.doff (TCPSegment.header seg))
              (Buffer.size (TCPSegment.payload seg))).
  assert (0 <= IPv4Header.pseudo_cksum h < 2 ^ 20) as Hps by (by apply IPv4Header.pseudo_cksum_range).
  destruct (segment_wire_buffer (set_ports seg sport dport) TCPSegment.default (IPv4Header.pseudo_cksum h) Hv' Hl Hps)
    as (bl & ck & E & Hz & Hp).
  exists (IPv4Datagram.mk h bl). split; [|split].
  - unfold TCPOverIPv4Adapter.wrap_tcp_in_ip. rewrite A1, A2, !port_ipv4 by done. cbn [mbind outcome_bind].
    rewrite !ipv4_numeric_ipv4 by done. cbn [mbind outcome_bind].
    change (TCPHeader.doff (TCPSegment.header (set_ports seg sport dport))) with (TCPHeader.doff (TCPSegment.header seg)).
    change (TCPSegment.payload (set_ports seg sport dport)) with (TCPSegment.payload seg). fold h. by rewrite E.
  - pose proof (TCPHeader.v_doff _ Hv). pose proof (zlen_nonneg (Buffer.str (TCPSegment.payload seg))).
    assert (IPv4Header.len h = 20 + (4 * TCPHeader.doff (TCPSegment.header seg)
      + zlen (Buffer.str (TCPSegment.payload seg)))) as Hlen.
    { unfold h, TCPOverIPv4Adapter.make_header. cbn [IPv4Header.len].
      unfold Buffer.size. change (IPv4Header.hlen IPv4Header.default) with 5. nowrap. lia. }
    split; [by apply make_header_valid|].
    cbn [IPv4Datagram._header IPv4Datagram._payload]. rewrite Hz, Hlen. reflexivity.
  - intros ck' buffer Hw Hbuf. cbn [IPv4Datagram.header IPv4Datagram._header IPv4Datagram.payload IPv4Datagram._payload] in *.
    destruct (Hp buffer Hw Hbuf) as (pl & Epl & Hpl).
    assert (same_segment (set_ports seg sport dport)
      (TCPSegment.mk (TCPHeader.set_cksum (TCPSegment.header (set_ports seg sport dport)) ck) pl)) as Hsame
      by (split; [by exists ck|done]).
    eexists. split; [|exact Hsame]. by apply unwrap_accepts with seg.
Qed.

End RoundTrip.

(** A segment written by a TUN adapter and read by the adapter at the other end
    arrives: the bytes that [write] hands to the device are those of an IPv4
    datagram, and [read] on them gives the segment with its ports set and its
    payload unchanged.  The reader is either connected to the writer or listening
    on the port, in which case a SYN connects it: its source becomes the address
    that was contacted and its destination the writer. *)
Theorem tun_write_read `{NetDbLaws} (a b : FdAdapterBase.t) (src sport dst dport : Z) (seg : TCPSegment.t) :
  between a src sport dst dport -> segment_fits seg -> ready b src sport dst dport seg ->
  exists bl seg', TCPOverIPv4OverTunFdAdapter.write a seg = Ret (set_ports seg sport dport, bl) /\
    TCPOverIPv4OverTunFdAdapter.read b (BufferList.concatenate bl)
      = Ret (connected b src sport dst dport, Some seg') /\
    same_segment (set_ports seg sport dport) seg'.
Proof.
  intros Ha Hs Hb. destruct (wrap_unwrap_ip a b src sport dst dport seg Ha Hs Hb) as (d & Ew & Hf & Hu).
  destruct (datagram_wire d IPv4Datagram.default Hf) as (bl & ck & buf & E1 & E2 & Hbuf & Hw & _).
  destruct (Hu ck buf Hw Hbuf) as (seg' & Eu & Hseg). exists bl, seg'. split; [|split; [|done]].
  - unfold TCPOverIPv4OverTunFdAdapter.write. rewrite Ew. cbn [mbind outcome_bind]. by rewrite E1.
  - unfold TCPOverIPv4OverTunFdAdapter.read. rewrite E2. exact Eu.
Qed.

(** A segment written by a TAP adapter that knows the Ethernet address of the
    next hop is read by the adapter there: [write] hands the device one Ethernet
    frame, and [read] on its bytes gives the segment and sends nothing. *)
Theorem tap_write_read `{NetDbLaws} (A B : TCPOverIPv4OverEthernetAdapter.t) (src sport dst dport : Z)
    (seg : TCPSegment.t) (ownA ownB hop : Z) :
  between (TCPOverIPv4OverEthernetAdapter.base A) src sport dst dport -> segment_fits seg ->
  ready (TCPOverIPv4OverEthernetAdapter.base B) src sport dst dport seg ->
  host (TCPOverIPv4OverEthernetAdapter._interface A) ownA ->
  host (TCPOverIPv4OverEthernetAdapter._interface B) ownB ->
  Address.ipv4_numeric (TCPOverIPv4OverEthernetAdapter._next_hop A) = Ret hop ->
  IP2EthernetCache.get_cache (NetworkInterface._ip_mac_map (TCPOverIPv4OverEthernetAdapter._interface A)) hop
    = Some (NetworkInterface._ethernet_address (TCPOverIPv4OverEthernetAdapter._interface B)) ->
  NetworkInterface.frames_out (TCPOverIPv4OverEthernetAdapter._interface A) = [] ->
  NetworkInterface.frames_out (TCPOverIPv4OverEthernetAdapter._interface B) = [] ->
  exists A' bl B' seg',
    TCPOverIPv4OverEthernetAdapter.write A seg = Ret (A', set_ports seg sport dport, [bl]) /\
    TCPOverIPv4OverEthernetAdapter.read B (BufferList.concatenate bl) = Ret (B', Some seg', []) /\
    TCPOverIPv4OverEthernetAdapter.base B' = connected (TCPOverIPv4OverEthernetAdapter.base B) src sport dst dport /\
    same_segment (set_ports seg sport dport) seg'.
Proof.
  destruct A as [a nA hopA], B as [b nB hopB].
  cbn [TCPOverIPv4OverEthernetAdapter.base TCPOverIPv4OverEthernetAdapter._interface
       TCPOverIPv4OverEthernetAdapter._next_hop].
  intros Ha Hs Hb HA HB Hh Hc FA FB. pose proof (h_address _ _ HA) as RA. pose proof (h_address _ _ HB) as RB.
  destruct (wrap_unwrap_ip a b src sport dst dport seg Ha Hs Hb) as (d & Ew & Hf & Hu).
  destruct (send_known nA d hopA hop _ Hh Hc Hf) as (dl & Ed & Es).
  set (f := NetworkInterface.make_frame _ _ _ _) in Es.
  assert (frame_fits f) as [Hfv Hfl] by (by apply (frame_fits_ip _ _ d); [apply RB|apply RA|..]).
  destruct (frame_wire f EthernetFrame.default Hfv Hfl) as (bl & fb & E1 & E2 & Hfb).
  destruct (recv_datagram nB ownB (NetworkInterface._ethernet_address nA) d dl HB Hf Ed) as (d' & Er & ck & buf & -> & Hbuf & Hw & _).
  destruct (Hu ck buf Hw Hbuf) as (seg' & Eu & Hseg).
  do 2 eexists. exists (TCPOverIPv4OverEthernetAdapter.mk (connected b src sport dst dport)
    (NetworkInterface.take_frames nB) hopB), seg'. split; [|split; [|split; [reflexivity|done]]].
  - unfold TCPOverIPv4OverEthernetAdapter.write. cbn [TCPOverIPv4OverEthernetAdapter.base
      TCPOverIPv4OverEthernetAdapter._interface TCPOverIPv4OverEthernetAdapter._next_hop].
    rewrite Ew. cbn [mbind outcome_bind]. rewrite Es. cbn [mbind outcome_bind].
    unfold TCPOverIPv4OverEthernetAdapter.send_pending. cbn [TCPOverIPv4OverEthernetAdapter._interface].
    unfold NetworkInterface.push_frame, NetworkInterface.frames_out in *. cbn [NetworkInterface._frames_out].
    rewrite FA. cbn [app TCPOverIPv4OverEthernetAdapter.serialize_frames]. rewrite E1. reflexivity.
  - unfold TCPOverIPv4OverEthernetAdapter.read. rewrite E2. cbn [mbind outcome_bind].
    change (negb (bool_decide (NoError = NoError))) with false. cbv iota.
    cbn [TCPOverIPv4OverEthernetAdapter._interface].
    rewrite (recv_frame_same nB f) by (split; [done|simpl; by rewrite BufferList.bytes_of_buffer]).
    unfold f. rewrite Er. cbn [mbind outcome_bind].
    unfold TCPOverIPv4OverEthernetAdapter.send_pending. cbn [TCPOverIPv4OverEthernetAdapter._interface].
    rewrite FB. cbn [TCPOverIPv4OverEthernetAdapter.serialize_frames mbind outcome_bind
      TCPOverIPv4OverEthernetAdapter.base]. rewrite Eu. reflexivity.
Qed.

(** Inverts the next step of a computation known to return. *)
Ltac invert_bind H :=
  let x := fresh "x" in
  let E := fresh "E" in
  apply bind_Ret in H as (x & E & H).

(** C39: an adapter gives the connection only segments that belong to it.  Whenever
    [unwrap_tcp_in_ip] returns a segment, the datagram said it carried TCP, its
    payload parsed without error under the checksum of its own pseudo-header, and
    the ports are ours and our peer's.  If the adapter was connected, the
    addresses were ours and our peer's too and nothing changed; if it was
    listening, the segment was a SYN without RST, the adapter no longer listens,
    and its addresses are now those of the datagram. *)
Theorem unwrap_filters `{NetDb} (a a' : FdAdapterBase.t) (d : IPv4Datagram.t) (seg : TCPSegment.t) :
  TCPOverIPv4Adapter.unwrap_tcp_in_ip a d = Ret (a', Some seg) ->
  let h := IPv4Datagram.header d in
  IPv4Header.proto h = IPv4Header.PROTO_TCP /\
  (exists buffer, BufferList.to_Buffer (IPv4Datagram.payload d) = Ret buffer /\
     TCPSegment.parse TCPSegment.default buffer (IPv4Header.pseudo_cksum h) = Ret (NoError, seg)) /\
  Address.port (source (FdAdapterBase.config a)) = Ret (TCPHeader.dport (TCPSegment.header seg)) /\
  Address.port (destination (FdAdapterBase.config a')) = Ret (TCPHeader.sport (TCPSegment.header seg)) /\
  if FdAdapterBase.listening a
  then TCPHeader.syn (TCPSegment.header seg) = true /\ TCPHeader.rst (TCPSegment.header seg) = false /\
    FdAdapterBase.listening a' = false /\
    Address.of_ip (inet_ntoa (IPv4Header.dst h)) (TCPHeader.dport (TCPSegment.header seg))
      = Ret (source (FdAdapterBase.config a')) /\
    Address.of_ip (inet_ntoa (IPv4Header.src h)) (TCPHeader.sport (TCPSegment.header seg))
      = Ret (destination (FdAdapterBase.config a'))
  else a' = a /\
    Address.ipv4_numeric (source (FdAdapterBase.config a)) = Ret (IPv4Header.dst h) /\
    Address.ipv4_numeric (destination (FdAdapterBase.config a)) = Ret (IPv4Header.src h).
Proof.
  unfold TCPOverIPv4Adapter.unwrap_tcp_in_ip. cbv zeta. intros U.
  invert_bind U. destruct x; [discriminate|]. invert_bind U. destruct x; [discriminate|].
  destruct (negb (IPv4Header.proto _ =? _)) eqn:Ep in U; [discriminate|]. zbool.
  invert_bind U. invert_bind U. destruct x0 as [r tcp_seg].
  destruct (negb (bool_decide (r = NoError))) eqn:Er; [discriminate|].
  apply negb_false_iff, bool_decide_eq_true in Er. subst r.
  invert_bind U. destruct (negb (TCPHeader.dport _ =? _)) eqn:Ed in U; [discriminate|]. zbool.
  invert_bind U. destruct x1 as [a1|]; [|discriminate].
  invert_bind U. destruct (negb (TCPHeader.sport _ =? _)) eqn:Es in U; [discriminate|]. zbool.
  apply Ret_inj in U. injection U as <- <-.
  split; [done|]. split; [by exists x|]. split; [by rewrite Ed|]. split; [by rewrite Es|].
  destruct (FdAdapterBase.listening a) eqn:El.
  - destruct (TCPHeader.syn _ && negb (TCPHeader.rst _)) eqn:Ef in E4; [|discriminate]. zbool.
    invert_bind E4. invert_bind E4. apply Ret_inj in E4. injection E4 as <-.
    split; [done|]. split; [done|]. split; [done|]. rewrite Ed. done.
  - apply Ret_inj in E4. injection E4 as <-. invert_bind E. invert_bind E0.
    apply Ret_inj in E, E0. zbool. split; [done|]. by subst.
Qed.

(** The lossy adapter only drops.  A read hands its adapter the same input,
    leaves it in the same state and returns what it returned or nothing; a write
    is passed on unchanged or has no effect on the adapter and the device; with a
    loss rate of zero it never drops, and never draws from the generator. *)
Theorem lossy_only_drops {A I O R : Type} `{Adapter A I O} (draw : R -> Z * R) (a : LossyFdAdapter.t A R)
    (i : I) (seg : TCPSegment.t) :
  (forall ad ret out, adapter_read (LossyFdAdapter._adapter a) i = Ret (ad, ret, out) ->
     exists g ret', LossyFdAdapter.read draw a i = Ret (LossyFdAdapter.mk g ad, ret', out) /\
       (ret' = ret \/ ret' = None) /\
       (loss_rate_dn (adapter_config ad) = 0 -> ret' = ret /\ g = LossyFdAdapter._rand a)) /\
  (forall ad seg' out, adapter_write (LossyFdAdapter._adapter a) seg = Ret (ad, seg', out) ->
     exists g, (LossyFdAdapter.write draw a seg = Ret (LossyFdAdapter.mk g ad, seg', out) \/
                LossyFdAdapter.write draw a seg = Ret (LossyFdAdapter.mk g (LossyFdAdapter._adapter a), seg, [])) /\
       (loss_rate_up (adapter_config (LossyFdAdapter._adapter a)) = 0 ->
        LossyFdAdapter.write draw a seg = Ret (LossyFdAdapter.mk (LossyFdAdapter._rand a) ad, seg', out))).
Proof.
  split.
  - intros ad ret out E. unfold LossyFdAdapter.read, LossyFdAdapter._should_drop. rewrite E.
    cbn [mbind outcome_bind LossyFdAdapter._adapter LossyFdAdapter._rand].
    destruct (Z.eqb_spec (loss_rate_dn (adapter_config ad)) 0) as [E0|E0].
    + do 2 eexists. split; [reflexivity|]. auto.
    + destruct (draw _) as [z g]. do 2 eexists. split; [reflexivity|]. split; [case_if; auto|done].
  - intros ad seg' out E. unfold LossyFdAdapter.write, LossyFdAdapter._should_drop.
    destruct (Z.eqb_spec (loss_rate_up (adapter_config (LossyFdAdapter._adapter a))) 0) as [E0|E0].
    + rewrite E. exists (LossyFdAdapter._rand a). split; [by left|done].
    + destruct (draw _) as [z g]. exists g. split; [|done]. case_if; [by right|left].
      cbn [LossyFdAdapter._adapter LossyFdAdapter._rand]. by rewrite E.
Qed.

(** A segment written by a UDP adapter and received by the adapter at the other
    end arrives: the payload of the datagram is the serialised segment, and
    [read] of a datagram with that payload from the writer's address returns it.
    A listening adapter takes the writer's address as its destination. *)
Theorem udp_write_read `{NetDbLaws} (a b : FdAdapterBase.t) (src sport dst dport : Z) (seg : TCPSegment.t) :
  between a src sport dst dport -> segment_fits seg ->
  (if FdAdapterBase.listening b
   then TCPHeader.syn (TCPSegment.header seg) = true /\ TCPHeader.rst (TCPSegment.header seg) = false
   else destination (FdAdapterBase.config b) = Address.ipv4 src sport) ->
  exists bl seg' b',
    TCPOverUDPSocketAdapter.write a seg = Ret (set_ports seg sport dport, (Address.ipv4 dst dport, bl)) /\
    TCPOverUDPSocketAdapter.read b
      (TCPOverUDPSocketAdapter.mk_received (Address.ipv4 src sport) (BufferList.concatenate bl))
      = Ret (b', Some seg') /\
    FdAdapterBase.listening b' = false /\ destination (FdAdapterBase.config b') = Address.ipv4 src sport /\
    same_segment (set_ports seg sport dport) seg'.
Proof.
  intros [A1 A2 Hs Hsp Hd Hdp] [Hv Hl] Hb.
  pose proof (set_ports_valid seg sport dport Hsp Hdp Hv) as Hv'.
  destruct (segment_wire_buffer (set_ports seg sport dport) TCPSegment.default 0 Hv' Hl ltac:(lia))
    as (bl & ck & E & Hz & Hp). pose proof (TCPHeader.v_doff _ Hv) as Hoff.
  destruct (Hp (Buffer.of_string (BufferList.concatenate bl))) as (pl & Epl & Hpl).
  { apply Buffer.buf_of_string_wf. rewrite BufferList.concatenate_bytes, Hz. simpl. lia. }
  { by rewrite BufferList.concatenate_bytes. }
  exists bl, (TCPSegment.mk (TCPHeader.set_cksum (TCPSegment.header (set_ports seg sport dport)) ck) pl).
  exists (FdAdapterBase.mk (mk_config (source (FdAdapterBase.config b)) (Address.ipv4 src sport)
    (loss_rate_dn (FdAdapterBase.config b)) (loss_rate_up (FdAdapterBase.config b))) false). split; [|split].
  - unfold TCPOverUDPSocketAdapter.write. rewrite A1, A2, !port_ipv4 by done. cbn [mbind outcome_bind]. by rewrite E.
  - unfold TCPOverUDPSocketAdapter.read.
    cbn [TCPOverUDPSocketAdapter.source_address TCPOverUDPSocketAdapter.payload].
    rewrite Epl. cbn [mbind outcome_bind]. change (negb (bool_decide (NoError = NoError))) with false. cbv iota.
    cbn [TCPSegment.header TCPSegment._header TCPHeader.set_cksum TCPHeader.syn TCPHeader.rst set_ports].
    destruct (FdAdapterBase.listening b) eqn:El.
    + destruct Hb as [Hsyn Hrst]. cbn [negb andb]. rewrite Hsyn, Hrst. reflexivity.
    + rewrite Hb, address_eqb_spec, bool_decide_eq_true_2 by (done || apply ipv4_wf). cbn [negb andb].
      do 2 f_equal. rewrite <- Hb. destruct b as [[] l]. simpl in *. by subst.
  - split; [done|]. split; [done|]. split; [by exists ck|done].
Qed.

(** ** Concrete inputs *)

#[local] Existing Instance quad_db.
#[local] Existing Instance quad_db_laws.

Definition adapter_a : FdAdapterBase.t :=
  FdAdapterBase.mk (mk_config (Address.ipv4 0x0a000001 1234) (Address.ipv4 0x0a000002 80) 0 0) false.
Definition adapter_listening : FdAdapterBase.t :=
  FdAdapterBase.mk (mk_config (Address.ipv4 0 80) (Address.ipv4 0 0) 0 0) true.
Definition syn_example : TCPSegment.t :=
  TCPSegment.mk (TCPHeader.mk 0 0 (mkWrappingInt32 7) (mkWrappingInt32 0) 5
                   false false false false true false 1000 0 0) Buffer.null.

Lemma adapter_a_between : between adapter_a 0x0a000001 1234 0x0a000002 80.
Proof. by split. Qed.
Lemma syn_example_fits : segment_fits syn_example.
Proof. split; [by split|vm_compute; discriminate]. Qed.
Lemma listening_ready : ready adapter_listening 0x0a000001 1234 0x0a000002 80 syn_example.
Proof. split; [by exists 0|done]. Qed.

Lemma tun_write_read_witness :
  exists bl seg', TCPOverIPv4OverTunFdAdapter.write adapter_a syn_example
      = Ret (set_ports syn_example 1234 80, bl) /\
    TCPOverIPv4OverTunFdAdapter.read adapter_listening (BufferList.concatenate bl)
      = Ret (connected adapter_listening 0x0a000001 1234 0x0a000002 80, Some seg') /\
    same_segment (set_ports syn_example 1234 80) seg'.
Proof.
  exact (tun_write_read adapter_a adapter_listening 0x0a000001 1234 0x0a000002 80 syn_example
    adapter_a_between syn_example_fits listening_ready).
Defined.

Lemma udp_write_read_witness :
  exists bl seg' b',
    TCPOverUDPSocketAdapter.write adapter_a syn_example
      = Ret (set_ports syn_example 1234 80, (Address.ipv4 0x0a000002 80, bl)) /\
    TCPOverUDPSocketAdapter.read adapter_listening
      (TCPOverUDPSocketAdapter.mk_received (Address.ipv4 0x0a000001 1234) (BufferList.concatenate bl))
      = Ret (b', Some seg') /\
    FdAdapterBase.listening b' = false /\ destination (FdAdapterBase.config b') = Address.ipv4 0x0a000001 1234 /\
    same_segment (set_ports syn_example 1234 80) seg'.
Proof.
  apply (udp_write_read adapter_a adapter_listening 0x0a000001 1234 0x0a000002 80 syn_example
    adapter_a_between syn_example_fits).
  split; reflexivity.
Defined.

(** Two hosts on a link; the first knows the Ethernet address of the second. *)
Definition tap_a : TCPOverIPv4OverEthernetAdapter.t :=
  TCPOverIPv4OverEthernetAdapter.mk adapter_a
    (NetworkInterface._try_set_cache_if_need host_a 0x0a000002 (replicate 6 Byte.x0b)) (Address.ipv4 0x0a000002 0).
Definition tap_b : TCPOverIPv4OverEthernetAdapter.t :=
  TCPOverIPv4OverEthernetAdapter.mk adapter_listening host_b (Address.ipv4 0x0a000001 0).

Lemma tap_write_read_witness :
  exists A' bl B' seg',
    TCPOverIPv4OverEthernetAdapter.write tap_a syn_example = Ret (A', set_ports syn_example 1234 80, [bl]) /\
    TCPOverIPv4OverEthernetAdapter.read tap_b (BufferList.concatenate bl) = Ret (B', Some seg', []) /\
    TCPOverIPv4OverEthernetAdapter.base B' = connected adapter_listening 0x0a000001 1234 0x0a000002 80 /\
    same_segment (set_ports syn_example 1234 80) seg'.
Proof.
  apply (tap_write_read tap_a tap_b 0x0a000001 1234 0x0a000002 80 syn_example 0x0a000001 0x0a000002 0x0a000002
    adapter_a_between syn_example_fits listening_ready).
  - destruct host_a_host as [H1 H2 H3]. split; [exact H1|exact H2|exact H3].
  - exact host_b_host.
  - vm_compute. reflexivity.
  - vm_compute. reflexivity.
  - reflexivity.
  - reflexivity.
Defined.

Lemma unwrap_filters_witness :
  exists a' d seg, TCPOverIPv4Adapter.unwrap_tcp_in_ip adapter_listening d = Ret (a', Some seg) /\
    FdAdapterBase.listening a' = false.
Proof.
  destruct (wrap_unwrap_ip adapter_a adapter_listening 0x0a000001 1234 0x0a000002 80 syn_example
    adapter_a_between syn_example_fits listening_ready) as (d & _ & [Hv Hl] & Hu).
  destruct (Hu 0 (Buffer.of_string (BufferList.bytes (IPv4Datagram.payload d)))) as (seg & E & _).
  - pose proof (IPv4Header.v_len _ Hv) as [_ Hlen]. pose proof (IPv4Header.v_hlen _ Hv) as [Hh _].
    apply Buffer.buf_of_string_wf. unfold IPv4Datagram.payload. lia.
  - reflexivity.
  - do 3 eexists. split; [exact E|].
    destruct (unwrap_filters _ _ _ _ E) as (_ & _ & _ & _ & _ & _ & H & _). exact H.
Defined.
