(* ===== verification/TCPReceiver.v ===== *)
(** * The TCP receiver (tcp_receiver.hh, tcp_receiver.cc)

    The receiver turns segments into fragments for its reassembler, the index of
    a fragment being the 64-bit sequence number that [unwrap] finds for the
    header's 32-bit one, and gives back the acknowledgment number and the window.
    The invariant is the reassembler's for the peer's stream [D], placed at index
    1 because index 0 is the SYN. *)

From S2P Require Import Prelude WrappingIntegers SpongeBuffer ByteStream BufferString StreamReassembler.
From S2P Require Import UtilBuffer Parser TCPSegment.

Module TCPReceiver.

Record t := mk {
  _reassembler : StreamReassembler.t;
  _capacity : Z;
  _isn : option WrappingInt32;
  _fsn : option WrappingInt32
}.

Definition new (capacity : Z) : t := mk (StreamReassembler.new capacity) capacity None None.

Definition isn (r : t) : option WrappingInt32 := _isn r.
Definition fsn (r : t) : option WrappingInt32 := _fsn r.
Definition unassembled_bytes (r : t) : Z := StreamReassembler.unassembled_bytes (_reassembler r).
Definition stream_out (r : t) : ByteStream.t := StreamReassembler.stream_out (_reassembler r).
Definition set_stream_out (r : t) (s : ByteStream.t) : t :=
  mk (StreamReassembler.set_stream_out (_reassembler r) s) (_capacity r) (_isn r) (_fsn r).

(** A SYN without data moves the reassembler's pointer past itself. *)
Definition push_back_wrap_string (seg : TCPSegment.t) (isn : WrappingInt32) (data : string)
    (reassembler : StreamReassembler.t) (eof : bool) : outcome StreamReassembler.t :=
  let index := unwrap (TCPHeader.seqno (TCPSegment.header seg)) isn
                 (StreamReassembler._top_pointer reassembler) in
  if TCPHeader.syn (TCPSegment.header seg) && (zlen data =? 0)
  then reassembler ← StreamReassembler.push_substring reassembler data index eof;
       Ret (StreamReassembler.set_top_pointer reassembler (uint64 (index + 1)))
  else StreamReassembler.push_substring reassembler data index eof.

Definition segment_received (r : t) (seg : TCPSegment.t) : outcome t :=
  let h := TCPSegment.header seg in
  if bool_decide (_isn r = None) && negb (TCPHeader.syn h) then Ret r else
  let isn := if TCPHeader.syn h && bool_decide (_isn r = None) then Some (TCPHeader.seqno h) else _isn r in
  let fsn := if TCPHeader.fin h && bool_decide (_fsn r = None) then Some (TCPHeader.seqno h) else _fsn r in
  let data := Buffer.str (TCPSegment.payload seg) in
  let push eof :=
    match isn with
    | Some i =>
        reassembler ← push_back_wrap_string seg i data (_reassembler r) eof;
        Ret (mk reassembler (_capacity r) isn fsn)
    | None => Ret (mk (_reassembler r) (_capacity r) isn fsn)
    end in
  if bool_decide (fsn = None) then push false
  else if TCPHeader.fin h then push true
  else push false.

Definition ackno (r : t) : option WrappingInt32 :=
  match _isn r with
  | None => None
  | Some isn =>
      let result := wi_add (wrap (ByteStream.bytes_written (stream_out r)) isn) 1 in
      Some (if ByteStream.input_ended (stream_out r) then wi_add result 1 else result)
  end.

Definition window_size (r : t) : Z := StreamReassembler.current_capactiy (_reassembler r).

(** Any segment leaves the output stream in its invariant. *)
Lemma segment_received_stream_wf r seg r' :
  ByteStream.wf (stream_out r) -> segment_received r seg = Ret r' -> ByteStream.wf (stream_out r').
Proof.
  intros Hw. unfold segment_received. case_if; [by intros [= <-]|]. cbv zeta.
  set (isn := if _ : bool then _ else _isn r). set (fsn := if _ : bool then _ else _fsn r).
  assert (forall eof, match isn with
    | Some i => reassembler ← push_back_wrap_string seg i (Buffer.str (TCPSegment.payload seg)) (_reassembler r) eof;
                Ret (mk reassembler (_capacity r) isn fsn)
    | None => Ret (mk (_reassembler r) (_capacity r) isn fsn)
    end = Ret r' -> ByteStream.wf (stream_out r')) as Hpush.
  { intros eof. destruct isn as [i|]; [|by intros [= <-]].
    intros (re & E & [= <-])%bind_Ret. unfold push_back_wrap_string in E. revert E. case_if.
    - intros (re' & E & [= <-])%bind_Ret. by apply StreamReassembler.push_substring_output_wf in E.
    - intros E. by apply StreamReassembler.push_substring_output_wf in E. }
  case_if; [apply Hpush|]. case_if; apply Hpush.
Qed.

(** ** The invariant *)

(** The receiver of a peer whose initial sequence number is [isn] and whose stream
    is [D], once the SYN has been received. *)
Record inv (isn : WrappingInt32) (D : string) (r : t) : Prop := {
  inv_isn : _isn r = Some isn;
  inv_isn_ok : wi_ok isn;
  inv_reassembler : StreamReassembler.inv 1 D (_reassembler r)
}.

(** The peer's SYN, without data. *)
Record syn_segment (isn : WrappingInt32) (seg : TCPSegment.t) : Prop := {
  ss_syn : TCPHeader.syn (TCPSegment.header seg) = true;
  ss_fin : TCPHeader.fin (TCPSegment.header seg) = false;
  ss_seqno : TCPHeader.seqno (TCPSegment.header seg) = isn;
  ss_payload : Buffer.str (TCPSegment.payload seg) = []
}.

(** A later segment of the peer: the bytes of [D] from the absolute sequence number
    [index], which is within [2^31] of the next one the receiver waits for. *)
Record data_segment (isn : WrappingInt32) (D : string) (r : t) (seg : TCPSegment.t) (index : Z) : Prop := {
  ds_syn : TCPHeader.syn (TCPSegment.header seg) = false;
  ds_seqno : TCPHeader.seqno (TCPSegment.header seg) = wrap index isn;
  ds_near : Z.abs (index - StreamReassembler._top_pointer (_reassembler r)) < 2 ^ 31;
  ds_data : StreamReassembler.segment_of 1 D (Buffer.str (TCPSegment.payload seg)) index
              (TCPHeader.fin (TCPSegment.header seg))
}.

(** A bare segment of the peer at the absolute sequence number 0: sent before the
    SYN, or the SYN itself again, as long as no byte has been assembled. *)
Record early_segment (isn : WrappingInt32) (r : t) (seg : TCPSegment.t) : Prop := {
  es_fin : TCPHeader.fin (TCPSegment.header seg) = false;
  es_seqno : TCPHeader.seqno (TCPSegment.header seg) = isn;
  es_payload : Buffer.str (TCPSegment.payload seg) = [];
  es_near : StreamReassembler._top_pointer (_reassembler r) < 2 ^ 31;
  es_syn : TCPHeader.syn (TCPSegment.header seg) = true -> StreamReassembler._top_pointer (_reassembler r) = 1
}.

(** Pushing the empty data of the SYN into a fresh reassembler changes nothing. *)
Lemma push_empty_new c :
  is_u64 c -> StreamReassembler.push_substring (StreamReassembler.new c) [] 0 false
              = Ret (StreamReassembler.new c).
Proof.
  unfold is_u64. intros Hc. unfold StreamReassembler.push_substring, StreamReassembler.current_capactiy.
  change (ByteStream.buffer_size (StreamReassembler._output (StreamReassembler.new c))) with 0.
  cbn [StreamReassembler._top_pointer StreamReassembler._capacity StreamReassembler.new].
  change (0 <? 0) with false. cbn [mbind outcome_bind andb].
  rewrite Z.sub_0_r, (uint64_small c) by done. change (uint64 (uint64 (0 - 0) + 1)) with 1.
  change (zlen (@nil byte)) with 0.
  destruct (Z.ltb_spec c 1) as [|H1]; [done|]. rewrite (proj2 (Z.ltb_ge c 0)) by lia.
  simpl. unfold StreamReassembler.assemble. simpl. unfold BufferStringList.pop_up_buffer_string. simpl.
  rewrite (proj2 (Z.leb_le _ _)); [done|].
  pose proof (uint64_range (c - SBufferList.size (ByteStream._buffers (ByteStream.new c)))) as H.
  unfold is_u64 in H. exact (proj1 H).
Qed.

(** Past the SYN, the fresh reassembler is ready for the peer's stream. *)
Lemma syn_inv c D :
  is_u64 c -> 1 + zlen D < 2 ^ 64 - 1 ->
  StreamReassembler.inv 1 D (StreamReassembler.set_top_pointer (StreamReassembler.new c) 1).
Proof.
  intros Hc HD. zlen_pose. pose proof (StreamReassembler.reassembler_new_inv c D Hc ltac:(lia)) as [].
  split; simpl in *; try done; try lia. constructor.
Qed.

(** The initial sequence number itself stands for 0. *)
Lemma wrap_0 i : wi_ok i -> wrap 0 i = i.
Proof. intros Hi. apply wi_ext. rewrite wrap_raw. unfold wi_ok, is_u32 in Hi. nowrap. lia. Qed.

Lemma unwrap_isn i checkpoint : wi_ok i -> 0 <= checkpoint < 2 ^ 31 -> unwrap i i checkpoint = 0.
Proof.
  intros Hi Hc. transitivity (unwrap (wrap 0 i) i checkpoint); [by rewrite wrap_0|].
  apply unwrap_wrap_near; [done|split; lia|split; lia|lia].
Qed.

(** The SYN opens the connection. *)
Lemma syn_received c D i seg :
  is_u64 c -> wi_ok i -> 1 + zlen D < 2 ^ 64 - 1 -> syn_segment i seg ->
  exists r, segment_received (new c) seg = Ret r /\ inv i D r
    /\ _reassembler r = StreamReassembler.set_top_pointer (StreamReassembler.new c) 1.
Proof.
  intros Hc Hi HD [Hs Hf Hq Hp]. unfold segment_received, push_back_wrap_string.
  rewrite Hs, Hf, Hq, Hp. cbn [new _isn _fsn _reassembler _capacity].
  rewrite !bool_decide_eq_true_2 by done. cbn [andb negb].
  change (StreamReassembler._top_pointer (StreamReassembler.new c)) with 0.
  rewrite unwrap_isn by (done || lia).
  change (zlen (@nil byte) =? 0) with true. rewrite push_empty_new by done.
  cbn [mbind outcome_bind]. change (uint64 (0 + 1)) with 1. eexists. split; [done|]. split; [|done].
  split; [done|done|]. by apply syn_inv.
Qed.

Lemma not_open_ignored r seg :
  _isn r = None -> TCPHeader.syn (TCPSegment.header seg) = false -> segment_received r seg = Ret r.
Proof. intros E Hs. unfold segment_received. by rewrite E, Hs. Qed.

(** A bare segment from before the first byte changes nothing. *)
Lemma early_ignored i D r seg : inv i D r -> early_segment i r seg -> segment_received r seg = Ret r.
Proof.
  intros [Ei Hi Hr] [Hf Hq Hp Hn Hs]. pose proof (StreamReassembler.inv_top _ _ _ Hr) as Ht.
  pose proof (ByteStream.wf_read _ (StreamReassembler.inv_output _ _ _ Hr)) as [? ?]. zlen_pose.
  unfold segment_received, push_back_wrap_string. rewrite Ei, Hf, Hq, Hp.
  rewrite (bool_decide_eq_false_2 (Some i = None)) by done. rewrite andb_false_r. cbn [andb].
  rewrite unwrap_isn by (done || lia). unfold StreamReassembler.push_substring.
  change (zlen (@nil byte)) with 0. change (uint64 (0 + 0)) with 0. change (0 =? 0) with true.
  rewrite (proj2 (Z.ltb_lt 0 _)) by lia. cbn [andb mbind outcome_bind]. rewrite andb_true_r.
  assert ((if TCPHeader.syn (TCPSegment.header seg)
           then Ret (StreamReassembler.set_top_pointer (_reassembler r) (uint64 (0 + 1)))
           else Ret (_reassembler r)) = Ret (_reassembler r)) as ->.
  { destruct (TCPHeader.syn _); [|done]. change (uint64 (0 + 1)) with 1. rewrite <- (Hs eq_refl).
    by destruct (_reassembler r). }
  cbn [mbind outcome_bind]. assert (mk (_reassembler r) (_capacity r) (Some i) (_fsn r) = r) as E
    by (rewrite <- Ei; by destruct r).
  rewrite E. by case_if.
Qed.

(** A data segment is a push of its payload at its index, with its FIN as end mark. *)
Lemma data_received_push i D r seg index :
  inv i D r -> data_segment i D r seg index ->
  exists f, segment_received r seg =
    (x ← StreamReassembler.push_substring (_reassembler r) (Buffer.str (TCPSegment.payload seg)) index
           (TCPHeader.fin (TCPSegment.header seg));
     Ret (mk x (_capacity r) (Some i) f)).
Proof.
  intros [Ei Hi Hr] [Hs Hq Hn Hd]. unfold segment_received, push_back_wrap_string. rewrite Ei, Hs, Hq.
  rewrite (bool_decide_eq_false_2 (Some i = None)) by done. cbn [andb negb].
  pose proof (StreamReassembler.inv_bound _ _ _ Hr). pose proof (StreamReassembler.inv_top_le _ _ _ Hr).
  pose proof (StreamReassembler.inv_top _ _ _ Hr).
  pose proof (ByteStream.wf_read _ (StreamReassembler.inv_output _ _ _ Hr)) as [? ?].
  pose proof (StreamReassembler.seg_first _ _ _ _ _ Hd). pose proof (StreamReassembler.seg_last _ _ _ _ _ Hd).
  zlen_pose. rewrite unwrap_wrap_near by (done || unfold is_u64; lia).
  destruct (TCPHeader.fin _); cbn [andb]; destruct (bool_decide (_fsn r = None)) eqn:E;
    rewrite ?E; eexists; reflexivity.
Qed.

Lemma data_received i D r seg index :
  inv i D r -> data_segment i D r seg index ->
  exists r' n, segment_received r seg = Ret r' /\ inv i D r' /\ _capacity r' = _capacity r
    /\ StreamReassembler.delivered 1 D (_reassembler r) (_reassembler r') n
    /\ (index <= StreamReassembler._top_pointer (_reassembler r) ->
        Z.min (index + zlen (Buffer.str (TCPSegment.payload seg)))
              (StreamReassembler._top_pointer (_reassembler r) + StreamReassembler.room (_reassembler r))
        <= StreamReassembler._top_pointer (_reassembler r')).
Proof.
  intros Hr Hd. destruct (data_received_push i D r seg index Hr Hd) as [f ->].
  destruct (StreamReassembler.push_substring_spec 1 D _ _ _ _ (inv_reassembler _ _ _ Hr)
    (ds_data _ _ _ _ _ Hd)) as (x & n & -> & Hx & Hdl & Hp & _).
  simpl. do 2 eexists. split; [done|]. split; [split; [done|apply Hr|done]|]. split; [done|].
  split; [done|]. simpl. destruct Hdl as (_ & -> & _). exact Hp.
Qed.

(** A data segment that fits, at or before the next byte, when no other is waiting. *)
Lemma data_received_in_order i D r seg index :
  inv i D r -> data_segment i D r seg index -> StreamReassembler._buffer_list (_reassembler r) = [] ->
  let top := StreamReassembler._top_pointer (_reassembler r) in
  let room := StreamReassembler.room (_reassembler r) in
  let stop := index + zlen (Buffer.str (TCPSegment.payload seg)) in
  index <= top -> stop <= top + room -> (TCPHeader.fin (TCPSegment.header seg) = true -> 0 < room) ->
  exists r', segment_received r seg = Ret r' /\ inv i D r'
    /\ StreamReassembler._buffer_list (_reassembler r') = []
    /\ StreamReassembler.delivered 1 D (_reassembler r) (_reassembler r') (Z.max 0 (stop - top))
    /\ ByteStream.input_ended (stream_out r')
       = ByteStream.input_ended (stream_out r) || TCPHeader.fin (TCPSegment.header seg).
Proof.
  intros Hr Hd Enil top room stop H1 H2 H3. destruct (data_received_push i D r seg index Hr Hd) as [f ->].
  destruct (StreamReassembler.push_in_order 1 D _ _ _ _ (inv_reassembler _ _ _ Hr) (ds_data _ _ _ _ _ Hd) Enil)
    as (x & -> & Hx & En & Hdl & Hend); [done..|].
  eexists. split; [done|]. split; [split; [done|apply Hr|done]|]. split; [done|]. split; [exact Hdl|exact Hend].
Qed.

(** After the end of the stream, nothing. *)
Lemma data_received_ended i D r seg index :
  inv i D r -> data_segment i D r seg index -> ByteStream.input_ended (stream_out r) = true ->
  exists r', segment_received r seg = Ret r' /\ inv i D r'
    /\ StreamReassembler.delivered 1 D (_reassembler r) (_reassembler r') 0
    /\ ByteStream.input_ended (stream_out r') = true.
Proof.
  intros Hr Hd He. destruct (data_received_push i D r seg index Hr Hd) as [f ->].
  pose proof (inv_reassembler _ _ _ Hr) as Hra.
  destruct (StreamReassembler.push_substring_spec 1 D _ _ _ _ Hra (ds_data _ _ _ _ _ Hd))
    as (x & n & E & Hx & Hdl & _). rewrite E.
  pose proof (StreamReassembler.push_substring_ended _ _ _ _ _ He E) as He'.
  pose proof (StreamReassembler.inv_ended _ _ _ Hra He). pose proof (StreamReassembler.inv_ended _ _ _ Hx He').
  assert (n = 0) as -> by (destruct Hdl as (_ & Ht & _); lia).
  eexists. split; [done|]. split; [split; [done|apply Hr|done]|]. split; [exact Hdl|exact He'].
Qed.

(** Every byte below the top pointer, and the SYN, is acknowledged, the FIN too once
    the stream has ended. *)
Lemma ackno_inv i D r :
  inv i D r ->
  ackno r = Some (wrap (StreamReassembler._top_pointer (_reassembler r)
                        + (if ByteStream.input_ended (stream_out r) then 1 else 0)) i).
Proof.
  intros [Ei Hi Hr]. unfold ackno. rewrite Ei. f_equal. unfold stream_out, StreamReassembler.stream_out.
  pose proof (StreamReassembler.inv_output _ _ _ Hr) as [? ? ? [? ?] Hw].
  pose proof (StreamReassembler.inv_top _ _ _ Hr) as Ht. pose proof (StreamReassembler.inv_bound _ _ _ Hr).
  pose proof (StreamReassembler.inv_top_le _ _ _ Hr). zlen_pose.
  unfold ByteStream.bytes_written. rewrite Hw. nowrap.
  unfold wi_ok in Hi. apply wi_ext. destruct (ByteStream.input_ended _); simpl; uint_lia.
Qed.

Lemma window_inv i D r : inv i D r -> window_size r = StreamReassembler.room (_reassembler r).
Proof. intros Hr. apply (StreamReassembler.current_capacity_room 1 D), Hr. Qed.

(** ** Sequences of segments and reads *)

Inductive op :=
  | Segment (seg : TCPSegment.t)
  | Read (len : Z).

(** A segment from the network, or a read of at most [len] of the assembled bytes. *)
Definition step (r : t) (o : op) : outcome (t * string) :=
  match o with
  | Segment seg => r' ← segment_received r seg; Ret (r', [])
  | Read len =>
      '(d, s) ← ByteStream.read (stream_out r) (Z.min len (ByteStream.buffer_size (stream_out r)));
      Ret (set_stream_out r s, d)
  end.

(** Before the SYN anything but a SYN with data is allowed; after it, segments of the
    peer's stream, whose positions are judged from the state they arrive in, and
    the bare ones that precede the stream. *)
Definition valid (i : WrappingInt32) (D : string) (r : t) (o : op) : Prop :=
  match o with
  | Segment seg =>
      match _isn r with
      | None => TCPHeader.syn (TCPSegment.header seg) = false \/ syn_segment i seg
      | Some _ => (exists index, data_segment i D r seg index) \/ early_segment i r seg
      end
  | Read len => 0 <= len
  end.

(** Waiting for the SYN, or open. *)
Definition state_ok (c : Z) (i : WrappingInt32) (D : string) (r : t) : Prop :=
  r = new c \/ (inv i D r /\ StreamReassembler._capacity (_reassembler r) = c).

Definition bytes_read (r : t) : Z := ByteStream._bytes_read (stream_out r).

Section Run.
Context (c : Z) (i : WrappingInt32) (D : string).
Hypothesis Hc : is_u64 c.
Hypothesis Hi : wi_ok i.
Hypothesis HD : 1 + zlen D < 2 ^ 64 - 1.

Lemma read_new len : 0 <= len -> step (new c) (Read len) = Ret (new c, []).
Proof using.
  intros Hl. simpl. replace (Z.min len _) with 0; [done|]. change (ByteStream.buffer_size _) with 0. lia.
Qed.

Lemma step_ok r o :
  state_ok c i D r -> valid i D r o ->
  exists r' d, step r o = Ret (r', d) /\ state_ok c i D r'
    /\ bytes_read r' = bytes_read r + zlen d /\ d = slice D (bytes_read r) (zlen d).
Proof using Hc Hi HD.
  intros [->|[Hr Ecap]] Hv; destruct o as [seg|len]; simpl in Hv.
  - destruct Hv as [Hv|Hv]; cbn [step].
    + rewrite not_open_ignored by done. exists (new c), []. rewrite slice_empty by done.
      split; [done|]. split; [by left|]. split; done.
    + destruct (syn_received c D i seg) as (r' & -> & Hr & Er); [done..|]. exists r', [].
      unfold bytes_read, stream_out, StreamReassembler.stream_out. rewrite Er.
      split; [done|]. split; [right; by rewrite Er|]. by rewrite slice_empty.
  - rewrite read_new by done. exists (new c), []. rewrite slice_empty by done. split_and!; [done|by left|done..].
  - rewrite (inv_isn _ _ _ Hr) in Hv. cbn [step]. destruct Hv as [[index Hd]|He].
    2: { rewrite (early_ignored i D r seg Hr He). exists r, []. rewrite slice_empty by done.
         split; [done|]. split; [by right|]. split; [rewrite zlen_nil; lia|done]. }
    destruct (data_received i D r seg index Hr Hd) as (r' & n & -> & Hr' & _ & (_ & _ & Hcp & Hrd & _) & _).
    exists r', []. cbn [mbind outcome_bind]. split; [done|]. split; [right; by rewrite Hcp|].
    unfold bytes_read, stream_out, StreamReassembler.stream_out. rewrite Hrd.
    rewrite slice_empty by done. split; [rewrite zlen_nil; lia|done].
  - destruct (StreamReassembler.step_spec 1 D (_reassembler r) (StreamReassembler.Read len))
      as (x & d & E & Hx & Hcx & Hrd & Ed); [apply Hr|done|].
    cbn [step StreamReassembler.step] in *. unfold stream_out, StreamReassembler.stream_out in *.
    destruct (ByteStream.read _ _) as [[d' s]|]; [|done]. simpl in *. injection E as <- <-.
    exists (set_stream_out r s), d'. split; [done|]. split; [|done].
    right. split; [|done]. split; [apply Hr|done|done].
Qed.

(** [n] bytes of [D] have been given to the reader. *)
Definition reading (out : string) (r : t) : Prop :=
  state_ok c i D r /\ bytes_read r = zlen out /\ out = slice D 0 (zlen out).

Lemma reading_step out r o :
  reading out r -> valid i D r o ->
  exists r' d, step r o = Ret (r', d) /\ reading (out ++ d) r'.
Proof using Hc Hi HD.
  intros (Hr & Eb & Eo) Hv. destruct (step_ok r o Hr Hv) as (r' & d & -> & Hr' & E & Ed).
  exists r', d. split; [done|]. split; [done|]. rewrite zlen_app. zlen_pose. split; [lia|].
  rewrite <- slice_app by lia. rewrite Eb in Ed. by rewrite Z.add_0_l, <- Ed, <- Eo.
Qed.

Lemma fold_app (out : string) ds : fold_left (fun g d => g ++ d) ds out = out ++ concat ds.
Proof using.
  revert out. induction ds as [|d ds IH]; intros out; simpl; [by rewrite app_nil_r|].
  by rewrite IH, app_assoc.
Qed.

Lemma receiver_run_ok ops :
  valid_run step (valid i D) (new c) ops ->
  exists r ds, run step (new c) ops = Ret (r, ds) /\ reading (concat ds) r.
Proof using Hc Hi HD.
  intros Hv. destruct (run_ghost step (valid i D) reading (fun g d => g ++ d) reading_step ops [] (new c))
    as (r & ds & E & Hr); [|done|].
  - split; [by left|]. split; [done|]. by rewrite slice_empty.
  - rewrite fold_app in Hr. eauto.
Qed.

(** What the reader has and will get, the acknowledgment number and the window. *)
Lemma reading_result out r :
  reading out r ->
  exists n, let ended := ByteStream.input_ended (stream_out r) in
    0 <= n <= zlen D /\ out ++ ByteStream.bytes (stream_out r) = take (Z.to_nat n) D /\
    (ended = true -> n = zlen D) /\
    (ackno r = None /\ n = 0 \/ ackno r = Some (wrap (1 + n + (if ended then 1 else 0)) i)) /\
    window_size r = c - zlen (ByteStream.bytes (stream_out r)).
Proof using Hc.
  intros ([->|[Hr Ecap]] & E1 & E2).
  - change (bytes_read (new c)) with 0 in E1. assert (out = []) as -> by (apply zlen_zero_nil; lia).
    exists 0. split_and!; [done|zlen_lia|done|done|by left|].
    change (uint64 (c - 0) = c - 0). apply uint64_small. by rewrite Z.sub_0_r.
  - pose proof (inv_reassembler _ _ _ Hr) as Hra.
    exists (StreamReassembler._top_pointer (_reassembler r) - 1).
    pose proof (StreamReassembler.inv_top _ _ _ Hra). pose proof (StreamReassembler.inv_top_le _ _ _ Hra).
    pose proof (ByteStream.wf_read _ (StreamReassembler.inv_output _ _ _ Hra)) as [? ?]. zlen_pose.
    split_and!; [lia|lia| | | |].
    + rewrite <- (StreamReassembler.inv_delivered 1 D _ Hra). unfold stream_out.
      f_equal. rewrite E2, slice_0_take. unfold bytes_read, stream_out, StreamReassembler.stream_out in E1.
      do 2 f_equal. lia.
    + intros He. pose proof (StreamReassembler.inv_ended _ _ _ Hra He). lia.
    + right. rewrite (ackno_inv i D r Hr). do 2 f_equal. lia.
    + rewrite (window_inv i D r Hr). unfold StreamReassembler.room. by rewrite Ecap.
Qed.

End Run.

(** ** When the acknowledgment number is there *)

Definition is_open (r : t) : bool := match _isn r with Some _ => true | None => false end.
Definition is_syn (o : op) : bool :=
  match o with Segment seg => TCPHeader.syn (TCPSegment.header seg) | Read _ => false end.

Lemma step_open r o r' d : step r o = Ret (r', d) -> is_open r' = is_open r || is_syn o.
Proof.
  destruct o as [seg|len]; cbn [step is_syn].
  2: { intros ([d' s] & _ & [= <- <-])%bind_Ret. by rewrite orb_false_r. }
  intros (r1 & E & [= <- <-])%bind_Ret. revert E. unfold segment_received, is_open.
  destruct (_isn r) as [i|] eqn:Ei; destruct (TCPHeader.syn (TCPSegment.header seg)); cbn;
    try (by intros [= <-]; rewrite Ei);
    repeat case_match; try (intros (x & _ & [= <-])%bind_Ret; done).
Qed.

Lemma run_open ops r r' ds : run step r ops = Ret (r', ds) -> is_open r' = is_open r || existsb is_syn ops.
Proof.
  revert r ds. induction ops as [|o ops IH]; intros r ds; cbn [run existsb].
  { intros [= <- <-]. by rewrite orb_false_r. }
  intros ([r1 d] & E & ([r2 ds'] & E' & [= <- <-])%bind_Ret)%bind_Ret.
  by rewrite (IH _ _ E'), (step_open _ _ _ _ E), orb_assoc.
Qed.

Lemma ackno_open r : ackno r = None <-> is_open r = false.
Proof. unfold ackno, is_open. by destruct (_isn r). Qed.

(** ** A whole stream in order *)

(** [segs] carry [D] from the sequence number [index] on, the last one with FIN. *)
Fixpoint in_order (i : WrappingInt32) (index : Z) (segs : list TCPSegment.t) (D : string) : Prop :=
  match segs with
  | [] => False
  | seg :: rest =>
      let data := Buffer.str (TCPSegment.payload seg) in
      TCPHeader.syn (TCPSegment.header seg) = false
      /\ TCPHeader.seqno (TCPSegment.header seg) = wrap index i
      /\ exists D', D = data ++ D'
          /\ if TCPHeader.fin (TCPSegment.header seg) then rest = [] /\ D' = []
             else in_order i (index + zlen data) rest D'
  end.

Lemma in_order_received i D segs Drest r :
  inv i D r -> StreamReassembler._buffer_list (_reassembler r) = [] ->
  let index := StreamReassembler._top_pointer (_reassembler r) in
  drop (Z.to_nat (index - 1)) D = Drest -> zlen Drest < StreamReassembler.room (_reassembler r) ->
  in_order i index segs Drest ->
  exists r' ds, run step r (Segment <$> segs) = Ret (r', ds) /\ inv i D r'
    /\ StreamReassembler._top_pointer (_reassembler r') = 1 + zlen D
    /\ ByteStream.input_ended (stream_out r') = true /\ bytes_read r' = bytes_read r.
Proof.
  revert Drest r. induction segs as [|seg segs IH]; intros Drest r Hr Enil index Edrop Hroom Hio; [done|].
  destruct Hio as (Hs & Hq & D' & -> & Hrest). set (data := Buffer.str (TCPSegment.payload seg)) in *.
  pose proof (inv_reassembler _ _ _ Hr) as Hra. pose proof (StreamReassembler.inv_top_le _ _ _ Hra) as Hle.
  pose proof (StreamReassembler.inv_top _ _ _ Hra) as Ht.
  pose proof (ByteStream.wf_read _ (StreamReassembler.inv_output _ _ _ Hra)) as [? ?].
  rewrite zlen_app in Hroom. zlen_pose. fold index in Hle, Ht.
  assert (zlen D - (index - 1) = zlen data + zlen D') as El.
  { rewrite <- zlen_app, <- Edrop, zlen_drop. lia. }
  assert (slice D (index - 1) (zlen data) = data) as Eslice.
  { unfold slice. rewrite Edrop. apply take_app_length'. unfold zlen. lia. }
  assert (data_segment i D r seg index) as Hd.
  { split; [done|done|fold index; lia|]. pose proof (StreamReassembler.inv_bound _ _ _ Hra).
    fold data. split; [lia|lia|done|].
    intros E. rewrite E in Hrest. destruct Hrest as [_ ->]. change (zlen (@nil byte)) with 0 in El. lia. }
  destruct (data_received_push i D r seg index Hr Hd) as [f E].
  destruct (StreamReassembler.push_substring_spec 1 D _ _ _ _ Hra (ds_data _ _ _ _ _ Hd))
    as (x & n & Ex & Hx & (_ & Htop & Hcp & Hrd & Hb) & _ & Hin).
  fold index data in Htop, Hin. destruct Hin as (Hnil & Hn & Hend); [lia|done|lia|lia|lia|].
  rewrite Ex in E. cbn [mbind outcome_bind] in E.
  assert (inv i D (mk x (_capacity r) (Some i) f)) as Hr1 by (split; [done|apply Hr|done]).
  cbn [fmap list_fmap run step]. rewrite E. cbn [mbind outcome_bind].
  destruct (TCPHeader.fin (TCPSegment.header seg)) eqn:Ef.
  - destruct Hrest as [-> ->]. change (zlen (@nil byte)) with 0 in El. do 2 eexists. split; [done|].
    split; [done|]. split; [simpl; lia|]. split; [|exact Hrd]. change (ByteStream.is_input_end (StreamReassembler._output x) = true). rewrite Hend. apply orb_true_r.
  - destruct (IH D' (mk x (_capacity r) (Some i) f)) as (r' & ds & -> & Hr' & Ht' & He' & Hb');
      [done|done| | | |].
    + simpl. rewrite Htop, Hn. replace (Z.to_nat (index + (index + zlen data - index) - 1))
        with (Z.to_nat (index - 1) + length data)%nat by (unfold zlen; lia).
      rewrite <- drop_drop, Edrop. apply drop_app_length.
    + simpl. unfold StreamReassembler.room in *. rewrite Hcp, Hb, zlen_app, zlen_slice_le by lia. lia.
    + simpl. rewrite Htop, Hn. by replace (index + (index + zlen data - index)) with (index + zlen data) by lia.
    + do 2 eexists. split; [done|]. split; [done|]. split; [done|]. split; [done|]. rewrite Hb'. exact Hrd.
Qed.

End TCPReceiver.

(** ** Properties *)

(** C4: the segments of a peer's stream may arrive in any order, repeated, overlapping
    or beyond the window, and the reader may read at any time.  They are those
    that [valid] allows: the first SYN carries neither data nor FIN; later segments
    carry a part of the stream and lie less than 2^31 from the next byte expected; a
    SYN is repeated only while no byte has been assembled ([receiver_syn_again]
    shows what it does later).  Then the receiver never throws, and the bytes read
    and buffered so far are a prefix of the peer's stream, the whole of it once it
    has ended.  The acknowledgment number is absent before the SYN and present from
    then on: it is the sequence number after the bytes read and buffered, plus one
    for the FIN once the stream has ended.  The window is the free part of the
    capacity. *)
Theorem receiver_delivers_prefix (c : Z) (i : WrappingInt32) (D : string) (ops : list TCPReceiver.op) :
  is_u64 c -> wi_ok i -> 1 + zlen D < 2 ^ 64 - 1 ->
  valid_run TCPReceiver.step (TCPReceiver.valid i D) (TCPReceiver.new c) ops ->
  exists r ds n, run TCPReceiver.step (TCPReceiver.new c) ops = Ret (r, ds) /\
    let ended := ByteStream.input_ended (TCPReceiver.stream_out r) in
    0 <= n <= zlen D /\
    concat ds ++ ByteStream.bytes (TCPReceiver.stream_out r) = take (Z.to_nat n) D /\
    (ended = true -> n = zlen D) /\
    TCPReceiver.ackno r = (if existsb TCPReceiver.is_syn ops
                           then Some (wrap (1 + n + (if ended then 1 else 0)) i) else None) /\
    TCPReceiver.window_size r = c - zlen (ByteStream.bytes (TCPReceiver.stream_out r)).
Proof.
  intros Hc Hi HD Hv. destruct (TCPReceiver.receiver_run_ok c i D Hc Hi HD ops Hv) as (r & ds & E & Hr).
  destruct (TCPReceiver.reading_result c i D Hc _ _ Hr) as (n & Hn & Hb & He & Ha & Hw).
  exists r, ds, n. cbv zeta. split_and!; try done; try apply Hn.
  pose proof (TCPReceiver.run_open ops _ _ _ E) as Ho. pose proof (TCPReceiver.ackno_open r) as Hno.
  change (TCPReceiver.is_open (TCPReceiver.new c)) with false in Ho. cbn [orb] in Ho. rewrite Ho in Hno.
  destruct (existsb _ ops), Ha as [[Ha _]|Ha]; try done.
  - by apply Hno in Ha.
  - by apply Hno.
Qed.

(** C5: a segment at or before the acknowledgment number is never refused while
    there is room: it moves the acknowledgment number at least to its end or to
    the end of the advertised window. *)
Theorem receiver_progress (i : WrappingInt32) (D : string) (r : TCPReceiver.t) (seg : TCPSegment.t) (index : Z) :
  TCPReceiver.inv i D r -> TCPReceiver.data_segment i D r seg index ->
  index <= StreamReassembler._top_pointer (TCPReceiver._reassembler r) ->
  exists r', TCPReceiver.segment_received r seg = Ret r' /\ TCPReceiver.inv i D r' /\
    Z.min (index + zlen (Buffer.str (TCPSegment.payload seg)))
          (StreamReassembler._top_pointer (TCPReceiver._reassembler r) + TCPReceiver.window_size r)
      <= StreamReassembler._top_pointer (TCPReceiver._reassembler r') /\
    exists fin, 0 <= fin <= 1 /\
      TCPReceiver.ackno r' = Some (wrap (StreamReassembler._top_pointer (TCPReceiver._reassembler r') + fin) i).
Proof.
  intros Hr Hd Hle.
  destruct (TCPReceiver.data_received i D r seg index Hr Hd) as (r' & n & E & Hr' & _ & _ & Hp).
  exists r'. split; [done|]. split; [done|]. split.
  - rewrite (TCPReceiver.window_inv i D r Hr). by apply Hp.
  - eexists. split; [|by apply (TCPReceiver.ackno_inv i D)]. case_if; lia.
Qed.

(** After a SYN, the segments of a stream received in order, the last one with
    FIN, deliver the whole stream: the output holds exactly its bytes and has
    ended, and the acknowledgment number covers the SYN, the bytes and the FIN. *)
Theorem receiver_in_order (c : Z) (i : WrappingInt32) (D : string) (syn : TCPSegment.t)
    (segs : list TCPSegment.t) :
  is_u64 c -> wi_ok i -> zlen D < c -> zlen D < 2 ^ 64 - 2 ->
  TCPReceiver.syn_segment i syn -> TCPReceiver.in_order i 1 segs D ->
  exists r ds, run TCPReceiver.step (TCPReceiver.new c) (TCPReceiver.Segment <$> syn :: segs) = Ret (r, ds)
    /\ ByteStream.bytes (TCPReceiver.stream_out r) = D
    /\ ByteStream.input_ended (TCPReceiver.stream_out r) = true
    /\ TCPReceiver.ackno r = Some (wrap (zlen D + 2) i).
Proof.
  intros Hc Hi HD HD2 Hs Hio.
  destruct (TCPReceiver.syn_received c D i syn) as (r0 & E0 & Hr0 & Er0); [done|done|lia|done|].
  destruct (TCPReceiver.in_order_received i D segs D r0) as (r & ds & E & Hr & Ht & He & Hb); [done| | | |by rewrite Er0|].
  - by rewrite Er0.
  - by rewrite Er0.
  - rewrite Er0. unfold StreamReassembler.room. simpl. change (zlen (ByteStream.bytes _)) with 0. lia.
  - exists r. eexists. cbn [fmap list_fmap run TCPReceiver.step] in *. rewrite E0. cbn [mbind outcome_bind].
    rewrite E. cbn [mbind outcome_bind]. split; [done|].
    assert (TCPReceiver.bytes_read r = 0) as Hb0 by (rewrite Hb; unfold TCPReceiver.bytes_read, TCPReceiver.stream_out; by rewrite Er0).
    split; [|split; [done|]].
    + pose proof (StreamReassembler.inv_delivered 1 D _ (TCPReceiver.inv_reassembler _ _ _ Hr)) as Hdl.
      unfold TCPReceiver.bytes_read, TCPReceiver.stream_out, StreamReassembler.stream_out in *.
      rewrite Hb0, Ht in Hdl. simpl in Hdl. unfold StreamReassembler.stream_out. rewrite Hdl.
      apply take_ge. unfold zlen. lia.
    + rewrite (TCPReceiver.ackno_inv i D r Hr), He, Ht. do 2 f_equal. lia.
Qed.

(** A segment with the given sequence number, flags and payload. *)
Definition example_segment (seqno : WrappingInt32) (syn fin : bool) (payload : string) : TCPSegment.t :=
  TCPSegment.mk (TCPHeader.mk 0 0 seqno (mkWrappingInt32 0) 5 false false false false syn fin 0 0 0)
    (Buffer.of_string payload).

(** Two behaviours of a SYN that the peer may cause.  (1) An empty SYN that
    arrives again rewinds the reassembler to index 1: the retransmission of a
    segment that was already delivered is then delivered a second time.  (2) The
    data of a SYN is put at index 0 although it starts at sequence number 1, so
    the segment that follows it never becomes contiguous and is not delivered. *)
Theorem receiver_syn_again :
  let i := mkWrappingInt32 100 in
  let seg index syn fin data := TCPReceiver.Segment (example_segment (wrap index i) syn fin data) in
  (exists r ds, run TCPReceiver.step (TCPReceiver.new 10)
      [seg 0 true false []; seg 1 false false [Byte.x61; Byte.x62];
       seg 0 true false []; seg 1 false false [Byte.x61; Byte.x62]] = Ret (r, ds)
     /\ ByteStream.bytes (TCPReceiver.stream_out r) = [Byte.x61; Byte.x62; Byte.x61; Byte.x62]) /\
  (exists r ds, run TCPReceiver.step (TCPReceiver.new 10)
      [seg 0 true false [Byte.x61]; seg 2 false true [Byte.x62]] = Ret (r, ds)
     /\ ByteStream.bytes (TCPReceiver.stream_out r) = [Byte.x61]
     /\ TCPReceiver.unassembled_bytes r = 1
     /\ TCPReceiver.ackno r = Some (wrap 2 i)).
Proof.
  split; do 2 eexists; (split; [vm_compute; reflexivity|]).
  - vm_compute. reflexivity.
  - split; [vm_compute; reflexivity|]. split; vm_compute; reflexivity.
Qed.

Definition example_ops : list TCPReceiver.op :=
  let i := mkWrappingInt32 4294967295 in
  [TCPReceiver.Segment (example_segment (wrap 9 i) false false [Byte.x7a]);
   TCPReceiver.Segment (example_segment (wrap 0 i) true false []);
   TCPReceiver.Segment (example_segment (wrap 3 i) false true [Byte.x63]);
   TCPReceiver.Read 4;
   TCPReceiver.Segment (example_segment (wrap 1 i) false false [Byte.x61; Byte.x62]);
   TCPReceiver.Read 2].

Lemma example_ops_valid :
  valid_run TCPReceiver.step (TCPReceiver.valid (mkWrappingInt32 4294967295) [Byte.x61; Byte.x62; Byte.x63])
    (TCPReceiver.new 8) example_ops.
Proof.
  split; [by left|]. vm_compute TCPReceiver.step. cbn iota.
  split; [right; by split|]. vm_compute TCPReceiver.step. cbn iota.
  split; [left; exists 3; split; [done|done|by vm_compute|by split]|]. vm_compute TCPReceiver.step. cbn iota.
  split; [simpl; lia|]. vm_compute TCPReceiver.step. cbn iota.
  split; [left; exists 1; split; [done|done|by vm_compute|by split]|]. vm_compute TCPReceiver.step. cbn iota.
  split; [simpl; lia|]. vm_compute TCPReceiver.step. cbn iota. exact I.
Qed.

Lemma receiver_delivers_prefix_witness :
  exists r ds n, run TCPReceiver.step (TCPReceiver.new 8) example_ops = Ret (r, ds) /\
    concat ds ++ ByteStream.bytes (TCPReceiver.stream_out r) = take (Z.to_nat n) [Byte.x61; Byte.x62; Byte.x63] /\
    TCPReceiver.ackno r <> None.
Proof.
  destruct (receiver_delivers_prefix 8 (mkWrappingInt32 4294967295) [Byte.x61; Byte.x62; Byte.x63] example_ops)
    as (r & ds & n & E & _ & Eb & _ & Ea & _).
  - split; lia.
  - split; vm_compute; (reflexivity || discriminate).
  - vm_compute. reflexivity.
  - exact example_ops_valid.
  - exists r, ds, n. split; [exact E|]. split; [exact Eb|].
    change (existsb TCPReceiver.is_syn example_ops) with true in Ea. rewrite Ea. discriminate.
Defined.

(** The receiver once the SYN has arrived. *)
Definition example_open : TCPReceiver.t :=
  TCPReceiver.mk (StreamReassembler.set_top_pointer (StreamReassembler.new 8) 1) 8 (Some (mkWrappingInt32 7)) None.

Lemma example_open_inv : TCPReceiver.inv (mkWrappingInt32 7) [Byte.x61; Byte.x62] example_open.
Proof.
  split; [done|split; vm_compute; (reflexivity || discriminate)|].
  apply TCPReceiver.syn_inv; [split; lia|vm_compute; reflexivity].
Qed.

Lemma receiver_progress_witness :
  exists r', TCPReceiver.segment_received example_open
               (example_segment (wrap 1 (mkWrappingInt32 7)) false false [Byte.x61]) = Ret r'
    /\ Z.min (1 + 1) (1 + TCPReceiver.window_size example_open)
       <= StreamReassembler._top_pointer (TCPReceiver._reassembler r').
Proof.
  destruct (receiver_progress (mkWrappingInt32 7) [Byte.x61; Byte.x62] example_open
    (example_segment (wrap 1 (mkWrappingInt32 7)) false false [Byte.x61]) 1) as (r' & E & _ & Hp & _).
  - exact example_open_inv.
  - split; [reflexivity|reflexivity|vm_compute; reflexivity|].
    split; vm_compute; (reflexivity || discriminate).
  - vm_compute. discriminate.
  - exists r'. split; [exact E|exact Hp].
Defined.

Lemma receiver_in_order_witness :
  let i := mkWrappingInt32 4294967290 in
  exists r ds, run TCPReceiver.step (TCPReceiver.new 8)
      (TCPReceiver.Segment <$> [example_segment i true false [];
         example_segment (wrap 1 i) false false [Byte.x61]; example_segment (wrap 2 i) false true [Byte.x62]])
    = Ret (r, ds)
    /\ ByteStream.bytes (TCPReceiver.stream_out r) = [Byte.x61; Byte.x62]
    /\ ByteStream.input_ended (TCPReceiver.stream_out r) = true
    /\ TCPReceiver.ackno r = Some (wrap 4 i).
Proof.
  intros i. apply (receiver_in_order 8 i [Byte.x61; Byte.x62] (example_segment i true false [])).
  - split; lia.
  - split; vm_compute; (reflexivity || discriminate).
  - vm_compute. reflexivity.
  - vm_compute. reflexivity.
  - split; reflexivity.
  - split; [reflexivity|]. split; [reflexivity|]. exists [Byte.x62]. split; [reflexivity|].
    split; [reflexivity|]. split; [reflexivity|]. exists []. split; [reflexivity|]. split; reflexivity.
Defined.
