(* ===== verification/TCPSender.v ===== *)
(** * The TCP sender (tcp_sender.hh, tcp_sender.cc, tcp_helpers/tcp_config.hh)

    The sender reads the application's stream, cuts it into segments within the
    peer's window, keeps the segments that are not acknowledged yet in a queue
    and retransmits the oldest when its timer runs out.

    The invariant places the queue in the space of 64-bit sequence numbers: it
    covers the interval from the first unacknowledged number to the next one to be
    sent without gaps, each segment carrying the bytes of the application's stream
    that belong there. *)

From S2P Require Import Prelude WrappingIntegers SpongeBuffer ByteStream.
From S2P Require Import UtilBuffer Parser TCPSegment.

Module TCPConfig.

Definition DEFAULT_CAPACITY : Z := 64000.
Definition MAX_PAYLOAD_SIZE : Z := 1000.
Definition TIMEOUT_DFLT : Z := 1000.
Definition MAX_RETX_ATTEMPTS : Z := 8.

Record t := mk {
  rt_timeout : Z;
  recv_capacity : Z;
  send_capacity : Z;
  fixed_isn : option WrappingInt32
}.

Definition default : t := mk TIMEOUT_DFLT DEFAULT_CAPACITY DEFAULT_CAPACITY None.

End TCPConfig.

(** A segment in flight with its timer.  The source shares it through a pointer and
    never changes it. *)
Module TCPSenderSegment.

Record t := mk { seg : TCPSegment.t; rto : Z; time : Z }.

Definition seqno (s : t) : WrappingInt32 := TCPHeader.seqno (TCPSegment.header (seg s)).
Definition length (s : t) : Z := TCPSegment.length_in_sequence_space (seg s).

End TCPSenderSegment.

Module TCPSender.

Record t := mk {
  _isn : WrappingInt32;
  _segments_out : list TCPSegment.t;
  _initial_retransmission_timeout : Z;
  _stream : ByteStream.t;
  _is_syn_received : bool;
  _is_fin_received : bool;
  _last_tick_time : Z;
  _consecutive_retrans : Z;
  _window_size : Z;
  _is_window_zero : bool;
  _byted_in_flight : Z;
  _seg_queue : list TCPSenderSegment.t;
  _next_seqno : Z
}.

(** [random] is what the random device gives when no number is fixed. *)
Definition new (capacity retx_timeout : Z) (fixed_isn : option WrappingInt32) (random : Z) : t :=
  mk (default (mkWrappingInt32 random) fixed_isn) [] retx_timeout (ByteStream.new capacity)
     false false 0 0 1 false 0 [] 0.

Definition bytes_in_flight (s : t) : Z := _byted_in_flight s.
Definition stream_in (s : t) : ByteStream.t := _stream s.
Definition segments_out (s : t) : list TCPSegment.t := _segments_out s.
Definition next_seqno_absolute (s : t) : Z := _next_seqno s.
Definition next_seqno (s : t) : WrappingInt32 := wrap (_next_seqno s) (_isn s).
Definition is_syn_received (s : t) : bool := _is_syn_received s.
Definition is_fin_received (s : t) : bool := _is_fin_received s.
Definition consecutive_retransmissions (s : t) : Z := uint32 (_consecutive_retrans s).

(** Assignments to single members. *)
Definition set_segments_out (s : t) (q : list TCPSegment.t) : t :=
  mk (_isn s) q (_initial_retransmission_timeout s) (_stream s) (_is_syn_received s) (_is_fin_received s)
     (_last_tick_time s) (_consecutive_retrans s) (_window_size s) (_is_window_zero s) (_byted_in_flight s)
     (_seg_queue s) (_next_seqno s).
Definition set_stream (s : t) (b : ByteStream.t) : t :=
  mk (_isn s) (_segments_out s) (_initial_retransmission_timeout s) b (_is_syn_received s) (_is_fin_received s)
     (_last_tick_time s) (_consecutive_retrans s) (_window_size s) (_is_window_zero s) (_byted_in_flight s)
     (_seg_queue s) (_next_seqno s).
Definition set_seg_queue (s : t) (q : list TCPSenderSegment.t) : t :=
  mk (_isn s) (_segments_out s) (_initial_retransmission_timeout s) (_stream s) (_is_syn_received s)
     (_is_fin_received s) (_last_tick_time s) (_consecutive_retrans s) (_window_size s) (_is_window_zero s)
     (_byted_in_flight s) q (_next_seqno s).
Definition set_window (s : t) (w : Z) (zero : bool) : t :=
  mk (_isn s) (_segments_out s) (_initial_retransmission_timeout s) (_stream s) (_is_syn_received s)
     (_is_fin_received s) (_last_tick_time s) (_consecutive_retrans s) w zero (_byted_in_flight s)
     (_seg_queue s) (_next_seqno s).

(** The fields of a header that [fill_window] assigns. *)
Definition set_flags (h : TCPHeader.t) (syn fin : bool) (seqno : WrappingInt32) : TCPHeader.t :=
  TCPHeader.mk (TCPHeader.sport h) (TCPHeader.dport h) seqno (TCPHeader.ackno h) (TCPHeader.doff h)
    (TCPHeader.urg h) (TCPHeader.ack h) (TCPHeader.psh h) (TCPHeader.rst h) syn fin
    (TCPHeader.win h) (TCPHeader.cksum h) (TCPHeader.uptr h).

(** One segment in the outbound queue and in the queue of segments in flight. *)
Definition push_segment (s : t) (seg : TCPSegment.t) : t :=
  let len := TCPSegment.length_in_sequence_space seg in
  mk (_isn s) (_segments_out s ++ [seg]) (_initial_retransmission_timeout s) (_stream s)
     (_is_syn_received s) (_is_fin_received s) (_last_tick_time s) (_consecutive_retrans s)
     (_window_size s) (_is_window_zero s) (uint64 (_byted_in_flight s + len))
     (_seg_queue s ++ [TCPSenderSegment.mk seg (_initial_retransmission_timeout s) (_last_tick_time s)])
     (uint64 (_next_seqno s + len)).

(** The [do ... while] loop of [fill_window].  The header [h] keeps its values from
    one turn to the next.  [segment_loop_ok] shows that a turn for every started
    thousand bytes is enough; without fuel the result is an error. *)
Fixpoint segment_loop (fuel : nat) (buffer_str : string) (is_fin : bool) (h : TCPHeader.t)
    (index readable_size : Z) (s : t) : outcome t :=
  match fuel with
  | O => Throw undefined_behaviour
  | S fuel =>
      let fin := if is_fin && (readable_size <=? TCPConfig.MAX_PAYLOAD_SIZE) then true
                 else if is_fin && (TCPConfig.MAX_PAYLOAD_SIZE <? readable_size) then false
                 else TCPHeader.fin h in
      data ← substr buffer_str (uint64 (index * TCPConfig.MAX_PAYLOAD_SIZE))
               (Z.min TCPConfig.MAX_PAYLOAD_SIZE readable_size);
      let h := set_flags h (TCPHeader.syn h) fin (wrap (_next_seqno s) (_isn s)) in
      let s := push_segment s (TCPSegment.mk h (Buffer.of_string data)) in
      let readable_size := if TCPConfig.MAX_PAYLOAD_SIZE <? readable_size
                           then readable_size - TCPConfig.MAX_PAYLOAD_SIZE else 0 in
      if 0 <? readable_size then segment_loop fuel buffer_str is_fin h (index + 1) readable_size s
      else Ret s
  end.

Definition is_syn (x : TCPSenderSegment.t) : bool := TCPHeader.syn (TCPSegment.header (TCPSenderSegment.seg x)).
Definition is_fin (x : TCPSenderSegment.t) : bool := TCPHeader.fin (TCPSegment.header (TCPSenderSegment.seg x)).

(** The second half of [fill_window]: read from the stream, decide on the FIN, cut
    into segments. *)
Definition send_readable (s : t) (remaining_size : Z) (syn : bool) : outcome t :=
  let readable_size := Z.min remaining_size (ByteStream.buffer_size (_stream s)) in
  '(buffer_str, stream) ← ByteStream.read (_stream s) readable_size;
  let s := set_stream s stream in
  let at_end := ByteStream.eof (_stream s) && negb (_is_fin_received s) in
  if at_end && match last (_seg_queue s) with Some back => is_fin back | None => false end then Ret s else
  let fin := at_end && (uint64 (readable_size + 1) <=? remaining_size) in
  if (readable_size =? 0) && negb (syn || fin) then Ret s else
  let h := set_flags TCPHeader.default syn fin (TCPHeader.seqno TCPHeader.default) in
  segment_loop (S (Z.to_nat (readable_size / TCPConfig.MAX_PAYLOAD_SIZE))) buffer_str fin h 0 readable_size s.

(** Nothing is sent when the window is full or while the SYN is in flight. *)
Definition fill_window (s : t) : outcome t :=
  let remaining_size := if _byted_in_flight s <? _window_size s
                        then uint64 (_window_size s - _byted_in_flight s) else 0 in
  if remaining_size =? 0 then Ret s else
  if _is_syn_received s then send_readable s remaining_size false else
  match head (_seg_queue s) with
  | Some front => if is_syn front then Ret s else Throw runtime_error
  | None => send_readable s remaining_size true
  end.

(** The [while] loop of [ack_received]: the acknowledged segments leave the queue. *)
Fixpoint pop_acked (ack_seqno : Z) (q : list TCPSenderSegment.t) (s : t) (should_restart : bool) : t * bool :=
  match q with
  | [] => (set_seg_queue s [], should_restart)
  | front :: rest =>
      let len := TCPSenderSegment.length front in
      if uint64 (unwrap (TCPSenderSegment.seqno front) (_isn s) (_next_seqno s) + len) <=? ack_seqno
      then pop_acked ack_seqno rest
             (mk (_isn s) (_segments_out s) (_initial_retransmission_timeout s) (_stream s)
                 (if is_syn front && negb (_is_syn_received s) then true else _is_syn_received s)
                 (if is_fin front && negb (_is_fin_received s) then true else _is_fin_received s)
                 (_last_tick_time s) 0 (_window_size s) (_is_window_zero s)
                 (uint64 (_byted_in_flight s - len)) rest (_next_seqno s)) true
      else (set_seg_queue s q, should_restart)
  end.

Definition ack_received (s : t) (ackno : WrappingInt32) (window_size : Z) : t :=
  let ack_seqno := unwrap ackno (_isn s) (_next_seqno s) in
  if _next_seqno s <? ack_seqno then s else
  let s := if window_size =? 0 then set_window s 1 true else set_window s window_size false in
  let '(s, should_restart) := pop_acked ack_seqno (_seg_queue s) s false in
  match _seg_queue s with
  | front :: rest =>
      if should_restart
      then set_seg_queue s (TCPSenderSegment.mk (TCPSenderSegment.seg front)
                              (_initial_retransmission_timeout s) (_last_tick_time s) :: rest)
      else s
  | [] => s
  end.

Definition tick (s : t) (ms_since_last_tick : Z) : t :=
  let now := uint64 (_last_tick_time s + ms_since_last_tick) in
  let s := mk (_isn s) (_segments_out s) (_initial_retransmission_timeout s) (_stream s) (_is_syn_received s)
              (_is_fin_received s) now (_consecutive_retrans s) (_window_size s) (_is_window_zero s)
              (_byted_in_flight s) (_seg_queue s) (_next_seqno s) in
  match _seg_queue s with
  | [] => s
  | front :: rest =>
      if uint64 (TCPSenderSegment.time front + TCPSenderSegment.rto front) <=? now
      then let rto := if _is_window_zero s then TCPSenderSegment.rto front
                      else uint64 (TCPSenderSegment.rto front * 2) in
           mk (_isn s) (_segments_out s ++ [TCPSenderSegment.seg front]) (_initial_retransmission_timeout s)
              (_stream s) (_is_syn_received s) (_is_fin_received s) now (uint64 (_consecutive_retrans s + 1))
              (_window_size s) (_is_window_zero s) (_byted_in_flight s)
              (TCPSenderSegment.mk (TCPSenderSegment.seg front) rto now :: rest) (_next_seqno s)
      else s
  end.

Definition send_empty_segment (s : t) : t :=
  let h := set_flags TCPHeader.default false false (next_seqno s) in
  set_segments_out s (_segments_out s ++ [TCPSegment.mk h Buffer.null]).

#[global] Arguments push_segment : simpl never.

(** ** Segments in the space of sequence numbers *)

Definition payload_bytes (seg : TCPSegment.t) : string := Buffer.str (TCPSegment.payload seg).
Definition seg_syn (seg : TCPSegment.t) : bool := TCPHeader.syn (TCPSegment.header seg).
Definition seg_fin (seg : TCPSegment.t) : bool := TCPHeader.fin (TCPSegment.header seg).

(** [seg] is the part at the absolute sequence number [a] of the stream [W], which
    may still grow unless [ended]: number 0 is the SYN, number [k + 1] the byte [k],
    and the FIN follows the last byte. *)
Record seg_ok (isn : WrappingInt32) (W : string) (ended : bool) (seg : TCPSegment.t) (a : Z) : Prop := {
  so_pos : 0 <= a;
  so_seqno : TCPHeader.seqno (TCPSegment.header seg) = wrap a isn;
  so_syn : seg_syn seg = (a =? 0);
  so_data : payload_bytes seg = slice W (Z.max a 1 - 1) (zlen (payload_bytes seg));
  so_end : Z.max a 1 - 1 + zlen (payload_bytes seg) <= zlen W;
  so_fin : seg_fin seg = true -> ended = true /\ Z.max a 1 - 1 + zlen (payload_bytes seg) = zlen W;
  so_size : zlen (payload_bytes seg) <= TCPConfig.MAX_PAYLOAD_SIZE
}.

Definition seg_length (seg : TCPSegment.t) : Z :=
  zlen (payload_bytes seg) + (if seg_syn seg then 1 else 0) + (if seg_fin seg then 1 else 0).

(** [segs] cover the sequence numbers from [a] to [z] without gap or overlap. *)
Fixpoint segs_ok (isn : WrappingInt32) (W : string) (ended : bool) (a : Z) (segs : list TCPSegment.t) (z : Z)
    : Prop :=
  match segs with
  | [] => a = z
  | seg :: segs =>
      seg_ok isn W ended seg a /\ 0 < seg_length seg /\ segs_ok isn W ended (a + seg_length seg) segs z
  end.

(** What may be in the outbound queue of a sender whose next number is [next]: parts
    of the stream below it, and empty segments with a number up to it. *)
Definition emitted (isn : WrappingInt32) (W : string) (ended : bool) (next : Z) (seg : TCPSegment.t) : Prop :=
  (exists a, seg_ok isn W ended seg a /\ a + seg_length seg <= next)
  \/ (exists a, 0 <= a <= next /\ TCPHeader.seqno (TCPSegment.header seg) = wrap a isn
      /\ seg_syn seg = false /\ seg_fin seg = false /\ payload_bytes seg = []).

Section Segments.
Context (isn : WrappingInt32) (W : string) (ended : bool).

Lemma seg_ok_length seg a :
  seg_ok isn W ended seg a -> TCPSegment.length_in_sequence_space seg = seg_length seg
    /\ 0 <= seg_length seg <= 1002.
Proof using.
  intros [_ _ _ _ _ _ Hs]. unfold seg_length, TCPSegment.length_in_sequence_space.
  unfold payload_bytes, seg_syn, seg_fin, TCPConfig.MAX_PAYLOAD_SIZE in *. zlen_pose.
  destruct (TCPHeader.syn _), (TCPHeader.fin _); nowrap; lia.
Qed.

Lemma segs_ok_le segs a z : segs_ok isn W ended a segs z -> a <= z.
Proof using.
  revert a. induction segs as [|seg segs IH]; intros a; simpl; [lia|]. intros (_ & Hp & Hs).
  apply IH in Hs. lia.
Qed.

Lemma segs_ok_app segs1 segs2 a b z :
  segs_ok isn W ended a segs1 b -> segs_ok isn W ended b segs2 z -> segs_ok isn W ended a (segs1 ++ segs2) z.
Proof using.
  revert a. induction segs1 as [|seg segs IH]; intros a; simpl; [by intros ->|].
  intros (H1 & H2 & H3) H. split; [done|]. split; [done|]. by apply IH.
Qed.

Lemma segs_ok_emitted segs a z : segs_ok isn W ended a segs z -> Forall (emitted isn W ended z) segs.
Proof using.
  revert a. induction segs as [|seg segs IH]; intros a; simpl; [constructor|]. intros (H1 & H2 & H3).
  constructor; [left; exists a; by split; [|apply segs_ok_le in H3]|by apply (IH (a + seg_length seg))].
Qed.

(** The stream may grow until it ends. *)
Lemma seg_ok_extend w e seg a :
  (ended = true -> w = [] /\ e = true) -> seg_ok isn W ended seg a -> seg_ok isn (W ++ w) e seg a.
Proof using.
  intros He [H1 H2 H3 H4 H5 H6 H7]. zlen_pose. split; try done.
  - rewrite H4 at 1. symmetry. apply slice_app_l; lia.
  - rewrite zlen_app. zlen_pose. lia.
  - intros Hf. destruct (H6 Hf) as [E Hl]. destruct (He E) as [-> ->]. by rewrite app_nil_r.
Qed.

Lemma segs_ok_extend w e segs a z :
  (ended = true -> w = [] /\ e = true) -> segs_ok isn W ended a segs z -> segs_ok isn (W ++ w) e a segs z.
Proof using.
  intros He. revert a. induction segs as [|seg segs IH]; intros a; simpl; [done|]. intros (H1 & H2 & H3).
  split; [by apply seg_ok_extend|]. split; [done|]. by apply IH.
Qed.

Lemma emitted_extend w e next seg :
  (ended = true -> w = [] /\ e = true) -> emitted isn W ended next seg -> emitted isn (W ++ w) e next seg.
Proof using. intros He [(a & Ha & Hn)|H]; [left; exists a; split; [by apply seg_ok_extend|done]|by right]. Qed.

Lemma emitted_later next next' seg : next <= next' -> emitted isn W ended next seg -> emitted isn W ended next' seg.
Proof using.
  intros Hn [(a & Ha & Hl)|(a & Ha & H)]; [left|right]; exists a; (split; [|done || lia]); [done|lia].
Qed.

(** A segment that reaches past the last byte carries the FIN, and conversely. *)
Lemma segs_ok_last segs seg a z :
  segs_ok isn W ended a segs z -> last segs = Some seg ->
  seg_fin seg = (z =? zlen W + 2).
Proof using.
  revert a. induction segs as [|x segs IH]; intros a; [done|]. intros (H1 & H2 & H3) Hl.
  destruct segs as [|y segs]; [|by apply (IH (a + seg_length x))].
  simpl in H3, Hl. injection Hl as ->. destruct H1 as [Ha _ Hsyn _ Hend Hfin _].
  unfold seg_length in *. rewrite Hsyn in *.
  destruct (seg_fin seg) eqn:Ef; symmetry; [apply Z.eqb_eq|apply Z.eqb_neq].
  - destruct (Hfin eq_refl) as [_ E]. destruct (a =? 0) eqn:E0; zbool; lia.
  - destruct (a =? 0) eqn:E0; zbool; lia.
Qed.

(** Pushing segments that continue the queue. *)
Lemma push_segments segs s z :
  segs_ok isn W ended (_next_seqno s) segs z -> 0 <= _next_seqno s -> z < 2 ^ 64 ->
  0 <= _byted_in_flight s -> _byted_in_flight s + (z - _next_seqno s) < 2 ^ 64 ->
  fold_left push_segment segs s =
    mk (_isn s) (_segments_out s ++ segs) (_initial_retransmission_timeout s) (_stream s)
       (_is_syn_received s) (_is_fin_received s) (_last_tick_time s) (_consecutive_retrans s)
       (_window_size s) (_is_window_zero s) (_byted_in_flight s + (z - _next_seqno s))
       (_seg_queue s ++ ((fun seg => TCPSenderSegment.mk seg (_initial_retransmission_timeout s)
                                       (_last_tick_time s)) <$> segs)) z.
Proof using.
  revert s. induction segs as [|seg segs IH]; intros s Hs Hn Hz Hf Hb.
  - simpl in Hs. subst z. simpl. rewrite !app_nil_r, Z.sub_diag, Z.add_0_r. by destruct s.
  - destruct Hs as (H1 & H2 & H3). destruct (seg_ok_length _ _ H1) as [El Hl].
    pose proof (segs_ok_le _ _ _ H3). cbn [fold_left].
    assert (_next_seqno (push_segment s seg) = _next_seqno s + seg_length seg) as En
      by (unfold push_segment; rewrite El; simpl; nowrap; lia).
    assert (_byted_in_flight (push_segment s seg) = _byted_in_flight s + seg_length seg) as Eb
      by (unfold push_segment; rewrite El; simpl; nowrap; lia).
    rewrite IH; rewrite ?En, ?Eb; try done; try lia.
    unfold push_segment. simpl. rewrite <- !app_assoc. simpl. f_equal; try done; lia.
Qed.

End Segments.

(** ** The loop of [fill_window] *)

Section Loop.
Context (W : string) (ended fin : bool) (data : string) (d0 : Z).
Hypothesis Hd0 : 0 <= d0.
Hypothesis Hdata : data = slice W d0 (zlen data).
Hypothesis Hend : d0 + zlen data <= zlen W.
Hypothesis Hfin : fin = true -> ended = true /\ d0 + zlen data = zlen W.
Hypothesis Hbound : zlen W + 2 < 2 ^ 64.

(** The FIN of one turn: only the last one carries it. *)
Lemma turn_fin h readable :
  (TCPHeader.fin h = true -> fin = true) ->
  (if fin && (readable <=? 1000) then true else if fin && (1000 <? readable) then false else TCPHeader.fin h)
  = fin && (readable <=? 1000).
Proof using.
  clear Hfin. intros Hhf. destruct fin, (TCPHeader.fin h); simpl in *; try done; try specialize (Hhf eq_refl); try done;
    destruct (readable <=? 1000) eqn:E1, (1000 <? readable) eqn:E2; zbool; try done; lia.
Qed.

(** The segment of one turn: at most a thousand of the bytes that are left, placed after
    what was sent before. *)
Definition turn_segment (h : TCPHeader.t) (f : bool) (index readable : Z) (s : t) : TCPSegment.t :=
  TCPSegment.mk (set_flags h (TCPHeader.syn h) f (wrap (_next_seqno s) (_isn s)))
    (Buffer.of_string (slice data (index * 1000) (Z.min 1000 readable))).

Lemma turn_segment_ok h f index readable s :
  0 <= index -> 0 <= readable -> zlen data = 1000 * index + readable -> f = fin && (readable <=? 1000) ->
  TCPHeader.syn h = (_next_seqno s =? 0) -> 0 <= _next_seqno s -> Z.max (_next_seqno s) 1 - 1 = d0 + 1000 * index ->
  (0 < readable \/ _next_seqno s = 0 \/ fin = true) ->
  let seg := turn_segment h f index readable s in
  seg_ok (_isn s) W ended seg (_next_seqno s) /\ 0 < seg_length seg
  /\ seg_length seg = Z.min 1000 readable + (if _next_seqno s =? 0 then 1 else 0) + (if f then 1 else 0).
Proof using All.
  intros Hi Hr Hz Ef Hsyn Hn Hpos Hne seg. zlen_pose. set (n := Z.min 1000 readable).
  assert (zlen (slice data (index * 1000) n) = n) as Eln by (subst n; apply zlen_slice_le; lia).
  assert (payload_bytes seg = slice data (index * 1000) n) as Ep by done.
  assert (slice data (index * 1000) n = slice W (Z.max (_next_seqno s) 1 - 1) n) as Esl.
  { rewrite Hdata, slice_slice by (subst n; lia). f_equal. lia. }
  assert (seg_length seg = n + (if _next_seqno s =? 0 then 1 else 0) + (if f then 1 else 0)) as Elen.
  { unfold seg_length. rewrite Ep, Eln. change (seg_syn seg) with (TCPHeader.syn h).
    change (seg_fin seg) with f. by rewrite Hsyn. }
  split; [|split; [|done]].
  - split; rewrite ?Ep, ?Eln; try done; try (subst n; unfold TCPConfig.MAX_PAYLOAD_SIZE; lia).
    intros Hsf. change (f = true) in Hsf. rewrite Ef in Hsf. zbool. destruct (Hfin ltac:(done)).
    split; [done|subst n; lia].
  - rewrite Elen, Ef. destruct Hne as [Hne|[->|Hne]]; [subst n; repeat case_if; lia|simpl; repeat case_if; subst n; lia|].
    rewrite Hne. simpl. destruct (readable <=? 1000) eqn:E1; zbool; repeat case_if; subst n; lia.
Qed.

(** The segments of one call carry exactly the bytes read, in order and without
    gaps, the FIN being on the last one. *)
Lemma segment_loop_ok fuel h index readable s :
  0 <= index -> 0 <= readable -> zlen data = 1000 * index + readable ->
  readable / 1000 < Z.of_nat fuel -> (TCPHeader.fin h = true -> fin = true) ->
  TCPHeader.syn h = (_next_seqno s =? 0) -> (_next_seqno s = 0 -> readable <= 1000) -> 0 <= _next_seqno s ->
  Z.max (_next_seqno s) 1 - 1 = d0 + 1000 * index ->
  (0 < readable \/ _next_seqno s = 0 \/ fin = true) ->
  0 <= _byted_in_flight s -> _byted_in_flight s + readable + 2 < 2 ^ 64 ->
  exists segs,
    segment_loop fuel data fin h index readable s = Ret (fold_left push_segment segs s)
    /\ segs_ok (_isn s) W ended (_next_seqno s) segs
         (_next_seqno s + readable + (if _next_seqno s =? 0 then 1 else 0) + (if fin then 1 else 0))
    /\ concat (payload_bytes <$> segs) = drop (Z.to_nat (1000 * index)) data.
Proof using All.
  revert h index readable s. induction fuel as [|fuel IH]; intros h index readable s Hi Hr Hz Hfuel Hhf Hsyn Hsmall Hn Hpos Hne Hfl Hfb.
  { pose proof (Z.div_pos readable 1000). lia. }
  cbn [segment_loop]. unfold TCPConfig.MAX_PAYLOAD_SIZE. zlen_pose.
  rewrite (uint64_small (index * 1000)), substr_ok by (unfold is_u64; lia). cbn [mbind outcome_bind].
  set (fin' := if fin && _ then true else _). pose proof (turn_fin h readable Hhf : fin' = _) as Ef.
  destruct (turn_segment_ok h fin' index readable s) as (Hseg & Hp & Elen); [done..|].
  change (TCPSegment.mk _ _) with (turn_segment h fin' index readable s). set (seg := turn_segment _ _ _ _ _) in *.
  set (n := Z.min 1000 readable) in *. assert (payload_bytes seg = slice data (index * 1000) n) as Ep by done.
  destruct (seg_ok_length _ _ _ _ _ Hseg) as [El Hl].
  destruct (1000 <? readable) eqn:Emore; zbool.
  - rewrite (proj2 (Z.ltb_lt 0 _)) by lia. rewrite (proj2 (Z.leb_gt readable 1000)) in Ef by lia.
    rewrite andb_false_r in Ef. assert (_next_seqno s <> 0) as Hnz by lia.
    rewrite (proj2 (Z.eqb_neq (_next_seqno s) 0)) in * by done.
    assert (_next_seqno (push_segment s seg) = _next_seqno s + 1000) as En.
    { unfold push_segment. rewrite El, Elen, Ef. simpl. subst n. nowrap. lia. }
    assert (_byted_in_flight (push_segment s seg) = _byted_in_flight s + 1000) as Eb.
    { unfold push_segment. rewrite El, Elen, Ef. simpl. subst n. nowrap. lia. }
    destruct (IH (set_flags h (TCPHeader.syn h) fin' (wrap (_next_seqno s) (_isn s))) (index + 1)
                (readable - 1000) (push_segment s seg)) as (segs & E & Hs & Hc);
      rewrite ?En, ?Eb; try done; try lia.
    + replace readable with (readable - 1000 + 1 * 1000) in Hfuel by lia. rewrite Z.div_add in Hfuel by lia. lia.
    + change (fin' = true -> fin = true). rewrite Ef. done.
    + rewrite (proj2 (Z.eqb_neq (_next_seqno s + 1000) 0)) by lia. exact Hsyn.
    + exists (seg :: segs). split; [exact E|]. rewrite En, (proj2 (Z.eqb_neq (_next_seqno s + 1000) 0)) in Hs by lia.
      change (_isn (push_segment s seg)) with (_isn s) in Hs. rewrite Ef in Elen. subst n.
      split.
      * split; [done|]. split; [done|]. rewrite Elen.
        replace (_next_seqno s + (Z.min 1000 readable + 0 + 0)) with (_next_seqno s + 1000) by lia.
        by replace (_next_seqno s + readable + 0) with (_next_seqno s + 1000 + (readable - 1000) + 0) by lia.
      * cbn [fmap list_fmap concat]. fold (payload_bytes <$> segs). rewrite Hc, Ep.
        rewrite <- !slice_drop, Z.min_l by lia. rewrite (slice_split data (1000 * index) _ 1000) by lia.
        f_equal; f_equal; lia.
  - simpl (0 <? 0). cbn iota. exists [seg]. split; [done|]. rewrite (proj2 (Z.leb_le readable 1000)) in Ef by lia.
    rewrite andb_true_r in Ef. subst n. split.
    + split; [done|]. split; [done|]. rewrite Elen, Ef. simpl. lia.
    + cbn [fmap list_fmap concat]. rewrite Ep, app_nil_r, <- slice_drop. f_equal; lia.
Qed.

End Loop.

(** ** The invariant *)

Definition bytes_read (s : t) : Z := ByteStream._bytes_read (_stream s).
Definition buffered (s : t) : string := ByteStream.bytes (_stream s).
Definition ended (s : t) : bool := ByteStream.is_input_end (_stream s).

(** The sender of the stream [W] (what the application has written so far), whose
    first unacknowledged sequence number is [una]. *)
Record inv (W : string) (una : Z) (s : t) : Prop := {
  i_isn : wi_ok (_isn s);
  i_stream : ByteStream.wf (_stream s);
  i_written : buffered s = drop (Z.to_nat (bytes_read s)) W;
  i_read : bytes_read s + zlen (buffered s) = zlen W;
  i_bound : zlen W < 2 ^ 63;
  i_next : (_next_seqno s = 0 /\ bytes_read s = 0 /\ _window_size s = 1)
           \/ _next_seqno s = 1 + bytes_read s
           \/ (_next_seqno s = 2 + bytes_read s /\ ended s = true /\ buffered s = []);
  i_queue : segs_ok (_isn s) W (ended s) una (TCPSenderSegment.seg <$> _seg_queue s) (_next_seqno s);
  i_una : 0 <= una;
  i_flight : _byted_in_flight s = _next_seqno s - una;
  i_window : 1 <= _window_size s <= 65535;
  i_near : _byted_in_flight s <= 65536;
  i_syn : _is_syn_received s = (0 <? una);
  i_fin : _is_fin_received s = (una =? bytes_read s + 2);
  i_out : Forall (emitted (_isn s) W (ended s) (_next_seqno s)) (_segments_out s)
}.

Lemma sender_new_inv c rto f random :
  is_u64 c -> wi_ok (default (mkWrappingInt32 random) f) -> inv [] 0 (new c rto f random).
Proof.
  intros Hc Hi. split; simpl; try done.
  - by apply ByteStream.new_wf.
  - by left.
Qed.

(** What a call of [fill_window] may send: the bytes that fit in the window, none
    while a SYN is in flight. *)
Definition can_send (s : t) : bool :=
  (_byted_in_flight s <? _window_size s) && (_is_syn_received s || (_next_seqno s =? 0)).
Definition sendable (s : t) : Z :=
  if can_send s then Z.min (_window_size s - _byted_in_flight s) (zlen (buffered s)) else 0.

(** Taking [n] bytes out of the stream. *)
Lemma read_stream W una s n :
  inv W una s -> 0 <= n <= zlen (buffered s) ->
  exists b, ByteStream.read (_stream s) n = Ret (slice W (bytes_read s) n, b)
    /\ ByteStream.wf b /\ ByteStream._bytes_read b = bytes_read s + n
    /\ ByteStream.bytes b = drop (Z.to_nat (bytes_read s + n)) W
    /\ ByteStream.is_input_end b = ended s
    /\ ByteStream._capacity b = ByteStream._capacity (_stream s)
    /\ ByteStream.clogged b = ByteStream.clogged (_stream s)
    /\ (ByteStream.no_empty_buffer (_stream s) -> ByteStream.no_empty_buffer b).
Proof.
  intros Hs Hn. destruct (ByteStream.read_spec (_stream s) n (i_stream _ _ _ Hs) Hn)
    as (b & E & (Hw & Hb & Hc & Hr & _ & He & _ & Hne)).
  pose proof (ByteStream.wf_read _ (i_stream _ _ _ Hs)) as [? ?].
  pose proof (i_read _ _ _ Hs). pose proof (i_bound _ _ _ Hs). pose proof (i_written _ _ _ Hs) as Hwr.
  unfold bytes_read, buffered in *. exists b. rewrite E, Hr. split_and!; try done.
  - do 2 f_equal. rewrite Hwr. reflexivity.
  - nowrap. lia.
  - rewrite Hb, Hwr, drop_drop. f_equal. lia.
  - by eapply ByteStream.read_clogged; [apply Hs|exact Hn|exact E].
Qed.

(** The FIN is due: the stream has ended, its bytes are sent with this call, no FIN
    was sent before, there is room for it, and the last write did not find the
    stream full (which would hide its end). *)
Definition fin_due (W : string) (s : t) : Prop :=
  can_send s = true /\ ended s = true /\ _next_seqno s <> 2 + bytes_read s
  /\ ByteStream.clogged (_stream s) = false /\ bytes_read s + sendable s = zlen W
  /\ sendable s + 1 <= _window_size s - _byted_in_flight s.

(** The effect of [fill_window] on a state of the invariant: [b] is the stream after
    the read, [segs] the segments sent, [z] the next sequence number, [f] tells
    whether a FIN was sent. *)
Record filled (W : string) (s : t) (b : ByteStream.t) (segs : list TCPSegment.t) (z : Z) (f : bool) : Prop := {
  f_wf : ByteStream.wf b;
  f_read : ByteStream._bytes_read b = bytes_read s + sendable s;
  f_bytes : ByteStream.bytes b = drop (Z.to_nat (bytes_read s + sendable s)) W;
  f_ended : ByteStream.is_input_end b = ended s;
  f_capacity : ByteStream._capacity b = ByteStream._capacity (_stream s);
  f_noempty : ByteStream.no_empty_buffer (_stream s) -> ByteStream.no_empty_buffer b;
  f_segs : segs_ok (_isn s) W (ended s) (_next_seqno s) segs z;
  f_payload : concat (payload_bytes <$> segs) = slice W (bytes_read s) (sendable s);
  f_next : z = _next_seqno s + sendable s + (if can_send s && (_next_seqno s =? 0) then 1 else 0)
               + (if f then 1 else 0);
  f_fin : f = true -> can_send s = true /\ ended s = true /\ _next_seqno s <> 2 + bytes_read s
            /\ bytes_read s + sendable s = zlen W /\ sendable s + 1 <= _window_size s - _byted_in_flight s;
  f_fin_due : fin_due W s <-> f = true
}.

Lemma filled_nothing W una s :
  inv W una s -> sendable s = 0 -> can_send s && (_next_seqno s =? 0) = false -> ~ fin_due W s ->
  forall b, ByteStream.wf b -> ByteStream._bytes_read b = bytes_read s ->
  ByteStream.bytes b = drop (Z.to_nat (bytes_read s)) W -> ByteStream.is_input_end b = ended s ->
  ByteStream._capacity b = ByteStream._capacity (_stream s) ->
  (ByteStream.no_empty_buffer (_stream s) -> ByteStream.no_empty_buffer b) ->
  filled W s b [] (_next_seqno s) false.
Proof.
  intros Hs E0 Ec Hdue b H1 H2 H3 H4 H5 H6. split; rewrite ?E0, ?Ec; try done; try lia.
  - by rewrite Z.add_0_r.
Qed.

Lemma filled_same W una s :
  inv W una s -> can_send s = false -> filled W s (_stream s) [] (_next_seqno s) false.
Proof.
  intros Hs Ec. assert (~ fin_due W s) by (intros [E _]; congruence).
  apply (filled_nothing W una); try done; try apply Hs; unfold sendable; by rewrite Ec.
Qed.

Lemma eof_bytes b : ByteStream.eof b = true -> ByteStream.is_input_end b = true /\ ByteStream.bytes b = [].
Proof.
  unfold ByteStream.eof, ByteStream.bytes. intros [? E]%andb_true_iff. split; [done|].
  by destruct (ByteStream._buffers b).
Qed.

Lemma eof_intro b :
  ByteStream.is_input_end b = true -> ByteStream.bytes b = [] -> ByteStream.no_empty_buffer b ->
  ByteStream.eof b = true.
Proof.
  intros E1 E2 Hne. unfold ByteStream.eof. rewrite E1. change (ByteStream.buffer_empty b = true).
  rewrite ByteStream.buffer_empty_spec by done. by apply bool_decide_eq_true_2.
Qed.

Lemma eof_unclogged b :
  ByteStream.is_input_end b = true -> ByteStream.bytes b = [] -> ByteStream.clogged b = false ->
  ByteStream.eof b = true.
Proof.
  intros E1 E2 E3. unfold ByteStream.eof. rewrite E1. change (ByteStream.buffer_empty b = true).
  by rewrite ByteStream.buffer_empty_clogged, E2, E3.
Qed.

Lemma eof_clogged b : ByteStream.eof b = true -> ByteStream.clogged b = false.
Proof.
  unfold ByteStream.eof, ByteStream.clogged. intros [_ E]%andb_true_iff. by destruct (ByteStream._buffers b).
Qed.

Lemma set_stream_same s : set_stream s (_stream s) = s.
Proof. by destruct s. Qed.

Lemma queue_head W una s :
  inv W una s ->
  match head (_seg_queue s) with
  | Some front => is_syn front = (una =? 0) /\ una < _next_seqno s
  | None => una = _next_seqno s
  end.
Proof.
  intros Hs. pose proof (i_queue _ _ _ Hs) as Hq. destruct (_seg_queue s) as [|x q]; simpl in *; [done|].
  destruct Hq as (H1 & H2 & H3). pose proof (segs_ok_le _ _ _ _ _ _ H3). split; [|lia]. apply H1.
Qed.

Lemma queue_last W una s :
  inv W una s ->
  match last (_seg_queue s) with
  | Some back => is_fin back = (_next_seqno s =? zlen W + 2)
  | None => una = _next_seqno s
  end.
Proof.
  intros Hs. pose proof (i_queue _ _ _ Hs) as Hq. destruct (last (_seg_queue s)) as [x|] eqn:El.
  - apply (segs_ok_last _ _ _ _ (TCPSenderSegment.seg x)) in Hq; [exact Hq|].
    by rewrite fmap_last, El.
  - apply last_None in El. rewrite El in Hq. exact Hq.
Qed.

Section Fill.
Context (W : string) (una : Z) (s : t).
Hypothesis Hs : inv W una s.

Definition fill_result (r : outcome t) : Prop :=
  exists b segs z f, r = Ret (fold_left push_segment segs (set_stream s b)) /\ filled W s b segs z f.

(** Numbers of the invariant that the cases below share. *)
Lemma inv_numbers :
  0 <= bytes_read s /\ una <= _next_seqno s /\ 0 <= _byted_in_flight s
  /\ ByteStream.buffer_size (_stream s) = zlen (buffered s).
Proof using Hs.
  pose proof (segs_ok_le _ _ _ _ _ _ (i_queue _ _ _ Hs)). rewrite (i_flight _ _ _ Hs).
  pose proof (ByteStream.wf_read _ (i_stream _ _ _ Hs)) as [? _].
  split; [done|]. split; [done|]. split; [lia|]. apply ByteStream.buffer_size_bytes, Hs.
Qed.

Lemma fill_nothing : can_send s = false -> fill_result (Ret s).
Proof using Hs.
  intros Ec. exists (_stream s), [], (_next_seqno s), false. simpl. rewrite set_stream_same. split; [done|].
  by apply (filled_same W una).
Qed.

(** The stream has ended and everything was read: is a FIN in flight already? *)
Lemma fin_in_queue :
  _is_fin_received s = false ->
  match last (_seg_queue s) with Some back => is_fin back | None => false end = (_next_seqno s =? zlen W + 2).
Proof using Hs.
  intros Hf. pose proof (queue_last _ _ _ Hs) as Hl. destruct (last (_seg_queue s)); [done|].
  pose proof (i_fin _ _ _ Hs) as Hfin. rewrite Hf in Hfin. symmetry in Hfin. zbool.
  pose proof (i_read _ _ _ Hs). pose proof inv_numbers. pose proof (i_next _ _ _ Hs) as Hn. zlen_pose.
  symmetry. apply Z.eqb_neq. intros E. destruct Hn as [?|[?|(? & ? & Eb)]]; try lia.
Qed.

(** Reading up to the end of an ended stream takes all that was left of it. *)
Lemma read_to_end b n :
  0 <= n <= zlen (buffered s) -> ByteStream.bytes b = drop (Z.to_nat (bytes_read s + n)) W ->
  ByteStream.is_input_end b = ended s -> ByteStream.eof b = true ->
  ended s = true /\ bytes_read s + n = zlen W.
Proof using Hs.
  intros Hn Hby Hie E. destruct inv_numbers as (Hr0 & _). pose proof (i_read _ _ _ Hs).
  apply eof_bytes in E as [E1 E2]. rewrite Hie in E1. rewrite E2 in Hby. split; [done|].
  apply (f_equal zlen) in Hby. rewrite zlen_drop in Hby. change (zlen (@nil byte)) with 0 in Hby. lia.
Qed.

(** Nothing follows a FIN: when it was sent, the buffer is empty, and a new one is not
    due as the old one waits in the queue. *)
Lemma nothing_after_fin n at_end fin :
  0 <= n <= zlen (buffered s) -> (at_end = true -> _is_fin_received s = false /\ bytes_read s + n = zlen W) ->
  (fin = true -> at_end = true) ->
  at_end && match last (_seg_queue s) with Some back => is_fin back | None => false end = false ->
  (n =? 0) && negb ((_next_seqno s =? 0) || fin) = false -> _next_seqno s <> 2 + bytes_read s.
Proof using Hs.
  intros Hn Hat Hfin Eback Eskip E. destruct inv_numbers as (Hr0 & _). pose proof (i_read _ _ _ Hs).
  assert (buffered s = []) as Eb by (destruct (i_next _ _ _ Hs) as [(? & ? & ?)|[?|(? & ? & ?)]]; [lia|lia|done]).
  apply (f_equal zlen) in Eb. change (zlen (@nil byte)) with 0 in Eb. assert (n = 0) as E0 by lia.
  rewrite E0, (proj2 (Z.eqb_neq (_next_seqno s) 0)) in Eskip by lia. simpl in Eskip. zbool.
  rewrite Hfin in Eback, Hat by done. destruct (Hat eq_refl) as [Hf ?]. simpl in Eback.
  rewrite fin_in_queue in Eback by done. zbool. lia.
Qed.

Lemma send_readable_ok :
  can_send s = true ->
  fill_result (send_readable s (_window_size s - _byted_in_flight s) (_next_seqno s =? 0)).
Proof using Hs.
  intros Ec. destruct inv_numbers as (Hr0 & Hle & Hf0 & Ebuf).
  pose proof (i_window _ _ _ Hs). pose proof (i_near _ _ _ Hs). pose proof (i_read _ _ _ Hs) as Hrd.
  pose proof (i_bound _ _ _ Hs). pose proof (i_una _ _ _ Hs). pose proof (i_next _ _ _ Hs) as Hnx. zlen_pose.
  assert (_byted_in_flight s < _window_size s) as Hroom by (unfold can_send in Ec; zbool; lia).
  unfold send_readable. rewrite Ebuf. set (n := Z.min _ _).
  assert (sendable s = n) as En by (unfold sendable; by rewrite Ec).
  destruct (read_stream W una s n Hs) as (b & -> & Hwf & Hbr & Hby & Hie & Hcp & Hcl & Hne); [lia|].
  cbn [mbind outcome_bind]. change (_stream (set_stream s b)) with b.
  change (_is_fin_received (set_stream s b)) with (_is_fin_received s).
  change (_seg_queue (set_stream s b)) with (_seg_queue s).
  assert (ByteStream.eof b = true -> ended s = true /\ bytes_read s + n = zlen W) as Heof
    by (apply (read_to_end b n); (done || lia)).
  assert (n = 0 -> (_next_seqno s =? 0) = false -> ~ fin_due W s -> fill_result (Ret (set_stream s b))) as Hnone.
  { intros E0 Enx Hdue. exists b, [], (_next_seqno s), false. split; [done|].
    apply (filled_nothing W una); rewrite ?En, ?Enx, ?andb_false_r; try done.
    - rewrite Hbr. lia.
    - rewrite Hby. do 2 f_equal. lia. }
  set (at_end := ByteStream.eof b && negb (_is_fin_received s)).
  set (fin := at_end && (uint64 (n + 1) <=? _)).
  assert (fin_due W s -> fin = true) as Hdue.
  { intros (_ & He & Hn2 & Hnoe & Hall & Hfit). rewrite En in *. subst fin at_end.
    rewrite (eof_unclogged b), (i_fin _ _ _ Hs), uint64_small by (auto || (unfold is_u64; lia) || congruence ||
      (rewrite Hby; apply drop_ge; unfold zlen in *; lia)).
    rewrite (proj2 (Z.eqb_neq una _)), (proj2 (Z.leb_le _ _)) by lia. done. }
  destruct (at_end && match last (_seg_queue s) with Some back => is_fin back | None => false end) eqn:Eback.
  { subst at_end. zbool. rewrite fin_in_queue in * by done. zbool. destruct (Heof ltac:(done)) as [_ ?].
    apply Hnone; [lia|apply Z.eqb_neq; lia|]. intros (_ & _ & Hn2 & _). lia. }
  destruct ((n =? 0) && negb ((_next_seqno s =? 0) || fin)) eqn:Eskip.
  { zbool. apply Hnone; [done|by apply Z.eqb_neq|]. intros E. rewrite Hdue in * by done. done. }
  assert (fin = true -> at_end = true /\ n + 1 <= _window_size s - _byted_in_flight s) as Hfin.
  { subst fin. intros E. apply andb_true_iff in E as [E1 E2].
    rewrite uint64_small in E2 by (unfold is_u64; lia). zbool. done. }
  assert (fin = true -> ended s = true /\ bytes_read s + n = zlen W) as Hfin'.
  { intros E. apply Heof. destruct (Hfin E) as [E1 _]. subst at_end. zbool. done. }
  assert (zlen (slice W (bytes_read s) n) = n) as Hzd by (apply zlen_slice_le; lia).
  assert (_next_seqno s <> 2 + bytes_read s) as Hnofin.
  { apply (nothing_after_fin n at_end fin); try done; [lia| |by intros; apply Hfin].
    subst at_end. intros E. zbool. split; [done|]. by apply Heof. }
  destruct (segment_loop_ok W (ended s) fin (slice W (bytes_read s) n) (bytes_read s))
    with (fuel := S (Z.to_nat (n / TCPConfig.MAX_PAYLOAD_SIZE)))
         (h := set_flags TCPHeader.default (_next_seqno s =? 0) fin (TCPHeader.seqno TCPHeader.default))
         (index := 0) (readable := n) (s := set_stream s b) as (segs & E & Hsegs & Hpay);
    rewrite ?Hzd; cbn [_next_seqno _byted_in_flight _isn set_stream]; try done; try lia.
  - unfold TCPConfig.MAX_PAYLOAD_SIZE. pose proof (Z.div_pos n 1000). lia.
  - destruct (Z.eqb_spec n 0) as [E0|]; [|lia]. simpl in Eskip. zbool.
    apply orb_true_iff in Eskip as [?|?]; zbool; auto.
  - rewrite E. exists b, segs, (_next_seqno s + n + (if _next_seqno s =? 0 then 1 else 0) + (if fin then 1 else 0)), fin.
    split; [done|]. rewrite <- En in *. split; rewrite ?Ec; try done.
    + intros Ef. destruct (Hfin Ef) as [_ ?]. destruct (Hfin' Ef). done.
    + split; [done|]. intros Ef. destruct (Hfin Ef) as [Ea ?]. destruct (Hfin' Ef). split_and!; try done.
      rewrite <- Hcl. apply eof_clogged. subst at_end. zbool. done.
Qed.

Lemma fill_window_ok : fill_result (fill_window s).
Proof using Hs.
  destruct inv_numbers as (Hr0 & Hle & Hf0 & Ebuf). pose proof (queue_head _ _ _ Hs) as Hhead.
  pose proof (i_syn _ _ _ Hs) as Hsyn. pose proof (i_window _ _ _ Hs). pose proof (i_una _ _ _ Hs).
  unfold fill_window. destruct (_byted_in_flight s <? _window_size s) eqn:Er.
  2: { apply fill_nothing. unfold can_send. by rewrite Er. }
  zbool. rewrite uint64_small by (unfold is_u64; lia). rewrite (proj2 (Z.eqb_neq _ _)) by lia.
  assert (can_send s = _is_syn_received s || (_next_seqno s =? 0)) as Ec
    by (unfold can_send; by rewrite (proj2 (Z.ltb_lt _ _))).
  destruct (_is_syn_received s); symmetry in Hsyn; zbool.
  - replace false with (_next_seqno s =? 0) by (apply Z.eqb_neq; lia). apply send_readable_ok. by rewrite Ec.
  - destruct (head (_seg_queue s)) as [front|].
    + destruct Hhead as [-> Hlt]. rewrite (proj2 (Z.eqb_eq _ _)) by lia. apply fill_nothing.
      rewrite Ec. apply Z.eqb_neq. lia.
    + assert ((_next_seqno s =? 0) = true) as E0 by (apply Z.eqb_eq; lia).
      replace true with (_next_seqno s =? 0). apply send_readable_ok. by rewrite Ec.
Qed.

End Fill.

(** [fill_window] keeps the invariant. *)
Lemma filled_inv W una s b segs z f :
  inv W una s -> filled W s b segs z f ->
  let s' := fold_left push_segment segs (set_stream s b) in
  inv W una s' /\ _next_seqno s' = z /\ _stream s' = b /\ _segments_out s' = _segments_out s ++ segs
  /\ _window_size s' = _window_size s /\ _isn s' = _isn s.
Proof.
  intros Hs Hf. destruct (inv_numbers W una s Hs) as (Hr0 & Hle & Hf0 & Ebuf).
  pose proof Hs as [? ? Hwr Hrd ? Hnx Hq ? Hfl ? ? Hsy Hfi Hout]. destruct Hf as [Fw Fr Fb Fe _ Fn Fs Fp Fz Ff _].
  zlen_pose.
  assert (0 <= sendable s <= zlen (buffered s)
    /\ (can_send s = true -> _byted_in_flight s + sendable s <= _window_size s)
    /\ (can_send s = false -> sendable s = 0)) as (Hsd & Hsw & Hs0).
  { unfold sendable, can_send. destruct (_byted_in_flight s <? _window_size s) eqn:Er; zbool; simpl.
    - destruct (_ || _); lia.
    - lia. }
  assert (z - una <= 65536 /\ z < 2 ^ 63 + 10) as [Hz Hzb].
  { destruct (_next_seqno s =? 0) eqn:E0; zbool; destruct f, (can_send s); simpl in Fz;
      try (destruct Ff as (Ec & Ff); [done|]); try done; lia. }
  cbv zeta. rewrite (push_segments (_isn s) W (ended s) segs (set_stream s b) z);
    cbn [_next_seqno _byted_in_flight _isn set_stream]; try done; try lia.
  split; [|done]. assert (buffered s = [] -> sendable s = 0) as Hnil
    by (intros E; rewrite E in Hsd; change (zlen (@nil byte)) with 0 in Hsd; lia).
  assert (f = true -> ByteStream.bytes b = []) as Hall.
  { intros E. rewrite Fb. apply drop_ge. destruct (Ff E) as (_ & _ & _ & ? & _). unfold zlen in *. lia. }
  split; unfold bytes_read, buffered, ended; simpl; rewrite ?Fr, ?Fe; try done; try lia.
  - rewrite Fb, zlen_drop. lia.
  - destruct f.
    + destruct (Ff eq_refl) as (Ec & ? & ? & ? & ?). rewrite Ec in Fz. simpl in Fz.
      right; right. split; [|auto]. destruct (_next_seqno s =? 0) eqn:E0; zbool; lia.
    + destruct (can_send s); simpl in Fz; [|rewrite Hs0 in * by done].
      * destruct (_next_seqno s =? 0) eqn:E0; zbool; destruct Hnx as [(? & ? & ?)|[?|(? & ? & Eb)]]; try lia;
          [right; left; lia..|]. pose proof (Hnil Eb). right; right. split; [lia|]. split; [done|].
        rewrite Fb. replace (bytes_read s + sendable s) with (bytes_read s) by lia. by rewrite <- Hwr.
      * destruct Hnx as [(? & ? & ?)|[?|(? & ? & Eb)]]; [left; lia|right; left; lia|].
        right; right. split; [lia|]. split; [done|]. rewrite Fb, Z.add_0_r. by rewrite <- Hwr.
  - rewrite fmap_app. apply (segs_ok_app _ _ _ _ _ _ (_next_seqno s)); [done|].
    rewrite <- list_fmap_compose. by rewrite list_fmap_id.
  - rewrite Hfi. destruct (Z.eq_dec (sendable s) 0) as [->|]; [by rewrite Z.add_0_r|].
    transitivity false; [apply Z.eqb_neq|symmetry; apply Z.eqb_neq];
      destruct Hnx as [(? & ? & ?)|[?|(? & ? & Eb)]]; try lia; pose proof (Hnil Eb); lia.
  - apply Forall_app. split; [|by apply (segs_ok_emitted _ _ _ _ (_next_seqno s) z)].
    apply (Forall_impl _ _ _ Hout). intros seg. apply emitted_later. by apply segs_ok_le in Fs.
Qed.

(** ** Acknowledgments *)

Definition segs_in_flight (s : t) : list TCPSegment.t := TCPSenderSegment.seg <$> _seg_queue s.

(** The members that an acknowledgment and a tick leave alone. *)
Definition same_stream (s s' : t) : Prop :=
  _isn s' = _isn s /\ _stream s' = _stream s /\ _next_seqno s' = _next_seqno s
  /\ _initial_retransmission_timeout s' = _initial_retransmission_timeout s
  /\ _last_tick_time s' = _last_tick_time s.

Lemma front_unwrap W una s x q :
  inv W una s -> _seg_queue s = x :: q ->
  unwrap (TCPSenderSegment.seqno x) (_isn s) (_next_seqno s) = una
  /\ TCPSenderSegment.length x = seg_length (TCPSenderSegment.seg x)
  /\ 0 < seg_length (TCPSenderSegment.seg x) /\ una + seg_length (TCPSenderSegment.seg x) <= _next_seqno s
  /\ _next_seqno s < 2 ^ 64 /\ _next_seqno s <= 2 + bytes_read s
  /\ is_syn x = (una =? 0)
  /\ is_fin x = (una + seg_length (TCPSenderSegment.seg x) =? bytes_read s + 2).
Proof.
  intros Hs Eq. destruct (inv_numbers W una s Hs) as (Hr0 & Hle & Hf0 & _).
  pose proof Hs as [Hi _ _ Hrd Hbd Hnx Hqq Hu Hfl _ Hnear _ _ _]. rewrite Eq in Hqq. simpl in Hqq.
  destruct Hqq as (H1 & H2 & H3). destruct (seg_ok_length _ _ _ _ _ H1) as [El _].
  pose proof (segs_ok_le _ _ _ _ _ _ H3) as Hle'. pose proof H1 as [_ Hsq Hsyn _ Hend Hfin _]. zlen_pose.
  assert (_next_seqno s <= 2 + bytes_read s) as Hn2 by (destruct Hnx as [(?&?&?)|[?|(?&?&?)]]; lia).
  split_and!; try done; try lia.
  - unfold TCPSenderSegment.seqno. rewrite Hsq. apply unwrap_wrap_near; [done|unfold is_u64; lia..|lia].
  - change (is_fin x) with (seg_fin (TCPSenderSegment.seg x)).
    destruct (seg_fin (TCPSenderSegment.seg x)) eqn:Ef; symmetry; [apply Z.eqb_eq|apply Z.eqb_neq];
      unfold seg_length in *; rewrite Hsyn, Ef in *; destruct (una =? 0) eqn:E0; zbool.
    + destruct (Hfin eq_refl). lia.
    + destruct (Hfin eq_refl). lia.
    + destruct Hnx as [(?&?&?)|[?|(?&?&Eb)]]; try lia. rewrite Eb in Hrd. change (zlen (@nil byte)) with 0 in Hrd. lia.
    + destruct Hnx as [(?&?&?)|[?|(?&?&Eb)]]; try lia. rewrite Eb in Hrd. change (zlen (@nil byte)) with 0 in Hrd. lia.
Qed.

(** The state after the front segment has left the queue. *)
Definition popped_front (s : t) (x : TCPSenderSegment.t) (q : list TCPSenderSegment.t) : t :=
  mk (_isn s) (_segments_out s) (_initial_retransmission_timeout s) (_stream s)
     (if is_syn x && negb (_is_syn_received s) then true else _is_syn_received s)
     (if is_fin x && negb (_is_fin_received s) then true else _is_fin_received s)
     (_last_tick_time s) 0 (_window_size s) (_is_window_zero s)
     (uint64 (_byted_in_flight s - TCPSenderSegment.length x)) q (_next_seqno s).

Lemma pop_front_inv W una s x q :
  inv W una s -> _seg_queue s = x :: q ->
  inv W (una + seg_length (TCPSenderSegment.seg x)) (popped_front s x q).
Proof.
  intros Hs Eq. destruct (front_unwrap W una s x q Hs Eq) as (_ & El & Hp & Hl & Hb & Hn2 & Esyn & Efin).
  destruct (inv_numbers W una s Hs) as (Hr0 & Hle & Hf0 & _).
  pose proof Hs as [Hi Hst Hwr Hrd Hbd Hnx Hqq Hu Hfl Hw Hnear Hsy Hfi Hout].
  rewrite Eq in Hqq. destruct Hqq as (_ & _ & H3). unfold popped_front.
  rewrite El, Hfl, uint64_small by (unfold is_u64; lia).
  split; unfold bytes_read, buffered, ended in *; simpl; try done; try lia.
  - rewrite Esyn, Hsy. destruct (una =? 0) eqn:E0, (0 <? una) eqn:E1; zbool; simpl; try lia;
      symmetry; apply Z.ltb_lt; lia.
  - rewrite Efin, Hfi, (proj2 (Z.eqb_neq una _)) by lia. by destruct (_ + _ =? _).
Qed.

Lemma pop_acked_ok W k q una s restart :
  inv W una s -> _seg_queue s = q ->
  exists una' s' n, pop_acked k q s restart = (s', restart || bool_decide (0 < n)%nat)
    /\ inv W una' s' /\ _seg_queue s' = drop n q /\ una <= una' <= Z.max una k
    /\ same_stream s s' /\ _window_size s' = _window_size s /\ _segments_out s' = _segments_out s
    /\ _consecutive_retrans s' = (if bool_decide (0 < n)%nat then 0 else _consecutive_retrans s)
    /\ match _seg_queue s' with x :: _ => k < una' + seg_length (TCPSenderSegment.seg x) | [] => True end.
Proof.
  revert una s restart. induction q as [|x q IH]; intros una s restart Hs Eq; cbn [pop_acked].
  { exists una, s, 0%nat. rewrite Eq, orb_false_r. simpl.
    replace (set_seg_queue s []) with s by (rewrite <- Eq; by destruct s). split_and!; try done; lia. }
  destruct (front_unwrap W una s x q Hs Eq) as (Eu & El & Hp & Hl & Hb & Hn2 & _).
  pose proof (i_una _ _ _ Hs). rewrite Eu, El, uint64_small by (unfold is_u64; lia).
  destruct (Z.leb_spec (una + seg_length (TCPSenderSegment.seg x)) k) as [Hk|Hk].
  - rewrite <- El. fold (popped_front s x q).
    destruct (IH (una + seg_length (TCPSenderSegment.seg x)) (popped_front s x q) true)
      as (una' & s' & n & -> & Hs' & Eq' & Hu & Hss & Hw & Ho & Hr & Hfr); [by apply pop_front_inv|done|].
    exists una', s', (S n). rewrite (bool_decide_eq_true_2 (0 < S n)%nat), orb_true_r by lia.
    split_and!; try done; try lia. rewrite Hr. by case_bool_decide.
  - exists una, s, 0%nat. rewrite orb_false_r.
    replace (set_seg_queue s (x :: q)) with s by (rewrite <- Eq; by destruct s).
    rewrite Eq. split_and!; try done; lia.
Qed.

Lemma set_window_inv W una s w z :
  inv W una s -> 1 <= w <= 65535 -> 0 < _next_seqno s \/ w = 1 -> inv W una (set_window s w z).
Proof.
  intros Hs Hw Hn. pose proof (inv_numbers W una s Hs) as (Hr0 & _). destruct Hs. split; try done.
  unfold bytes_read, buffered, ended in *. simpl.
  destruct i_next0 as [(? & ? & ?)|Hx]; [destruct Hn; [lia|by left]|by right].
Qed.

(** Timers are not part of the invariant. *)
Lemma sender_set_queue_inv W una s q :
  inv W una s -> TCPSenderSegment.seg <$> q = segs_in_flight s -> inv W una (set_seg_queue s q).
Proof. intros Hs Eq. destruct Hs. split; try done. simpl. by rewrite Eq. Qed.

Lemma segs_drop n (q : list TCPSenderSegment.t) : TCPSenderSegment.seg <$> drop n q = drop n (TCPSenderSegment.seg <$> q).
Proof. apply fmap_drop. Qed.

(** An acknowledgment beyond what was sent changes nothing; any other sets the
    window and removes from the queue exactly the segments it covers. *)
Lemma ack_received_ok W una s ackno w :
  inv W una s -> is_u16 w -> 0 < _next_seqno s \/ w <= 1 ->
  let k := unwrap ackno (_isn s) (_next_seqno s) in
  let s' := ack_received s ackno w in
  if _next_seqno s <? k then s' = s
  else exists una' n, inv W una' s' /\ una <= una' <= Z.max una k /\ same_stream s s'
    /\ _window_size s' = Z.max 1 w /\ _segments_out s' = _segments_out s
    /\ segs_in_flight s' = drop n (segs_in_flight s)
    /\ _consecutive_retrans s' = (if bool_decide (0 < n)%nat then 0 else _consecutive_retrans s)
    /\ match segs_in_flight s' with x :: _ => k < una' + seg_length x | [] => True end.
Proof.
  intros Hs Hw Hn k s'. unfold is_u16 in Hw. subst s'. unfold ack_received. fold k. case_if; [done|].
  set (s1 := if w =? 0 then _ else _).
  assert (inv W una s1 /\ _window_size s1 = Z.max 1 w /\ _seg_queue s1 = _seg_queue s
    /\ same_stream s s1 /\ _segments_out s1 = _segments_out s
    /\ _consecutive_retrans s1 = _consecutive_retrans s) as (Hs1 & Ew & Eq & Hss & Eo & Er).
  { subst s1. destruct (w =? 0) eqn:E; zbool; (split; [apply set_window_inv; [done|lia|lia]|]);
      simpl; split_and!; try done; lia. }
  clearbody s1. destruct (pop_acked_ok W k (_seg_queue s1) una s1 false Hs1 eq_refl)
    as (una' & s2 & n & -> & Hs2 & Eq2 & Hu & Hss2 & Ew2 & Eo2 & Er2 & Hfr). simpl orb.
  assert (same_stream s s2) as Hss' by (unfold same_stream in *; intuition congruence).
  exists una', n. rewrite Eq in Eq2.
  assert (segs_in_flight s2 = drop n (segs_in_flight s)) as Esg by (unfold segs_in_flight; by rewrite Eq2, segs_drop).
  destruct (_seg_queue s2) as [|x q] eqn:Eq3.
  { split_and!; try done; try lia; try congruence; [by rewrite Er2, Er|].
    unfold segs_in_flight. by rewrite Eq3. }
  assert (match segs_in_flight s2 with y :: _ => k < una' + seg_length y | [] => True end) as Hfr'
    by (unfold segs_in_flight; by rewrite Eq3).
  case_bool_decide.
  2: { split_and!; try done; try lia; try congruence. }
  split_and!; try done; try lia; try congruence.
  - apply sender_set_queue_inv; [done|]. unfold segs_in_flight. by rewrite Eq3.
  - simpl. congruence.
  - simpl. congruence.
  - rewrite <- Esg. unfold segs_in_flight. by rewrite Eq3.
Qed.

(** ** Time *)

(** The timer of the oldest segment has run out at time [now]. *)
Definition expired (x : TCPSenderSegment.t) (now : Z) : bool :=
  uint64 (TCPSenderSegment.time x + TCPSenderSegment.rto x) <=? now.

Lemma sender_tick_inv W una s ms : inv W una s -> inv W una (tick s ms).
Proof.
  intros Hs. unfold tick. destruct (_seg_queue s) as [|x q] eqn:Eq; cbn [_seg_queue].
  { destruct Hs. rewrite Eq in *. by split. }
  pose proof (i_queue _ _ _ Hs) as Hq. rewrite Eq in Hq. destruct Hq as (Hx & _).
  case_if; destruct Hs; rewrite Eq in *; split; try done.
  simpl. apply Forall_app. split; [done|]. constructor; [|constructor]. left. exists una. split; [done|].
  destruct i_queue0 as (_ & _ & Hq). by apply segs_ok_le in Hq.
Qed.

Lemma send_empty_inv W una s : inv W una s -> inv W una (send_empty_segment s).
Proof.
  intros Hs. pose proof (inv_numbers W una s Hs) as (Hr0 & Hle & _). unfold send_empty_segment.
  destruct Hs. split; try done. simpl. apply Forall_app. split; [done|]. constructor; [|constructor].
  right. exists (_next_seqno s). split; [lia|done].
Qed.

(** ** The application's side *)

Lemma write_inv W una s data :
  inv W una s -> ended s = false -> zlen W + zlen data < 2 ^ 63 ->
  exists w n, ByteStream.write (_stream s) data = (w, n) /\ n = zlen (ByteStream.accepted (_stream s) data)
    /\ inv (W ++ ByteStream.accepted (_stream s) data) una (set_stream s w).
Proof.
  intros Hs He Hb. zlen_pose.
  destruct (ByteStream.write_spec (_stream s) data) as (Hw & Hby & Hn & _ & Hr & Hie & _); [apply Hs|lia|].
  destruct (ByteStream.write (_stream s) data) as [w n] eqn:E. simpl in *. exists w, n.
  split; [done|]. split; [done|]. set (acc := ByteStream.accepted _ _) in *.
  assert (zlen acc <= zlen data) by (unfold acc, ByteStream.accepted; rewrite zlen_take; lia).
  destruct (inv_numbers W una s Hs) as (Hr0 & _).
  assert (forall e, ended s = true -> acc = [] /\ e = true) as Hx by (intros e; by rewrite He).
  pose proof Hs as [? ? Hwr Hrd ? Hnx Hq ? ? ? ? ? ? Hout]. rewrite He in *. zlen_pose.
  split; unfold bytes_read, buffered, ended in *; simpl; rewrite ?Hby, ?Hr, ?Hie; try done.
  - rewrite Hwr. rewrite drop_app_le by (unfold zlen in *; lia). done.
  - rewrite !zlen_app. lia.
  - rewrite zlen_app. lia.
  - destruct Hnx as [?|[?|(? & ? & ?)]]; [by left|by right; left|done].
  - rewrite He. apply segs_ok_extend with (ended := false); done.
  - rewrite He. apply (Forall_impl _ _ _ Hout). intros seg. by apply emitted_extend.
Qed.

Lemma end_input_inv W una s : inv W una s -> inv W una (set_stream s (ByteStream.end_input (_stream s))).
Proof.
  intros Hs. assert (ended s = true -> @nil byte = [] /\ true = true) as Hx by done.
  pose proof Hs as [? ? ? ? ? Hnx Hq ? ? ? ? ? ? Hout].
  split; unfold bytes_read, buffered, ended in *; simpl; try done.
  - by apply ByteStream.end_input_wf.
  - destruct Hnx as [?|[?|(? & ? & ?)]]; [by left|by right; left|by right; right].
  - rewrite <- (app_nil_r W). by apply segs_ok_extend with (ended := ByteStream.is_input_end (_stream s)).
  - apply (Forall_impl _ _ _ Hout). intros seg He. rewrite <- (app_nil_r W).
    by apply emitted_extend with (ended := ByteStream.is_input_end (_stream s)).
Qed.

(** ** Sequences of calls *)

Inductive op :=
  | Write (data : string)
  | EndInput
  | FillWindow
  | Ack (ackno : WrappingInt32) (window_size : Z)
  | Tick (ms : Z)
  | SendEmpty
  | Drain.

(** The reply: the bytes the stream accepted, the segments taken from the queue. *)
Definition step (s : t) (o : op) : outcome (t * (string * list TCPSegment.t)) :=
  match o with
  | Write data =>
      let '(stream, n) := ByteStream.write (_stream s) data in
      Ret (set_stream s stream, (take (Z.to_nat n) data, []))
  | EndInput => Ret (set_stream s (ByteStream.end_input (_stream s)), ([], []))
  | FillWindow => s' ← fill_window s; Ret (s', ([], []))
  | Ack ackno window_size => Ret (ack_received s ackno window_size, ([], []))
  | Tick ms => Ret (tick s ms, ([], []))
  | SendEmpty => Ret (send_empty_segment s, ([], []))
  | Drain => Ret (set_segments_out s [], ([], _segments_out s))
  end.

(** The application writes nothing after the end of its stream, whose length stays
    below [2^63]; no window above one byte is announced before the SYN is sent. *)
Definition valid (s : t) (o : op) : Prop :=
  match o with
  | Write data => ended s = false /\ ByteStream.bytes_written (_stream s) + zlen data < 2 ^ 63
  | Ack _ w => is_u16 w /\ (0 < _next_seqno s \/ w <= 1)
  | _ => True
  end.

(** [W] was written and [sent] taken from the queue. *)
Definition sending (g : string * list TCPSegment.t) (s : t) : Prop :=
  exists una, inv (fst g) una s /\ Forall (emitted (_isn s) (fst g) (ended s) (_next_seqno s)) (snd g).

Definition log (g r : string * list TCPSegment.t) : string * list TCPSegment.t :=
  (fst g ++ fst r, snd g ++ snd r).

Lemma bytes_written_inv W una s : inv W una s -> ByteStream.bytes_written (_stream s) = zlen W.
Proof.
  intros Hs. destruct (inv_numbers W una s Hs) as (Hr0 & _). unfold ByteStream.bytes_written.
  rewrite (ByteStream.wf_written _ (i_stream _ _ _ Hs)). pose proof (i_read _ _ _ Hs) as Hrd.
  pose proof (i_bound _ _ _ Hs). unfold bytes_read, buffered in *. zlen_pose. rewrite Hrd. nowrap. done.
Qed.

Lemma sending_step g s o :
  sending g s -> valid s o -> exists s' r, step s o = Ret (s', r) /\ sending (log g r) s' /\ _isn s' = _isn s.
Proof.
  destruct g as [W sent]. intros (una & Hs & Hsent) Hv. unfold log. simpl in *.
  assert (forall s', inv W una s' -> _isn s' = _isn s -> ended s' = ended s -> _next_seqno s <= _next_seqno s' ->
    sending (W ++ [], sent ++ []) s' /\ _isn s' = _isn s) as Hkeep.
  { intros s' H1 H2 H3 H4. split; [|done]. exists una. simpl. rewrite !app_nil_r, H2, H3. split; [done|].
    apply (Forall_impl _ _ _ Hsent). intros seg. by apply emitted_later. }
  destruct o as [data| | |ackno w|ms| |]; simpl in *.
  - destruct Hv as [He Hb]. rewrite (bytes_written_inv W una s Hs) in Hb.
    destruct (write_inv W una s data Hs He Hb) as (w & n & E & -> & Hs'). rewrite E.
    do 2 eexists. split; [done|]. simpl.
    assert (take (Z.to_nat (zlen (ByteStream.accepted (_stream s) data))) data = ByteStream.accepted (_stream s) data) as ->.
    { unfold ByteStream.accepted, zlen. rewrite Nat2Z.id, length_take.
      destruct (Nat.min_spec (Z.to_nat (ByteStream._capacity (_stream s) - Z.of_nat (length (ByteStream.bytes (_stream s)))))
        (length data)) as [[? ->]|[? ->]]; [done|]. by rewrite !take_ge by lia. }
    split; [|done]. exists una. split; [done|]. simpl. rewrite app_nil_r. apply (Forall_impl _ _ _ Hsent). intros seg.
    apply emitted_extend. by rewrite He.
  - do 2 eexists. split; [done|]. split; [|done]. exists una. simpl. rewrite !app_nil_r. split; [by apply end_input_inv|].
    apply (Forall_impl _ _ _ Hsent). intros seg Hseg. rewrite <- (app_nil_r W).
    by apply emitted_extend with (ended := ended s).
  - destruct (fill_window_ok W una s Hs) as (b & segs & z & f & -> & Hf). simpl.
    destruct (filled_inv W una s b segs z f Hs Hf) as (Hs' & Enx & Est & _ & _ & Ei).
    do 2 eexists. split; [done|]. apply Hkeep; [done|done| |].
    + unfold ended. rewrite Est. apply Hf.
    + rewrite Enx. apply (segs_ok_le _ _ _ _ _ _ (f_segs _ _ _ _ _ _ Hf)).
  - do 2 eexists. split; [done|]. destruct Hv as [Hw Hn]. pose proof (ack_received_ok W una s ackno w Hs Hw Hn) as Ha.
    cbv zeta in Ha. destruct (_ <? unwrap _ _ _); [rewrite Ha; by apply Hkeep; [..|lia]|].
    destruct Ha as (una' & n & Hs' & _ & (Ei & Est & En & _) & _). split; [|done].
    exists una'. simpl. rewrite !app_nil_r, Ei, En. unfold ended. rewrite Est. done.
  - do 2 eexists. split; [done|].
    assert (_isn (tick s ms) = _isn s /\ _stream (tick s ms) = _stream s
      /\ _next_seqno (tick s ms) = _next_seqno s) as (Ei & Est & En).
    { unfold tick. simpl. destruct (_seg_queue s); [done|]. by case_if. }
    apply Hkeep; [by apply sender_tick_inv|done| |lia]. unfold ended. by rewrite Est.
  - do 2 eexists. split; [done|]. apply Hkeep; [by apply send_empty_inv|done|done|simpl; lia].
  - do 2 eexists. split; [done|]. split; [|done]. exists una. simpl. rewrite app_nil_r.
    pose proof (i_out _ _ _ Hs) as Ho. split; [|by apply Forall_app]. destruct Hs. by split.
Qed.

Lemma fold_log rs g :
  fold_left log rs g = (fst g ++ concat (fst <$> rs), snd g ++ concat (snd <$> rs)).
Proof.
  revert g. induction rs as [|r rs IH]; intros [W sent]; simpl; [by rewrite !app_nil_r|].
  rewrite IH. simpl. by rewrite <- !app_assoc.
Qed.

(** A run never throws; [W] is what was written, [sent] what was taken from the queue. *)
Lemma sender_run_ok c rto f random ops :
  is_u64 c -> wi_ok (default (mkWrappingInt32 random) f) ->
  valid_run step valid (new c rto f random) ops ->
  exists s rs, run step (new c rto f random) ops = Ret (s, rs)
    /\ sending (concat (fst <$> rs), concat (snd <$> rs)) s
    /\ _isn s = default (mkWrappingInt32 random) f.
Proof.
  intros Hc Hi Hv.
  destruct (run_ghost step valid (fun g s => sending g s /\ _isn s = default (mkWrappingInt32 random) f) log)
    with (ops := ops) (g := ([] : string, [] : list TCPSegment.t)) (s := new c rto f random)
    as (s & rs & E & Hs & Ei); [|split; [|done]|done|].
  - intros g s o [Hs Ei] Ho. destruct (sending_step g s o Hs Ho) as (s' & r & E & Hs' & Ei').
    exists s', r. split; [done|]. split; [done|congruence].
  - exists 0. split; [by apply sender_new_inv|constructor].
  - rewrite fold_log in Hs. eauto.
Qed.

(** ** Retransmission *)

(** Ticks that do not reach the timeout send nothing. *)
Lemma tick_quiet s x q ms :
  _seg_queue s = x :: q -> 0 <= ms -> 0 <= _last_tick_time s ->
  TCPSenderSegment.time x + TCPSenderSegment.rto x < 2 ^ 64 ->
  0 <= TCPSenderSegment.time x -> 0 <= TCPSenderSegment.rto x ->
  _last_tick_time s + ms < TCPSenderSegment.time x + TCPSenderSegment.rto x ->
  let s' := tick s ms in
  _segments_out s' = _segments_out s /\ _seg_queue s' = x :: q /\ _last_tick_time s' = _last_tick_time s + ms
  /\ _consecutive_retrans s' = _consecutive_retrans s.
Proof.
  intros Eq Hms Hl Hb Ht Hr Hlt. unfold tick. simpl. rewrite Eq. nowrap.
  by rewrite (proj2 (Z.leb_gt _ _)) by lia.
Qed.

Lemma tick_expires s x q ms :
  _seg_queue s = x :: q -> 0 <= ms -> 0 <= _last_tick_time s -> _last_tick_time s + ms < 2 ^ 64 ->
  0 <= TCPSenderSegment.time x -> 0 <= TCPSenderSegment.rto x ->
  TCPSenderSegment.time x + TCPSenderSegment.rto x <= _last_tick_time s + ms ->
  2 * TCPSenderSegment.rto x < 2 ^ 64 -> 0 <= _consecutive_retrans s < 2 ^ 64 - 1 ->
  let s' := tick s ms in
  _segments_out s' = _segments_out s ++ [TCPSenderSegment.seg x]
  /\ _seg_queue s' = TCPSenderSegment.mk (TCPSenderSegment.seg x)
       (if _is_window_zero s then TCPSenderSegment.rto x else 2 * TCPSenderSegment.rto x) (_last_tick_time s + ms) :: q
  /\ _last_tick_time s' = _last_tick_time s + ms /\ _consecutive_retrans s' = _consecutive_retrans s + 1
  /\ _is_window_zero s' = _is_window_zero s.
Proof.
  intros Eq Hms Hl Hb Ht Hr Hle Hr2 Hc. unfold tick. simpl. rewrite Eq. nowrap.
  rewrite (proj2 (Z.leb_le _ _)) by lia. simpl. rewrite (Z.mul_comm 2). done.
Qed.

(** The retransmission timer as RFC 6298 and the lab describe it: it runs out once the
    timeout has elapsed, and then starts again with the timeout doubled, or kept
    while the peer's window is zero. *)
Record timer := Timer { timeout : Z; elapsed : Z; fired : nat }.

Definition timer_tick (window_zero : bool) (t : timer) (ms : Z) : timer :=
  if timeout t <=? elapsed t + ms
  then Timer (if window_zero then timeout t else 2 * timeout t) 0 (S (fired t))
  else Timer (timeout t) (elapsed t + ms) (fired t).

Lemma timer_timeout zero ms t :
  exists k, fired (fold_left (timer_tick zero) ms t) = (fired t + k)%nat /\ (k <= length ms)%nat
    /\ timeout (fold_left (timer_tick zero) ms t) = (if zero then timeout t else timeout t * 2 ^ Z.of_nat k).
Proof.
  revert t. induction ms as [|m ms IH]; intros t; simpl.
  { exists 0%nat. split_and!; [lia|lia|destruct zero; lia]. }
  destruct (IH (timer_tick zero t m)) as (k & E1 & Hk & E2). rewrite E1, E2. unfold timer_tick. case_if; simpl.
  - exists (S k). split_and!; [lia|lia|]. destruct zero; [done|]. rewrite Nat2Z.inj_succ, Z.pow_succ_r by lia. lia.
  - exists k. split_and!; [lia|lia|done].
Qed.

(** What [n] timeouts have made of the sender [s0] with [x] at the front of its queue. *)
Record timed (s0 : t) (x : TCPSenderSegment.t) (q : list TCPSenderSegment.t) (tm : timer) (s : t) : Prop := {
  tm_out : _segments_out s = _segments_out s0 ++ replicate (fired tm) (TCPSenderSegment.seg x);
  tm_queue : _seg_queue s
             = TCPSenderSegment.mk (TCPSenderSegment.seg x) (timeout tm) (_last_tick_time s - elapsed tm) :: q;
  tm_count : _consecutive_retrans s = _consecutive_retrans s0 + Z.of_nat (fired tm);
  tm_zero : _is_window_zero s = _is_window_zero s0;
  tm_rto : 0 < TCPSenderSegment.rto x;
  tm_elapsed : 0 <= elapsed tm <= _last_tick_time s;
  tm_timeout : 0 < timeout tm <= TCPSenderSegment.rto x + 2 * _last_tick_time s
}.

Lemma timed_tick s0 x q tm s ms :
  timed s0 x q tm s -> 0 <= ms -> TCPSenderSegment.rto x + 3 * (_last_tick_time s + ms) < 2 ^ 64 ->
  0 <= _consecutive_retrans s0 -> _consecutive_retrans s0 + Z.of_nat (fired tm) < 2 ^ 32 ->
  timed s0 x q (timer_tick (_is_window_zero s0) tm ms) (tick s ms)
  /\ _last_tick_time (tick s ms) = _last_tick_time s + ms.
Proof.
  intros [Eo Eq Ec Ez Hr He Ht] Hms Hb Hc0 Hc. unfold timer_tick. destruct (Z.leb_spec (timeout tm) (elapsed tm + ms)).
  - destruct (tick_expires s _ q ms Eq) as (F1 & F2 & F3 & F4 & F5);
      cbn [TCPSenderSegment.time TCPSenderSegment.rto TCPSenderSegment.seg]; try lia.
    split; [|done]. split; rewrite ?F1, ?F2, ?F3, ?F4, ?F5; cbn [timeout elapsed fired];
      rewrite ?Eo, ?Ez, <- ?app_assoc, ?Z.sub_0_r; try done; try lia; [|destruct (_is_window_zero s0); lia].
    by rewrite replicate_S_end.
  - destruct (tick_quiet s _ q ms Eq) as (F1 & F2 & F3 & F4);
      cbn [TCPSenderSegment.time TCPSenderSegment.rto TCPSenderSegment.seg]; try lia.
    assert (_is_window_zero (tick s ms) = _is_window_zero s) as F5
      by (unfold tick; cbn [_seg_queue]; rewrite Eq; by case_if).
    split; [|done]. split; rewrite ?F1, ?F2, ?F3, ?F4, ?F5; cbn [timeout elapsed fired]; try done; try lia.
    do 2 f_equal. lia.
Qed.

Lemma timed_ticks s0 x q ms tm s :
  timed s0 x q tm s -> Forall (fun m => 0 <= m) ms ->
  TCPSenderSegment.rto x + 3 * (_last_tick_time s + foldr Z.add 0 ms) < 2 ^ 64 ->
  0 <= _consecutive_retrans s0 -> _consecutive_retrans s0 + Z.of_nat (fired tm) + zlen ms < 2 ^ 32 ->
  timed s0 x q (fold_left (timer_tick (_is_window_zero s0)) ms tm) (fold_left tick ms s)
  /\ _last_tick_time (fold_left tick ms s) = _last_tick_time s + foldr Z.add 0 ms.
Proof.
  intros Hs Hms. revert tm s Hs. induction Hms as [|m ms Hm Hms IH]; intros tm s Hs Hb Hc0 Hc; simpl in *.
  { split; [done|lia]. }
  assert (0 <= foldr Z.add 0 ms) by (clear -Hms; induction Hms; simpl; lia). rewrite zlen_cons in Hc. zlen_pose.
  destruct (timed_tick s0 x q tm s m Hs Hm) as [Hs1 El]; [lia|done|lia|].
  destruct (IH _ _ Hs1) as [Hs2 E2]; [lia|done| |].
  { unfold timer_tick. case_if; cbn [fired]; lia. }
  split; [done|lia].
Qed.

End TCPSender.

(** ** Properties *)

(** C3: Through any sequence of writes, window fills, acknowledgments (of any
    number, honest or not), ticks and empty segments, the sender never throws,
    provided that nothing is written after the end of the stream, that the stream
    stays below 2^63 bytes, and that no window above 1 is announced before the SYN
    has been sent ([syn_repeated] shows what that would do). Every segment it ever
    queued is an empty one or the part of the application's stream that its sequence
    number announces: the SYN at number 0, byte [k] at number [k + 1], the FIN after
    the last byte and only once the stream has ended, at most 1000 bytes each. The
    segments in flight cover the numbers from the first unacknowledged one to the
    next one to be sent without gap or overlap, and [bytes_in_flight] is their total
    length. *)
Theorem sender_sends_stream (c rto : Z) (f : option WrappingInt32) (random : Z) (ops : list TCPSender.op) :
  let i := default (mkWrappingInt32 random) f in
  is_u64 c -> wi_ok i ->
  valid_run TCPSender.step TCPSender.valid (TCPSender.new c rto f random) ops ->
  exists s rs una, run TCPSender.step (TCPSender.new c rto f random) ops = Ret (s, rs) /\
    let W := concat (fst <$> rs) in
    Forall (TCPSender.emitted i W (TCPSender.ended s) (TCPSender.next_seqno_absolute s)) (concat (snd <$> rs) ++ TCPSender.segments_out s) /\
    TCPSender.segs_ok i W (TCPSender.ended s) una (TCPSender.segs_in_flight s) (TCPSender.next_seqno_absolute s) /\
    TCPSender.bytes_in_flight s = TCPSender.next_seqno_absolute s - una /\
    TCPSender.is_syn_received s = (0 <? una) /\
    (TCPSender.is_fin_received s = true <-> una = zlen W + 2).
Proof.
  intros i Hc Hi Hv. destruct (TCPSender.sender_run_ok c rto f random ops Hc Hi Hv) as (s & rs & E & (una & Hs & Hse) & Ei).
  exists s, rs, una. split; [done|]. simpl in Hs, Hse. fold i in Ei. rewrite Ei in Hse.
  pose proof (TCPSender.i_out _ _ _ Hs) as Ho. pose proof (TCPSender.i_queue _ _ _ Hs) as Hq. rewrite Ei in Ho, Hq.
  split_and!; [by apply Forall_app|done|apply Hs|apply Hs|].
  unfold TCPSender.is_fin_received. rewrite (TCPSender.i_fin _ _ _ Hs), Z.eqb_eq.
  destruct (TCPSender.inv_numbers _ _ _ Hs) as (Hr0 & Hle & _). pose proof (TCPSender.i_read _ _ _ Hs) as Hrd.
  destruct (TCPSender.i_next _ _ _ Hs) as [(? & ? & ?)|[?|(? & ? & Eb)]];
    try rewrite Eb in Hrd; try change (zlen (@nil byte)) with 0 in Hrd; zlen_pose; lia.
Qed.

(** C23: one call of [fill_window] in a state of the sender's invariant sends exactly
    the bytes that fit in the rest of the window (none while the SYN is in flight),
    in order, in segments of at most 1000 bytes that continue the sequence numbers;
    the window is not exceeded, except that the SYN is not counted in it.  The FIN
    goes with the last byte exactly when the stream has ended, all of it has been
    sent, there is room for it and none was sent before; but not if the last write
    to the stream found it full, for then the stream does not report its end. *)
Theorem fill_window_fills (W : string) (una : Z) (s : TCPSender.t) :
  TCPSender.inv W una s ->
  exists s' segs, TCPSender.fill_window s = Ret s' /\ TCPSender.inv W una s' /\
    TCPSender.segments_out s' = TCPSender.segments_out s ++ segs /\
    concat (TCPSender.payload_bytes <$> segs) = slice W (TCPSender.bytes_read s) (TCPSender.sendable s) /\
    TCPSender.segs_ok (TCPSender._isn s) W (TCPSender.ended s)
      (TCPSender.next_seqno_absolute s) segs (TCPSender.next_seqno_absolute s') /\
    (segs <> [] -> TCPSender.bytes_in_flight s'
                   <= TCPSender._window_size s + (if TCPSender.next_seqno_absolute s =? 0 then 1 else 0)) /\
    (TCPSender.next_seqno_absolute s' = zlen W + 2
     <-> TCPSender.next_seqno_absolute s = zlen W + 2 \/ TCPSender.fin_due W s).
Proof.
  intros Hs. destruct (TCPSender.fill_window_ok W una s Hs) as (b & segs & z & f & -> & Hf).
  destruct (TCPSender.filled_inv W una s b segs z f Hs Hf) as (Hs' & Ez & Est & Eo & Ew & Ei).
  destruct (TCPSender.inv_numbers _ _ _ Hs) as (Hr0 & Hle & Hf0 & _).
  eexists _, segs. unfold TCPSender.next_seqno_absolute, TCPSender.bytes_in_flight.
  split; [done|]. split; [done|]. rewrite Ez. split; [done|]. split; [apply Hf|]. split; [apply Hf|].
  pose proof (TCPSender.f_next _ _ _ _ _ _ Hf) as Fz. pose proof (TCPSender.f_fin _ _ _ _ _ _ Hf) as Ff.
  pose proof (TCPSender.i_flight _ _ _ Hs) as Hfl. split.
  - intros Hne. rewrite (TCPSender.i_flight _ _ _ Hs'), Ez.
    assert (TCPSender.can_send s = true) as Ec.
    { destruct (TCPSender.can_send s) eqn:Ec; [done|]. exfalso. apply Hne.
      assert (f = false) as -> by (destruct f; [destruct (Ff eq_refl); congruence|done]).
      unfold TCPSender.sendable in Fz. rewrite Ec in Fz. simpl in Fz.
      pose proof (TCPSender.f_segs _ _ _ _ _ _ Hf) as Hsg. destruct segs as [|x segs]; [done|].
      destruct Hsg as (_ & Hp & Hsg). apply TCPSender.segs_ok_le in Hsg. lia. }
    rewrite Ec in Fz. simpl in Fz.
    assert (TCPSender.sendable s <= TCPSender._window_size s - TCPSender._byted_in_flight s)
      by (unfold TCPSender.sendable; rewrite Ec; lia).
    destruct f; [destruct (Ff eq_refl) as (_ & _ & _ & _ & ?)|]; destruct (_ =? 0); lia.
  - rewrite (TCPSender.f_fin_due _ _ _ _ _ _ Hf). pose proof (TCPSender.i_read _ _ _ Hs) as Hrd.
    assert (0 <= TCPSender.sendable s <= zlen (TCPSender.buffered s)) as Hsd.
    { unfold TCPSender.sendable, TCPSender.can_send. zlen_pose. case_if; [zbool|]; lia. }
    destruct f.
    + destruct (Ff eq_refl) as (Ec & _ & Hn2 & Hall & _). rewrite Ec in Fz. simpl in Fz.
      split; [by right|intros _]. destruct (TCPSender.i_next _ _ _ Hs) as [(E0 & ? & ?)|[E0|(? & ? & ?)]];
        [| |lia]; rewrite E0 in *; [simpl in Fz; lia|].
      rewrite (proj2 (Z.eqb_neq _ 0)) in Fz by lia. lia.
    + split; [intros E2; left|intros [E2|?]; [|done]];
        destruct (TCPSender.i_next _ _ _ Hs) as [(E0 & ? & ?)|[E0|(E0 & ? & Eb)]]; zlen_pose; rewrite E0 in *;
        try (rewrite Eb in *; change (zlen (@nil byte)) with 0 in *); repeat case_match; zbool; lia.
Qed.

(** C24: an acknowledgment of more than was sent is ignored; any other one sets the
    window (a window of 0 counting as 1), and removes from the front of the queue
    exactly the segments it covers completely; nothing else is sent or dropped,
    and the retransmission count is reset only if a segment was acknowledged. *)
Theorem ack_received_pops (W : string) (una : Z) (s : TCPSender.t) (ackno : WrappingInt32) (w : Z) :
  TCPSender.inv W una s -> is_u16 w -> 0 < TCPSender.next_seqno_absolute s \/ w <= 1 ->
  let k := unwrap ackno (TCPSender._isn s) (TCPSender.next_seqno_absolute s) in
  let s' := TCPSender.ack_received s ackno w in
  if TCPSender.next_seqno_absolute s <? k then s' = s
  else exists una' n, TCPSender.inv W una' s' /\ una <= una' <= Z.max una k /\
    TCPSender._window_size s' = Z.max 1 w /\
    TCPSender.segments_out s' = TCPSender.segments_out s /\
    TCPSender.segs_in_flight s' = drop n (TCPSender.segs_in_flight s) /\
    TCPSender._consecutive_retrans s' = (if bool_decide (0 < n)%nat then 0 else TCPSender._consecutive_retrans s) /\
    match TCPSender.segs_in_flight s' with x :: _ => k < una' + TCPSender.seg_length x | [] => True end.
Proof.
  intros Hs Hw Hn k s'. pose proof (TCPSender.ack_received_ok W una s ackno w Hs Hw Hn) as Ha. cbv zeta in Ha.
  fold k s' in Ha. change (TCPSender._next_seqno s) with (TCPSender.next_seqno_absolute s) in Ha.
  destruct (_ <? _); [done|]. destruct Ha as (una' & n & H1 & H2 & _ & H3 & H4 & H5 & H6 & H7).
  exists una', n. done.
Qed.

(** C25: through any sequence of ticks with no acknowledgment between them, the sender
    is the retransmission timer of its oldest segment: each time the timeout has
    elapsed since the last transmission that segment, and only it, is queued again
    once; then the timeout is doubled, but kept while the peer has announced a zero
    window, and the count grows by one.  So after [n] retransmissions the timeout
    is [r * 2^n], or still [r] with a zero window.  The times must not reach the
    end of the 64-bit clock, nor the count 2^32. *)
Theorem sender_backoff (s : TCPSender.t) (x : TCPSenderSegment.t) (q : list TCPSenderSegment.t) (ms : list Z) :
  TCPSender._seg_queue s = x :: q -> 0 < TCPSenderSegment.rto x ->
  0 <= TCPSenderSegment.time x <= TCPSender._last_tick_time s -> Forall (fun m => 0 <= m) ms ->
  TCPSenderSegment.rto x + 3 * (TCPSender._last_tick_time s + foldr Z.add 0 ms) < 2 ^ 64 ->
  0 <= TCPSender._consecutive_retrans s -> TCPSender._consecutive_retrans s + zlen ms < 2 ^ 32 ->
  let zero := TCPSender._is_window_zero s in
  let start := TCPSender.Timer (TCPSenderSegment.rto x)
                 (TCPSender._last_tick_time s - TCPSenderSegment.time x) 0 in
  let tm := fold_left (TCPSender.timer_tick zero) ms start in
  let s' := fold_left TCPSender.tick ms s in
  TCPSender.segments_out s' = TCPSender.segments_out s ++ replicate (TCPSender.fired tm) (TCPSenderSegment.seg x) /\
  TCPSender._seg_queue s' = TCPSenderSegment.mk (TCPSenderSegment.seg x) (TCPSender.timeout tm)
                              (TCPSender._last_tick_time s' - TCPSender.elapsed tm) :: q /\
  TCPSender.consecutive_retransmissions s' = TCPSender._consecutive_retrans s + Z.of_nat (TCPSender.fired tm) /\
  TCPSender.timeout tm
  = (if zero then TCPSenderSegment.rto x else TCPSenderSegment.rto x * 2 ^ Z.of_nat (TCPSender.fired tm)).
Proof.
  intros Eq Hr Ht Hms Hb Hc0 Hc zero start tm s'.
  assert (TCPSender.timed s x q start s) as Hs0.
  { split; simpl; rewrite ?app_nil_r; try done; try lia. rewrite Eq. f_equal. destruct x; simpl in *. f_equal. lia. }
  destruct (TCPSender.timed_ticks s x q ms start s Hs0) as [[E1 E2 E3 _ _ _ _] _]; [done|lia|done|simpl; lia|].
  fold zero tm s' in E1, E2, E3. destruct (TCPSender.timer_timeout zero ms start) as (k & Ef & Hk & Et).
  fold tm in Ef, Et. simpl in Ef. unfold zlen in Hc. split; [done|]. split; [done|]. split.
  - unfold TCPSender.consecutive_retransmissions. rewrite E3. nowrap. done.
  - rewrite Et, Ef. simpl. done.
Qed.

(** A header flag survives the turns of the segmentation loop: when a large
    window is announced before the SYN was sent, every segment of the first call
    of [fill_window] carries the SYN flag. *)
Theorem syn_repeated :
  exists s, run TCPSender.step (TCPSender.new 64000 1000 (Some (mkWrappingInt32 7)) 0)
      [TCPSender.Ack (mkWrappingInt32 7) 5000; TCPSender.Write (replicate 1500 Byte.x61); TCPSender.FillWindow]
    = Ret (s, [([], []); (replicate 1500 Byte.x61, []); ([], [])]) /\
  TCPSender.seg_syn <$> TCPSender.segments_out s = [true; true] /\
  zlen <$> (TCPSender.payload_bytes <$> TCPSender.segments_out s) = [1000; 500].
Proof. eexists. split; [vm_compute; reflexivity|]. split; vm_compute; reflexivity. Qed.

(** An established connection with two bytes in flight and two in the stream. *)
Definition example_sender_ops : list TCPSender.op :=
  [TCPSender.FillWindow; TCPSender.Drain; TCPSender.Ack (mkWrappingInt32 0) 3;
   TCPSender.Write [Byte.x61; Byte.x62]; TCPSender.FillWindow; TCPSender.Tick 500; TCPSender.EndInput].
Definition example_sender_start : TCPSender.t := TCPSender.new 64 1000 (Some (mkWrappingInt32 4294967295)) 0.
Definition example_sender : TCPSender.t :=
  match run TCPSender.step example_sender_start example_sender_ops with
  | Ret (s, _) => s
  | Throw _ => example_sender_start
  end.

Ltac valid_step := split; [|vm_compute TCPSender.step; cbn iota].

Lemma example_sender_valid :
  valid_run TCPSender.step TCPSender.valid example_sender_start example_sender_ops.
Proof.
  valid_step; [done|]. valid_step; [done|]. valid_step; [split; [split; lia|left; vm_compute; reflexivity]|].
  valid_step; [split; [reflexivity|vm_compute; reflexivity]|]. valid_step; [done|]. valid_step; [done|].
  valid_step; [done|]. exact I.
Qed.

Lemma example_sender_inv : exists una, TCPSender.inv [Byte.x61; Byte.x62] una example_sender.
Proof.
  destruct (TCPSender.sender_run_ok 64 1000 (Some (mkWrappingInt32 4294967295)) 0 example_sender_ops)
    as (s & rs & E & (una & Hs & _) & _).
  - split; lia.
  - split; vm_compute; (reflexivity || discriminate).
  - exact example_sender_valid.
  - exists una. unfold example_sender, example_sender_start. rewrite E.
    assert (concat (fst <$> rs) = [Byte.x61; Byte.x62]) as <-; [|exact Hs].
    vm_compute in E. injection E as <- <-. vm_compute. reflexivity.
Qed.

Lemma sender_sends_stream_witness :
  exists s rs una, run TCPSender.step example_sender_start example_sender_ops = Ret (s, rs) /\
    TCPSender.bytes_in_flight s = TCPSender.next_seqno_absolute s - una.
Proof.
  destruct (sender_sends_stream 64 1000 (Some (mkWrappingInt32 4294967295)) 0 example_sender_ops)
    as (s & rs & una & E & _ & _ & Hf & _).
  - split; lia.
  - split; vm_compute; (reflexivity || discriminate).
  - exact example_sender_valid.
  - exists s, rs, una. split; [exact E|exact Hf].
Defined.

Lemma fill_window_fills_witness :
  exists s' segs, TCPSender.fill_window example_sender = Ret s' /\
    TCPSender.segments_out s' = TCPSender.segments_out example_sender ++ segs /\
    TCPSender.next_seqno_absolute s' = zlen [Byte.x61; Byte.x62] + 2.
Proof.
  destruct example_sender_inv as [una Hs].
  destruct (fill_window_fills [Byte.x61; Byte.x62] una example_sender Hs)
    as (s' & segs & E & _ & Eo & _ & _ & _ & Hfin).
  exists s', segs. split; [exact E|]. split; [exact Eo|]. apply Hfin. right.
  split; [vm_compute; reflexivity|]. split; [vm_compute; reflexivity|].
  split; [vm_compute; discriminate|]. split; [vm_compute; reflexivity|].
  split; [vm_compute; reflexivity|vm_compute; discriminate].
Defined.

Lemma ack_received_pops_witness :
  exists una' n, TCPSender.inv [Byte.x61; Byte.x62] una'
      (TCPSender.ack_received example_sender (mkWrappingInt32 2) 0) /\
    TCPSender.segs_in_flight (TCPSender.ack_received example_sender (mkWrappingInt32 2) 0)
      = drop n (TCPSender.segs_in_flight example_sender).
Proof.
  destruct example_sender_inv as [una Hs].
  assert (is_u16 0) as Hw by (split; lia).
  pose proof (ack_received_pops [Byte.x61; Byte.x62] una example_sender (mkWrappingInt32 2) 0 Hs Hw
    (or_intror (Z.le_0_1))) as H. cbv zeta in H.
  assert ((TCPSender.next_seqno_absolute example_sender
           <? unwrap (mkWrappingInt32 2) (TCPSender._isn example_sender)
                (TCPSender.next_seqno_absolute example_sender)) = false) as Ek by (vm_compute; reflexivity).
  rewrite Ek in H. destruct H as (una' & n & Hinv & _ & _ & _ & Hq & _).
  exists una', n. split; [exact Hinv|exact Hq].
Defined.

Lemma sender_backoff_witness :
  exists s x q, TCPSender._seg_queue s = x :: q /\
    TCPSender.segments_out (fold_left TCPSender.tick [400; 700; 1999; 1; 3000] s)
      = TCPSender.segments_out s ++ replicate 2 (TCPSenderSegment.seg x).
Proof.
  set (s := match TCPSender.fill_window example_sender_start with Ret s => s | Throw _ => example_sender_start end).
  set (x := match TCPSender._seg_queue s with x :: _ => x | [] => TCPSenderSegment.mk TCPSegment.default 0 0 end).
  assert (TCPSender._seg_queue s = [x]) as Eq by (vm_compute; reflexivity).
  exists s, x, []. split; [exact Eq|].
  apply (sender_backoff s x [] [400; 700; 1999; 1; 3000]); try (vm_compute; reflexivity).
  - split; vm_compute; discriminate.
  - repeat constructor; discriminate.
  - vm_compute; discriminate.
Defined.
