(* ===== verification/TCPConnection.v ===== *)
(** * The TCP connection (tcp_connection.hh, tcp_connection.cc, tcp_helpers/tcp_state.hh/.cc)

    An endpoint: a sender, a receiver and the flags that decide when it is over.
    [TCPState] summarises an endpoint in the words of the TCP standard.

    The theorems extend the invariants of the sender and of the receiver to the
    endpoint and say how it ends: by a reset, after too many retransmissions, or
    once both streams are finished. *)

From S2P Require Import Prelude WrappingIntegers SpongeBuffer ByteStream BufferString StreamReassembler.
From S2P Require Import UtilBuffer Parser TCPSegment TCPReceiver TCPSender.

Module TCPConnection.

Record t := mk {
  _cfg : TCPConfig.t;
  _receiver : TCPReceiver.t;
  _sender : TCPSender.t;
  _segments_out : list TCPSegment.t;
  _linger_after_streams_finish : bool;
  _is_rst : bool;
  _last_received_time : Z;
  _send_fin_first : bool
}.

(** [random] is the number the random device gives to the sender. *)
Definition new (cfg : TCPConfig.t) (random : Z) : t :=
  mk cfg (TCPReceiver.new (TCPConfig.recv_capacity cfg))
     (TCPSender.new (TCPConfig.send_capacity cfg) (TCPConfig.rt_timeout cfg) (TCPConfig.fixed_isn cfg) random)
     [] true false 0 true.

Definition set_sender (c : t) (s : TCPSender.t) : t :=
  mk (_cfg c) (_receiver c) s (_segments_out c) (_linger_after_streams_finish c) (_is_rst c)
     (_last_received_time c) (_send_fin_first c).
Definition set_receiver (c : t) (r : TCPReceiver.t) : t :=
  mk (_cfg c) r (_sender c) (_segments_out c) (_linger_after_streams_finish c) (_is_rst c)
     (_last_received_time c) (_send_fin_first c).
Definition set_segments_out (c : t) (q : list TCPSegment.t) : t :=
  mk (_cfg c) (_receiver c) (_sender c) q (_linger_after_streams_finish c) (_is_rst c)
     (_last_received_time c) (_send_fin_first c).
Definition set_linger (c : t) (b : bool) : t :=
  mk (_cfg c) (_receiver c) (_sender c) (_segments_out c) b (_is_rst c) (_last_received_time c) (_send_fin_first c).
Definition set_last_received_time (c : t) (n : Z) : t :=
  mk (_cfg c) (_receiver c) (_sender c) (_segments_out c) (_linger_after_streams_finish c) (_is_rst c)
     n (_send_fin_first c).
Definition set_send_fin_first (c : t) (b : bool) : t :=
  mk (_cfg c) (_receiver c) (_sender c) (_segments_out c) (_linger_after_streams_finish c) (_is_rst c)
     (_last_received_time c) b.

Definition remaining_outbound_capacity (c : t) : Z :=
  ByteStream.remaining_capacity (TCPSender.stream_in (_sender c)).
Definition bytes_in_flight (c : t) : Z := TCPSender.bytes_in_flight (_sender c).
Definition unassembled_bytes (c : t) : Z := TCPReceiver.unassembled_bytes (_receiver c).
Definition time_since_last_segment_received (c : t) : Z := _last_received_time c.
Definition inbound_stream (c : t) : ByteStream.t := TCPReceiver.stream_out (_receiver c).
Definition segments_out (c : t) : list TCPSegment.t := _segments_out c.

Definition active (c : t) : bool :=
  if _is_rst c then false else
  if TCPSender.is_fin_received (_sender c) && ByteStream.eof (TCPReceiver.stream_out (_receiver c))
     && negb (_linger_after_streams_finish c)
  then false else true.

Definition _set_rst (c : t) : t :=
  let s := TCPSender.set_stream (_sender c) (ByteStream.set_error (TCPSender.stream_in (_sender c))) in
  let r := TCPReceiver.set_stream_out (_receiver c) (ByteStream.set_error (TCPReceiver.stream_out (_receiver c))) in
  mk (_cfg c) r s (_segments_out c) (_linger_after_streams_finish c) true
     (_last_received_time c) (_send_fin_first c).

(** The header fields that come from the receiver. *)
Definition fill_ack (r : TCPReceiver.t) (seg : TCPSegment.t) : TCPSegment.t :=
  let h := TCPSegment.header seg in
  let ack := match TCPReceiver.ackno r with Some _ => true | None => TCPHeader.ack h end in
  let ackno := match TCPReceiver.ackno r with Some a => a | None => TCPHeader.ackno h end in
  TCPSegment.mk
    (TCPHeader.mk (TCPHeader.sport h) (TCPHeader.dport h) (TCPHeader.seqno h) ackno (TCPHeader.doff h)
       (TCPHeader.urg h) ack (TCPHeader.psh h) (TCPHeader.rst h) (TCPHeader.syn h) (TCPHeader.fin h)
       (Z.min 65535 (TCPReceiver.window_size r)) (TCPHeader.cksum h) (TCPHeader.uptr h))
    (TCPSegment.payload seg).

(** The loop moves every segment of the sender to the connection's own queue.  (The
    code copies a segment after it has popped it, through a reference that is no
    longer valid; the definition takes the value from before the pop.) *)
Definition _send_ack_if_need (c : t) : t :=
  set_segments_out
    (set_sender c (TCPSender.set_segments_out (_sender c) []))
    (_segments_out c ++ (fill_ack (_receiver c) <$> TCPSender.segments_out (_sender c))).

Definition _send_rst_to_peer (c : t) : t :=
  let c := set_sender c (TCPSender.set_segments_out (_sender c) []) in
  let h := TCPHeader.default in
  let seg := TCPSegment.mk
    (TCPHeader.mk (TCPHeader.sport h) (TCPHeader.dport h) (TCPSender.next_seqno (_sender c)) (TCPHeader.ackno h)
       (TCPHeader.doff h) (TCPHeader.urg h) (TCPHeader.ack h) (TCPHeader.psh h) true (TCPHeader.syn h)
       (TCPHeader.fin h) (TCPHeader.win h) (TCPHeader.cksum h) (TCPHeader.uptr h)) Buffer.null in
  _set_rst (set_segments_out c (_segments_out c ++ [seg])).

(** The last part of [segment_received]: new data, or an acknowledgment of what
    occupies sequence numbers. *)
Definition reply (c : t) (seg : TCPSegment.t) : outcome t :=
  s ← (if TCPSender.is_syn_received (_sender c) || TCPHeader.syn (TCPSegment.header seg)
       then TCPSender.fill_window (_sender c) else Ret (_sender c));
  let should_send_empty_ack :=
    if negb (Buffer.size (TCPSegment.payload seg) =? 0) then true
    else (Buffer.size (TCPSegment.payload seg) =? 0) && (1 <=? TCPSegment.length_in_sequence_space seg) in
  let s := if match TCPSender.segments_out s with [] => true | _ => false end && should_send_empty_ack
           then TCPSender.send_empty_segment s else s in
  Ret (_send_ack_if_need (set_sender c s)).

Definition segment_received (c : t) (seg : TCPSegment.t) : outcome t :=
  let h := TCPSegment.header seg in
  let c := set_last_received_time c 0 in
  if TCPHeader.rst h then Ret (_set_rst c) else
  if negb (active c) then Ret c else
  if TCPSender.is_fin_received (_sender c) && ByteStream.eof (TCPReceiver.stream_out (_receiver c))
     && (_send_fin_first c && negb (TCPHeader.fin h)) then Ret c else
  let c := if TCPHeader.ack h
           then set_sender c (TCPSender.ack_received (_sender c) (TCPHeader.ackno h) (TCPHeader.win h)) else c in
  r ← TCPReceiver.segment_received (_receiver c) seg;
  let c := set_receiver c r in
  let c := if negb (bool_decide (TCPReceiver.fsn (_receiver c) = None))
              && negb (ByteStream.eof (TCPSender.stream_in (_sender c)))
           then set_send_fin_first c false else c in
  let c := if TCPSender.is_syn_received (_sender c) && ByteStream.eof (TCPReceiver.stream_out (_receiver c))
              && negb (_send_fin_first c)
           then set_linger c false else c in
  let keep_alive :=
    match TCPReceiver.ackno (_receiver c) with
    | Some a => (TCPSegment.length_in_sequence_space seg =? 0) && wi_eqb (wi_sub a 1) (TCPHeader.seqno h)
    | None => false
    end in
  if keep_alive
  then Ret (_send_ack_if_need (set_sender c (TCPSender.send_empty_segment (_sender c))))
  else reply c seg.

(** The number of bytes accepted and the new state. *)
Definition write (c : t) (data : string) : outcome (Z * t) :=
  let '(stream, result) := ByteStream.write (TCPSender.stream_in (_sender c)) data in
  s ← TCPSender.fill_window (TCPSender.set_stream (_sender c) stream);
  Ret (result, _send_ack_if_need (set_sender c s)).

Definition tick (c : t) (ms_since_last_tick : Z) : t :=
  if TCPConfig.MAX_RETX_ATTEMPTS <=? TCPSender.consecutive_retransmissions (_sender c) then _send_rst_to_peer c else
  let c := if TCPSender.is_syn_received (_sender c) && ByteStream.eof (TCPReceiver.stream_out (_receiver c))
              && _linger_after_streams_finish c
           then if 10 * TCPConfig.rt_timeout (_cfg c) <=? uint64 (_last_received_time c + ms_since_last_tick)
                then set_linger c false else c
           else c in
  let c := set_sender c (TCPSender.tick (_sender c) ms_since_last_tick) in
  let c := set_last_received_time c (uint64 (_last_received_time c + ms_since_last_tick)) in
  _send_ack_if_need c.

Definition end_input_stream (c : t) : outcome t :=
  s ← TCPSender.fill_window (TCPSender.set_stream (_sender c)
        (ByteStream.end_input (TCPSender.stream_in (_sender c))));
  Ret (_send_ack_if_need (set_sender c s)).

Definition connect (c : t) : outcome t :=
  s ← TCPSender.fill_window (_sender c);
  Ret (_send_ack_if_need (set_sender c s)).

(** The destructor: a connection that is still open sends a RST. *)
Definition destroy (c : t) : t := if active c then _send_rst_to_peer c else c.

End TCPConnection.

Module TCPState.

(** The summaries, which the source writes as strings. *)
Inductive receiver_summary := R_ERROR | R_LISTEN | R_SYN_RECV | R_FIN_RECV.
Inductive sender_summary := S_ERROR | S_CLOSED | S_SYN_SENT | S_SYN_ACKED | S_FIN_SENT | S_FIN_ACKED.

#[export] Instance receiver_summary_eq_dec : EqDecision receiver_summary.
Proof. solve_decision. Defined.
#[export] Instance sender_summary_eq_dec : EqDecision sender_summary.
Proof. solve_decision. Defined.

Record t := mk {
  _sender : sender_summary;
  _receiver : receiver_summary;
  _active : bool;
  _linger_after_streams_finish : bool
}.

#[export] Instance t_eq_dec : EqDecision t.
Proof. solve_decision. Defined.

Inductive State :=
  | LISTEN | SYN_RCVD | SYN_SENT | ESTABLISHED | CLOSE_WAIT | LAST_ACK | FIN_WAIT_1 | FIN_WAIT_2
  | CLOSING | TIME_WAIT | CLOSED | RESET.

Definition of_State (state : State) : t :=
  match state with
  | LISTEN => mk S_CLOSED R_LISTEN true true
  | SYN_RCVD => mk S_SYN_SENT R_SYN_RECV true true
  | SYN_SENT => mk S_SYN_SENT R_LISTEN true true
  | ESTABLISHED => mk S_SYN_ACKED R_SYN_RECV true true
  | CLOSE_WAIT => mk S_SYN_ACKED R_FIN_RECV true false
  | LAST_ACK => mk S_FIN_SENT R_FIN_RECV true false
  | CLOSING => mk S_FIN_SENT R_FIN_RECV true true
  | FIN_WAIT_1 => mk S_FIN_SENT R_SYN_RECV true true
  | FIN_WAIT_2 => mk S_FIN_ACKED R_SYN_RECV true true
  | TIME_WAIT => mk S_FIN_ACKED R_FIN_RECV true true
  | RESET => mk S_ERROR R_ERROR false false
  | CLOSED => mk S_FIN_ACKED R_FIN_RECV false false
  end.

Definition eqb (a b : t) : bool :=
  Bool.eqb (_active a) (_active b)
  && Bool.eqb (_linger_after_streams_finish a) (_linger_after_streams_finish b)
  && bool_decide (_sender a = _sender b) && bool_decide (_receiver a = _receiver b).

Definition receiver_state_summary (receiver : TCPReceiver.t) : receiver_summary :=
  if ByteStream.error (TCPReceiver.stream_out receiver) then R_ERROR
  else if bool_decide (TCPReceiver.ackno receiver = None) then R_LISTEN
  else if ByteStream.input_ended (TCPReceiver.stream_out receiver) then R_FIN_RECV
  else R_SYN_RECV.

Definition sender_state_summary (sender : TCPSender.t) : sender_summary :=
  if ByteStream.error (TCPSender.stream_in sender) then S_ERROR
  else if TCPSender.next_seqno_absolute sender =? 0 then S_CLOSED
  else if TCPSender.next_seqno_absolute sender =? TCPSender.bytes_in_flight sender then S_SYN_SENT
  else if negb (ByteStream.eof (TCPSender.stream_in sender)) then S_SYN_ACKED
  else if TCPSender.next_seqno_absolute sender
          <? uint64 (ByteStream.bytes_written (TCPSender.stream_in sender) + 2) then S_SYN_ACKED
  else if negb (TCPSender.bytes_in_flight sender =? 0) then S_FIN_SENT
  else S_FIN_ACKED.

Definition of_parts (sender : TCPSender.t) (receiver : TCPReceiver.t) (active linger : bool) : t :=
  mk (sender_state_summary sender) (receiver_state_summary receiver) active (if active then linger else false).

(** [TCPConnection::state()] *)
Definition state (c : TCPConnection.t) : t :=
  of_parts (TCPConnection._sender c) (TCPConnection._receiver c) (TCPConnection.active c)
    (TCPConnection._linger_after_streams_finish c).

End TCPState.

Module ConnectionSpec.
Import TCPConnection.

(** ** Sequences of calls *)

Inductive op :=
  | Segment (seg : TCPSegment.t)
  | Write (data : string)
  | EndInput
  | Connect
  | Tick (ms : Z)
  | Read (len : Z)
  | Drain.

(** What the outside sees: bytes accepted from the application, segments given to
    the network, bytes given to the application. *)
Record seen := Seen { written : string; sent : list TCPSegment.t; got : string }.
Definition nothing : seen := Seen [] [] [].
Definition add (g r : seen) : seen :=
  Seen (written g ++ written r) (sent g ++ sent r) (got g ++ got r).

Definition step (c : t) (o : op) : outcome (t * seen) :=
  match o with
  | Segment seg => c' ← segment_received c seg; Ret (c', nothing)
  | Write data => '(n, c') ← write c data; Ret (c', Seen (take (Z.to_nat n) data) [] [])
  | EndInput => c' ← end_input_stream c; Ret (c', nothing)
  | Connect => c' ← connect c; Ret (c', nothing)
  | Tick ms => Ret (tick c ms, nothing)
  | Read len =>
      '(d, s) ← ByteStream.read (inbound_stream c) (Z.min len (ByteStream.buffer_size (inbound_stream c)));
      Ret (set_receiver c (TCPReceiver.set_stream_out (_receiver c) s), Seen [] [] d)
  | Drain => Ret (set_segments_out c [], Seen [] (segments_out c) [])
  end.

(** The application writes nothing after the end of its stream; a segment of the
    peer (unless it is a RST or meets a dead connection) is one that the receiver
    and the sender may get. *)
Definition valid (i : WrappingInt32) (D : string) (c : t) (o : op) : Prop :=
  match o with
  | Segment seg =>
      TCPHeader.rst (TCPSegment.header seg) = true \/ active c = false \/
      (TCPReceiver.valid i D (_receiver c) (TCPReceiver.Segment seg)
       /\ (TCPHeader.ack (TCPSegment.header seg) = true ->
           TCPSender.valid (_sender c) (TCPSender.Ack (TCPHeader.ackno (TCPSegment.header seg))
                                                       (TCPHeader.win (TCPSegment.header seg)))))
  | Write data => TCPSender.valid (_sender c) (TCPSender.Write data)
  | Read len => 0 <= len
  | _ => True
  end.

Section Safety.
Context (cap : Z) (i_peer : WrappingInt32) (D : string) (i_own : WrappingInt32).
Hypothesis Hcap : is_u64 cap.
Hypothesis Hpeer : wi_ok i_peer.
Hypothesis HD : 1 + zlen D < 2 ^ 64 - 1.

(** The sender's half of the invariant. *)
Definition sender_ok (W : string) (segs : list TCPSegment.t) (c : t) : Prop :=
  exists una, TCPSender.inv W una (_sender c) /\ TCPSender._isn (_sender c) = i_own
    /\ Forall (TCPSender.emitted i_own W (TCPSender.ended (_sender c)) (TCPSender._next_seqno (_sender c)))
         (segs ++ _segments_out c).

(** The receiver's half: after a reset its stream is marked, nothing else changed. *)
Definition mark (r : TCPReceiver.t) : TCPReceiver.t :=
  TCPReceiver.set_stream_out r (ByteStream.set_error (TCPReceiver.stream_out r)).
Definition receiver_ok (out : string) (c : t) : Prop :=
  exists r, TCPReceiver.reading cap i_peer D out r
    /\ (_receiver c = r \/ (_is_rst c = true /\ _receiver c = mark r)).

Definition inv (g : seen) (c : t) : Prop :=
  sender_ok (written g) (sent g) c /\ receiver_ok (got g) c.

Lemma emitted_fill_ack W e next r seg :
  TCPSender.emitted i_own W e next seg -> TCPSender.emitted i_own W e next (fill_ack r seg).
Proof using. intros [(a & [] & Hn)|H]; [left; exists a; split; [by split|exact Hn]|right; done]. Qed.

Lemma send_ack_ok W segs c : sender_ok W segs c -> sender_ok W segs (_send_ack_if_need c).
Proof using.
  intros (una & Hs & Ei & Hf). exists una. split; [|split; [done|]].
  - destruct Hs. by split.
  - simpl. rewrite app_assoc. apply Forall_app. split; [done|].
    apply Forall_fmap. pose proof (TCPSender.i_out _ _ _ Hs) as Ho. rewrite Ei in Ho.
    apply (Forall_impl _ _ _ Ho). intros seg. apply emitted_fill_ack.
Qed.

Lemma set_sender_ok W segs c una s :
  sender_ok W segs c -> TCPSender.inv W una s -> TCPSender._isn s = TCPSender._isn (_sender c) ->
  TCPSender.ended s = TCPSender.ended (_sender c) ->
  TCPSender._next_seqno (_sender c) <= TCPSender._next_seqno s -> sender_ok W segs (set_sender c s).
Proof using.
  intros (una' & _ & Ei & Hf) Hs E1 E2 Hn. exists una. simpl. rewrite E1, E2. split; [done|]. split; [done|].
  apply (Forall_impl _ _ _ Hf). intros seg. by apply TCPSender.emitted_later.
Qed.

(** Calling [fill_window] and sending what it queued. *)
Lemma fill_and_send W segs c una :
  sender_ok W segs c -> TCPSender.inv W una (_sender c) ->
  exists s, TCPSender.fill_window (_sender c) = Ret s /\ sender_ok W segs (set_sender c s)
    /\ TCPSender.inv W una s.
Proof using.
  intros Hc Hs. destruct (TCPSender.fill_window_ok W una _ Hs) as (b & sg & z & f & -> & Hf).
  destruct (TCPSender.filled_inv W una _ b sg z f Hs Hf) as (Hs' & Enx & Est & _ & _ & Ei).
  eexists. split; [done|]. split; [|done]. apply (set_sender_ok W segs c una); [done|done|done| |].
  - unfold TCPSender.ended. rewrite Est. apply Hf.
  - rewrite Enx. apply (TCPSender.segs_ok_le _ _ _ _ _ _ (TCPSender.f_segs _ _ _ _ _ _ Hf)).
Qed.

Lemma ack_ok W segs c ackno w :
  sender_ok W segs c -> TCPSender.valid (_sender c) (TCPSender.Ack ackno w) ->
  sender_ok W segs (set_sender c (TCPSender.ack_received (_sender c) ackno w)).
Proof using.
  intros Hc [Hw Hn]. pose proof Hc as (una & Hs & _).
  pose proof (TCPSender.ack_received_ok W una _ ackno w Hs Hw Hn) as Ha. cbv zeta in Ha.
  destruct (_ <? unwrap _ _ _).
  - rewrite Ha. by apply (set_sender_ok W segs c una).
  - destruct Ha as (una' & n & Hs' & _ & (Ei & Est & En & _) & _).
    apply (set_sender_ok W segs c una'); [done|done|done| |lia]. unfold TCPSender.ended. by rewrite Est.
Qed.

Lemma send_empty_ok W segs c :
  sender_ok W segs c -> sender_ok W segs (set_sender c (TCPSender.send_empty_segment (_sender c))).
Proof using.
  intros Hc. pose proof Hc as (una & Hs & _). apply (set_sender_ok W segs c una); [done| |done|done|done].
  by apply TCPSender.send_empty_inv.
Qed.

Lemma set_rst_ok W segs out c :
  sender_ok W segs c -> receiver_ok out c -> sender_ok W segs (_set_rst c) /\ receiver_ok out (_set_rst c).
Proof using.
  intros (una & Hs & Ei & Hf) (r & Hr & Hc). split.
  - exists una. split; [|done]. destruct Hs. split; try done. by apply ByteStream.set_error_wf.
  - exists r. split; [done|]. right. split; [done|]. unfold _set_rst. cbn [_receiver].
    destruct Hc as [E|[_ E]]; rewrite E; reflexivity.
Qed.

Lemma send_rst_ok W segs out c :
  sender_ok W segs c -> receiver_ok out c ->
  sender_ok W segs (_send_rst_to_peer c) /\ receiver_ok out (_send_rst_to_peer c).
Proof using.
  intros (una & Hs & Ei & Hf) Hr. apply set_rst_ok; [|done]. exists una. simpl. split; [|split; [done|]].
  - destruct Hs. by split.
  - rewrite app_assoc. apply Forall_app. split; [done|]. constructor; [|constructor]. right.
    exists (TCPSender._next_seqno (_sender c)). pose proof (TCPSender.inv_numbers _ _ _ Hs) as (? & ? & _).
    pose proof (TCPSender.i_una _ _ _ Hs). split; [lia|]. split; [by rewrite <- Ei|done].
Qed.

(** The last part of [segment_received]. *)
Lemma reply_ok W segs c seg :
  sender_ok W segs c ->
  exists c', reply c seg = Ret c' /\ sender_ok W segs c' /\ _receiver c' = _receiver c /\ _is_rst c' = _is_rst c.
Proof using.
  intros Hc. pose proof Hc as (una & Hs & _). unfold reply.
  assert (exists s, (if TCPSender.is_syn_received (_sender c) || TCPHeader.syn (TCPSegment.header seg)
       then TCPSender.fill_window (_sender c) else Ret (_sender c)) = Ret s
       /\ sender_ok W segs (set_sender c s)) as (s & -> & Hs1).
  { destruct (_ || _).
    - destruct (fill_and_send W segs c una Hc Hs) as (s & E & H1 & _). eauto.
    - exists (_sender c). split; [done|]. by apply (set_sender_ok W segs c una). }
  cbn [mbind outcome_bind]. eexists. split; [done|]. split; [|done]. apply send_ack_ok.
  destruct (_ && _); [|done]. by apply (send_empty_ok W segs (set_sender c s)).
Qed.

(** Timers and flags are not part of the invariant. *)
Lemma sender_ok_ext W segs c c' :
  _sender c' = _sender c -> _segments_out c' = _segments_out c -> sender_ok W segs c -> sender_ok W segs c'.
Proof using. unfold sender_ok. by intros -> ->. Qed.

Lemma receiver_ok_ext out c c' :
  _receiver c' = _receiver c -> _is_rst c' = _is_rst c -> receiver_ok out c -> receiver_ok out c'.
Proof using. unfold receiver_ok. by intros -> ->. Qed.

Lemma active_not_rst c : active c = true -> _is_rst c = false.
Proof using. unfold active. by destruct (_is_rst c). Qed.

Lemma segment_received_ok W segs out c seg :
  sender_ok W segs c -> receiver_ok out c -> valid i_peer D c (Segment seg) ->
  exists c', segment_received c seg = Ret c' /\ sender_ok W segs c' /\ receiver_ok out c'.
Proof using Hcap Hpeer HD.
  intros Hs Hr Hv. unfold segment_received. set (c0 := set_last_received_time c 0).
  assert (sender_ok W segs c0) as Hs0 by done. assert (receiver_ok out c0) as Hr0 by done.
  change (active c) with (active c0) in Hv. change (_sender c) with (_sender c0) in Hv.
  simpl in Hv. change (_receiver c) with (_receiver c0) in Hv. change (_sender c) with (_sender c0) in Hv.
  change (active c) with (active c0) in Hv. clearbody c0. clear Hs Hr.
  destruct (TCPHeader.rst _) eqn:Erst; [eexists; split; [done|]; by apply set_rst_ok|].
  destruct (active c0) eqn:Ea; cbn [negb]; [|by eexists].
  destruct Hv as [?|[?|[Hvr Hva]]]; [done|done|].
  destruct (_ && _ && _); [by eexists|].
  set (c1 := if TCPHeader.ack _ then _ else _).
  assert (sender_ok W segs c1 /\ _receiver c1 = _receiver c0 /\ _is_rst c1 = _is_rst c0) as (Hs1 & Er1 & Ex1).
  { subst c1. destruct (TCPHeader.ack _); [|done]. split; [|done]. apply ack_ok; [done|]. by apply Hva. }
  clearbody c1. rewrite Er1.
  destruct Hr0 as (r & Hrd & [Er|[Ex _]]); [|by rewrite active_not_rst in Ex].
  rewrite Er in *. destruct (TCPReceiver.reading_step cap i_peer D Hcap Hpeer HD out r (TCPReceiver.Segment seg) Hrd Hvr)
    as (r' & d & E & Hrd'). cbn [TCPReceiver.step] in E.
  destruct (TCPReceiver.segment_received r seg) as [r1|]; [|done]. cbn [mbind outcome_bind] in E |- *.
  injection E as <- <-. rewrite app_nil_r in Hrd'.
  match goal with
  | |- context [if ?b then set_send_fin_first ?x false else ?x] => set (c2 := if b then set_send_fin_first x false else x)
  end.
  assert (sender_ok W segs c2 /\ receiver_ok out c2) as [Hs2 Hr2].
  { subst c2. split; [apply (sender_ok_ext W segs c1); [by case_if..|done]|].
    exists r1. split; [done|]. left. by case_if. }
  clearbody c2.
  match goal with
  | |- context [if ?b then set_linger ?x false else ?x] => set (c3 := if b then set_linger x false else x)
  end.
  assert (sender_ok W segs c3 /\ receiver_ok out c3) as [Hs3 Hr3].
  { subst c3. split; [apply (sender_ok_ext W segs c2); [by case_if..|done]|].
    apply (receiver_ok_ext out c2); [by case_if..|done]. }
  clearbody c3. destruct (match TCPReceiver.ackno _ with Some _ => _ | None => _ end).
  - eexists. split; [done|]. split; [by apply send_ack_ok, send_empty_ok|].
    by apply (receiver_ok_ext out c3).
  - destruct (reply_ok W segs c3 seg Hs3) as (c' & E & H1 & H2 & H3). exists c'. split; [done|]. split; [done|].
    by apply (receiver_ok_ext out c3).
Qed.

(** Reading from a marked stream. *)
Lemma read_marked s n :
  ByteStream.read (ByteStream.set_error s) n
  = ((fun '(d, s') => (d, ByteStream.set_error s')) <$> ByteStream.read s n).
Proof using.
  unfold ByteStream.read. simpl. destruct (SBufferList.peek_output _ _); [|done]. simpl.
  by destruct (SBufferList.remove_prefix _ _) as [[]|].
Qed.

Lemma read_ok out c len :
  receiver_ok out c -> 0 <= len ->
  exists d s, ByteStream.read (inbound_stream c) (Z.min len (ByteStream.buffer_size (inbound_stream c))) = Ret (d, s)
    /\ receiver_ok (out ++ d) (set_receiver c (TCPReceiver.set_stream_out (_receiver c) s)).
Proof using Hcap Hpeer HD.
  intros (r & Hr & Hc) Hl.
  destruct (TCPReceiver.reading_step cap i_peer D Hcap Hpeer HD out r (TCPReceiver.Read len) Hr Hl)
    as (r' & d & E & Hr'). cbn [TCPReceiver.step] in E. unfold inbound_stream.
  destruct Hc as [Er|[Ex Er]]; rewrite Er.
  - destruct (ByteStream.read _ _) as [[d1 s1]|]; [|done]. cbn [mbind outcome_bind] in E. injection E as <- <-.
    exists d1, s1. split; [done|]. exists (TCPReceiver.set_stream_out r s1). split; [done|by left].
  - change (TCPReceiver.stream_out (mark r)) with (ByteStream.set_error (TCPReceiver.stream_out r)).
    change (ByteStream.buffer_size (ByteStream.set_error (TCPReceiver.stream_out r)))
      with (ByteStream.buffer_size (TCPReceiver.stream_out r)).
    rewrite read_marked. destruct (ByteStream.read _ _) as [[d1 s1]|]; [|done].
    cbn [mbind outcome_bind] in E. injection E as <- <-.
    exists d1, (ByteStream.set_error s1). split; [done|]. exists (TCPReceiver.set_stream_out r s1).
    split; [done|]. by right.
Qed.

Lemma tick_ok W segs out c ms :
  sender_ok W segs c -> receiver_ok out c -> sender_ok W segs (tick c ms) /\ receiver_ok out (tick c ms).
Proof using.
  intros Hs Hr. unfold tick. case_if; [by apply send_rst_ok|].
  match goal with
  | |- context [set_sender ?x _] => set (c1 := x)
  end.
  assert (_sender c1 = _sender c /\ _segments_out c1 = _segments_out c /\ _receiver c1 = _receiver c
    /\ _is_rst c1 = _is_rst c) as (E1 & E2 & E3 & E4).
  { subst c1. case_if; [|done]. by case_if. }
  clearbody c1. split.
  - apply send_ack_ok. pose proof Hs as (una & Hi & _).
    apply (sender_ok_ext W segs (set_sender c (TCPSender.tick (_sender c) ms))); [by rewrite <- E1|done|].
    apply (set_sender_ok W segs c una); [done|by apply TCPSender.sender_tick_inv| | |];
      unfold TCPSender.ended, TCPSender.tick; simpl; destruct (TCPSender._seg_queue _); try done; by case_if.
  - by apply (receiver_ok_ext out c).
Qed.

(** The application's calls end in [fill_window]. *)
Lemma fill_ok W segs out c s una :
  TCPSender.inv W una s -> TCPSender._isn s = i_own ->
  Forall (TCPSender.emitted i_own W (TCPSender.ended s) (TCPSender._next_seqno s)) (segs ++ _segments_out c) ->
  receiver_ok out c ->
  exists s', TCPSender.fill_window s = Ret s' /\
    sender_ok W segs (_send_ack_if_need (set_sender c s')) /\
    receiver_ok out (_send_ack_if_need (set_sender c s')).
Proof using.
  intros Hs Ei Hf Hr.
  destruct (fill_and_send W segs (set_sender c s) una) as (s' & E & H1 & _); [by exists una|done|].
  exists s'. split; [done|]. split; [by apply send_ack_ok|by apply (receiver_ok_ext out c)].
Qed.

Lemma inv_step g c o :
  inv g c -> valid i_peer D c o -> exists c' r, step c o = Ret (c', r) /\ inv (add g r) c'.
Proof using Hcap Hpeer HD.
  intros [Hs Hr] Hv. destruct g as [W segs out]. unfold inv, add in *. cbn [written sent got] in *.
  assert (forall c', sender_ok W segs c' -> receiver_ok out c' ->
    sender_ok (W ++ []) (segs ++ []) c' /\ receiver_ok (out ++ []) c') as Hkeep
    by (intros c' H1 H2; by rewrite !app_nil_r).
  pose proof Hs as (una & Hi & Ei & Hf). destruct o as [seg|data| | |ms|len|]; cbn [step].
  - destruct (segment_received_ok W segs out c seg Hs Hr Hv) as (c' & -> & H1 & H2).
    do 2 eexists. split; [done|]. by apply Hkeep.
  - destruct (TCPSender.sending_step (W, segs ++ _segments_out c) (_sender c) (TCPSender.Write data))
      as (s1 & [w l] & E & (una1 & H1 & H2) & Ei1); [exists una; by rewrite Ei|done|].
    cbn [TCPSender.step] in E. unfold write. change (TCPSender.stream_in (_sender c)) with (TCPSender._stream (_sender c)).
    destruct (ByteStream.write _ _) as [b n]. injection E as <- <- <-. simpl in H1, H2. rewrite app_nil_r in H2.
    destruct (fill_ok (W ++ take (Z.to_nat n) data) segs out c _ una1 H1) as (s' & -> & G1 & G2);
      [done|by rewrite Ei in H2|done|].
    do 2 eexists. split; [done|]. simpl. by rewrite !app_nil_r.
  - unfold end_input_stream.
    destruct (fill_ok W segs out c (TCPSender.set_stream (_sender c) (ByteStream.end_input (TCPSender.stream_in (_sender c)))) una)
      as (s' & -> & G1 & G2); [by apply TCPSender.end_input_inv|done| |done|].
    { apply (Forall_impl _ _ _ Hf). intros seg He. rewrite <- (app_nil_r W).
      by apply TCPSender.emitted_extend with (ended := TCPSender.ended (_sender c)). }
    do 2 eexists. split; [done|]. by apply Hkeep.
  - unfold connect. destruct (fill_ok W segs out c (_sender c) una) as (s' & -> & G1 & G2); [done..|].
    do 2 eexists. split; [done|]. by apply Hkeep.
  - do 2 eexists. split; [done|]. destruct (tick_ok W segs out c ms Hs Hr). by apply Hkeep.
  - destruct (read_ok out c len Hr Hv) as (d & s & -> & G). do 2 eexists. split; [done|]. simpl.
    rewrite !app_nil_r. split; [|done]. by apply (sender_ok_ext W segs c).
  - do 2 eexists. split; [done|]. simpl. rewrite !app_nil_r. split; [|by apply (receiver_ok_ext out c)].
    exists una. simpl. by rewrite app_nil_r.
Qed.

End Safety.

Lemma connection_new_inv cfg random i_peer D :
  is_u64 (TCPConfig.send_capacity cfg) -> wi_ok (default (mkWrappingInt32 random) (TCPConfig.fixed_isn cfg)) ->
  inv (TCPConfig.recv_capacity cfg) i_peer D (default (mkWrappingInt32 random) (TCPConfig.fixed_isn cfg))
    nothing (new cfg random).
Proof.
  intros Hc Hi. split.
  - exists 0. split; [by apply TCPSender.sender_new_inv|]. split; [done|constructor].
  - exists (TCPReceiver.new (TCPConfig.recv_capacity cfg)). split; [|by left].
    split; [by left|]. split; [done|]. by rewrite slice_empty.
Qed.

(** ** The acknowledgment fields of outgoing segments *)

(** [seg] is a RST, or carries the acknowledgment number and the window of [r]. *)
Definition acked_by (r : TCPReceiver.t) (seg : TCPSegment.t) : Prop :=
  let h := TCPSegment.header seg in
  TCPHeader.rst h = true \/
  (TCPHeader.win h = Z.min 65535 (TCPReceiver.window_size r)
   /\ forall a, TCPReceiver.ackno r = Some a -> TCPHeader.ack h = true /\ TCPHeader.ackno h = a).

Lemma fill_ack_acked r seg : acked_by r (fill_ack r seg).
Proof. right. simpl. split; [done|]. by intros a ->. Qed.

(** What an operation adds to the outbound queue is acknowledged by the receiver the
    operation leaves. *)
Definition adds_acked (c c' : t) : Prop :=
  exists news, _segments_out c' = _segments_out c ++ news /\ Forall (acked_by (_receiver c')) news.

Lemma adds_nothing c c' : _segments_out c' = _segments_out c -> adds_acked c c'.
Proof. intros E. exists []. by rewrite app_nil_r. Qed.

Lemma send_ack_adds c c' : _segments_out c' = _segments_out c -> adds_acked c (_send_ack_if_need c').
Proof.
  intros E. eexists. simpl. rewrite E. split; [done|]. apply Forall_fmap, Forall_true. intros. apply fill_ack_acked.
Qed.

Lemma send_rst_adds c : adds_acked c (_send_rst_to_peer c).
Proof. eexists. split; [done|]. constructor; [by left|constructor]. Qed.

Lemma segment_received_adds c seg c' : segment_received c seg = Ret c' -> adds_acked c c'.
Proof.
  unfold segment_received. case_if; [by intros [= <-]; apply adds_nothing|].
  case_if; [by intros [= <-]; apply adds_nothing|]. case_if; [by intros [= <-]; apply adds_nothing|].
  match goal with |- context [set_receiver ?x] => set (c1 := x) end.
  assert (_segments_out c1 = _segments_out c) as E1 by (subst c1; by case_if). clearbody c1.
  intros (r & _ & H)%bind_Ret. revert H.
  match goal with
  | |- context [if ?b then set_send_fin_first ?x false else ?x] => set (c2 := if b then set_send_fin_first x false else x)
  end.
  assert (_segments_out c2 = _segments_out c) as E2 by (subst c2; by case_if). clearbody c2.
  match goal with
  | |- context [if ?b then set_linger ?x false else ?x] => set (c3 := if b then set_linger x false else x)
  end.
  assert (_segments_out c3 = _segments_out c) as E3 by (subst c3; by case_if). clearbody c3.
  case_if; [intros [= <-]; by apply send_ack_adds|].
  unfold reply. intros (s & _ & [= <-])%bind_Ret. by apply send_ack_adds.
Qed.

Lemma tick_adds c ms : adds_acked c (tick c ms).
Proof.
  unfold tick. case_if; [apply send_rst_adds|]. apply send_ack_adds. simpl. case_if; [|done]. by case_if.
Qed.

(** ** The inbound stream *)

Lemma reply_receiver c seg c' : reply c seg = Ret c' -> _receiver c' = _receiver c.
Proof. unfold reply. by intros (s & _ & [= <-])%bind_Ret. Qed.

(** No call breaks the invariant of the inbound stream, whatever the segments. *)
Lemma segment_received_inbound_wf c seg c' :
  ByteStream.wf (inbound_stream c) -> segment_received c seg = Ret c' -> ByteStream.wf (inbound_stream c').
Proof.
  intros Hw. unfold segment_received. case_if; [intros [= <-]; by apply ByteStream.set_error_wf|].
  case_if; [by intros [= <-]|]. case_if; [by intros [= <-]|].
  match goal with |- context [set_receiver ?x] => set (c1 := x) end.
  assert (_receiver c1 = _receiver c) as E1 by (subst c1; by case_if). clearbody c1.
  intros (r & Er & E)%bind_Ret. rewrite E1 in Er.
  apply TCPReceiver.segment_received_stream_wf in Er; [|done]. revert E.
  match goal with
  | |- context [if ?b then set_send_fin_first ?x false else ?x] => set (c2 := if b then set_send_fin_first x false else x)
  end.
  assert (_receiver c2 = r) as E2 by (subst c2; by case_if). clearbody c2.
  match goal with
  | |- context [if ?b then set_linger ?x false else ?x] => set (c3 := if b then set_linger x false else x)
  end.
  assert (_receiver c3 = r) as E3 by (subst c3; by case_if). clearbody c3.
  case_if; [intros [= <-]; unfold inbound_stream; simpl; by rewrite E3|].
  intros E%reply_receiver. unfold inbound_stream. by rewrite E, E3.
Qed.

Lemma tick_inbound_wf c ms : ByteStream.wf (inbound_stream c) -> ByteStream.wf (inbound_stream (tick c ms)).
Proof.
  intros Hw. unfold tick. case_if; [by apply ByteStream.set_error_wf|].
  unfold inbound_stream; simpl. case_if; [case_if|]; done.
Qed.

Lemma step_inbound_wf c o c' r :
  (forall len, o = Read len -> 0 <= len) ->
  ByteStream.wf (inbound_stream c) -> step c o = Ret (c', r) -> ByteStream.wf (inbound_stream c').
Proof.
  intros Hlen Hw. destruct o as [seg|data| | |ms|len|]; simpl.
  - intros (c1 & E & [= <- <-])%bind_Ret. by apply segment_received_inbound_wf in E.
  - intros ([n c1] & E & [= <- <-])%bind_Ret. unfold write in E. destruct (ByteStream.write _ _).
    by apply bind_Ret in E as (s & _ & [= <- <-]).
  - intros (c1 & E & [= <- <-])%bind_Ret. by apply bind_Ret in E as (s & _ & [= <-]).
  - intros (c1 & E & [= <- <-])%bind_Ret. by apply bind_Ret in E as (s & _ & [= <-]).
  - intros [= <- <-]. by apply tick_inbound_wf.
  - intros ([d s] & E & [= <- <-])%bind_Ret. specialize (Hlen len eq_refl).
    rewrite ByteStream.buffer_size_bytes in E by done. zlen_pose.
    destruct (ByteStream.read_spec (inbound_stream c) (Z.min len (zlen (ByteStream.bytes (inbound_stream c)))))
      as (s' & E' & Hp & _); [done|lia|]. rewrite E' in E. injection E as <- <-. done.
  - by intros [= <- <-].
Qed.

(** ** The linger time *)

Lemma sender_tick_same s ms :
  TCPSender._stream (TCPSender.tick s ms) = TCPSender._stream s
  /\ TCPSender._is_syn_received (TCPSender.tick s ms) = TCPSender._is_syn_received s
  /\ TCPSender._is_fin_received (TCPSender.tick s ms) = TCPSender._is_fin_received s
  /\ (TCPSender._seg_queue s = [] -> TCPSender._seg_queue (TCPSender.tick s ms) = []
       /\ TCPSender._consecutive_retrans (TCPSender.tick s ms) = TCPSender._consecutive_retrans s).
Proof.
  unfold TCPSender.tick. simpl. destruct (TCPSender._seg_queue s); [done|]. by case_if.
Qed.

(** Both streams are finished and everything is acknowledged. *)
Record finished (c : t) : Prop := {
  fi_rst : _is_rst c = false;
  fi_syn : TCPSender.is_syn_received (_sender c) = true;
  fi_fin : TCPSender.is_fin_received (_sender c) = true;
  fi_eof : ByteStream.eof (inbound_stream c) = true;
  fi_queue : TCPSender._seg_queue (_sender c) = [];
  fi_retx : TCPSender.consecutive_retransmissions (_sender c) < TCPConfig.MAX_RETX_ATTEMPTS
}.

Lemma finished_active c : finished c -> active c = _linger_after_streams_finish c.
Proof.
  intros []. unfold active. rewrite fi_rst0, fi_fin0. change (TCPReceiver.stream_out (_receiver c)) with (inbound_stream c).
  rewrite fi_eof0. by destruct (_linger_after_streams_finish c).
Qed.

Lemma finished_tick c ms :
  finished c -> 0 <= ms -> 0 <= _last_received_time c -> _last_received_time c + ms < 2 ^ 64 ->
  finished (tick c ms) /\ _last_received_time (tick c ms) = _last_received_time c + ms
  /\ _cfg (tick c ms) = _cfg c
  /\ _linger_after_streams_finish (tick c ms)
     = _linger_after_streams_finish c && (_last_received_time c + ms <? 10 * TCPConfig.rt_timeout (_cfg c)).
Proof.
  intros Hf Hms Hl Hb. pose proof Hf as [Hrst Hsyn Hfin Heof Hq Hrx]. unfold tick.
  rewrite (proj2 (Z.leb_gt _ _)) by done. rewrite Hsyn. simpl andb.
  change (TCPReceiver.stream_out (_receiver c)) with (inbound_stream c). rewrite Heof. simpl andb.
  match goal with |- context [set_sender ?x _] => set (c1 := x) end.
  assert (_sender c1 = _sender c /\ _receiver c1 = _receiver c /\ _is_rst c1 = _is_rst c /\ _cfg c1 = _cfg c
    /\ _last_received_time c1 = _last_received_time c
    /\ _linger_after_streams_finish c1 = _linger_after_streams_finish c
        && (_last_received_time c + ms <? 10 * TCPConfig.rt_timeout (_cfg c))) as (E1 & E2 & E3 & E4 & E5 & E6).
  { subst c1. nowrap. destruct (_linger_after_streams_finish c) eqn:El; simpl; [|by rewrite El].
    rewrite Z.ltb_antisym. destruct (_ <=? _); simpl; by rewrite ?El. }
  clearbody c1. destruct (sender_tick_same (_sender c) ms) as (F1 & F2 & F3 & F4). destruct (F4 Hq) as [F5 F6].
  split; [|simpl; rewrite E5; nowrap; done].
  split; simpl; unfold inbound_stream, TCPSender.is_syn_received, TCPSender.is_fin_received,
    TCPSender.consecutive_retransmissions in *; simpl; rewrite ?E1, ?E2, ?F2, ?F3, ?F6; try done; congruence.
Qed.

Definition total (l : list Z) : Z := fold_right Z.add 0 l.

Lemma finished_ticks l c :
  finished c -> Forall (fun ms => 0 <= ms) l -> 0 <= _last_received_time c ->
  _last_received_time c + total l < 2 ^ 64 -> 0 <= 10 * TCPConfig.rt_timeout (_cfg c) ->
  let c' := fold_left tick l c in
  finished c' /\ _linger_after_streams_finish c'
    = _linger_after_streams_finish c
      && ((_last_received_time c + total l <? 10 * TCPConfig.rt_timeout (_cfg c)) || bool_decide (l = [])).
Proof.
  revert c. induction l as [|ms l IH]; intros c Hf Hl Hp Hb Ht; simpl.
  { split; [done|]. by rewrite orb_true_r, andb_true_r. }
  inversion Hl; subst. simpl in Hb. assert (0 <= total l) as Htot by (clear -H2; induction H2; simpl in *; lia).
  destruct (finished_tick c ms) as (Hf1 & El & Ec & Eg); [done|done|done|lia|].
  destruct (IH (tick c ms)) as [Hf2 E2]; [done|done|lia|lia|by rewrite Ec|]. split; [done|].
  rewrite E2, Eg, El, Ec. destruct (_linger_after_streams_finish c); simpl; [|done].
  rewrite Z.add_assoc, orb_false_r. destruct l as [|ms' l]; simpl.
  - by rewrite Z.add_0_r, orb_true_r, andb_true_r.
  - rewrite orb_false_r. simpl in Htot. inversion H2; subst.
    destruct (_ + ms <? _) eqn:Ea; zbool; simpl; [done|]. symmetry. apply Z.ltb_ge. lia.
Qed.

End ConnectionSpec.

(** ** Properties *)

(** C9: An endpoint gets segments of the peer's stream in any order, RSTs, and
    acknowledgments that may be false; its application writes (nothing after
    closing, less than 2^63 bytes), reads, closes and lets time pass. As for the
    receiver, the peer's first SYN carries neither data nor FIN and comes again only
    while no byte has been assembled, and the segments lie less than 2^31 from the
    next byte expected; as for the sender, no window above 1 is announced before the
    endpoint's own SYN. RSTs and the segments for a dead connection are not
    restricted. Then the endpoint never throws; the bytes it gives to its
    application are a prefix of the peer's stream (the whole of it once the inbound
    stream has ended), and every segment it gives to the network is empty or the
    part of the application's stream that its sequence number announces. *)
Theorem connection_safe (cfg : TCPConfig.t) (random : Z) (i_peer : WrappingInt32) (D : string)
    (ops : list ConnectionSpec.op) :
  let i := default (mkWrappingInt32 random) (TCPConfig.fixed_isn cfg) in
  is_u64 (TCPConfig.recv_capacity cfg) -> is_u64 (TCPConfig.send_capacity cfg) -> wi_ok i -> wi_ok i_peer ->
  1 + zlen D < 2 ^ 64 - 1 ->
  valid_run ConnectionSpec.step (ConnectionSpec.valid i_peer D) (TCPConnection.new cfg random) ops ->
  exists c rs n, run ConnectionSpec.step (TCPConnection.new cfg random) ops = Ret (c, rs) /\
    let seen := fold_left ConnectionSpec.add rs ConnectionSpec.nothing in
    let inbound := TCPConnection.inbound_stream c in
    ConnectionSpec.got seen ++ ByteStream.bytes inbound = take (Z.to_nat n) D /\
    (ByteStream.input_ended inbound = true -> ConnectionSpec.got seen ++ ByteStream.bytes inbound = D) /\
    Forall (TCPSender.emitted i (ConnectionSpec.written seen) (TCPSender.ended (TCPConnection._sender c))
              (TCPSender._next_seqno (TCPConnection._sender c)))
      (ConnectionSpec.sent seen ++ TCPConnection.segments_out c).
Proof.
  intros i Hrc Hsc Hi Hp HD Hv.
  destruct (run_ghost ConnectionSpec.step (ConnectionSpec.valid i_peer D)
    (ConnectionSpec.inv (TCPConfig.recv_capacity cfg) i_peer D i) ConnectionSpec.add
    (ConnectionSpec.inv_step (TCPConfig.recv_capacity cfg) i_peer D i Hrc Hp HD) ops ConnectionSpec.nothing
    (TCPConnection.new cfg random)) as (c & rs & E & (una & Hs & Ei & Hf) & (r & Hr & Hc)); [|done|].
  { by apply ConnectionSpec.connection_new_inv. }
  destruct (TCPReceiver.reading_result _ i_peer D Hrc _ _ Hr) as (n & Hn & Eo & Hend & _).
  exists c, rs, n. split; [done|]. cbv zeta.
  assert (ByteStream.bytes (TCPConnection.inbound_stream c) = ByteStream.bytes (TCPReceiver.stream_out r)
    /\ ByteStream.input_ended (TCPConnection.inbound_stream c) = ByteStream.input_ended (TCPReceiver.stream_out r))
    as [-> ->] by (unfold TCPConnection.inbound_stream; destruct Hc as [-> |[_ ->]]; done).
  split; [done|]. split; [|done]. intros He. rewrite Eo, (Hend He). apply take_ge. unfold zlen. lia.
Qed.

(** C26: every segment an operation puts in the outbound queue is a RST, or carries
    the acknowledgment number and the (16-bit) window of the receiver as the
    operation leaves it. *)
Theorem connection_acks (c c' : TCPConnection.t) (o : ConnectionSpec.op) (r : ConnectionSpec.seen) :
  ConnectionSpec.step c o = Ret (c', r) ->
  exists news, ConnectionSpec.sent r ++ TCPConnection.segments_out c' = TCPConnection.segments_out c ++ news /\
    Forall (ConnectionSpec.acked_by (TCPConnection._receiver c')) news.
Proof.
  assert (forall c', ConnectionSpec.adds_acked c c' -> exists news,
    ConnectionSpec.sent ConnectionSpec.nothing ++ TCPConnection.segments_out c' = TCPConnection.segments_out c ++ news
    /\ Forall (ConnectionSpec.acked_by (TCPConnection._receiver c')) news) as H by (intros ? (n & ? & ?); by exists n).
  destruct o as [seg|data| | |ms|len|]; simpl.
  - intros (c1 & E & [= <- <-])%bind_Ret. by apply H, (ConnectionSpec.segment_received_adds c seg).
  - intros ([n c1] & E & [= <- <-])%bind_Ret. unfold TCPConnection.write in E.
    destruct (ByteStream.write _ _). apply bind_Ret in E as (s & _ & [= <- <-]). by apply H, ConnectionSpec.send_ack_adds.
  - intros (c1 & E & [= <- <-])%bind_Ret. apply bind_Ret in E as (s & _ & [= <-]). by apply H, ConnectionSpec.send_ack_adds.
  - intros (c1 & E & [= <- <-])%bind_Ret. apply bind_Ret in E as (s & _ & [= <-]). by apply H, ConnectionSpec.send_ack_adds.
  - intros [= <- <-]. apply H, ConnectionSpec.tick_adds.
  - intros ([d s] & _ & [= <- <-])%bind_Ret. by apply H, ConnectionSpec.adds_nothing.
  - intros [= <- <-]. exists []. by rewrite !app_nil_r.
Qed.

(** A RST puts the endpoint in the standard's RESET state at once: both streams
    are marked, nothing is sent, and later segments change only the time of the
    last one received. *)
Theorem connection_reset (c : TCPConnection.t) (seg : TCPSegment.t) :
  TCPHeader.rst (TCPSegment.header seg) = true ->
  exists c', TCPConnection.segment_received c seg = Ret c' /\
    TCPState.state c' = TCPState.of_State TCPState.RESET /\
    TCPConnection.segments_out c' = TCPConnection.segments_out c /\
    TCPConnection._sender c' = TCPSender.set_stream (TCPConnection._sender c)
                                 (ByteStream.set_error (TCPSender.stream_in (TCPConnection._sender c))) /\
    forall seg', TCPConnection.segment_received c' seg' = Ret (TCPConnection.set_last_received_time c' 0).
Proof.
  intros Hr. unfold TCPConnection.segment_received at 1. rewrite Hr. eexists. split; [done|].
  split; [done|]. split; [done|]. split; [done|]. intros seg'. unfold TCPConnection.segment_received.
  case_if; [done|]. done.
Qed.

(** Once the oldest segment has been retransmitted eight times, the next tick
    gives up: one RST with the next sequence number is sent in place of whatever
    was queued, and the endpoint is in the RESET state. *)
Theorem connection_gives_up (c : TCPConnection.t) (ms : Z) :
  TCPConfig.MAX_RETX_ATTEMPTS <= TCPSender.consecutive_retransmissions (TCPConnection._sender c) ->
  let c' := TCPConnection.tick c ms in
  TCPState.state c' = TCPState.of_State TCPState.RESET /\
  TCPSender.segments_out (TCPConnection._sender c') = [] /\
  exists seg, TCPConnection.segments_out c' = TCPConnection.segments_out c ++ [seg] /\
    TCPHeader.rst (TCPSegment.header seg) = true /\
    TCPHeader.seqno (TCPSegment.header seg) = TCPSender.next_seqno (TCPConnection._sender c).
Proof.
  intros Hx c'. subst c'. unfold TCPConnection.tick. rewrite (proj2 (Z.leb_le _ _)) by done.
  split; [done|]. split; [done|]. eexists. split; [done|]. done.
Qed.

(** C27: an endpoint whose streams are both finished and acknowledged stays alive,
    if it lingers, exactly until ten times the retransmission timeout has passed
    since the last segment arrived, however the time is cut into ticks. *)
Theorem connection_lingers (c : TCPConnection.t) (l : list Z) :
  ConnectionSpec.finished c -> TCPConnection._linger_after_streams_finish c = true ->
  Forall (fun ms => 0 <= ms) l -> l <> [] -> 0 <= TCPConnection._last_received_time c ->
  TCPConnection._last_received_time c + ConnectionSpec.total l < 2 ^ 64 ->
  0 <= TCPConfig.rt_timeout (TCPConnection._cfg c) ->
  TCPConnection.active (fold_left TCPConnection.tick l c)
  = (TCPConnection._last_received_time c + ConnectionSpec.total l
     <? 10 * TCPConfig.rt_timeout (TCPConnection._cfg c)).
Proof.
  intros Hf Hlg Hl Hne Hp Hb Ht. destruct (ConnectionSpec.finished_ticks l c) as [Hf' E]; [done..|lia|].
  rewrite ConnectionSpec.finished_active, E, Hlg by done. rewrite (bool_decide_eq_false_2 (l = [])) by done.
  simpl. by rewrite orb_false_r.
Qed.

(** The summary of a sender tells its place in the stream: CLOSED before the
    SYN, SYN_SENT until something is acknowledged, then SYN_ACKED until the FIN is
    sent, FIN_SENT until the FIN is acknowledged, FIN_ACKED afterwards. *)
Theorem sender_summary_spec (W : string) (una : Z) (s : TCPSender.t) :
  TCPSender.inv W una s -> ByteStream.error (TCPSender.stream_in s) = false ->
  ByteStream.no_empty_buffer (TCPSender.stream_in s) ->
  TCPState.sender_state_summary s =
    if TCPSender.next_seqno_absolute s =? 0 then TCPState.S_CLOSED
    else if una =? 0 then TCPState.S_SYN_SENT
    else if negb (TCPSender.next_seqno_absolute s =? zlen W + 2) then TCPState.S_SYN_ACKED
    else if TCPSender.is_fin_received s then TCPState.S_FIN_ACKED else TCPState.S_FIN_SENT.
Proof.
  intros Hs He Hne. unfold TCPState.sender_state_summary, TCPSender.bytes_in_flight, TCPSender.is_fin_received.
  rewrite He. pose proof (TCPSender.bytes_written_inv W una s Hs) as Hbw.
  change (TCPSender._stream s) with (TCPSender.stream_in s) in Hbw. rewrite Hbw.
  pose proof (TCPSender.i_bound _ _ _ Hs). pose proof (TCPSender.i_read _ _ _ Hs) as Hrd. zlen_pose. nowrap.
  rewrite (TCPSender.i_flight _ _ _ Hs), (TCPSender.i_fin _ _ _ Hs).
  destruct (TCPSender.inv_numbers _ _ _ Hs) as (Hr0 & Hle & _).
  change (TCPSender._next_seqno s) with (TCPSender.next_seqno_absolute s) in *.
  destruct (TCPSender.next_seqno_absolute s =? 0) eqn:E0; [done|]. zbool.
  assert ((TCPSender.next_seqno_absolute s =? TCPSender.next_seqno_absolute s - una) = (una =? 0)) as ->
    by (destruct (una =? 0) eqn:E1; zbool; [apply Z.eqb_eq|apply Z.eqb_neq]; lia).
  destruct (una =? 0) eqn:E1; [done|]. zbool.
  destruct (TCPSender.i_next _ _ _ Hs) as [(? & ? & ?)|[E|(E & Hen & Eb)]];
    change (TCPSender._next_seqno s) with (TCPSender.next_seqno_absolute s) in *; [lia| |].
  - rewrite (proj2 (Z.eqb_neq _ (zlen W + 2))) by lia. case_if; [done|].
    by rewrite (proj2 (Z.ltb_lt _ _)) by lia.
  - rewrite (TCPSender.eof_intro (TCPSender.stream_in s)) by done. cbn [negb].
    rewrite Eb in Hrd. change (zlen (@nil byte)) with 0 in Hrd.
    rewrite (proj2 (Z.ltb_ge _ _)), (proj2 (Z.eqb_eq _ (zlen W + 2))) by lia. cbn [negb].
    destruct (una =? _) eqn:E2; zbool.
    + by rewrite (proj2 (Z.eqb_eq (_ - una) 0)) by lia.
    + by rewrite (proj2 (Z.eqb_neq (_ - una) 0)) by lia.
Qed.

(** ** Two endpoints *)

Module Exchange.
Import TCPConnection.

Definition config (isn : Z) : TCPConfig.t := TCPConfig.mk 1000 64000 64000 (Some (mkWrappingInt32 isn)).

(** Everything [a] has queued arrives at [b], in order. *)
Definition deliver (a b : t) : outcome (t * t) :=
  b' ← fold_left (fun b seg => b ← b; segment_received b seg) (segments_out a) (Ret b);
  Ret (set_segments_out a [], b').

(** The application of [c] reads everything that has arrived. *)
Definition read_all (c : t) : outcome (string * t) :=
  '(d, s) ← ByteStream.read (inbound_stream c) (ByteStream.buffer_size (inbound_stream c));
  Ret (d, set_receiver c (TCPReceiver.set_stream_out (_receiver c) s)).

(** A whole connection: handshake, data from the client, the client closes, the
    server closes; the states of client and server after each exchange. *)
Definition lifecycle (a b : t) (data : string) : outcome (list (TCPState.t * TCPState.t) * string) :=
  let states a b := (TCPState.state a, TCPState.state b) in
  a ← connect a;
  let s0 := states a b in
  '(a, b) ← deliver a b;
  let s1 := states a b in
  '(b, a) ← deliver b a;
  let s2 := states a b in
  '(a, b) ← deliver a b;
  let s3 := states a b in
  '(n, a) ← write a data;
  '(a, b) ← deliver a b;
  '(b, a) ← deliver b a;
  '(d, b) ← read_all b;
  a ← end_input_stream a;
  let s4 := states a b in
  '(a, b) ← deliver a b;
  let s5 := states a b in
  '(b, a) ← deliver b a;
  let s6 := states a b in
  b ← end_input_stream b;
  let s7 := states a b in
  '(b, a) ← deliver b a;
  let s8 := states a b in
  '(a, b) ← deliver a b;
  let s9 := states a b in
  let a := tick a 9999 in
  let s10 := states a b in
  let a := tick a 1 in
  Ret ([s0; s1; s2; s3; s4; s5; s6; s7; s8; s9; s10; states a b], d).

End Exchange.

(** Two endpoints go through the states of the TCP standard: three-way
    handshake, transfer, active close by the client with TIME_WAIT for ten
    timeouts, passive close by the server; the server reads the client's bytes. *)
Theorem connection_lifecycle :
  let st a b := (TCPState.of_State a, TCPState.of_State b) in
  Exchange.lifecycle (TCPConnection.new (Exchange.config 4294967295) 0) (TCPConnection.new (Exchange.config 200) 0)
    [Byte.x68; Byte.x69]
  = Ret ([st TCPState.SYN_SENT TCPState.LISTEN; st TCPState.SYN_SENT TCPState.SYN_RCVD;
          st TCPState.ESTABLISHED TCPState.SYN_RCVD; st TCPState.ESTABLISHED TCPState.ESTABLISHED;
          st TCPState.FIN_WAIT_1 TCPState.ESTABLISHED; st TCPState.FIN_WAIT_1 TCPState.CLOSE_WAIT;
          st TCPState.FIN_WAIT_2 TCPState.CLOSE_WAIT; st TCPState.FIN_WAIT_2 TCPState.LAST_ACK;
          st TCPState.TIME_WAIT TCPState.LAST_ACK; st TCPState.TIME_WAIT TCPState.CLOSED;
          st TCPState.TIME_WAIT TCPState.CLOSED; st TCPState.CLOSED TCPState.CLOSED],
         [Byte.x68; Byte.x69]).
Proof. vm_compute. reflexivity. Qed.

(** [n] rounds in which each side gets what the other sent and the client's timer
    runs out. *)
Fixpoint rounds (n : nat) (a b : TCPConnection.t) : outcome (TCPConnection.t * TCPConnection.t) :=
  match n with
  | O => Ret (a, b)
  | S n =>
      '(a, b) ← Exchange.deliver a b;
      '(b, a) ← Exchange.deliver b a;
      rounds n (TCPConnection.tick a 1000) b
  end.

(** Bytes written before [connect] are lost: the first call of [write] sends a
    SYN that carries a byte (the SYN is not counted in the initial window of one),
    the peer stores that byte at index 0, and the bytes after it never become
    contiguous: after four rounds with retransmissions the connection is
    established, the second byte is still in flight and only the first one can be
    read. *)
Theorem write_before_connect_stalls :
  exists a a' b',
    TCPConnection.write (TCPConnection.new (Exchange.config 100) 0) [Byte.x61; Byte.x62] = Ret (2, a) /\
    rounds 4 a (TCPConnection.new (Exchange.config 200) 0) = Ret (a', b') /\
    TCPState.state a' = TCPState.of_State TCPState.ESTABLISHED /\
    TCPConnection.bytes_in_flight a' = 1 /\
    ByteStream.bytes (TCPConnection.inbound_stream b') = [Byte.x61].
Proof.
  do 3 eexists. split; [vm_compute; reflexivity|]. split; [vm_compute; reflexivity|].
  split; [vm_compute; reflexivity|]. split; vm_compute; reflexivity.
Qed.

(** A reset does not silence the endpoint: [tick] does not look at [active], so
    after a RST the segment in flight is still retransmitted. *)
Theorem reset_still_retransmits :
  let rst := TCPSegment.mk (TCPHeader.mk 0 0 (mkWrappingInt32 0) (mkWrappingInt32 0) 5
                              false false false true false false 0 0 0) Buffer.null in
  exists a c, TCPConnection.connect (TCPConnection.new (Exchange.config 100) 0) = Ret a /\
    TCPConnection.segment_received (TCPConnection.set_segments_out a []) rst = Ret c /\
    TCPConnection.active c = false /\
    TCPHeader.syn ∘ TCPSegment.header <$> TCPConnection.segments_out (TCPConnection.tick c 1000) = [true].
Proof.
  intros rst. do 2 eexists. split; [vm_compute; reflexivity|]. split; [vm_compute; reflexivity|].
  split; vm_compute; reflexivity.
Qed.

(** ** Witnesses *)

Definition example_cfg : TCPConfig.t := TCPConfig.mk 1000 8 8 (Some (mkWrappingInt32 100)).
Definition example_data_segment (index : Z) (fin : bool) (payload : string) : TCPSegment.t :=
  TCPSegment.mk (TCPHeader.mk 0 0 (wrap index (mkWrappingInt32 7)) (mkWrappingInt32 101) 5
                   false true false false (index =? 0) fin 20 0 0) (Buffer.of_string payload).
Definition example_connection_ops : list ConnectionSpec.op :=
  [ConnectionSpec.Connect; ConnectionSpec.Segment (example_data_segment 0 false []);
   ConnectionSpec.Write [Byte.x78]; ConnectionSpec.Segment (example_data_segment 2 true [Byte.x62]);
   ConnectionSpec.Segment (example_data_segment 1 false [Byte.x61]); ConnectionSpec.Read 1; ConnectionSpec.Drain].

Lemma example_connection_valid :
  valid_run ConnectionSpec.step (ConnectionSpec.valid (mkWrappingInt32 7) [Byte.x61; Byte.x62])
    (TCPConnection.new example_cfg 0) example_connection_ops.
Proof.
  assert (forall n, is_u16 20 /\ (0 < n \/ 20 <= 1) <-> 0 < n) as Hw by (intros n; unfold is_u16; lia).
  split; [exact I|]. vm_compute ConnectionSpec.step. cbn iota.
  split; [right; right; split; [right; by split|intros _; apply Hw; vm_compute; reflexivity]|].
  vm_compute ConnectionSpec.step. cbn iota.
  split; [split; [reflexivity|vm_compute; reflexivity]|]. vm_compute ConnectionSpec.step. cbn iota.
  split; [right; right; split; [left; exists 2; split; [done|done|by vm_compute|by split]|intros _; apply Hw; vm_compute; reflexivity]|].
  vm_compute ConnectionSpec.step. cbn iota.
  split; [right; right; split; [left; exists 1; split; [done|done|by vm_compute|by split]|intros _; apply Hw; vm_compute; reflexivity]|].
  vm_compute ConnectionSpec.step. cbn iota.
  split; [simpl; lia|]. vm_compute ConnectionSpec.step. cbn iota.
  split; [exact I|]. vm_compute ConnectionSpec.step. cbn iota. exact I.
Qed.

Lemma connection_safe_witness :
  exists c rs n, run ConnectionSpec.step (TCPConnection.new example_cfg 0) example_connection_ops = Ret (c, rs) /\
    ConnectionSpec.got (fold_left ConnectionSpec.add rs ConnectionSpec.nothing)
      ++ ByteStream.bytes (TCPConnection.inbound_stream c) = take (Z.to_nat n) [Byte.x61; Byte.x62].
Proof.
  destruct (connection_safe example_cfg 0 (mkWrappingInt32 7) [Byte.x61; Byte.x62] example_connection_ops)
    as (c & rs & n & E & Eb & _).
  - split; vm_compute; (reflexivity || discriminate).
  - split; vm_compute; (reflexivity || discriminate).
  - split; vm_compute; (reflexivity || discriminate).
  - split; vm_compute; (reflexivity || discriminate).
  - vm_compute. reflexivity.
  - exact example_connection_valid.
  - exists c, rs, n. split; [exact E|exact Eb].
Defined.

Lemma connection_acks_witness :
  exists c' r news, ConnectionSpec.step (TCPConnection.new example_cfg 0) ConnectionSpec.Connect = Ret (c', r) /\
    TCPConnection.segments_out c' = news /\ Forall (ConnectionSpec.acked_by (TCPConnection._receiver c')) news.
Proof.
  set (x := ConnectionSpec.step (TCPConnection.new example_cfg 0) ConnectionSpec.Connect).
  assert (exists c' r, x = Ret (c', r) /\ ConnectionSpec.sent r = []) as (c' & r & E & Er).
  { vm_compute in x. subst x. do 2 eexists. split; reflexivity. }
  destruct (connection_acks (TCPConnection.new example_cfg 0) c' ConnectionSpec.Connect r E) as (news & En & Hn).
  exists c', r, news. split; [exact E|]. split; [|exact Hn]. rewrite Er in En. exact En.
Defined.

Lemma connection_reset_witness :
  exists c', TCPConnection.segment_received (TCPConnection.new example_cfg 0)
      (TCPSegment.mk (TCPHeader.mk 0 0 (mkWrappingInt32 0) (mkWrappingInt32 0) 5
                        false false false true false false 0 0 0) Buffer.null) = Ret c' /\
    TCPState.state c' = TCPState.of_State TCPState.RESET.
Proof.
  destruct (connection_reset (TCPConnection.new example_cfg 0)
    (TCPSegment.mk (TCPHeader.mk 0 0 (mkWrappingInt32 0) (mkWrappingInt32 0) 5
                      false false false true false false 0 0 0) Buffer.null)) as (c' & E & Es & _).
  - reflexivity.
  - exists c'. split; [exact E|exact Es].
Defined.

(** The client after eight timeouts of its SYN. *)
Definition example_tired : TCPConnection.t :=
  match TCPConnection.connect (TCPConnection.new example_cfg 0) with
  | Ret c => fold_left TCPConnection.tick [1000; 2000; 4000; 8000; 16000; 32000; 64000; 128000] c
  | Throw _ => TCPConnection.new example_cfg 0
  end.

Lemma connection_gives_up_witness :
  TCPState.state (TCPConnection.tick example_tired 1) = TCPState.of_State TCPState.RESET.
Proof. apply (connection_gives_up example_tired 1). vm_compute. discriminate. Defined.

(** A finished endpoint: its FIN is acknowledged and the peer's stream was read. *)
Definition example_finished : TCPConnection.t :=
  let out := ByteStream.end_input (ByteStream.new 8) in
  let r := TCPReceiver.mk (StreamReassembler.mk 1 out 8 []) 8 (Some (mkWrappingInt32 7)) (Some (mkWrappingInt32 8)) in
  let s := TCPSender.mk (mkWrappingInt32 100) [] 1000 (ByteStream.end_input (ByteStream.new 8)) true true 0 0 8 false 0 [] 2 in
  TCPConnection.mk example_cfg r s [] true false 0 true.

Lemma connection_lingers_witness :
  TCPConnection.active (fold_left TCPConnection.tick [4000; 5999] example_finished) = (9999 <? 10000).
Proof.
  apply (connection_lingers example_finished [4000; 5999]).
  - split; vm_compute; reflexivity.
  - reflexivity.
  - repeat constructor; lia.
  - discriminate.
  - vm_compute. discriminate.
  - vm_compute. reflexivity.
  - vm_compute. discriminate.
Defined.

Lemma sender_summary_spec_witness :
  TCPState.sender_state_summary example_sender = TCPState.S_SYN_ACKED.
Proof.
  destruct example_sender_inv as [una Hs].
  rewrite (sender_summary_spec [Byte.x61; Byte.x62] una example_sender Hs).
  - assert (TCPSender.is_syn_received example_sender = true) as E by (vm_compute; reflexivity).
    unfold TCPSender.is_syn_received in E. rewrite (TCPSender.i_syn _ _ _ Hs) in E. apply Z.ltb_lt in E.
    rewrite (proj2 (Z.eqb_neq una 0)) by lia. vm_compute. reflexivity.
  - vm_compute. reflexivity.
  - constructor.
Defined.
