(* ===== verification/Transfer.v ===== *)
(** * Two endpoints and a network

    Two [TCPConnection]s exchange the segments they emit through a network that may
    lose, repeat, delay and reorder them.  The theorems of TCPConnection.v speak of
    one endpoint whose peer sends segments of some stream; here the peer is the
    other endpoint, and what it sends is shown to be what those theorems ask for. *)

From S2P Require Import Prelude WrappingIntegers SpongeBuffer ByteStream StreamReassembler UtilBuffer TCPSegment.
From S2P Require Import TCPReceiver TCPSender TCPConnection.

(** ** What is in the queues of an endpoint *)

Module Outbound.
Import TCPSender.

(** A SYN that carries nothing else. *)
Definition bare_syn (seg : TCPSegment.t) : Prop :=
  seg_syn seg = true -> payload_bytes seg = [] /\ seg_fin seg = false.

(** The header fields of acknowledgments, as the sender leaves them. *)
Definition no_ack (seg : TCPSegment.t) : Prop :=
  TCPHeader.ack (TCPSegment.header seg) = false /\ is_u16 (TCPHeader.win (TCPSegment.header seg)).

Definition plain (seg : TCPSegment.t) : Prop := bare_syn seg /\ no_ack seg.

(** The segments a sender holds: those in flight and those to be sent. *)
Definition held (s : t) : list TCPSegment.t := segs_in_flight s ++ _segments_out s.

Lemma held_push (P : TCPSegment.t -> Prop) s seg :
  Forall P (held s) -> P seg -> Forall P (held (push_segment s seg)).
Proof.
  unfold held, segs_in_flight, push_segment. simpl. rewrite fmap_app, !Forall_app. intros [Hq Ho] Hp.
  split; (split; [done|by constructor]).
Qed.

Lemma held_push_all (P : TCPSegment.t -> Prop) segs s :
  Forall P (held s) -> Forall P segs -> Forall P (held (fold_left push_segment segs s)).
Proof.
  revert s. induction segs as [|seg segs IH]; intros s Hs Hn; [done|]. inversion Hn; subst.
  simpl. apply IH; [by apply held_push|done].
Qed.

(** The loop of [fill_window] makes its segments from one header. *)
Lemma segment_loop_held (P : TCPSegment.t -> Prop) fuel buffer_str is_fin h index n s s' :
  segment_loop fuel buffer_str is_fin h index n s = Ret s' ->
  (forall fin seqno data, P (TCPSegment.mk (set_flags h (TCPHeader.syn h) fin seqno) (Buffer.of_string data))) ->
  Forall P (held s) -> Forall P (held s').
Proof.
  revert h index n s. induction fuel as [|fuel IH]; intros h index n s; [done|].
  cbn [segment_loop]. intros (data & _ & E)%bind_Ret Hp Hs. cbv zeta in E.
  assert (forall fin seqno, Forall P (held (push_segment s
    (TCPSegment.mk (set_flags h (TCPHeader.syn h) fin seqno) (Buffer.of_string data))))) as Hs'
    by (intros; by apply held_push).
  revert E. match goal with |- context [if ?b then segment_loop _ _ _ _ _ _ _ else _] => destruct b end.
  - intros E. eapply IH; [exact E| |apply Hs']. intros fin seqno data'. apply Hp.
  - intros [= <-]. apply Hs'.
Qed.

Lemma fill_window_held (P : TCPSegment.t -> Prop) s s' :
  (forall syn fin seqno data,
     P (TCPSegment.mk (set_flags TCPHeader.default syn fin seqno) (Buffer.of_string data))) ->
  fill_window s = Ret s' -> Forall P (held s) -> Forall P (held s').
Proof.
  intros HP. assert (forall remaining syn, send_readable s remaining syn = Ret s' ->
    Forall P (held s) -> Forall P (held s')) as Hsend.
  { intros remaining syn. unfold send_readable. intros ([d b] & _ & E)%bind_Ret Hs. revert E.
    match goal with |- (if ?b then _ else _) = _ -> _ => destruct b end; [by intros [= <-]|].
    match goal with |- (if ?b then _ else _) = _ -> _ => destruct b end; [by intros [= <-]|].
    intros E. eapply segment_loop_held; [exact E|intros; apply HP|exact Hs]. }
  unfold fill_window. generalize (if _byted_in_flight s <? _window_size s
    then uint64 (_window_size s - _byted_in_flight s) else 0). intros remaining.
  destruct (remaining =? 0); [by intros [= <-]|]. destruct (_is_syn_received s); [apply Hsend|].
  destruct (head (_seg_queue s)) as [front|]; [|apply Hsend]. destruct (is_syn front); [by intros [= <-]|done].
Qed.

(** The SYN goes alone when nothing was written before it. *)
Lemma segs_ok_bare isn W ended a segs z :
  segs_ok isn W ended a segs z -> (a = 0 -> W = [] /\ ended = false) -> 0 <= a -> Forall bare_syn segs.
Proof.
  revert a. induction segs as [|seg segs IH]; intros a; [constructor|]. intros (H1 & H2 & H3) H0 Ha.
  constructor; [|apply (IH (a + seg_length seg)); [done|lia|lia]].
  intros Hs. destruct H1 as [_ _ Esyn _ Hend Hfin _]. rewrite Hs in Esyn. symmetry in Esyn. zbool.
  destruct (H0 Esyn) as [-> ->]. change (zlen (@nil byte)) with 0 in Hend. zlen_pose.
  split; [apply zlen_zero_nil; lia|]. destruct (seg_fin seg); [|done]. by destruct (Hfin eq_refl).
Qed.

Lemma fill_window_plain W una s s' :
  inv W una s -> (_next_seqno s = 0 -> W = [] /\ ended s = false) ->
  fill_window s = Ret s' -> Forall plain (held s) -> Forall plain (held s').
Proof.
  intros Hs H0 E Hp. destruct (fill_window_ok W una s Hs) as (b & segs & z & f & E' & Hf).
  destruct (inv_numbers W una s Hs) as (Hr0 & Hle & _). pose proof (i_una _ _ _ Hs).
  unfold plain in *. rewrite Forall_and in Hp |- *. destruct Hp as [Hb Hn]. split; [|by apply (fill_window_held no_ack s s')].
  rewrite E in E'. injection E' as ->. apply held_push_all; [done|].
  eapply segs_ok_bare; [apply Hf|done|lia].
Qed.

Lemma ack_received_held (P : TCPSegment.t -> Prop) W una s ackno w :
  inv W una s -> is_u16 w -> 0 < _next_seqno s \/ w <= 1 ->
  Forall P (held s) -> Forall P (held (ack_received s ackno w)).
Proof.
  intros Hs Hw Hn Hp. pose proof (ack_received_ok W una s ackno w Hs Hw Hn) as Ha. cbv zeta in Ha.
  destruct (_ <? unwrap _ _ _); [by rewrite Ha|].
  destruct Ha as (una' & n & _ & _ & _ & _ & Eo & Eq & _). unfold held in *. rewrite Eo, Eq.
  apply Forall_app in Hp as [H1 H2]. apply Forall_app. split; [by apply Forall_drop|done].
Qed.

Lemma tick_held (P : TCPSegment.t -> Prop) s ms : Forall P (held s) -> Forall P (held (tick s ms)).
Proof.
  unfold held, segs_in_flight, tick. rewrite !Forall_app. intros [Hq Ho]. simpl.
  destruct (_seg_queue s) as [|x q] eqn:Eq; simpl; rewrite ?Eq; [done|].
  inversion Hq; subst. case_if; simpl; rewrite ?Eq; simpl; [|by split].
  split; [done|]. apply Forall_app. split; [done|]. by constructor.
Qed.

Lemma send_empty_held s : Forall plain (held s) -> Forall plain (held (send_empty_segment s)).
Proof.
  unfold held, send_empty_segment. simpl. rewrite !Forall_app. intros [Hq Ho]. split; [done|]. split; [done|].
  by constructor.
Qed.

End Outbound.

Module Endpoint.
Import TCPConnection Outbound.

(** Nothing is written or closed before the SYN has been sent. *)
Definition fresh (W : string) (s : TCPSender.t) : Prop :=
  TCPSender._next_seqno s = 0 -> W = [] /\ TCPSender.ended s = false.

(** The sender of the stream [W], whose SYN goes alone. *)
Definition sender_state (W : string) (s : TCPSender.t) : Prop :=
  (exists una, TCPSender.inv W una s) /\ fresh W s /\ Forall plain (held s).

(** A segment of the outbound queue: an acknowledgment in it is of a SYN received. *)
Definition announced (r : TCPReceiver.t) (seg : TCPSegment.t) : Prop :=
  bare_syn seg /\ is_u16 (TCPHeader.win (TCPSegment.header seg))
  /\ (TCPHeader.ack (TCPSegment.header seg) = true -> TCPReceiver._isn r <> None).

Definition conn_state (W : string) (segs : list TCPSegment.t) (c : t) : Prop :=
  sender_state W (_sender c) /\ Forall (announced (_receiver c)) (segs ++ _segments_out c).

(** What never goes back, the next sequence number and that the SYN was received,
    and what only the application changes, the end of the stream. *)
Definition onward (c c' : t) : Prop :=
  TCPSender._next_seqno (_sender c) <= TCPSender._next_seqno (_sender c')
  /\ TCPSender.ended (_sender c') = TCPSender.ended (_sender c)
  /\ (TCPReceiver._isn (_receiver c) <> None -> TCPReceiver._isn (_receiver c') <> None).

Lemma onward_trans c1 c2 c3 : onward c1 c2 -> onward c2 c3 -> onward c1 c3.
Proof. intros (? & ? & ?) (? & ? & ?). split; [lia|]. split; [congruence|auto]. Qed.

Lemma onward_ext c c' : _sender c' = _sender c -> _receiver c' = _receiver c -> onward c c'.
Proof. unfold onward. by intros -> ->. Qed.

(** *** The sender's functions *)

Lemma fill_state W s s' :
  sender_state W s -> TCPSender.fill_window s = Ret s' ->
  sender_state W s' /\ TCPSender._next_seqno s <= TCPSender._next_seqno s' /\ TCPSender.ended s' = TCPSender.ended s.
Proof.
  intros ((una & Hs) & Hf & Hp) E. destruct (TCPSender.fill_window_ok W una s Hs) as (b & sg & z & f & E' & Hfl).
  destruct (TCPSender.filled_inv W una s b sg z f Hs Hfl) as (Hs' & Enx & Est & _).
  pose proof (TCPSender.segs_ok_le _ _ _ _ _ _ (TCPSender.f_segs _ _ _ _ _ _ Hfl)) as Hle.
  pose proof (TCPSender.inv_numbers W una s Hs) as (? & ? & _). pose proof (TCPSender.i_una _ _ _ Hs).
  pose proof (fill_window_plain W una s s' Hs Hf E Hp) as Hp'. rewrite E in E'. injection E' as ->.
  assert (TCPSender.ended (fold_left TCPSender.push_segment sg (TCPSender.set_stream s b)) = TCPSender.ended s) as Een
    by (unfold TCPSender.ended; rewrite Est; apply Hfl).
  rewrite Enx. split; [|done]. split; [by exists una|]. split; [|done].
  intros E0. rewrite Enx in E0. rewrite Een. apply Hf. lia.
Qed.

Lemma ack_state W s ackno w :
  sender_state W s -> TCPSender.valid s (TCPSender.Ack ackno w) ->
  let s' := TCPSender.ack_received s ackno w in
  sender_state W s' /\ TCPSender._next_seqno s' = TCPSender._next_seqno s /\ TCPSender.ended s' = TCPSender.ended s.
Proof.
  intros ((una & Hs) & Hf & Hp) [Hw Hn]. cbv zeta.
  pose proof (TCPSender.ack_received_ok W una s ackno w Hs Hw Hn) as Ha. cbv zeta in Ha.
  pose proof (ack_received_held plain W una s ackno w Hs Hw Hn Hp) as Hp'.
  destruct (_ <? unwrap _ _ _); [rewrite Ha; split; [|done]; split; [by exists una|done]|].
  destruct Ha as (una' & n & Hs' & _ & (_ & Est & En & _) & _).
  unfold sender_state, fresh, TCPSender.ended. rewrite En, Est. split; [|done]. split; [by exists una'|done].
Qed.

Lemma tick_state W s ms :
  sender_state W s ->
  let s' := TCPSender.tick s ms in
  sender_state W s' /\ TCPSender._next_seqno s' = TCPSender._next_seqno s /\ TCPSender.ended s' = TCPSender.ended s.
Proof.
  intros ((una & Hs) & Hf & Hp).
  assert (TCPSender._next_seqno (TCPSender.tick s ms) = TCPSender._next_seqno s
    /\ TCPSender._stream (TCPSender.tick s ms) = TCPSender._stream s) as [En Est].
  { unfold TCPSender.tick. simpl. destruct (TCPSender._seg_queue s); [done|]. by case_if. }
  cbv zeta. unfold sender_state, fresh, TCPSender.ended. rewrite En, Est. split; [|done].
  split; [exists una; by apply TCPSender.sender_tick_inv|]. split; [done|by apply tick_held].
Qed.

Lemma empty_state W s : sender_state W s -> sender_state W (TCPSender.send_empty_segment s).
Proof.
  intros ((una & Hs) & Hf & Hp). split; [exists una; by apply TCPSender.send_empty_inv|].
  split; [done|by apply send_empty_held].
Qed.

(** *** The connection's functions *)

Lemma announced_later r r' seg :
  (TCPReceiver._isn r <> None -> TCPReceiver._isn r' <> None) -> announced r seg -> announced r' seg.
Proof. intros Hi (H1 & H2 & H3). split; [done|]. split; [done|auto]. Qed.

Lemma window_size_range r : 0 <= TCPReceiver.window_size r.
Proof. unfold TCPReceiver.window_size, StreamReassembler.current_capactiy. apply uint64_range. Qed.

Lemma fill_ack_announced r seg : plain seg -> announced r (fill_ack r seg).
Proof.
  intros (Hb & Ha & Hw). split; [exact Hb|]. split.
  - pose proof (window_size_range r). unfold is_u16. simpl. lia.
  - simpl. unfold TCPReceiver.ackno. destruct (TCPReceiver._isn r); [done|]. by rewrite Ha.
Qed.

Lemma send_ack_state W segs c : conn_state W segs c -> conn_state W segs (_send_ack_if_need c).
Proof.
  intros [((una & Hs) & Hf & Hp) Ho]. unfold held in Hp. apply Forall_app in Hp as [Hq Hout]. split.
  - split; [exists una; destruct Hs; by split|]. split; [done|].
    unfold held. simpl. rewrite app_nil_r. exact Hq.
  - simpl. rewrite app_assoc. apply Forall_app. split; [done|]. apply Forall_fmap.
    apply (Forall_impl _ _ _ Hout). intros seg. apply fill_ack_announced.
Qed.

Lemma set_sender_state W segs c s : conn_state W segs c -> sender_state W s -> conn_state W segs (set_sender c s).
Proof. intros [_ Ho] Hs. by split. Qed.

Lemma state_ext W segs c c' :
  _sender c' = _sender c -> _receiver c' = _receiver c -> _segments_out c' = _segments_out c ->
  conn_state W segs c -> conn_state W segs c'.
Proof. unfold conn_state. by intros -> -> ->. Qed.

Lemma set_rst_state W segs c : conn_state W segs c -> conn_state W segs (_set_rst c) /\ onward c (_set_rst c).
Proof.
  intros [((una & Hs) & Hf & Hp) Ho]. split; [|by split]. split; [|exact Ho].
  split; [|done]. exists una. destruct Hs. split; try done. by apply ByteStream.set_error_wf.
Qed.

Lemma send_rst_state W segs c :
  conn_state W segs c -> conn_state W segs (_send_rst_to_peer c) /\ onward c (_send_rst_to_peer c).
Proof.
  intros [((una & Hs) & Hf & Hp) Ho]. unfold _send_rst_to_peer. cbv zeta.
  match goal with |- context [_set_rst ?x] => destruct (set_rst_state W segs x) as [H1 H2] end; [|by split].
  split; simpl.
  - split; [exists una; destruct Hs; by split|]. split; [done|]. unfold held in *. simpl. rewrite app_nil_r.
    by apply Forall_app in Hp as [Hq _].
  - rewrite app_assoc. apply Forall_app. split; [done|]. constructor; [|constructor].
    split; [done|]. split; [by vm_compute|done].
Qed.

Lemma reply_state W segs c seg c' :
  conn_state W segs c -> reply c seg = Ret c' -> conn_state W segs c' /\ onward c c'.
Proof.
  intros Hc. unfold reply. intros (s & E & [= <-])%bind_Ret. pose proof Hc as [Hs _].
  assert (sender_state W s /\ TCPSender._next_seqno (_sender c) <= TCPSender._next_seqno s
    /\ TCPSender.ended s = TCPSender.ended (_sender c)) as (Hs' & Hn & He).
  { revert E. case_if; [by apply fill_state|]. intros [= <-]. by split. }
  split.
  - apply send_ack_state, set_sender_state; [done|]. case_if; [by apply empty_state|done].
  - split_and!; simpl; [by case_if..|done].
Qed.

Lemma receiver_opened r seg r' :
  TCPReceiver.segment_received r seg = Ret r' -> TCPReceiver._isn r <> None -> TCPReceiver._isn r' <> None.
Proof.
  unfold TCPReceiver.segment_received. intros E Hi. revert E. rewrite (bool_decide_eq_false_2 (_ = None)) by done.
  rewrite andb_false_r. cbn [andb]. destruct (TCPReceiver._isn r) as [i|]; [|done]. cbv zeta.
  set (fsn := if _ : bool then _ else TCPReceiver._fsn r).
  assert (forall eof, (re ← TCPReceiver.push_back_wrap_string seg i (Buffer.str (TCPSegment.payload seg))
      (TCPReceiver._reassembler r) eof; Ret (TCPReceiver.mk re (TCPReceiver._capacity r) (Some i) fsn)) = Ret r' ->
    TCPReceiver._isn r' <> None) as Hp by (by intros eof (re & _ & [= <-])%bind_Ret).
  case_if; [apply Hp|]. case_if; apply Hp.
Qed.

Lemma segment_received_state W segs c seg c' :
  conn_state W segs c ->
  TCPHeader.rst (TCPSegment.header seg) = true \/ active c = false \/
  (TCPHeader.ack (TCPSegment.header seg) = true ->
   TCPSender.valid (_sender c) (TCPSender.Ack (TCPHeader.ackno (TCPSegment.header seg))
                                              (TCPHeader.win (TCPSegment.header seg)))) ->
  segment_received c seg = Ret c' -> conn_state W segs c' /\ onward c c'.
Proof.
  intros Hc Hv. unfold segment_received. set (c0 := set_last_received_time c 0).
  assert (conn_state W segs c0) as Hc0 by exact Hc. change (active c) with (active c0) in Hv.
  assert (onward c c0) as Hon by (by split). change (_sender c) with (_sender c0) in Hv. clearbody c0.
  destruct (TCPHeader.rst _) eqn:Erst.
  { intros [= <-]. destruct (set_rst_state W segs c0 Hc0). split; [done|by eapply onward_trans]. }
  destruct (active c0) eqn:Ea; cbn [negb]; [|by intros [= <-]]. case_if; [by intros [= <-]|].
  destruct Hv as [?|[?|Hva]]; [done|done|].
  match goal with |- context [set_receiver ?x] => set (c1 := x) end.
  assert (conn_state W segs c1 /\ onward c0 c1 /\ _receiver c1 = _receiver c0) as (Hc1 & Ho1 & Er1).
  { subst c1. destruct (TCPHeader.ack _); [|split; [done|]; split; [by split|done]].
    destruct (ack_state W (_sender c0) _ _ (proj1 Hc0) (Hva eq_refl)) as (Hs & En & Een).
    split; [by apply set_sender_state|]. split; [|done]. split_and!; simpl; [lia|done|done]. }
  clearbody c1. rewrite Er1. intros (r & Er & E)%bind_Ret. pose proof (receiver_opened _ _ _ Er) as Hop.
  assert (conn_state W segs (set_receiver c1 r) /\ onward c1 (set_receiver c1 r)) as [Hc2 Ho2].
  { split; [|split_and!; [done|done|by rewrite Er1]]. destruct Hc1 as [Hs Ho]. split; [done|].
    apply (Forall_impl _ _ _ Ho). intros sg. apply announced_later. by rewrite Er1. }
  pose proof (onward_trans _ _ _ (onward_trans _ _ _ Hon Ho1) Ho2) as Ho. clear Hon Ho1 Ho2 Hc1. revert E.
  set (c2 := set_receiver c1 r) in *. clearbody c2.
  match goal with
  | |- context [if ?b then set_send_fin_first ?x false else ?x] => set (c3 := if b then set_send_fin_first x false else x)
  end.
  assert (conn_state W segs c3 /\ onward c2 c3) as [Hc3 Ho3].
  { subst c3. case_if; (split; [done|by split]). }
  clearbody c3.
  match goal with
  | |- context [if ?b then set_linger ?x false else ?x] => set (c4 := if b then set_linger x false else x)
  end.
  assert (conn_state W segs c4 /\ onward c3 c4) as [Hc4 Ho4].
  { subst c4. case_if; (split; [done|by split]). }
  clearbody c4. pose proof (onward_trans _ _ _ (onward_trans _ _ _ Ho Ho3) Ho4) as Ho'. case_if.
  - intros [= <-]. split; [by apply send_ack_state, set_sender_state, empty_state, Hc4|].
    eapply onward_trans; [exact Ho'|by split].
  - intros E. destruct (reply_state W segs c4 seg c' Hc4 E). split; [done|by eapply onward_trans].
Qed.

Lemma tick_conn_state W segs c ms : conn_state W segs c -> conn_state W segs (tick c ms) /\ onward c (tick c ms).
Proof.
  intros Hc. unfold tick. case_if; [by apply send_rst_state|].
  match goal with |- context [set_sender ?x _] => set (c1 := x) end.
  assert (_sender c1 = _sender c /\ _segments_out c1 = _segments_out c /\ _receiver c1 = _receiver c) as (E1 & E2 & E3)
    by (subst c1; case_if; [case_if|]; done).
  clearbody c1. destruct (tick_state W (_sender c) ms (proj1 Hc)) as (Hs & En & Een). split.
  - apply send_ack_state. apply (state_ext W segs (set_sender c (TCPSender.tick (_sender c) ms))); simpl;
      [by rewrite E1|done|done|]. by apply set_sender_state.
  - split_and!; simpl; [by rewrite E1, En|rewrite E1; exact Een|by rewrite E3].
Qed.

(** The calls that end in [fill_window]. *)
Lemma fill_conn_state W segs c s s' :
  Forall (announced (_receiver c)) (segs ++ _segments_out c) -> sender_state W s ->
  TCPSender.fill_window s = Ret s' ->
  conn_state W segs (_send_ack_if_need (set_sender c s')) /\ onward (set_sender c s) (_send_ack_if_need (set_sender c s')).
Proof.
  intros Ho Hs E. destruct (fill_state W s s' Hs E) as (Hs' & Hn & He).
  split; [apply send_ack_state; by split|by split].
Qed.

(** Every call: the application writes and closes once the SYN is sent. *)
Definition disciplined (c : t) (o : ConnectionSpec.op) : Prop :=
  match o with
  | ConnectionSpec.Segment seg =>
      TCPHeader.rst (TCPSegment.header seg) = true \/ active c = false \/
      (TCPHeader.ack (TCPSegment.header seg) = true ->
       TCPSender.valid (_sender c) (TCPSender.Ack (TCPHeader.ackno (TCPSegment.header seg))
                                                  (TCPHeader.win (TCPSegment.header seg))))
  | ConnectionSpec.Write data => 0 < TCPSender._next_seqno (_sender c) /\ TCPSender.valid (_sender c) (TCPSender.Write data)
  | ConnectionSpec.EndInput => 0 < TCPSender._next_seqno (_sender c)
  | _ => True
  end.

Lemma step_state W segs c o c' r :
  conn_state W segs c -> disciplined c o -> ConnectionSpec.step c o = Ret (c', r) ->
  conn_state (W ++ ConnectionSpec.written r) (segs ++ ConnectionSpec.sent r) c'
  /\ TCPSender._next_seqno (_sender c) <= TCPSender._next_seqno (_sender c')
  /\ (o <> ConnectionSpec.EndInput -> TCPSender.ended (_sender c') = TCPSender.ended (_sender c)).
Proof.
  intros Hc Hv. pose proof Hc as [Hs Ho].
  assert (forall c', conn_state W segs c' /\ onward c c' -> conn_state (W ++ []) (segs ++ []) c'
    /\ TCPSender._next_seqno (_sender c) <= TCPSender._next_seqno (_sender c')
    /\ (o <> ConnectionSpec.EndInput -> TCPSender.ended (_sender c') = TCPSender.ended (_sender c))) as Hkeep
    by (intros c1 (H1 & H2 & H3 & _); by rewrite !app_nil_r).
  destruct o as [seg|data| | |ms|len|]; cbn [ConnectionSpec.step disciplined] in *.
  - intros (c1 & E & [= <- <-])%bind_Ret. apply Hkeep. by apply (segment_received_state W segs c seg).
  - intros ([n c1] & E & [= <- <-])%bind_Ret. destruct Hv as [Hn Hv]. destruct Hs as ((una & Hi) & Hf & Hp).
    destruct (TCPSender.sending_step (W, []) (_sender c) (TCPSender.Write data))
      as (s1 & [w l] & E1 & (una1 & H1 & _) & _); [exists una; by split|done|].
    cbn [TCPSender.step] in E1. unfold write in E.
    change (TCPSender.stream_in (_sender c)) with (TCPSender._stream (_sender c)) in E.
    destruct (ByteStream.write (TCPSender._stream (_sender c)) data) as [b k] eqn:Eb.
    injection E1 as <- <- <-. apply bind_Ret in E as (s' & E & [= <- <-]). simpl in H1 |- *. rewrite app_nil_r.
    destruct (fill_conn_state (W ++ take (Z.to_nat k) data) segs c (TCPSender.set_stream (_sender c) b) s')
      as (G1 & G2 & G3 & _); [done| |done|].
    { split; [by exists una1|]. split; [|done]. intros E0. simpl in E0. lia. }
    split; [done|]. split; [done|]. intros _. etransitivity; [exact G3|].
    change (ByteStream.is_input_end b = ByteStream.is_input_end (TCPSender._stream (_sender c))).
    replace b with (fst (ByteStream.write (TCPSender._stream (_sender c)) data)) by (by rewrite Eb).
    apply StreamReassembler.is_input_end_write.
  - intros (c1 & E & [= <- <-])%bind_Ret. apply bind_Ret in E as (s' & E & [= <-]). simpl. rewrite !app_nil_r.
    destruct Hs as ((una & Hi) & Hf & Hp).
    destruct (fill_conn_state W segs c (TCPSender.set_stream (_sender c) (ByteStream.end_input (TCPSender.stream_in (_sender c)))) s')
      as (G1 & G2 & _); [done| |done|].
    { split; [exists una; by apply TCPSender.end_input_inv|]. split; [|done]. intros E0. simpl in E0. lia. }
    split; [done|]. split; [exact G2|]. by intros [].
  - intros (c1 & E & [= <- <-])%bind_Ret. apply bind_Ret in E as (s' & E & [= <-]). apply Hkeep.
    destruct (fill_conn_state W segs c (_sender c) s' Ho Hs E) as [G1 G2]. split; [done|exact G2].
  - intros [= <- <-]. apply Hkeep. by apply tick_conn_state.
  - intros ([d s] & E & [= <- <-])%bind_Ret. apply Hkeep. split; [by split|by split].
  - intros [= <- <-]. simpl. rewrite app_nil_r. split; [|by split]. split; [done|]. simpl. by rewrite app_nil_r.
Qed.


End Endpoint.

(** ** The system *)

Module Network.
Import TCPConnection Outbound Endpoint.

Inductive side := Left | Right.
#[global] Instance side_eq_dec : EqDecision side.
Proof. solve_decision. Defined.
Definition other (s : side) : side := match s with Left => Right | Right => Left end.

(** An endpoint with what its application has written and read, and every segment
    it has given to the network. *)
Record host := mk_host {
  conn : TCPConnection.t;
  written : string;
  read : string;
  wire : list TCPSegment.t
}.
Record net := mk_net { left : host; right : host }.

Definition at_side (n : net) (s : side) : host := match s with Left => left n | Right => right n end.
Definition set_side (n : net) (s : side) (h : host) : net :=
  match s with Left => mk_net h (right n) | Right => mk_net (left n) h end.

(** What the applications and the network do.  A segment on the wire can be
    delivered at any time and any number of times, or never. *)
Inductive op :=
  | Open (s : side)
  | Offer (s : side) (len : Z)
  | Close (s : side)
  | Elapse (s : side) (ms : Z)
  | Take (s : side) (len : Z)
  | Transmit (s : side)
  | Deliver (s : side) (k : nat).

Section System.

(** The bytes the application of each side has to send. *)
Context (data : side -> string).

Definition local (n : net) (s : side) (o : ConnectionSpec.op) : outcome (net * unit) :=
  let h := at_side n s in
  '(c, r) ← ConnectionSpec.step (conn h) o;
  Ret (set_side n s (mk_host c (written h ++ ConnectionSpec.written r) (read h ++ ConnectionSpec.got r)
                       (wire h ++ ConnectionSpec.sent r)), tt).

Definition step (n : net) (o : op) : outcome (net * unit) :=
  match o with
  | Open s => local n s ConnectionSpec.Connect
  | Offer s len =>
      local n s (ConnectionSpec.Write (slice (data s) (zlen (written (at_side n s))) len))
  | Close s => local n s ConnectionSpec.EndInput
  | Elapse s ms => local n s (ConnectionSpec.Tick ms)
  | Take s len => local n s (ConnectionSpec.Read len)
  | Transmit s => local n s ConnectionSpec.Drain
  | Deliver s k =>
      match wire (at_side n s) !! k with
      | Some seg => local n (other s) (ConnectionSpec.Segment seg)
      | None => Ret (n, tt)
      end
  end.

Definition next (h : host) : Z := TCPSender._next_seqno (_sender (conn h)).
Definition ended (h : host) : bool := TCPSender.ended (_sender (conn h)).

(** An application writes and closes once the SYN is sent, and closes when it has
    written everything.  The network does not deliver a SYN to an endpoint that has
    assembled bytes. *)
Definition valid (n : net) (o : op) : Prop :=
  match o with
  | Offer s len => 0 < next (at_side n s) /\ ended (at_side n s) = false /\ 0 <= len
  | Close s => 0 < next (at_side n s) /\ written (at_side n s) = data s
  | Take s len => 0 <= len
  | Deliver s k =>
      forall seg, wire (at_side n s) !! k = Some seg -> TCPSender.seg_syn seg = true ->
      let r := _receiver (conn (at_side n (other s))) in
      TCPReceiver._isn r = None \/ StreamReassembler._top_pointer (TCPReceiver._reassembler r) = 1
  | _ => True
  end.

(** ** The invariant *)

Context (cap : side -> Z) (isn : side -> WrappingInt32).
Hypothesis Hcap : forall s, is_u64 (cap s).
Hypothesis Hisn : forall s, wi_ok (isn s).
Hypothesis Hdata : forall s, zlen (data s) < 2 ^ 31 - 4.

Record host_ok (s : side) (h peer : host) : Prop := {
  ok_conn : ConnectionSpec.inv (cap s) (isn (other s)) (data (other s)) (isn s)
              (ConnectionSpec.Seen (written h) (wire h) (read h)) (conn h);
  ok_state : conn_state (written h) (wire h) (conn h);
  ok_written : exists rest, data s = written h ++ rest;
  ok_ended : ended h = true -> written h = data s;
  ok_peer : TCPReceiver._isn (_receiver (conn h)) <> None -> 0 < next peer
}.

Definition inv (n : net) : Prop := forall s, host_ok s (at_side n s) (at_side n (other s)).

(** The next sequence number counts the SYN, the bytes and the FIN. *)
Lemma next_bound s h peer : host_ok s h peer -> 0 <= next h <= zlen (written h) + 2.
Proof using.
  intros Hok. destruct (proj1 (ok_conn _ _ _ Hok)) as (una & Hs & _).
  destruct (TCPSender.inv_numbers _ _ _ Hs) as (Hr0 & Hle & _). pose proof (TCPSender.i_una _ _ _ Hs).
  pose proof (TCPSender.i_read _ _ _ Hs). cbn [ConnectionSpec.written] in *. zlen_pose. unfold next.
  destruct (TCPSender.i_next _ _ _ Hs) as [(? & ? & ?)|[?|(? & ? & ?)]]; lia.
Qed.

(** What an endpoint sends is what its peer may receive. *)
Lemma wire_valid s h peer seg :
  host_ok s h peer -> host_ok (other s) peer h -> seg ∈ wire h ->
  (TCPSender.seg_syn seg = true -> TCPReceiver._isn (_receiver (conn peer)) = None
     \/ StreamReassembler._top_pointer (TCPReceiver._reassembler (_receiver (conn peer))) = 1) ->
  ConnectionSpec.valid (isn s) (data s) (conn peer) (ConnectionSpec.Segment seg).
Proof using Hisn Hdata.
  intros Hok Hpeer Hseg Hsyn. pose proof (Hdata s) as Hlen. pose proof (next_bound _ _ _ Hok) as Hnb.
  destruct (ok_written _ _ _ Hok) as [rest Erest].
  assert (zlen (written h) <= zlen (data s)) as Hwl by (rewrite Erest; zlen_lia).
  destruct (proj1 (ok_conn _ _ _ Hok)) as (una & Hs & Ei & Hf). cbn [ConnectionSpec.written ConnectionSpec.sent] in *.
  pose proof (proj1 (Forall_forall _ _) Hf seg (proj2 (elem_of_app _ _ _) (or_introl Hseg))) as He.
  destruct (ok_state _ _ _ Hok) as [_ Han].
  destruct (proj1 (Forall_forall _ _) Han seg (proj2 (elem_of_app _ _ _) (or_introl Hseg))) as (Hb & Hw & Hack).
  cbn [ConnectionSpec.valid].
  destruct (active (conn peer)) eqn:Ea; [|by right; left]. right; right. split.
  2: { intros Ha. split; [done|]. left. by apply (ok_peer _ _ _ Hok), Hack. }
  destruct (proj2 (ok_conn _ _ _ Hpeer)) as (r & (Hr & _) & [Er|[Ex _]]).
  2: { by rewrite (ConnectionSpec.active_not_rst _ Ea) in Ex. }
  rewrite Er in *. replace (other (other s)) with s in Hr by (by destruct s).
  cbn [TCPReceiver.valid]. destruct Hr as [->|[Hr _]].
  - change (TCPReceiver._isn (TCPReceiver.new _)) with (@None WrappingInt32). cbn match.
    destruct (TCPSender.seg_syn seg) eqn:Es; [right|by left]. destruct (Hb Es) as [Hp Hfi].
    destruct He as [(a & Hsg & _)|(a & _ & _ & E & _)]; [|by rewrite E in Es].
    destruct Hsg as [_ Hq Hsy _ _ _ _]. rewrite Es in Hsy. symmetry in Hsy. zbool. subst a.
    split; [done|done|by rewrite Hq, TCPReceiver.wrap_0|done].
  - rewrite (TCPReceiver.inv_isn _ _ _ Hr) in *.
    pose proof (TCPReceiver.inv_reassembler _ _ _ Hr) as Hra.
    pose proof (StreamReassembler.inv_top_le _ _ _ Hra). pose proof (StreamReassembler.inv_top _ _ _ Hra).
    pose proof (ByteStream.wf_read _ (StreamReassembler.inv_output _ _ _ Hra)) as [? ?]. zlen_pose.
    destruct He as [(a & Hsg & Ha)|(a & Ha & Hq & Es & Hfi & Hp)].
    + destruct Hsg as [Ha0 Hq Hsy Hd Hend Hfin _]. destruct (decide (a = 0)) as [->|Hne].
      * right. simpl in Hsy. destruct (Hb Hsy) as [Hp Hfi]. destruct (Hsyn Hsy) as [?|Ht]; [done|].
        split; [done|by rewrite Hq, TCPReceiver.wrap_0|done|lia|done].
      * left. exists a. rewrite (proj2 (Z.eqb_neq _ _)) in Hsy by done.
        replace (Z.max a 1) with a in * by lia. pose proof (zlen_nonneg (TCPSender.payload_bytes seg)).
        split; [done|done|lia|]. fold (TCPSender.payload_bytes seg). fold (TCPSender.seg_fin seg).
        split; [lia|lia| |].
        -- rewrite Hd at 1. rewrite Erest. symmetry. apply slice_app_l; lia.
        -- intros Ef. destruct (Hfin Ef) as [Een Hl]. rewrite <- (ok_ended _ _ _ Hok Een). lia.
    + destruct (decide (a = 0)) as [->|Hne].
      * right. split; [done|by rewrite Hq, TCPReceiver.wrap_0|done|lia|]. intros E. unfold TCPSender.seg_syn in Es. congruence.
      * left. exists a. unfold TCPSender.payload_bytes, TCPSender.seg_fin, TCPSender.seg_syn in *.
        fold (next h) in Ha. split; [done|done|lia|]. rewrite Hp, Hfi.
        split; rewrite ?zlen_nil; [lia|lia|by rewrite slice_empty|done].
Qed.

(** What a call does to the peer's initial sequence number. *)
Lemma step_isn c o c' r :
  ConnectionSpec.step c o = Ret (c', r) -> TCPReceiver._isn (_receiver c') <> None ->
  TCPReceiver._isn (_receiver c) <> None
  \/ exists seg, o = ConnectionSpec.Segment seg /\ TCPSender.seg_syn seg = true.
Proof using.
  destruct o as [seg|d| | |ms|len|]; simpl.
  - intros (c1 & E & [= <- <-])%bind_Ret Hi.
    destruct (TCPSender.seg_syn seg) eqn:Es; [right; by exists seg|left]. revert E. unfold segment_received.
    case_if; [by intros [= <-]|]. case_if; [by intros [= <-]|]. case_if; [by intros [= <-]|].
    match goal with |- context [set_receiver ?x] => set (c0 := x) end.
    assert (_receiver c0 = _receiver c) as E0 by (subst c0; by case_if). clearbody c0. rewrite E0.
    intros (rc & Er & E)%bind_Ret Hn. rewrite TCPReceiver.not_open_ignored in Er by done. injection Er as <-.
    revert E. match goal with
    | |- context [if ?b then set_send_fin_first ?x false else ?x] => set (c2 := if b then set_send_fin_first x false else x)
    end.
    assert (_receiver c2 = _receiver c) as E2 by (subst c2; by case_if). clearbody c2.
    match goal with
    | |- context [if ?b then set_linger ?x false else ?x] => set (c3 := if b then set_linger x false else x)
    end.
    assert (_receiver c3 = _receiver c) as E3 by (subst c3; by case_if). clearbody c3.
    case_if; [intros [= <-]|intros E%ConnectionSpec.reply_receiver]; apply Hi.
    + simpl. by rewrite E3.
    + by rewrite E, E3.
  - intros ([k c1] & E & [= <- <-])%bind_Ret. unfold write in E. destruct (ByteStream.write _ _).
    apply bind_Ret in E as (s & _ & [= <- <-]). by left.
  - intros (c1 & E & [= <- <-])%bind_Ret. apply bind_Ret in E as (s & _ & [= <-]). by left.
  - intros (c1 & E & [= <- <-])%bind_Ret. apply bind_Ret in E as (s & _ & [= <-]). by left.
  - intros [= <- <-]. unfold tick. case_if; [by left|]. simpl. case_if; [case_if|]; by left.
  - intros ([d s] & E & [= <- <-])%bind_Ret. by left.
  - intros [= <- <-]. by left.
Qed.

Lemma other_other s : other (other s) = s.
Proof using. by destruct s. Qed.
Lemma set_side_same n s h : at_side (set_side n s h) s = h.
Proof using. by destruct s. Qed.
Lemma set_side_other n s h : at_side (set_side n s h) (other s) = at_side n (other s).
Proof using. by destruct s. Qed.

(** A SYN on the wire means that the sequence numbers have begun. *)
Lemma wire_syn s h peer seg :
  host_ok s h peer -> seg ∈ wire h -> TCPSender.seg_syn seg = true -> 0 < next h.
Proof using.
  intros Hok Hseg Es. destruct (proj1 (ok_conn _ _ _ Hok)) as (una & _ & _ & Hf). cbn [ConnectionSpec.sent] in Hf.
  destruct (proj1 (Forall_forall _ _) Hf seg (proj2 (elem_of_app _ _ _) (or_introl Hseg)))
    as [(a & Hsg & Ha)|(a & _ & _ & E & _)]; [|by rewrite E in Es].
  pose proof (TCPSender.so_pos _ _ _ _ _ Hsg). pose proof (zlen_nonneg (TCPSender.payload_bytes seg)).
  unfold TCPSender.seg_length in Ha. rewrite Es in Ha. unfold next. destruct (TCPSender.seg_fin seg); lia.
Qed.

(** What a call at side [s] has to satisfy. *)
Definition allowed (n : net) (s : side) (o : ConnectionSpec.op) : Prop :=
  let h := at_side n s in
  ConnectionSpec.valid (isn (other s)) (data (other s)) (conn h) o /\
  match o with
  | ConnectionSpec.Segment seg => seg ∈ wire (at_side n (other s))
  | ConnectionSpec.Write d => 0 < next h /\ exists len, d = slice (data s) (zlen (written h)) len
  | ConnectionSpec.EndInput => 0 < next h /\ written h = data s
  | _ => True
  end.

Lemma allowed_disciplined n s o : allowed n s o -> disciplined (conn (at_side n s)) o.
Proof using.
  unfold allowed, next. destruct o; simpl; tauto.
Qed.

(** The bytes a call accepts from the application continue its stream. *)
Lemma step_written n s o c' r :
  allowed n s o -> host_ok s (at_side n s) (at_side n (other s)) ->
  ConnectionSpec.step (conn (at_side n s)) o = Ret (c', r) ->
  (exists rest, data s = (written (at_side n s) ++ ConnectionSpec.written r) ++ rest)
  /\ (ConnectionSpec.written r = [] \/ (ended (at_side n s) = false /\ o <> ConnectionSpec.EndInput)).
Proof using.
  intros [Hv Ha] Hok E. destruct (ok_written _ _ _ Hok) as [rest Er].
  assert (ConnectionSpec.written r = [] -> (exists rest, data s = (written (at_side n s) ++ ConnectionSpec.written r) ++ rest)
    /\ (ConnectionSpec.written r = [] \/ (ended (at_side n s) = false /\ o <> ConnectionSpec.EndInput))) as Hnil
    by (intros ->; rewrite app_nil_r; split; [by exists rest|by left]).
  destruct o as [seg|d| | |ms|len|]; simpl in E; try (apply bind_Ret in E as (x & E' & E));
    try (destruct x as [? ?]); try (injection E as <- <-); try (by apply Hnil).
  simpl. destruct Ha as [_ [len ->]]. split; [|right; split; [apply Hv|done]].
  unfold slice. rewrite Er, drop_app_length' by (unfold zlen; lia). rewrite take_take.
  exists (drop (Z.to_nat z `min` Z.to_nat len) rest). by rewrite <- app_assoc, take_drop.
Qed.

Lemma local_ok n s o :
  inv n -> allowed n s o -> exists n', local n s o = Ret (n', tt) /\ inv n'.
Proof using Hcap Hisn Hdata.
  intros Hn Ha. pose proof (Hn s) as Hok. pose proof (Hn (other s)) as Hpeer. rewrite other_other in Hpeer.
  pose proof (allowed_disciplined _ _ _ Ha) as Hd. pose proof Ha as [Hv Ho]. pose proof (Hdata (other s)).
  unfold local. set (h := at_side n s) in *. set (p := at_side n (other s)) in *.
  destruct (ConnectionSpec.inv_step (cap s) (isn (other s)) (data (other s)) (isn s) (Hcap s) (Hisn (other s))
    ltac:(lia) _ _ o (ok_conn _ _ _ Hok) Hv) as (c' & r & E & Hi). rewrite E. cbn [mbind outcome_bind].
  destruct (step_state _ _ _ _ _ _ (ok_state _ _ _ Hok) Hd E) as (Hst & Hnx & Hen).
  destruct (step_written n s o c' r Ha Hok E) as [Hw Hw']. eexists. split; [done|].
  set (h' := mk_host c' _ _ _).
  assert (host_ok s h' p) as Hok'.
  { split; [exact Hi|exact Hst|exact Hw| |].
    - unfold ended, h'; simpl. intros Ee.
      assert (o = ConnectionSpec.EndInput \/ o <> ConnectionSpec.EndInput) as [->|Hne]
        by (destruct o; (by left) || (by right)).
      + destruct Hw' as [->|[_ ?]]; [|done]. rewrite app_nil_r. apply Ho.
      + rewrite Hen in Ee by done. destruct Hw' as [->|[Ef _]]; [|unfold ended in Ef; fold h in Ef; congruence].
        rewrite app_nil_r. by apply (ok_ended _ _ _ Hok).
    - intros Hi'. destruct (step_isn _ _ _ _ E Hi') as [Hi0|(seg & -> & Es)].
      + by apply (ok_peer _ _ _ Hok).
      + by apply (wire_syn (other s) p h seg). }
  assert (host_ok (other s) p h') as Hpeer'.
  { destruct Hpeer as [P1 P2 P3 P4 P5]. split; try done. intros Hi0. specialize (P5 Hi0). unfold next, h' in *. simpl. lia. }
  intros x. destruct (decide (x = s)) as [->|Hx].
  - by rewrite set_side_same, set_side_other.
  - assert (x = other s) as -> by (by destruct x, s). by rewrite other_other, set_side_same, set_side_other.
Qed.

Lemma net_step n o : inv n -> valid n o -> exists n' r, step n o = Ret (n', r) /\ inv n'.
Proof using Hcap Hisn Hdata.
  intros Hn Hv.
  assert (forall s o', allowed n s o' -> exists n' r, local n s o' = Ret (n', r) /\ inv n') as Hl
    by (intros s o' Ha; destruct (local_ok n s o' Hn Ha) as (n' & E & H); by exists n', tt).
  destruct o as [s|s len|s|s ms|s len|s|s k]; cbn [step valid] in *; try (apply Hl; by split).
  - destruct Hv as (Hx & He & Hlen). apply Hl. split; [|by split; [|exists len]]. split; [done|].
    destruct (proj1 (ok_conn _ _ _ (Hn s))) as (una & Hs & _).
    change (TCPSender._stream (_sender (conn (at_side n s)))) with (TCPSender._stream (_sender (conn (at_side n s)))).
    rewrite (TCPSender.bytes_written_inv _ _ _ Hs). destruct (ok_written _ _ _ (Hn s)) as [rest Er].
    pose proof (Hdata s) as Hds. pose proof (zlen_nonneg rest). rewrite Er in *. rewrite zlen_app in Hds.
    unfold slice. rewrite drop_app_length' by (unfold zlen; lia). cbn [ConnectionSpec.written].
    rewrite zlen_take. lia.
  - destruct (wire (at_side n s) !! k) as [seg|] eqn:Ek; [|by exists n, tt]. apply Hl.
    assert (seg ∈ wire (at_side n s)) as Hseg by (by apply list_elem_of_lookup_2 in Ek).
    unfold allowed. rewrite other_other. split; [|done].
    pose proof (Hn (other s)) as Hpeer. rewrite other_other in Hpeer.
    apply (wire_valid s (at_side n s)); [apply Hn|done|done|]. by apply Hv.
Qed.

End System.

(** Two fresh connections. *)
Definition start (cfg : side -> TCPConfig.t) (random : side -> Z) : net :=
  let h s := mk_host (TCPConnection.new (cfg s) (random s)) [] [] [] in mk_net (h Left) (h Right).

Lemma start_inv data cfg random :
  (forall s, is_u64 (TCPConfig.send_capacity (cfg s))) ->
  (forall s, wi_ok (default (mkWrappingInt32 (random s)) (TCPConfig.fixed_isn (cfg s)))) ->
  inv data (fun s => TCPConfig.recv_capacity (cfg s))
    (fun s => default (mkWrappingInt32 (random s)) (TCPConfig.fixed_isn (cfg s))) (start cfg random).
Proof.
  intros Hc Hi. assert (forall s, at_side (start cfg random) s
    = mk_host (TCPConnection.new (cfg s) (random s)) [] [] []) as E by (by intros []).
  intros s. rewrite !E. split; simpl; try done.
  - by apply ConnectionSpec.connection_new_inv.
  - split; [|constructor]. split; [exists 0; by apply TCPSender.sender_new_inv|]. split; [done|constructor].
  - by exists (data s).
Qed.

End Network.

(** ** Properties *)

(** C1: Two endpoints with streams shorter than 2^31 - 4 bytes deliver each other's
    streams. The network may lose, repeat, delay and reorder the segments as it
    likes, but it does not bring a SYN again to an endpoint that has assembled
    bytes. The applications read and let time pass at any time; they write and close
    once their connection has sent its SYN, write nothing after closing, and close
    when they have written all of their stream. Then no call throws; what an
    application reads is a prefix of what the other has to send, and all of it once
    the stream has ended there. *)
Theorem transfer_safe (data : Network.side -> string) (cfg : Network.side -> TCPConfig.t)
    (random : Network.side -> Z) (ops : list Network.op) :
  (forall s, is_u64 (TCPConfig.recv_capacity (cfg s))) -> (forall s, is_u64 (TCPConfig.send_capacity (cfg s))) ->
  (forall s, wi_ok (default (mkWrappingInt32 (random s)) (TCPConfig.fixed_isn (cfg s)))) ->
  (forall s, zlen (data s) < 2 ^ 31 - 4) ->
  valid_run (Network.step data) (Network.valid data) (Network.start cfg random) ops ->
  exists n rs, run (Network.step data) (Network.start cfg random) ops = Ret (n, rs) /\
    forall s, let h := Network.at_side n s in let peer := Network.at_side n (Network.other s) in
      let inbound := TCPConnection.inbound_stream (Network.conn peer) in
      Network.written h `prefix_of` data s /\
      Network.read peer ++ ByteStream.bytes inbound `prefix_of` data s /\
      (ByteStream.input_ended inbound = true -> Network.read peer ++ ByteStream.bytes inbound = data s).
Proof.
  intros Hr Hs Hi Hd Hv.
  destruct (run_ghost (Network.step data) (Network.valid data)
    (fun (_ : unit) => Network.inv data (fun s => TCPConfig.recv_capacity (cfg s))
       (fun s => default (mkWrappingInt32 (random s)) (TCPConfig.fixed_isn (cfg s)))) (fun g _ => g)
    (fun _ n o => Network.net_step data _ _ Hr Hi Hd n o) ops tt (Network.start cfg random))
    as (n & rs & E & Hn); [by apply Network.start_inv|done|].
  exists n, rs. split; [done|]. intros s h peer inbound. pose proof (Hn s) as Hok.
  pose proof (Hn (Network.other s)) as Hpeer. rewrite Network.other_other in Hpeer. fold h peer in Hok, Hpeer.
  split; [exact (Network.ok_written _ _ _ _ _ _ Hok)|].
  destruct (proj2 (Network.ok_conn _ _ _ _ _ _ Hpeer)) as (r & Hrd & Hc).
  rewrite Network.other_other in Hrd. cbn [ConnectionSpec.got] in Hrd.
  destruct (TCPReceiver.reading_result _ _ _ (Hr _) _ _ Hrd) as (k & Hk & Eo & Hend & _).
  assert (ByteStream.bytes inbound = ByteStream.bytes (TCPReceiver.stream_out r)
    /\ ByteStream.input_ended inbound = ByteStream.input_ended (TCPReceiver.stream_out r)) as [-> ->]
    by (unfold inbound, TCPConnection.inbound_stream; destruct Hc as [-> |[_ ->]]; done).
  rewrite Eo. split; [exists (drop (Z.to_nat k) (data s)); by rewrite take_drop|].
  intros He. rewrite (Hend He). apply take_ge. unfold zlen. lia.
Qed.

(** ** An example: a lossy, reordering network *)

(** The conditions of a run, as a test. *)
Definition net_validb (data : Network.side -> string) (n : Network.net) (o : Network.op) : bool :=
  match o with
  | Network.Offer s len =>
      (0 <? Network.next (Network.at_side n s)) && negb (Network.ended (Network.at_side n s)) && (0 <=? len)
  | Network.Close s =>
      (0 <? Network.next (Network.at_side n s)) && bool_decide (Network.written (Network.at_side n s) = data s)
  | Network.Take s len => 0 <=? len
  | Network.Deliver s k =>
      match Network.wire (Network.at_side n s) !! k with
      | Some seg =>
          let r := TCPConnection._receiver (Network.conn (Network.at_side n (Network.other s))) in
          negb (TCPSender.seg_syn seg) || bool_decide (TCPReceiver._isn r = None)
          || (StreamReassembler._top_pointer (TCPReceiver._reassembler r) =? 1)
      | None => true
      end
  | _ => true
  end.

Lemma net_validb_ok data n o : net_validb data n o = true -> Network.valid data n o.
Proof.
  destruct o as [s|s len|s|s ms|s len|s|s k]; cbn [net_validb Network.valid]; try done.
  - rewrite !andb_true_iff, negb_true_iff. intros [[? ?] ?]. zbool. by split_and!.
  - rewrite andb_true_iff, bool_decide_eq_true. intros [? ?]. zbool. by split.
  - intros. by zbool.
  - intros H seg Ek Es. rewrite Ek, Es in H. cbn [negb orb] in H.
    apply orb_true_iff in H as [H|H]; [left; by apply bool_decide_eq_true in H|right; by zbool].
Qed.

Fixpoint net_valid_runb (data : Network.side -> string) (n : Network.net) (ops : list Network.op) : bool :=
  match ops with
  | [] => true
  | o :: ops =>
      net_validb data n o
      && match Network.step data n o with Ret (n, _) => net_valid_runb data n ops | Throw _ => true end
  end.

Lemma net_valid_runb_ok data n ops :
  net_valid_runb data n ops = true -> valid_run (Network.step data) (Network.valid data) n ops.
Proof.
  revert n. induction ops as [|o ops IH]; intros n; simpl; [done|]. rewrite andb_true_iff. intros [H1 H2].
  split; [by apply net_validb_ok|]. destruct (Network.step data n o) as [[n' r]|]; [by apply IH|done].
Qed.

Definition transfer_data (s : Network.side) : string :=
  match s with Network.Left => chars "to be or not to be" | Network.Right => chars "ok" end.
Definition transfer_cfg (s : Network.side) : TCPConfig.t :=
  TCPConfig.mk 1000 64 64 (Some (mkWrappingInt32 (match s with Network.Left => 4294967290 | Network.Right => 7 end))).

(** The client's SYN arrives twice; its two pieces arrive in the wrong order, the
    second one twice; a piece is lost and retransmitted; then both sides close. *)
Definition transfer_ops : list Network.op :=
  [Network.Open Network.Left; Network.Transmit Network.Left; Network.Deliver Network.Left 0;
   Network.Deliver Network.Left 0; Network.Transmit Network.Right; Network.Deliver Network.Right 0;
   Network.Offer Network.Left 6; Network.Offer Network.Left 6; Network.Transmit Network.Left;
   Network.Deliver Network.Left 3; Network.Deliver Network.Left 3; Network.Deliver Network.Left 2;
   Network.Take Network.Right 4; Network.Offer Network.Left 100; Network.Close Network.Left;
   Network.Transmit Network.Left; Network.Deliver Network.Left 5;
   Network.Transmit Network.Right; Network.Deliver Network.Right 3; Network.Deliver Network.Right 4;
   Network.Elapse Network.Left 1000; Network.Transmit Network.Left; Network.Deliver Network.Left 6;
   Network.Deliver Network.Left 5; Network.Take Network.Right 100;
   Network.Offer Network.Right 2; Network.Close Network.Right; Network.Transmit Network.Right;
   Network.Deliver Network.Right 9; Network.Deliver Network.Right 8; Network.Take Network.Left 100].

(** What the applications have read, and whether their streams have ended. *)
Definition transfer_result (o : outcome (Network.net * list unit)) : option (string * string * bool * bool) :=
  match o with
  | Ret (n, _) =>
      Some (Network.read (Network.left n), Network.read (Network.right n),
            ByteStream.input_ended (TCPConnection.inbound_stream (Network.conn (Network.left n))),
            ByteStream.input_ended (TCPConnection.inbound_stream (Network.conn (Network.right n))))
  | Throw _ => None
  end.

Lemma transfer_safe_witness :
  exists n rs, run (Network.step transfer_data) (Network.start transfer_cfg (fun _ => 0)) transfer_ops = Ret (n, rs) /\
    Network.read (Network.right n) = chars "to be or not to be" /\
    Network.read (Network.left n) `prefix_of` chars "ok" /\
    ByteStream.input_ended (TCPConnection.inbound_stream (Network.conn (Network.left n))) = true.
Proof.
  assert (transfer_result (run (Network.step transfer_data) (Network.start transfer_cfg (fun _ => 0)) transfer_ops)
    = Some (chars "ok", chars "to be or not to be", true, true)) as Hr by (vm_compute; reflexivity).
  destruct (transfer_safe transfer_data transfer_cfg (fun _ => 0) transfer_ops) as (n & rs & E & H).
  - intros []; vm_compute; split; (reflexivity || discriminate).
  - intros []; vm_compute; split; (reflexivity || discriminate).
  - intros []; vm_compute; split; (reflexivity || discriminate).
  - intros []; vm_compute; reflexivity.
  - apply net_valid_runb_ok. vm_compute. reflexivity.
  - exists n, rs. split; [exact E|]. rewrite E in Hr. cbn [transfer_result] in Hr.
    injection Hr as _ Hright Hended _. split; [exact Hright|]. split; [|exact Hended].
    destruct (H Network.Right) as (_ & Hp & _). etransitivity; [|exact Hp]. by eexists.
Defined.
