(* ===== verification/Exceptions.v ===== *)
(** * Which exceptions belong to the event loop

    The event loop reports a busy wait with an exception of its own.  The buffers,
    the parsers, the connection, the network interface and the datagram adapters
    never throw it: an exception of theirs that leaves the loop cannot be taken for
    that report.  [calm] says so of a computation, and the database of the same
    name holds what is known. *)

From S2P Require Import Prelude WrappingIntegers SpongeBuffer ByteStream BufferString StreamReassembler UtilBuffer Parser.
From S2P Require Import Codec TCPSegment IPv4Datagram EthernetFrame Address NetworkInterface FdAdapter TCPReceiver TCPSender.
From S2P Require Import TCPConnection.

Definition calm {A} (m : outcome A) : Prop := m <> Throw busy_wait.

Lemma calm_ret {A} (a : A) : calm (Ret a).
Proof. discriminate. Qed.
Lemma calm_bind {A B} (m : outcome A) (f : A -> outcome B) : calm m -> (forall a, calm (f a)) -> calm (m ≫= f).
Proof. unfold calm. intros Hm Hf. destruct m as [a|e]; [apply Hf|]. simpl. congruence. Qed.
Lemma calm_fmap {A B} (m : outcome A) (f : A -> B) : calm m -> calm (f <$> m).
Proof. unfold calm. intros Hm. destruct m as [a|e]; simpl; congruence. Qed.

Create HintDb calm discriminated.
#[export] Hint Constants Opaque : calm.
#[export] Hint Resolve calm_ret : calm.

(** Follows the computation: each step is known to be calm, or a choice, or a throw
    of another exception. *)
Ltac solve_calm := repeat first
  [ solve [auto with calm nocore]
  | match goal with
    | |- calm (Throw _) => discriminate
    | |- calm (_ ≫= _) => apply calm_bind
    | |- calm (_ <$> _) => apply calm_fmap
    | |- forall _, _ => intros ?
    | |- calm (let _ := _ in _) => cbv zeta
    end
  | case_match ].

(** ** Buffers and streams *)

Lemma calm_substr {A} (s : list A) a b : calm (substr s a b).
Proof. unfold substr. solve_calm. Qed.
#[export] Hint Resolve calm_substr : calm.
Lemma calm_sbuffer_remove b n : calm (SBuffer.remove_prefix b n).
Proof. unfold SBuffer.remove_prefix. solve_calm. Qed.
Lemma calm_sbuffer_get b : calm (SBuffer.get_string b).
Proof. unfold SBuffer.get_string. solve_calm. Qed.
#[export] Hint Resolve calm_sbuffer_remove calm_sbuffer_get : calm.
Lemma calm_peek_loop l str n : calm (SBufferList.peek_loop l str n).
Proof. revert str n. induction l as [|b l IH]; intros str n; cbn [SBufferList.peek_loop]; solve_calm. Qed.
Lemma calm_sbuffers_remove l n : calm (SBufferList.remove_prefix l n).
Proof. revert n. induction l as [|b l IH]; intros n; cbn [SBufferList.remove_prefix]; solve_calm. Qed.
#[export] Hint Resolve calm_peek_loop calm_sbuffers_remove : calm.
Lemma calm_stream_read s n : calm (ByteStream.read s n).
Proof. unfold ByteStream.read, SBufferList.peek_output. solve_calm. Qed.
Lemma calm_fragment_get b : calm (BufferString.get_string b).
Proof. unfold BufferString.get_string. solve_calm. Qed.
#[export] Hint Resolve calm_stream_read calm_fragment_get : calm.
Lemma calm_fragment_size b : calm (BufferString.size b).
Proof. unfold BufferString.size. solve_calm. Qed.
Lemma calm_partition_point {A} (q : A -> bool) l : calm (BufferStringList.partition_point q l).
Proof. unfold BufferStringList.partition_point. solve_calm. Qed.
Lemma calm_deref {A} (l : list A) i : calm (BufferStringList.deref l i).
Proof. unfold BufferStringList.deref. solve_calm. Qed.
#[export] Hint Resolve calm_fragment_size calm_partition_point calm_deref : calm.
Lemma calm_extend_loop l r s : calm (BufferStringList.extend_loop l r s).
Proof. revert r s. induction l as [|b l IH]; intros r s; cbn [BufferStringList.extend_loop]; solve_calm. Qed.
#[export] Hint Resolve calm_extend_loop : calm.
Lemma calm_push_back l s i e : calm (BufferStringList.push_back l s i e).
Proof. unfold BufferStringList.push_back. solve_calm. Qed.
Lemma calm_get_buffer_string l n b : calm (BufferStringList.get_buffer_string l n b).
Proof. unfold BufferStringList.get_buffer_string. solve_calm. Qed.
#[export] Hint Resolve calm_push_back calm_get_buffer_string : calm.
Lemma calm_assemble r : calm (StreamReassembler.assemble r).
Proof. unfold StreamReassembler.assemble, BufferStringList.pop_up_buffer_string. solve_calm. Qed.
#[export] Hint Resolve calm_assemble : calm.
Lemma calm_push_substring r d i e : calm (StreamReassembler.push_substring r d i e).
Proof. unfold StreamReassembler.push_substring. solve_calm. Qed.
#[export] Hint Resolve calm_push_substring : calm.

(** ** The connection *)

Lemma calm_push_back_wrap_string seg i d r e : calm (TCPReceiver.push_back_wrap_string seg i d r e).
Proof. unfold TCPReceiver.push_back_wrap_string. solve_calm. Qed.
#[export] Hint Resolve calm_push_back_wrap_string : calm.
Lemma calm_receiver r seg : calm (TCPReceiver.segment_received r seg).
Proof. unfold TCPReceiver.segment_received. solve_calm. Qed.
#[export] Hint Resolve calm_receiver : calm.
Lemma calm_segment_loop n str f h i r s : calm (TCPSender.segment_loop n str f h i r s).
Proof. revert h i r s. induction n as [|n IH]; intros h i r s; cbn [TCPSender.segment_loop]; solve_calm. Qed.
#[export] Hint Resolve calm_segment_loop : calm.
Lemma calm_fill_window s : calm (TCPSender.fill_window s).
Proof. unfold TCPSender.fill_window, TCPSender.send_readable. solve_calm. Qed.
#[export] Hint Resolve calm_fill_window : calm.
Lemma calm_segment_received c seg : calm (TCPConnection.segment_received c seg).
Proof. unfold TCPConnection.segment_received, TCPConnection.reply. solve_calm. Qed.
#[export] Hint Resolve calm_segment_received : calm.

(** No call of the connection throws the event loop's exception. *)
Lemma calm_connection c o : calm (ConnectionSpec.step c o).
Proof.
  unfold ConnectionSpec.step, TCPConnection.write, TCPConnection.end_input_stream, TCPConnection.connect.
  solve_calm.
Qed.

(** ** Packets *)

Lemma calm_buffer_at b n : calm (Buffer.at_ b n).
Proof. unfold Buffer.at_. solve_calm. Qed.
Lemma calm_buffer_remove b n : calm (Buffer.remove_prefix b n).
Proof. unfold Buffer.remove_prefix. solve_calm. Qed.
Lemma calm_to_Buffer l : calm (BufferList.to_Buffer l).
Proof. unfold BufferList.to_Buffer. solve_calm. Qed.
Lemma calm_views_remove l n : calm (BufferViewList.remove_prefix l n).
Proof. revert n. induction l as [|b l IH]; intros n; cbn [BufferViewList.remove_prefix]; solve_calm. Qed.
#[export] Hint Resolve calm_buffer_at calm_buffer_remove calm_to_Buffer calm_views_remove : calm.
Lemma calm_parse_loop b w i len r : calm (NetParser.parse_loop b w i len r).
Proof. revert i r. induction len as [|len IH]; intros i r; cbn [NetParser.parse_loop]; solve_calm. Qed.
#[export] Hint Resolve calm_parse_loop : calm.
Lemma calm_parse_int n p : calm (NetParser._parse_int n p).
Proof. unfold NetParser._parse_int. solve_calm. Qed.
Lemma calm_u8 p : calm (NetParser.u8 p).
Proof. apply calm_parse_int. Qed.
Lemma calm_u16 p : calm (NetParser.u16 p).
Proof. apply calm_parse_int. Qed.
Lemma calm_u32 p : calm (NetParser.u32 p).
Proof. apply calm_parse_int. Qed.
Lemma calm_parser_remove p n : calm (NetParser.remove_prefix p n).
Proof. unfold NetParser.remove_prefix. solve_calm. Qed.
#[export] Hint Resolve calm_u8 calm_u16 calm_u32 calm_parser_remove : calm.
Lemma calm_parse_bytes n p : calm (parse_bytes n p).
Proof. revert p. induction n as [|n IH]; intros p; cbn [parse_bytes]; solve_calm. Qed.
#[export] Hint Resolve calm_parse_bytes : calm.

Lemma calm_tcp_header_parse h p : calm (TCPHeader.parse h p).
Proof. unfold TCPHeader.parse. solve_calm. Qed.
Lemma calm_tcp_header_serialize h : calm (TCPHeader.serialize h).
Proof. unfold TCPHeader.serialize. solve_calm. Qed.
Lemma calm_ipv4_header_parse h p : calm (IPv4Header.parse h p).
Proof. unfold IPv4Header.parse. solve_calm. Qed.
Lemma calm_ipv4_header_serialize h : calm (IPv4Header.serialize h).
Proof. unfold IPv4Header.serialize. solve_calm. Qed.
Lemma calm_ethernet_header_parse h p : calm (EthernetHeader.parse h p).
Proof. unfold EthernetHeader.parse. solve_calm. Qed.
#[export] Hint Resolve calm_tcp_header_parse calm_tcp_header_serialize calm_ipv4_header_parse : calm.
#[export] Hint Resolve calm_ipv4_header_serialize calm_ethernet_header_parse : calm.

Lemma calm_parse_packet {H} `{HeaderCodec H} h b :
  (forall h p, calm (hc_parse h p)) -> calm (parse_packet h b).
Proof. intros Hp. unfold parse_packet. solve_calm. Qed.

Lemma calm_tcp_parse seg b ck : calm (TCPSegment.parse seg b ck).
Proof. unfold TCPSegment.parse. cbv zeta. case_if; [solve_calm|]. apply calm_bind; [|solve_calm]. apply calm_parse_packet, calm_tcp_header_parse. Qed.
Lemma calm_tcp_serialize seg ck : calm (TCPSegment.serialize seg ck).
Proof. unfold TCPSegment.serialize. solve_calm. Qed.
Lemma calm_ipv4_parse d b : calm (IPv4Datagram.parse d b).
Proof. unfold IPv4Datagram.parse. apply calm_bind; [|solve_calm]. apply calm_parse_packet, calm_ipv4_header_parse. Qed.
Lemma calm_ipv4_serialize d : calm (IPv4Datagram.serialize d).
Proof. unfold IPv4Datagram.serialize. solve_calm. Qed.
Lemma calm_frame_parse f b : calm (EthernetFrame.parse f b).
Proof. unfold EthernetFrame.parse. apply calm_bind; [|solve_calm]. apply calm_parse_packet, calm_ethernet_header_parse. Qed.
Lemma calm_frame_serialize f : calm (EthernetFrame.serialize f).
Proof. unfold EthernetFrame.serialize, EthernetHeader.serialize. solve_calm. Qed.
Lemma calm_arp_parse m b : calm (ARPMessage.parse m b).
Proof. unfold ARPMessage.parse. solve_calm. Qed.
Lemma calm_arp_serialize m : calm (ARPMessage.serialize m).
Proof. unfold ARPMessage.serialize. solve_calm. Qed.
#[export] Hint Resolve calm_tcp_parse calm_tcp_serialize calm_ipv4_parse calm_ipv4_serialize : calm.
#[export] Hint Resolve calm_frame_parse calm_frame_serialize calm_arp_parse calm_arp_serialize : calm.

(** ** Addresses and the network interface *)

Section Resolver.
Context `{NetDb}.

Lemma calm_ipv4_numeric a : calm (Address.ipv4_numeric a).
Proof. unfold Address.ipv4_numeric. solve_calm. Qed.
Lemma calm_stoi s : calm (stoi s).
Proof. unfold stoi. solve_calm. Qed.
#[local] Hint Resolve calm_ipv4_numeric calm_stoi : calm.
Lemma calm_ip_port a : calm (Address.ip_port a).
Proof. unfold Address.ip_port. solve_calm. Qed.
#[local] Hint Resolve calm_ip_port : calm.
Lemma calm_port a : calm (Address.port a).
Proof. unfold Address.port. solve_calm. Qed.
Lemma calm_of_sockaddr s n : calm (Address.of_sockaddr s n).
Proof. unfold Address.of_sockaddr. solve_calm. Qed.
#[local] Hint Resolve calm_of_sockaddr : calm.
Lemma calm_of_ip ip p : calm (Address.of_ip ip p).
Proof. unfold Address.of_ip, Address.of_node. solve_calm. Qed.
#[local] Hint Resolve calm_port calm_of_ip : calm.

(** Printing an address does not throw the event loop's exception. *)
Lemma calm_to_string a : calm (Address.to_string a).
Proof. unfold Address.to_string. solve_calm. Qed.

Lemma calm_send_datagram n d hop : calm (NetworkInterface.send_datagram n d hop).
Proof. unfold NetworkInterface.send_datagram. solve_calm. Qed.
Lemma calm_recv_request n m : calm (NetworkInterface.recv_request n m).
Proof. unfold NetworkInterface.recv_request. solve_calm. Qed.
Lemma calm_recv_reply n m : calm (NetworkInterface.recv_reply n m).
Proof. unfold NetworkInterface.recv_reply. solve_calm. Qed.
#[local] Hint Resolve calm_send_datagram calm_recv_request calm_recv_reply : calm.
Lemma calm_recv_frame n f : calm (NetworkInterface.recv_frame n f).
Proof. unfold NetworkInterface.recv_frame. solve_calm. Qed.
#[local] Hint Resolve calm_recv_frame : calm.

(** ** The adapters *)

Lemma calm_unwrap a d : calm (TCPOverIPv4Adapter.unwrap_tcp_in_ip a d).
Proof. unfold TCPOverIPv4Adapter.unwrap_tcp_in_ip. solve_calm. Qed.
Lemma calm_wrap a seg : calm (TCPOverIPv4Adapter.wrap_tcp_in_ip a seg).
Proof. unfold TCPOverIPv4Adapter.wrap_tcp_in_ip. solve_calm. Qed.
Lemma calm_serialize_frames l : calm (TCPOverIPv4OverEthernetAdapter.serialize_frames l).
Proof. induction l as [|f l IH]; cbn [TCPOverIPv4OverEthernetAdapter.serialize_frames]; solve_calm. Qed.
#[local] Hint Resolve calm_unwrap calm_wrap calm_serialize_frames : calm.
Lemma calm_send_pending a : calm (TCPOverIPv4OverEthernetAdapter.send_pending a).
Proof. unfold TCPOverIPv4OverEthernetAdapter.send_pending. solve_calm. Qed.
#[local] Hint Resolve calm_send_pending : calm.

(** An adapter whose calls are calm. *)
Class CalmAdapter (A I O : Type) `{Adapter A I O} : Prop := {
  calm_adapter_read a i : calm (adapter_read a i);
  calm_adapter_write a seg : calm (adapter_write a seg);
  calm_adapter_tick a ms : calm (adapter_tick a ms)
}.

#[export] Instance tun_adapter_calm : CalmAdapter FdAdapterBase.t string BufferList.t.
Proof.
  split; intros; unfold adapter_read, adapter_write, adapter_tick, tun_adapter,
    TCPOverIPv4OverTunFdAdapter.read, TCPOverIPv4OverTunFdAdapter.write; solve_calm.
Qed.

#[export] Instance tap_adapter_calm : CalmAdapter TCPOverIPv4OverEthernetAdapter.t string BufferList.t.
Proof.
  split; intros; unfold adapter_read, adapter_write, adapter_tick, tap_adapter, TCPOverIPv4OverEthernetAdapter.read,
    TCPOverIPv4OverEthernetAdapter.write, TCPOverIPv4OverEthernetAdapter.tick; solve_calm.
Qed.

End Resolver.
#[export] Hint Resolve calm_ipv4_numeric calm_port calm_of_ip calm_send_datagram calm_recv_frame : calm.
#[export] Hint Resolve calm_unwrap calm_wrap calm_serialize_frames : calm.

(** Losing segments adds no exception. *)
Lemma lossy_adapter_calm {A I O R : Type} `{CalmAdapter A I O} (draw : R -> Z * R) :
  @CalmAdapter (LossyFdAdapter.t A R) I O (lossy_adapter draw).
Proof.
  pose proof calm_adapter_read. pose proof calm_adapter_write. pose proof calm_adapter_tick.
  split; intros; unfold lossy_adapter; cbn; unfold LossyFdAdapter.read, LossyFdAdapter.write, LossyFdAdapter.tick; solve_calm.
Qed.
