(* ===== verification/FileDescriptor.v ===== *)
(** * File descriptors (util/file_descriptor.hh/.cc, SystemCall and timestamp_ms of util/util.cc)

    A [FileDescriptor] is a reference-counted handle: several handles share one
    [FDWrapper], which is why the wrappers live in a heap here and a handle is a
    pointer into it.  The operating system is a parameter: [Kernel] answers each
    system call from a state of its own, and the world records the calls and
    their answers in [trace], from which [sent] and [taken] tell what a
    descriptor passed on and received. *)

From S2P Require Import Prelude UtilBuffer Address Exceptions.

(** ** System calls *)

(** [struct pollfd], without the field the kernel fills in *)
Record pollfd := mk_pollfd { pfd_fd : Z; pfd_events : Z }.

(** The system calls the code makes, with the type of the answer of each (a number
    of bytes is an [N]: a negative result is an error).  Two more questions go to
    the environment: the flag by which another thread stops this one, and the
    random device. *)
Inductive request : Type -> Type :=
  | Read (fd count : Z) : request string
  | Writev (fd : Z) (iovecs : list (string * Z)) : request N
  | Close (fd : Z) : request unit
  | Fcntl_getfl (fd : Z) : request Z
  | Fcntl_setfl (fd flags : Z) : request unit
  | Poll (fds : list pollfd) (timeout_ms : Z) : request (list Z)
  | Clock : request Z
  | Socket_ (domain type : Z) : request Z
  | Getsockopt (fd optname : Z) : request (Z * Z)
  | Getname (peer : bool) (fd : Z) : request (string * Z)
  | Bind (fd : Z) (address : Address.t) : request unit
  | Connect (fd : Z) (address : Address.t) : request unit
  | Shutdown (fd how : Z) : request unit
  | Recvfrom (fd size : Z) : request (string * (string * Z))
  | Sendmsg (fd : Z) (name : option Address.t) (iovecs : list (string * Z)) : request N
  | Listen (fd backlog : Z) : request unit
  | Accept (fd : Z) : request Z
  | Setsockopt (fd level optname value : Z) : request unit
  | Socketpair (type : Z) : request (Z * Z)
  | Open (path : string) (flags : Z) : request Z
  | Tunsetiff (fd : Z) (ifr_name : string) (ifr_flags : Z) : request unit
  | Load_abort : request bool
  | Random : request Z.

(** The operating system answers a call with an error number or a result. *)
Class Kernel (K : Type) := syscall : forall A, K -> request A -> K * (positive + A).

(** One system call and its answer. *)
Inductive event := Event (A : Type) (r : request A) (answer : positive + A).

(** The bytes an event passes on through descriptor [fd], and what it reads from it:
    a successful [read] gives one string, which may be empty. *)
Definition event_sent (fd : Z) (e : event) : string :=
  match e with
  | Event _ r answer =>
      match r in request A return (positive + A) -> string with
      | Writev fd' iovecs => fun answer =>
          match answer with
          | inr n => if fd =? fd' then take (N.to_nat n) (concat (iovecs.*1)) else []
          | inl _ => []
          end
      | _ => fun _ => []
      end answer
  end.
Definition event_reads (fd : Z) (e : event) : list string :=
  match e with
  | Event _ r answer =>
      match r in request A return (positive + A) -> list string with
      | Read fd' _ => fun answer =>
          match answer with inr s => if fd =? fd' then [s] else [] | inl _ => [] end
      | _ => fun _ => []
      end answer
  end.

Definition sent (fd : Z) (trace : list event) : string := concat (event_sent fd <$> trace).
Definition reads (fd : Z) (trace : list event) : list string := concat (event_reads fd <$> trace).
Definition taken (fd : Z) (trace : list event) : string := concat (reads fd trace).

(** ** The world *)

Module FDWrapper.

Record t := mk {
  _fd : Z;
  _eof : bool;
  _closed : bool;
  _read_count : Z;
  _write_count : Z
}.

Definition new (fd : Z) : outcome t :=
  if fd <? 0 then Throw runtime_error else Ret (mk fd false false 0 0).

Definition set_eof (f : t) : t := mk (_fd f) true (_closed f) (_read_count f) (_write_count f).
Definition set_closed (f : t) : t := mk (_fd f) true true (_read_count f) (_write_count f).
Definition add_read (f : t) : t :=
  mk (_fd f) (_eof f) (_closed f) (uint32 (_read_count f + 1)) (_write_count f).
Definition add_write (f : t) : t :=
  mk (_fd f) (_eof f) (_closed f) (_read_count f) (uint32 (_write_count f + 1)).

End FDWrapper.

(** What a [std::shared_ptr<FDWrapper>] points to, with its number of owners. *)
Record cell := mk_cell { wrapper : FDWrapper.t; owners : Z }.

(** The state of a program: the kernel, the calls made to it, the heap of
    descriptors, and the program's own variables [C]. *)
Record world (K C : Type) := World {
  kernel : K;
  trace : list event;
  heap : gmap nat cell;
  next_pointer : nat;
  user : C
}.
Arguments World {K C} _ _ _ _ _.
Arguments kernel {K C} _.
Arguments trace {K C} _.
Arguments heap {K C} _.
Arguments next_pointer {K C} _.
Arguments user {K C} _.

Section World.
Context {K C : Type} `{Kernel K}.
Abbreviation W := (world K C).

Definition set_heap (w : W) (h : gmap nat cell) : W := World (kernel w) (trace w) h (next_pointer w) (user w).
Definition set_user (w : W) (c : C) : W := World (kernel w) (trace w) (heap w) (next_pointer w) c.

(** The system call itself: the kernel's answer, recorded. *)
Definition call {A} (r : request A) : prog W (positive + A) := fun w =>
  let '(k, answer) := syscall A (kernel w) r in
  Ret (answer, World k (trace w ++ [Event A r answer]) (heap w) (next_pointer w) (user w)).

(** [SystemCall]: an error number becomes an exception. *)
Definition SystemCall {A} (r : request A) : prog W A :=
  answer ← call r;
  match answer with inr a => mret a | inl code => throw (unix_error code) end.

Definition timestamp_ms : prog W Z := SystemCall Clock.

(** The program's own variables. *)
Definition read_user : prog W C := w ← get; mret (user w).
Definition write_user (c : C) : prog W unit := w ← get; put (set_user w c).
Definition modify_user (f : C -> outcome C) : prog W unit :=
  c ← read_user; c' ← lift (f c); write_user c'.

End World.

(** ** FileDescriptor *)

Module FileDescriptor.

(** A handle is a pointer to a wrapper. *)
Abbreviation t := nat.

Section FileDescriptor.
Context {K C : Type} `{Kernel K}.
Abbreviation W := (world K C).

Definition internal_fd (p : t) : prog W FDWrapper.t :=
  w ← get;
  match heap w !! p with
  | Some c => mret (wrapper c)
  | None => throw undefined_behaviour
  end.

Definition set_internal_fd (p : t) (f : FDWrapper.t) : prog W unit :=
  w ← get;
  match heap w !! p with
  | Some c => put (set_heap w (<[p := mk_cell f (owners c)]> (heap w)))
  | None => throw undefined_behaviour
  end.

Definition new (fd : Z) : prog W t :=
  f ← lift (FDWrapper.new fd);
  w ← get;
  let p := next_pointer w in
  put (World (kernel w) (trace w) (<[p := mk_cell f 1]> (heap w)) (S p) (user w)) ;;
  mret p.

(** [duplicate]: one more owner of the same wrapper. *)
Definition duplicate (p : t) : prog W t :=
  w ← get;
  match heap w !! p with
  | Some c => put (set_heap w (<[p := mk_cell (wrapper c) (owners c + 1)]> (heap w))) ;; mret p
  | None => throw undefined_behaviour
  end.

(** The wrapper's destructor closes the descriptor, unless it is closed, and
    keeps an error to itself. *)
Definition destroy_wrapper (f : FDWrapper.t) : prog W unit :=
  if FDWrapper._closed f then mret tt else _ ← call (Close (FDWrapper._fd f)); mret tt.

(** The destructor of a handle: the last owner destroys the wrapper. *)
Definition release (p : t) : prog W unit :=
  w ← get;
  match heap w !! p with
  | Some c =>
      if owners c =? 1
      then put (set_heap w (delete p (heap w))) ;; destroy_wrapper (wrapper c)
      else put (set_heap w (<[p := mk_cell (wrapper c) (owners c - 1)]> (heap w)))
  | None => throw undefined_behaviour
  end.

(** The destructors of several handles, in turn. *)
Fixpoint release_all (ps : list t) : prog W unit :=
  match ps with
  | [] => mret tt
  | p :: ps => release p ;; release_all ps
  end.

Definition fd_num (p : t) : prog W Z := f ← internal_fd p; mret (FDWrapper._fd f).
Definition eof (p : t) : prog W bool := f ← internal_fd p; mret (FDWrapper._eof f).
Definition closed (p : t) : prog W bool := f ← internal_fd p; mret (FDWrapper._closed f).
Definition read_count (p : t) : prog W Z := f ← internal_fd p; mret (FDWrapper._read_count f).
Definition write_count (p : t) : prog W Z := f ← internal_fd p; mret (FDWrapper._write_count f).

Definition register_read (p : t) : prog W unit :=
  f ← internal_fd p; set_internal_fd p (FDWrapper.add_read f).
Definition register_write (p : t) : prog W unit :=
  f ← internal_fd p; set_internal_fd p (FDWrapper.add_write f).

Definition close (p : t) : prog W unit :=
  f ← internal_fd p;
  SystemCall (Close (FDWrapper._fd f)) ;;
  f ← internal_fd p;
  set_internal_fd p (FDWrapper.set_closed f).

Definition BUFFER_SIZE : Z := 1024 * 1024.
(** The default limit of [read]. *)
Definition size_max : Z := 2 ^ 64 - 1.

Definition read (p : t) (limit : Z) : prog W string :=
  let size_to_read := Z.min BUFFER_SIZE limit in
  fd ← fd_num p;
  str ← SystemCall (Read fd size_to_read);
  (if (0 <? limit) && (zlen str =? 0)
   then f ← internal_fd p; set_internal_fd p (FDWrapper.set_eof f)
   else mret tt) ;;
  if size_to_read <? zlen str then throw runtime_error else
  register_read p ;;
  mret str.

(** The loop of [write]; [total] is what was written so far. *)
Fixpoint write_loop (fuel : nat) (p : t) (buffer : BufferViewList.t) (write_all : bool) (total : Z)
    : prog W Z :=
  match fuel with
  | O => throw out_of_fuel
  | S fuel =>
      fd ← fd_num p;
      n ← SystemCall (Writev fd (BufferViewList.as_iovecs buffer));
      let bytes_written := Z.of_N n in
      if (bytes_written =? 0) && negb (BufferViewList.size buffer =? 0) then throw runtime_error else
      if BufferViewList.size buffer <? bytes_written then throw runtime_error else
      register_write p ;;
      buffer ← lift (BufferViewList.remove_prefix buffer bytes_written);
      let total := uint64 (total + bytes_written) in
      if write_all && negb (BufferViewList.size buffer =? 0)
      then write_loop fuel p buffer write_all total
      else mret total
  end.

(** Each round writes a byte or is the last one, so one more round than there
    are bytes is enough. *)
Definition write (p : t) (buffer : BufferViewList.t) (write_all : bool) : prog W Z :=
  write_loop (S (Z.to_nat (BufferViewList.size buffer))) p buffer write_all 0.

Definition O_NONBLOCK : Z := 2048.

Definition set_blocking (p : t) (blocking_state : bool) : prog W unit :=
  fd ← fd_num p;
  flags ← SystemCall (Fcntl_getfl fd);
  let flags := if blocking_state then Z.lxor flags (Z.land flags O_NONBLOCK)
               else Z.lor flags O_NONBLOCK in
  SystemCall (Fcntl_setfl fd flags).

End FileDescriptor.
End FileDescriptor.

(** ** What the descriptors do *)

(** What the manual pages promise of [read] and [writev]. *)
Class KernelLaws (K : Type) `{Kernel K} : Prop := {
  read_bounded k fd n k' s :
    0 <= n -> syscall string k (Read fd n) = (k', inr s) -> zlen s <= n;
  writev_bounded k fd iovecs k' n :
    syscall N k (Writev fd iovecs) = (k', inr n) -> Z.of_N n <= zlen (concat (iovecs.*1));
  writev_progress k fd iovecs k' n :
    syscall N k (Writev fd iovecs) = (k', inr n) -> concat (iovecs.*1) <> [] -> n <> 0%N
}.

Definition is_unix_error (e : exn) : Prop := exists code, e = unix_error code.

Lemma sent_app fd t1 t2 : sent fd (t1 ++ t2) = sent fd t1 ++ sent fd t2.
Proof. unfold sent. by rewrite fmap_app, concat_app. Qed.
Lemma reads_app fd t1 t2 : reads fd (t1 ++ t2) = reads fd t1 ++ reads fd t2.
Proof. unfold reads. by rewrite fmap_app, concat_app. Qed.
Lemma taken_app fd t1 t2 : taken fd (t1 ++ t2) = taken fd t1 ++ taken fd t2.
Proof. unfold taken. by rewrite reads_app, concat_app. Qed.

(** Events that pass nothing through any descriptor. *)
Definition silent (evs : list event) : Prop := forall fd, sent fd evs = [] /\ reads fd evs = [].

Lemma silent_nil : silent [].
Proof. by intros fd. Qed.
Lemma silent_app evs evs' : silent evs -> silent evs' -> silent (evs ++ evs').
Proof.
  intros H H' fd. destruct (H fd) as [E1 E2], (H' fd) as [E3 E4].
  by rewrite sent_app, reads_app, E1, E2, E3, E4.
Qed.
Lemma silent_taken evs : silent evs -> forall fd, sent fd evs = [] /\ taken fd evs = [].
Proof. intros H fd. destruct (H fd) as [E1 E2]. unfold taken. by rewrite E1, E2. Qed.

Module Descriptors.
Import FileDescriptor.
Section Descriptors.
Context {K C : Type} `{KernelLaws K}.
Abbreviation W := (world K C).
Implicit Types (w : W) (p : FileDescriptor.t).

(** The world after some system calls that changed only the cell [p]. *)
Definition after w (k : K) (evs : list event) p (c : cell) : W :=
  World k (trace w ++ evs) (<[p := c]> (heap w)) (next_pointer w) (user w).

Lemma after_after w k evs p c k' evs' c' :
  after (after w k evs p c) k' evs' p c' = after w k' (evs ++ evs') p c'.
Proof. unfold after; simpl. by rewrite insert_insert_eq, app_assoc. Qed.

Lemma internal_fd_eq w p c : heap w !! p = Some c -> internal_fd p w = Ret (wrapper c, w).
Proof. intros E. unfold internal_fd, mbind, prog_bind, get. by rewrite E. Qed.

Lemma set_internal_fd_eq w p c f :
  heap w !! p = Some c ->
  set_internal_fd p f w = Ret (tt, set_heap w (<[p := mk_cell f (owners c)]> (heap w))).
Proof. intros E. unfold set_internal_fd, mbind, prog_bind, get. by rewrite E. Qed.

(** A step of a program on a live descriptor. *)
Lemma bind_eq {A B} (m : prog W A) (f : A -> prog W B) w a w' :
  m w = Ret (a, w') -> (m ≫= f) w = f a w'.
Proof. intros E. unfold mbind, prog_bind. by rewrite E. Qed.

Lemma SystemCall_eq {A} (r : request A) w k a :
  syscall A (kernel w) r = (k, inr a) ->
  SystemCall r w
  = Ret (a, World k (trace w ++ [Event A r (inr a)]) (heap w) (next_pointer w) (user w)).
Proof. intros E. unfold SystemCall, call, mbind, prog_bind. by rewrite E. Qed.

Lemma SystemCall_throws {A} (r : request A) w k code :
  syscall A (kernel w) r = (k, inl code) -> SystemCall r w = Throw (unix_error code).
Proof. intros E. unfold SystemCall, call, mbind, prog_bind. by rewrite E. Qed.

Lemma bind_throw {A B} (m : prog W A) (f : A -> prog W B) w e :
  m w = Throw e -> (m ≫= f) w = Throw e.
Proof. intros E. unfold mbind, prog_bind. by rewrite E. Qed.

Lemma bind_assoc {A B D} (m : prog W A) (f : A -> prog W B) (g : B -> prog W D) w :
  (m ≫= fun a => f a ≫= g) w = ((m ≫= f) ≫= g) w.
Proof. unfold mbind, prog_bind. by destruct (m w) as [[a w']|e]. Qed.

Lemma fd_num_eq w p c : heap w !! p = Some c -> fd_num p w = Ret (FDWrapper._fd (wrapper c), w).
Proof. intros E. unfold fd_num. by erewrite bind_eq by by apply internal_fd_eq. Qed.

Lemma register_write_eq w p c :
  heap w !! p = Some c ->
  register_write p w
  = Ret (tt, set_heap w (<[p := mk_cell (FDWrapper.add_write (wrapper c)) (owners c)]> (heap w))).
Proof.
  intros E. unfold register_write. erewrite bind_eq by by apply internal_fd_eq.
  by apply set_internal_fd_eq.
Qed.

Lemma register_read_eq w p c :
  heap w !! p = Some c ->
  register_read p w
  = Ret (tt, set_heap w (<[p := mk_cell (FDWrapper.add_read (wrapper c)) (owners c)]> (heap w))).
Proof.
  intros E. unfold register_read. erewrite bind_eq by by apply internal_fd_eq.
  by apply set_internal_fd_eq.
Qed.

(** The wrapper after a read of [str] with the given limit. *)
Definition wrapper_read (f : FDWrapper.t) (limit : Z) (str : string) : FDWrapper.t :=
  FDWrapper.add_read (if (0 <? limit) && (zlen str =? 0) then FDWrapper.set_eof f else f).

Lemma fd_read_spec w p c limit :
  heap w !! p = Some c -> 0 <= limit ->
  match read p limit w with
  | Ret (str, w') =>
      exists k, zlen str <= Z.min BUFFER_SIZE limit /\
        w' = after w k [Event string (Read (FDWrapper._fd (wrapper c)) (Z.min BUFFER_SIZE limit)) (inr str)]
               p (mk_cell (wrapper_read (wrapper c) limit str) (owners c))
  | Throw e => is_unix_error e
  end.
Proof.
  intros E Hl. unfold read. erewrite bind_eq by (apply fd_num_eq; exact E).
  set (r := Read _ _). destruct (syscall string (kernel w) r) as [k [code|str]] eqn:Es.
  { erewrite bind_throw by (eapply SystemCall_throws; exact Es). by exists code. }
  erewrite bind_eq by (eapply SystemCall_eq; exact Es).
  assert (zlen str <= Z.min BUFFER_SIZE limit) as Hs.
  { eapply read_bounded; [|exact Es]. unfold BUFFER_SIZE. lia. }
  unfold wrapper_read. destruct ((0 <? limit) && (zlen str =? 0)) eqn:Eb.
  - erewrite bind_eq.
    2: { erewrite bind_eq by by apply (internal_fd_eq _ p c). by apply (set_internal_fd_eq _ p c). }
    rewrite (proj2 (Z.ltb_ge _ _)) by lia.
    erewrite bind_eq by (apply register_read_eq; apply lookup_insert_eq).
    exists k. split; [done|]. unfold after, set_heap; simpl. by rewrite insert_insert_eq, Eb.
  - erewrite bind_eq by done. rewrite (proj2 (Z.ltb_ge _ _)) by lia.
    erewrite bind_eq by (apply (register_read_eq _ p c); exact E). exists k. by rewrite Eb.
Qed.

(** [n] more writes on a wrapper. *)
Fixpoint wrapper_written (f : FDWrapper.t) (n : nat) : FDWrapper.t :=
  match n with O => f | S n => wrapper_written (FDWrapper.add_write f) n end.

Lemma wrapper_written_fd f n : FDWrapper._fd (wrapper_written f n) = FDWrapper._fd f.
Proof. revert f. induction n; intros f; simpl; [done|]. by rewrite IHn. Qed.

(** One round of the loop: it writes a prefix of the buffer, and at least a byte
    of it when there is one. *)
Lemma writev_step w p c buffer :
  heap w !! p = Some c -> zlen (concat buffer) < 2 ^ 64 ->
  forall n k,
  syscall N (kernel w) (Writev (FDWrapper._fd (wrapper c)) (BufferViewList.as_iovecs buffer)) = (k, inr n) ->
  Z.of_N n <= zlen (concat buffer) /\ (concat buffer <> [] -> n <> 0%N) /\
  (Z.of_N n =? 0) && negb (BufferViewList.size buffer =? 0) = false /\
  (BufferViewList.size buffer <? Z.of_N n) = false /\
  exists buffer', BufferViewList.remove_prefix buffer (Z.of_N n) = Ret buffer' /\
    concat buffer' = drop (N.to_nat n) (concat buffer).
Proof.
  intros E Hb n k Es.
  pose proof (writev_bounded _ _ _ _ _ Es) as H1. pose proof (writev_progress _ _ _ _ _ Es) as H2.
  rewrite BufferViewList.iovecs_bytes in H1, H2.
  rewrite BufferViewList.view_size_bytes by done. split_and!; [done|done| |by apply Z.ltb_ge|].
  - apply andb_false_iff. destruct (Z.eqb_spec (Z.of_N n) 0) as [E0|]; [right|by left].
    apply negb_false_iff, Z.eqb_eq, zlen_zero_nil.
    destruct (concat buffer); [done|]. exfalso. apply H2; [done|]. lia.
  - destruct (BufferViewList.view_remove_prefix_spec buffer (Z.of_N n)) as (b' & E1 & E2); [lia|lia|].
    exists b'. split; [done|]. rewrite E2. f_equal. lia.
Qed.

(** The loop never runs out of fuel; it writes a prefix of the buffer, the whole
    of it when it is to write all, through this descriptor and no other. *)
Lemma write_loop_spec fuel w p c buffer write_all total :
  heap w !! p = Some c -> 0 <= total -> total + zlen (concat buffer) < 2 ^ 64 ->
  zlen (concat buffer) < Z.of_nat fuel ->
  match write_loop fuel p buffer write_all total w with
  | Ret (n, w') =>
      exists k evs rounds, 1 <= Z.of_nat rounds <= Z.max 1 (zlen (concat buffer)) /\ total <= n <= total + zlen (concat buffer) /\
        (write_all = true -> n = total + zlen (concat buffer)) /\
        (concat buffer <> [] -> total < n) /\ (write_all = false -> rounds = 1%nat) /\
        sent (FDWrapper._fd (wrapper c)) evs = take (Z.to_nat (n - total)) (concat buffer) /\
        (forall fd, fd <> FDWrapper._fd (wrapper c) -> sent fd evs = []) /\ (forall fd, reads fd evs = []) /\
        w' = after w k evs p (mk_cell (wrapper_written (wrapper c) rounds) (owners c))
  | Throw e => is_unix_error e
  end.
Proof.
  revert w c buffer total. induction fuel as [|fuel IH]; intros w c buffer total E Ht Hb Hf; [zlen_lia|].
  simpl. erewrite bind_eq by (apply fd_num_eq; exact E).
  set (r := Writev _ _). destruct (syscall N (kernel w) r) as [k [code|n]] eqn:Es.
  { erewrite bind_throw by (eapply SystemCall_throws; exact Es). by exists code. }
  erewrite bind_eq by (eapply SystemCall_eq; exact Es).
  destruct (writev_step w p c buffer E ltac:(zlen_lia) n k Es) as (Hn & Hp & -> & -> & buffer' & Er & Ec).
  erewrite bind_eq by (apply (register_write_eq _ p c); exact E).
  erewrite bind_eq by by (unfold lift; rewrite Er).
  assert (zlen (concat buffer') = zlen (concat buffer) - Z.of_N n) as Hl.
  { rewrite Ec. unfold zlen. rewrite length_drop. unfold zlen in *. lia. }
  assert (forall fd, sent fd [Event N r (inr n)] = if fd =? FDWrapper._fd (wrapper c)
            then take (N.to_nat n) (concat buffer) else []) as Hsent.
  { intros fd. unfold sent; simpl. rewrite app_nil_r, BufferViewList.iovecs_bytes. done. }
  zlen_lia. nowrap. destruct (write_all && _) eqn:Eg.
  - apply andb_true_iff in Eg as [-> Eg]. rewrite BufferViewList.view_size_bytes in Eg by lia. zbool.
    assert (n <> 0%N) as Hn0 by (apply Hp; intros En; rewrite En in *; zlen_lia).
    specialize (IH (after w k [Event N r (inr n)] p (mk_cell (FDWrapper.add_write (wrapper c)) (owners c)))
      _ buffer' (total + Z.of_N n) (lookup_insert_eq _ _ _)).
    specialize (IH ltac:(lia) ltac:(lia) ltac:(lia)). simpl in IH.
    change (set_heap _ _) with (after w k [Event N r (inr n)] p (mk_cell (FDWrapper.add_write (wrapper c)) (owners c))).
    destruct (write_loop _ _ _ _ _ _) as [[m w']|e]; [|done].
    destruct IH as (k' & evs & rounds & I1 & I2 & I3 & I4 & I5 & I6 & I7 & I8 & ->).
    specialize (I3 eq_refl).
    exists k', (Event N r (inr n) :: evs), (S rounds). rewrite after_after.
    split_and!; [lia|lia|lia|lia|intros; lia|intros; lia|done| | | |done].
    + change (Event N r (inr n) :: evs) with ([Event N r (inr n)] ++ evs).
      rewrite sent_app, Hsent, Z.eqb_refl, I6, Ec.
      replace (Z.to_nat (m - total)) with (N.to_nat n + Z.to_nat (m - (total + Z.of_N n)))%nat by lia.
      by rewrite <- take_take_drop.
    + intros fd Hfd. change (Event N r (inr n) :: evs) with ([Event N r (inr n)] ++ evs).
      rewrite sent_app, Hsent, (proj2 (Z.eqb_neq _ _)) by done. simpl. by apply I7.
    + intros fd. apply I8.
  - exists k, [Event N r (inr n)], 1%nat.
    split_and!; [lia|lia|lia|lia| | |done| | |done|done].
    + intros ->. simpl in Eg. rewrite BufferViewList.view_size_bytes in Eg by lia. zbool. lia.
    + intros Hne. specialize (Hp Hne). lia.
    + rewrite Hsent, Z.eqb_refl. f_equal. lia.
    + intros fd Hfd. by rewrite Hsent, (proj2 (Z.eqb_neq _ _)) by done.
Qed.

(** ** Summaries of the operations

    What a client needs to know: the cell that changed, how often it was read and
    written, and the bytes that went through it. *)

(** A 32-bit counter after [n] more counts. *)
Definition bumps (n : nat) (x : Z) : Z := Nat.iter n (fun x => uint32 (x + 1)) x.

Lemma bumps_add n m x : bumps n (bumps m x) = bumps (n + m) x.
Proof. unfold bumps. by rewrite Nat.iter_add. Qed.

Lemma bumps_neq n x : (1 <= n)%nat -> Z.of_nat n < 2 ^ 32 -> bumps n x <> x.
Proof.
  intros Hn Hm. destruct n as [|n]; [lia|].
  enough (bumps (S n) x = uint32 (x + Z.of_nat (S n))) as -> by uint_lia.
  clear Hn Hm. induction n as [|n IH]; [done|].
  change (bumps (S (S n)) x) with (uint32 (bumps (S n) x + 1)). rewrite IH. uint_lia.
Qed.

Record touched p (nr nw : nat) w w' (evs : list event) : Prop := {
  tc_trace : trace w' = trace w ++ evs;
  tc_next : next_pointer w' = next_pointer w;
  tc_cell : exists c c', heap w !! p = Some c /\ heap w' = <[p := c']> (heap w) /\
    FDWrapper._fd (wrapper c') = FDWrapper._fd (wrapper c) /\ owners c' = owners c /\
    FDWrapper._read_count (wrapper c') = bumps nr (FDWrapper._read_count (wrapper c)) /\
    FDWrapper._write_count (wrapper c') = bumps nw (FDWrapper._write_count (wrapper c))
}.

Lemma touched_trans p nr nw nr' nw' w w1 w2 evs evs' :
  touched p nr nw w w1 evs -> touched p nr' nw' w1 w2 evs' ->
  touched p (nr' + nr) (nw' + nw) w w2 (evs ++ evs').
Proof.
  intros [T1 N1 (c & c1 & L1 & U1 & F1 & O1 & R1 & W1)] [T2 N2 (d & d1 & L2 & U2 & F2 & O2 & R2 & W2)].
  rewrite U1, lookup_insert_eq in L2. injection L2 as <-. split.
  - by rewrite T2, T1, app_assoc.
  - by rewrite N2, N1.
  - exists c, d1. rewrite U2, U1, insert_insert_eq, F2, F1, O2, O1, R2, R1, W2, W1.
    by rewrite !bumps_add.
Qed.

Lemma touched_user p w c u :
  heap w !! p = Some c -> touched p 0 0 w (set_user w u) [].
Proof.
  intros E. split; [by rewrite app_nil_r|done|]. exists c, c. simpl. by rewrite insert_id.
Qed.

Lemma touched_live p nr nw w w' evs c :
  touched p nr nw w w' evs -> heap w !! p = Some c ->
  exists c', heap w' !! p = Some c' /\ FDWrapper._fd (wrapper c') = FDWrapper._fd (wrapper c).
Proof.
  intros [_ _ (d & d' & L & U & F & _)] E. rewrite E in L. injection L as <-.
  exists d'. by rewrite U, lookup_insert_eq.
Qed.

(** The events pass [out] through descriptor [n], read [inp] from it, and move
    nothing else. *)
Definition moves (n : Z) (out : string) (inp : list string) (evs : list event) : Prop :=
  forall fd, sent fd evs = (if fd =? n then out else []) /\ reads fd evs = (if fd =? n then inp else []).

Lemma moves_taken n out inp evs :
  moves n out inp evs ->
  forall fd, sent fd evs = (if fd =? n then out else []) /\ taken fd evs = (if fd =? n then concat inp else []).
Proof. intros M fd. destruct (M fd) as [M1 M2]. unfold taken. rewrite M1, M2. by destruct (fd =? n). Qed.

Lemma moves_app n o i o' i' evs evs' :
  moves n o i evs -> moves n o' i' evs' -> moves n (o ++ o') (i ++ i') (evs ++ evs').
Proof.
  intros M M' fd. destruct (M fd) as [E1 E2], (M' fd) as [E3 E4].
  rewrite sent_app, reads_app, E1, E2, E3, E4. by destruct (fd =? n).
Qed.

Lemma moves_silent n evs : silent evs -> moves n [] [] evs.
Proof. intros S fd. destruct (S fd) as [-> ->]. by destruct (fd =? n). Qed.

Lemma moves_app_silent n o i evs evs' : moves n o i evs -> silent evs' -> moves n o i (evs ++ evs').
Proof.
  intros M S. rewrite <- (app_nil_r o), <- (app_nil_r i). apply moves_app; [done|].
  by apply moves_silent.
Qed.

Lemma read_touches w p c limit :
  heap w !! p = Some c -> 0 <= limit ->
  match read p limit w with
  | Ret (str, w') =>
      zlen str <= limit /\ user w' = user w /\
      exists evs, touched p 1 0 w w' evs /\ moves (FDWrapper._fd (wrapper c)) [] [str] evs
  | Throw e => is_unix_error e
  end.
Proof.
  intros E Hl. pose proof (fd_read_spec w p c limit E Hl) as Hr.
  destruct (read p limit w) as [[str w']|e]; [|done]. destruct Hr as (k & Hs & ->).
  split; [lia|]. split; [done|]. eexists. split.
  - split; [done|done|]. eexists c, _. split; [done|]. split; [done|].
    unfold wrapper_read; simpl. by case_if.
  - intros fd. unfold sent, reads; simpl. rewrite app_nil_r. split; [by destruct (_ =? _)|done].
Qed.

Lemma wrapper_written_counts f n :
  FDWrapper._read_count (wrapper_written f n) = FDWrapper._read_count f /\
  FDWrapper._write_count (wrapper_written f n) = bumps n (FDWrapper._write_count f).
Proof.
  revert f. induction n as [|n IH]; intros f; [done|]. simpl wrapper_written.
  destruct (IH (FDWrapper.add_write f)) as [-> ->]. split; [done|].
  change (FDWrapper._write_count (FDWrapper.add_write f)) with (bumps 1 (FDWrapper._write_count f)).
  rewrite bumps_add. f_equal. lia.
Qed.

Lemma write_touches w p c buffer write_all :
  heap w !! p = Some c -> zlen (concat buffer) < 2 ^ 64 ->
  match write p buffer write_all w with
  | Ret (n, w') =>
      0 <= n <= zlen (concat buffer) /\ (write_all = true -> n = zlen (concat buffer)) /\
      (concat buffer <> [] -> 0 < n) /\
      user w' = user w /\
      exists evs rounds, 1 <= Z.of_nat rounds <= Z.max 1 (zlen (concat buffer)) /\ (write_all = false -> rounds = 1%nat) /\
        touched p 0 rounds w w' evs /\
        moves (FDWrapper._fd (wrapper c)) (take (Z.to_nat n) (concat buffer)) [] evs
  | Throw e => is_unix_error e
  end.
Proof.
  intros E Hb. unfold write.
  pose proof (write_loop_spec (S (Z.to_nat (BufferViewList.size buffer))) w p c buffer write_all 0 E) as Hw.
  rewrite BufferViewList.view_size_bytes in * by done. zlen_pose.
  specialize (Hw ltac:(lia) ltac:(lia) ltac:(lia)).
  destruct (write_loop _ _ _ _ _ _) as [[n w']|e]; [|done].
  destruct Hw as (k & evs & rounds & I1 & I2 & I3 & I4 & I5 & I6 & I7 & I8 & ->).
  rewrite Z.sub_0_r in I6. split_and!; [lia|lia|intros; rewrite I3 by done; lia|done|done|].
  exists evs, rounds. split; [done|]. split; [done|]. split.
  - split; [done|done|]. eexists c, _. split; [done|]. split; [done|]. simpl.
    rewrite wrapper_written_fd. by destruct (wrapper_written_counts (wrapper c) rounds) as [-> ->].
  - intros fd. rewrite I8. destruct (Z.eqb_spec fd (FDWrapper._fd (wrapper c))) as [->|Hn]; [done|].
    by rewrite I7.
Qed.

(** A write of any size moves data through its own descriptor only. *)
Lemma write_any w p c buffer write_all :
  heap w !! p = Some c ->
  match write p buffer write_all w with
  | Ret (_, w') =>
      user w' = user w /\ exists evs rounds out, touched p 0 rounds w w' evs /\
        moves (FDWrapper._fd (wrapper c)) out [] evs /\
        (write_all = true -> zlen (concat buffer) < 2 ^ 64 -> out = concat buffer)
  | Throw e => is_unix_error e \/ 2 ^ 64 <= zlen (concat buffer) /\ e <> busy_wait
  end.
Proof.
  intros E. destruct (Z.lt_ge_cases (zlen (concat buffer)) (2 ^ 64)) as [Hb|Hb].
  { pose proof (write_touches w p c buffer write_all E Hb) as Hw.
    destruct (write p buffer write_all w) as [[n w']|e]; [|by left].
    destruct Hw as (_ & Hn & _ & Hu & evs & rounds & _ & _ & T & M). split; [done|]. eexists evs, rounds, _.
    split; [done|]. split; [exact M|]. intros Ha _. rewrite (Hn Ha). apply take_ge. unfold zlen. lia. }
  unfold write. generalize (S (Z.to_nat (BufferViewList.size buffer))) as fuel.
  assert (forall fuel buffer total w c, heap w !! p = Some c ->
    match write_loop fuel p buffer write_all total w with
    | Ret (_, w') => user w' = user w /\ exists evs rounds out, touched p 0 rounds w w' evs /\
        moves (FDWrapper._fd (wrapper c)) out [] evs
    | Throw e => e <> busy_wait
    end) as Hany.
  2: { intros fuel. specialize (Hany fuel buffer 0 w c E).
       destruct (write_loop _ _ _ _ _ _) as [[? w']|]; [|by right].
       destruct Hany as (Hu & evs & rounds & out & T & M). split; [done|]. exists evs, rounds, out.
       split_and!; [done|done|lia]. }
  clear Hb E c w buffer. induction fuel as [|fuel IH]; intros buffer total w c E; [done|]. simpl.
  erewrite bind_eq by (apply fd_num_eq; exact E). set (r := Writev _ _).
  destruct (syscall N (kernel w) r) as [k [code|n]] eqn:Es.
  { by erewrite bind_throw by (eapply SystemCall_throws; exact Es). }
  erewrite bind_eq by (eapply SystemCall_eq; exact Es). case_if; [done|]. case_if; [done|].
  erewrite bind_eq by (apply (register_write_eq _ p c); exact E).
  destruct (BufferViewList.remove_prefix buffer (Z.of_N n)) as [buffer'|e] eqn:Er.
  2: { erewrite bind_throw by reflexivity. intros ->. by apply (calm_views_remove buffer (Z.of_N n)). }
  erewrite bind_eq by reflexivity.
  set (w1 := set_heap _ _).
  assert (touched p 0 1 w w1 [Event N r (inr n)]) as T1 by (split; [done|done|]; by eexists c, _).
  assert (exists out, moves (FDWrapper._fd (wrapper c)) out [] [Event N r (inr n)]) as [out M1].
  { exists (take (N.to_nat n) (concat ((BufferViewList.as_iovecs buffer).*1))). intros fd.
    unfold sent, reads; simpl. rewrite app_nil_r. split; [done|]. by destruct (fd =? _). }
  case_if; [|split; [done|]; by exists [Event N r (inr n)], 1%nat, out].
  destruct (touched_live _ _ _ _ _ _ _ T1 E) as (c1 & E1 & F1).
  specialize (IH buffer' (uint64 (total + Z.of_N n)) w1 c1 E1).
  destruct (write_loop _ _ _ _ _ _) as [[m w']|e]; [|done].
  destruct IH as (Hu & evs & rounds & out' & T & M). split; [done|]. rewrite F1 in M.
  exists ([Event N r (inr n)] ++ evs), (rounds + 1)%nat, (out ++ out').
  split; [by eapply (touched_trans _ _ _ 0 _) | by apply (moves_app _ _ [] _ [])].
Qed.

Lemma touched_refl p w c : heap w !! p = Some c -> touched p 0 0 w w [].
Proof.
  intros E. split; [by rewrite app_nil_r|done|]. exists c, c. by rewrite insert_id.
Qed.

Lemma SystemCall_cases {A} (r : request A) w :
  (exists code, SystemCall r w = Throw (unix_error code)) \/
  exists k a, SystemCall r w
    = Ret (a, World k (trace w ++ [Event A r (inr a)]) (heap w) (next_pointer w) (user w)).
Proof.
  destruct (syscall A (kernel w) r) as [k [code|a]] eqn:Es.
  - left. exists code. by eapply SystemCall_throws.
  - right. exists k, a. by apply SystemCall_eq.
Qed.

Lemma close_touches w p c :
  heap w !! p = Some c ->
  match close p w with
  | Ret (_, w') => user w' = user w /\ exists evs, touched p 0 0 w w' evs /\ silent evs
  | Throw e => is_unix_error e
  end.
Proof.
  intros E. unfold close. erewrite bind_eq by (apply internal_fd_eq; exact E).
  destruct (SystemCall_cases (Close (FDWrapper._fd (wrapper c))) w) as [[code Es]|(k & [] & Es)].
  { rewrite (bind_throw _ _ _ _ Es). by exists code. }
  rewrite (bind_eq _ _ _ _ _ Es). erewrite bind_eq by (apply (internal_fd_eq _ p c); exact E).
  rewrite (set_internal_fd_eq _ p c) by exact E. split; [done|].
  eexists. split; [split; [done|done|] | by intros fd]. by eexists c, _.
Qed.

Lemma new_eq n w :
  0 <= n ->
  new n w = Ret (next_pointer w,
    World (kernel w) (trace w) (<[next_pointer w := mk_cell (FDWrapper.mk n false false 0 0) 1]> (heap w))
      (S (next_pointer w)) (user w)).
Proof.
  intros Hn. unfold new, FDWrapper.new. by rewrite (proj2 (Z.ltb_ge _ _)) by lia.
Qed.

Lemma duplicate_eq w p c :
  heap w !! p = Some c ->
  duplicate p w = Ret (p, set_heap w (<[p := mk_cell (wrapper c) (owners c + 1)]> (heap w))).
Proof. intros E. unfold duplicate, mbind, prog_bind, get. by rewrite E. Qed.

(** [set_blocking] makes two calls that move no data. *)
Lemma set_blocking_cases w p c b :
  heap w !! p = Some c ->
  (exists code, set_blocking p b w = Throw (unix_error code)) \/
  exists k evs, silent evs /\
    set_blocking p b w = Ret (tt, World k (trace w ++ evs) (heap w) (next_pointer w) (user w)).
Proof.
  intros E. unfold set_blocking. erewrite bind_eq by (apply fd_num_eq; exact E).
  destruct (SystemCall_cases (Fcntl_getfl (FDWrapper._fd (wrapper c))) w) as [[code Es]|(k & flags & Es)].
  { left. exists code. apply (bind_throw _ _ _ _ Es). }
  rewrite (bind_eq _ _ _ _ _ Es). set (r := Fcntl_setfl _ _). set (w1 := World _ _ _ _ _).
  destruct (SystemCall_cases r w1) as [[code Es1]|(k1 & [] & Es1)]; [eauto|]. right.
  exists k1. eexists. split; [|rewrite Es1; unfold w1; simpl; by rewrite <- app_assoc]. by intros fd.
Qed.

Lemma eof_eq w p c : heap w !! p = Some c -> eof p w = Ret (FDWrapper._eof (wrapper c), w).
Proof. intros E. unfold eof. by erewrite bind_eq by (apply internal_fd_eq; exact E). Qed.

(** Dropping a handle that is not the last one. *)
Lemma release_shared w p c :
  heap w !! p = Some c -> owners c <> 1 ->
  release p w = Ret (tt, set_heap w (<[p := mk_cell (wrapper c) (owners c - 1)]> (heap w))).
Proof.
  intros E Ho. unfold release, mbind, prog_bind, get. rewrite E.
  by rewrite (proj2 (Z.eqb_neq _ _)) by done.
Qed.

(** Dropping the last one closes an open descriptor, once. *)
Lemma release_last w p c :
  heap w !! p = Some c -> owners c = 1 -> FDWrapper._closed (wrapper c) = false ->
  exists k answer, release p w
    = Ret (tt, World k (trace w ++ [Event unit (Close (FDWrapper._fd (wrapper c))) answer])
                 (delete p (heap w)) (next_pointer w) (user w)).
Proof.
  intros E Ho Hc. unfold release, destroy_wrapper, mbind, prog_bind, get. rewrite E, Ho; simpl.
  rewrite Hc. unfold call; simpl. destruct (syscall unit (kernel w) _) as [k answer].
  by exists k, answer.
Qed.

(** Dropping any live handle: nothing passes through a descriptor, and only the
    count of its owners changes. *)
Lemma release_any w p c :
  heap w !! p = Some c ->
  exists k evs, silent evs /\ release p w
    = Ret (tt, World k (trace w ++ evs)
                 (if owners c =? 1 then delete p (heap w)
                  else <[p := mk_cell (wrapper c) (owners c - 1)]> (heap w))
                 (next_pointer w) (user w)).
Proof.
  intros E. destruct (owners c =? 1) eqn:Ho; zbool.
  - destruct (FDWrapper._closed (wrapper c)) eqn:Hc.
    + exists (kernel w), []. split; [apply silent_nil|]. rewrite app_nil_r.
      unfold release, destroy_wrapper, mbind, prog_bind, get. by rewrite E, Ho; simpl; rewrite Hc.
    + destruct (release_last w p c E Ho Hc) as (k & answer & ->).
      exists k, [Event unit (Close (FDWrapper._fd (wrapper c))) answer]. split; [|done]. by intros fd.
  - rewrite release_shared with (c := c) by done. exists (kernel w), []. split; [apply silent_nil|].
    by rewrite app_nil_r.
Qed.

(** Handles can be dropped as often as they are owned. *)
Definition owned (ps : list FileDescriptor.t) w : Prop :=
  forall p, p ∈ ps -> exists c, heap w !! p = Some c /\ zlen (filter (fun q => q = p) ps) <= owners c.

Lemma release_all_silent ps w :
  owned ps w ->
  exists w' evs, release_all ps w = Ret (tt, w') /\ silent evs /\ trace w' = trace w ++ evs /\ user w' = user w.
Proof.
  revert w. induction ps as [|p ps IH]; intros w Ho; simpl.
  { exists w, []. rewrite app_nil_r. by split_and!. }
  destruct (Ho p) as (c & E & Hc); [by left|]. rewrite filter_cons, decide_True in Hc by done.
  destruct (release_any w p c E) as (k & evs & Hs & R). erewrite bind_eq by exact R.
  destruct (IH (World k (trace w ++ evs)
                 (if owners c =? 1 then delete p (heap w)
                  else <[p := mk_cell (wrapper c) (owners c - 1)]> (heap w))
                 (next_pointer w) (user w))) as (w' & evs' & -> & Hs' & Ht & Hu).
  - intros q Hq. simpl. destruct (Ho q) as (cq & Eq & Hcq); [by right|]. rewrite filter_cons in Hcq.
    destruct (decide (p = q)) as [->|Hpq].
    + rewrite E in Eq. injection Eq as <-.
      assert (0 < zlen (filter (fun q' => q' = q) ps)).
      { destruct (filter _ ps) eqn:Ef; [|zlen_lia]. exfalso.
        by apply (not_elem_of_nil q); rewrite <- Ef; apply list_elem_of_filter. }
      destruct (owners c =? 1) eqn:Eo; zbool; [zlen_lia|]. eexists. rewrite lookup_insert_eq.
      split; [done|]. simpl. zlen_lia.
    + exists cq. split; [|done]. destruct (owners c =? 1); by rewrite ?lookup_delete_ne, ?lookup_insert_ne.
  - exists w', (evs ++ evs'). split_and!; try done; [by apply silent_app|].
    simpl in Ht. by rewrite Ht, app_assoc.
Qed.

End Descriptors.
End Descriptors.

(** ** A kernel for examples

    Each descriptor has bytes waiting to be read; a write takes at most three
    bytes at a time; every descriptor is always ready; the clock advances by one
    at each look. *)
Record pipes := mk_pipes { waiting : list (Z * string); ticks : Z }.

Definition waiting_at (k : pipes) (fd : Z) : string :=
  concat ((fun '(n, s) => if n =? fd then s else []) <$> waiting k).
Definition take_waiting (k : pipes) (fd n : Z) : pipes :=
  mk_pipes ((fd, drop (Z.to_nat n) (waiting_at k fd)) :: filter (fun x => fst x <> fd) (waiting k)) (ticks k).

#[export] Instance pipe_kernel : Kernel pipes := fun A k r =>
  match r in request A return pipes * (positive + A) with
  | Read fd count => (take_waiting k fd count, inr (take (Z.to_nat count) (waiting_at k fd)))
  | Writev fd iovecs => (k, inr (N.min 3 (N.of_nat (length (concat (iovecs.*1))))))
  | Close fd => (k, inr tt)
  | Fcntl_getfl fd => (k, inr 0)
  | Fcntl_setfl fd flags => (k, inr tt)
  | Poll fds timeout_ms => (k, inr ((fun x => Z.land (pfd_events x) 5) <$> fds))
  | Clock => (mk_pipes (waiting k) (ticks k + 1), inr (ticks k))
  | Socket_ domain type => (k, inr 7)
  | Getsockopt fd optname => (k, inr (1, 4))
  | Getname peer fd => (k, inl 88%positive)
  | Bind fd address => (k, inr tt)
  | Connect fd address => (k, inr tt)
  | Shutdown fd how => (k, inr tt)
  | Recvfrom fd size => (k, inl 11%positive)
  | Sendmsg fd name iovecs => (k, inr (N.of_nat (length (concat (iovecs.*1)))))
  | Listen fd backlog => (k, inr tt)
  | Accept fd => (k, inr 8)
  | Setsockopt fd level optname value => (k, inr tt)
  | Socketpair type => (k, inr (5, 6))
  | Open path flags => (k, inr 3)
  | Tunsetiff fd ifr_name ifr_flags => (k, inr tt)
  | Load_abort => (k, inr false)
  | Random => (k, inr 0)
  end.

#[export] Instance pipe_kernel_laws : KernelLaws pipes.
Proof.
  split.
  - intros k fd n k' s Hn [= _ <-]. rewrite zlen_take. lia.
  - intros k fd iovecs k' n [= _ <-]. unfold zlen. lia.
  - intros k fd iovecs k' n [= _ <-] Hne. destruct (concat _); [done|]. simpl. lia.
Qed.

(** ** Properties *)


Definition pipe_world : world pipes unit :=
  World (mk_pipes [] 0) [] {[0%nat := mk_cell (FDWrapper.mk 5 false false 0 0) 1]} 1 tt.

