(* ===== verification/Socket.v ===== *)
(** * Sockets (util/socket.hh, util/socket.cc)

    The classes of sockets are file descriptors with more system calls: each
    method makes its call, checks the answer and counts the read or the write.
    The numbers of the constants are those of Linux. *)

From S2P Require Import Prelude UtilBuffer Parser TCPSegment Address FdAdapter FileDescriptor.

Definition AF_UNIX : Z := 1.
Definition SOCK_STREAM : Z := 1.
Definition SOCK_DGRAM : Z := 2.
Definition SHUT_RD : Z := 0.
Definition SHUT_WR : Z := 1.
Definition SHUT_RDWR : Z := 2.
Definition SOL_SOCKET : Z := 1.
Definition SO_REUSEADDR : Z := 2.
Definition SO_TYPE : Z := 3.
Definition SO_DOMAIN : Z := 39.
Definition sizeof_int : Z := 4.

Module Socket.
Abbreviation t := FileDescriptor.t.

Section Socket.
Context {K C : Type} `{Kernel K}.
Abbreviation W := (world K C).

Definition new (domain type : Z) : prog W t :=
  fd ← SystemCall (Socket_ domain type);
  FileDescriptor.new fd.

(** The constructor from a descriptor checks its domain and its type. *)
Definition of_fd (p : FileDescriptor.t) (domain type : Z) : prog W t :=
  fd ← FileDescriptor.fd_num p;
  '(actual_value, len) ← SystemCall (Getsockopt fd SO_DOMAIN);
  if negb (len =? sizeof_int) || negb (actual_value =? domain) then throw runtime_error else
  '(actual_value, len) ← SystemCall (Getsockopt fd SO_TYPE);
  if negb (len =? sizeof_int) || negb (actual_value =? type) then throw runtime_error else
  mret p.

Definition get_address (peer : bool) (p : t) : prog W Address.t :=
  fd ← FileDescriptor.fd_num p;
  '(address, size) ← SystemCall (Getname peer fd);
  lift (Address.of_sockaddr address size).
Definition local_address (p : t) : prog W Address.t := get_address false p.
Definition peer_address (p : t) : prog W Address.t := get_address true p.

Definition bind (p : t) (address : Address.t) : prog W unit :=
  fd ← FileDescriptor.fd_num p; SystemCall (Bind fd address).
Definition connect (p : t) (address : Address.t) : prog W unit :=
  fd ← FileDescriptor.fd_num p; SystemCall (Connect fd address).

Definition shutdown (p : t) (how : Z) : prog W unit :=
  fd ← FileDescriptor.fd_num p;
  SystemCall (Shutdown fd how) ;;
  if how =? SHUT_RD then FileDescriptor.register_read p else
  if how =? SHUT_WR then FileDescriptor.register_write p else
  if how =? SHUT_RDWR then FileDescriptor.register_read p ;; FileDescriptor.register_write p else
  throw runtime_error.

Definition setsockopt (p : t) (level optname option_value : Z) : prog W unit :=
  fd ← FileDescriptor.fd_num p; SystemCall (Setsockopt fd level optname option_value).
Definition set_reuseaddr (p : t) : prog W unit := setsockopt p SOL_SOCKET SO_REUSEADDR 1.

End Socket.
End Socket.

Module UDPSocket.
Section UDPSocket.
Context {K C : Type} `{Kernel K}.
Abbreviation W := (world K C).

Definition new : prog W Socket.t := Socket.new AF_INET SOCK_DGRAM.
Definition of_fd (p : FileDescriptor.t) : prog W Socket.t := Socket.of_fd p AF_INET SOCK_DGRAM.

(** The default size of the buffer of [recv]. *)
Definition default_mtu : Z := 65536.

(** The call returns the length of the datagram, also when it did not fit
    ([MSG_TRUNC]). *)
Definition recv (p : Socket.t) (mtu : Z) : prog W TCPOverUDPSocketAdapter.received_datagram :=
  fd ← FileDescriptor.fd_num p;
  '(payload, (address, fromlen)) ← SystemCall (Recvfrom fd mtu);
  if mtu <? zlen payload then throw runtime_error else
  FileDescriptor.register_read p ;;
  source ← lift (Address.of_sockaddr address fromlen);
  mret (TCPOverUDPSocketAdapter.mk_received source payload).

Definition sendmsg_helper (fd : Z) (destination : option Address.t) (payload : BufferViewList.t)
    : prog W unit :=
  bytes_sent ← SystemCall (Sendmsg fd destination (BufferViewList.as_iovecs payload));
  if negb (Z.of_N bytes_sent =? BufferViewList.size payload) then throw runtime_error else mret tt.

Definition sendto (p : Socket.t) (destination : Address.t) (payload : BufferViewList.t) : prog W unit :=
  fd ← FileDescriptor.fd_num p;
  sendmsg_helper fd (Some destination) payload ;;
  FileDescriptor.register_write p.

Definition send (p : Socket.t) (payload : BufferViewList.t) : prog W unit :=
  fd ← FileDescriptor.fd_num p;
  sendmsg_helper fd None payload ;;
  FileDescriptor.register_write p.

End UDPSocket.
End UDPSocket.

Module TCPSocket.
Section TCPSocket.
Context {K C : Type} `{Kernel K}.
Abbreviation W := (world K C).

Definition new : prog W Socket.t := Socket.new AF_INET SOCK_STREAM.
Definition of_fd (p : FileDescriptor.t) : prog W Socket.t := Socket.of_fd p AF_INET SOCK_STREAM.

Definition listen (p : Socket.t) (backlog : Z) : prog W unit :=
  fd ← FileDescriptor.fd_num p; SystemCall (Listen fd backlog).

Definition accept (p : Socket.t) : prog W Socket.t :=
  FileDescriptor.register_read p ;;
  fd ← FileDescriptor.fd_num p;
  accepted ← SystemCall (Accept fd);
  q ← FileDescriptor.new accepted;
  of_fd q.

End TCPSocket.
End TCPSocket.

Module LocalStreamSocket.
Section LocalStreamSocket.
Context {K C : Type} `{Kernel K}.

Definition of_fd (p : FileDescriptor.t) : prog (world K C) Socket.t := Socket.of_fd p AF_UNIX SOCK_STREAM.

(** [socket_pair_helper] of tcp_sponge_socket.cc *)
Definition socket_pair_helper (type : Z) : prog (world K C) (FileDescriptor.t * FileDescriptor.t) :=
  '(fd0, fd1) ← SystemCall (Socketpair type);
  p0 ← FileDescriptor.new fd0;
  p1 ← FileDescriptor.new fd1;
  mret (p0, p1).

End LocalStreamSocket.
End LocalStreamSocket.

(** ** What [shutdown] does to its socket *)

Lemma shutdown_write_touches {K C} `{Kernel K} (w : world K C) p c :
  heap w !! p = Some c ->
  match Socket.shutdown p SHUT_WR w with
  | Ret (_, w') =>
      user w' = user w /\ exists evs, Descriptors.touched p 0 1 w w' evs /\ silent evs
  | Throw e => is_unix_error e
  end.
Proof.
  intros E. unfold Socket.shutdown.
  erewrite Descriptors.bind_eq by (apply Descriptors.fd_num_eq; exact E).
  destruct (Descriptors.SystemCall_cases (Shutdown (FDWrapper._fd (wrapper c)) SHUT_WR) w)
    as [[code Es]|(k & [] & Es)].
  { rewrite (Descriptors.bind_throw _ _ _ _ Es). by exists code. }
  rewrite (Descriptors.bind_eq _ _ _ _ _ Es); simpl.
  rewrite (Descriptors.register_write_eq _ p c) by exact E. split; [done|].
  eexists. split; [split; [done|done|] | by intros fd]. by eexists c, _.
Qed.
