(* ===== verification/EventLoop.v ===== *)
(** * The event loop (util/eventloop.hh, util/eventloop.cc)

    A loop holds rules: a descriptor, a direction, and three callbacks.  The
    callbacks are programs over the world; those of this repository do not add
    rules to the loop that runs them, so the list of rules is passed in and
    returned. *)

From S2P Require Import Prelude UtilBuffer FileDescriptor.

Module EventLoop.

(** The bits of [poll], as on Linux. *)
Definition POLLIN : Z := 1.
Definition POLLOUT : Z := 4.
Definition POLLERR : Z := 8.
Definition POLLHUP : Z := 16.
Definition POLLNVAL : Z := 32.
Definition EINTR : positive := 4.

Inductive Direction := In | Out.
Definition events_of (d : Direction) : Z := match d with In => POLLIN | Out => POLLOUT end.
#[global] Instance Direction_eq_dec : EqDecision Direction.
Proof. solve_decision. Defined.

Inductive Result := Success | Timeout | Exit.
#[global] Instance Result_eq_dec : EqDecision Result.
Proof. solve_decision. Defined.

Section EventLoop.
Context {K C : Type} `{Kernel K}.
Abbreviation W := (world K C).

Record Rule := mk_rule {
  fd : FileDescriptor.t;
  direction : Direction;
  callback : prog W unit;
  interest : prog W bool;
  cancel : prog W unit
}.

Definition service_count (r : Rule) : prog W Z :=
  match direction r with
  | In => FileDescriptor.read_count (fd r)
  | Out => FileDescriptor.write_count (fd r)
  end.

(** A rule holds a handle of its own. *)
Definition add_rule (rules : list Rule) (p : FileDescriptor.t) (d : Direction)
    (callback : prog W unit) (interest : prog W bool) (cancel : prog W unit) : prog W (list Rule) :=
  q ← FileDescriptor.duplicate p;
  mret (rules ++ [mk_rule q d callback interest cancel]).

(** [cancel] and [erase]: erasing a rule destroys its handle. *)
Definition drop_rule (r : Rule) : prog W unit := cancel r ;; FileDescriptor.release (fd r).

(** The first loop: the rules that are kept, their [pollfd]s, and whether there
    is something to poll. *)
Fixpoint setup (rules : list Rule) : prog W (list Rule * list pollfd * bool) :=
  match rules with
  | [] => mret ([], [], false)
  | this_rule :: rest =>
      at_eof ← (match direction this_rule with
                | In => FileDescriptor.eof (fd this_rule)
                | Out => mret false
                end);
      if at_eof : bool then drop_rule this_rule ;; setup rest else
      is_closed ← FileDescriptor.closed (fd this_rule);
      if is_closed : bool then drop_rule this_rule ;; setup rest else
      interested ← interest this_rule;
      n ← FileDescriptor.fd_num (fd this_rule);
      '(kept, pollfds, something_to_poll) ← setup rest;
      mret (this_rule :: kept,
            mk_pollfd n (if interested : bool then events_of (direction this_rule) else 0) :: pollfds,
            interested || something_to_poll)
  end.

Definition has_bits (revents mask : Z) : bool := negb (Z.land revents mask =? 0).

(** The second loop over the rules, with the index into the array of [pollfd]s:
    its entries are the requested events and what [poll] returned. *)
Fixpoint serve (rules : list Rule) (polled : list (Z * Z)) (idx : nat) : prog W (list Rule) :=
  match rules with
  | [] => mret []
  | this_rule :: rest =>
      match polled !! idx with
      | None => throw undefined_behaviour
      | Some (events, revents) =>
          if has_bits revents (Z.lor POLLERR POLLNVAL) then throw poll_error else
          let poll_ready := has_bits revents events in
          let poll_hup := has_bits revents POLLHUP in
          if poll_hup && negb (events =? 0) && negb poll_ready
          then drop_rule this_rule ;; serve rest polled (S idx) else
          (if poll_ready
           then count_before ← service_count this_rule;
                callback this_rule ;;
                count_after ← service_count this_rule;
                if count_before =? count_after
                then interested ← interest this_rule;
                     if interested : bool then throw busy_wait else mret tt
                else mret tt
           else mret tt) ;;
          kept ← serve rest polled (S idx);
          mret (this_rule :: kept)
      end
  end.

(** The array after [poll]: where the kernel wrote nothing an entry keeps its 0. *)
Definition polled_array (pollfds : list pollfd) (revents : list Z) : list (Z * Z) :=
  imap (fun i x => (pfd_events x, default 0 (revents !! i))) pollfds.

Definition wait_next_event (rules : list Rule) (timeout_ms : Z) : prog W (list Rule * Result) :=
  '(rules, pollfds, something_to_poll) ← setup rules;
  if negb something_to_poll then mret (rules, Exit) else
  answer ← call (Poll pollfds timeout_ms);
  match answer with
  | inr revents =>
      if forallb (fun r => r =? 0) revents then mret (rules, Timeout) else
      rules ← serve rules (polled_array pollfds revents) 0;
      mret (rules, Success)
  | inl code =>
      if bool_decide (code = EINTR) then mret (rules, Exit) else
      (* any other error is caught and forgotten *)
      rules ← serve rules (polled_array pollfds []) 0;
      mret (rules, Success)
  end.

End EventLoop.
Arguments Rule : clear implicits.
End EventLoop.

(** ** What a client of the loop must provide, and what it gets *)

(** The loop's own exception on an error that [poll] reports: it is thrown only where
    some call of [poll] returns [POLLERR] or [POLLNVAL] on a descriptor. *)
Definition polled_error (K : Type) `{Kernel K} (e : exn) : Prop :=
  e = poll_error /\
  exists k fds timeout k' revents ev, syscall (list Z) k (Poll fds timeout) = (k', inr revents)
    /\ ev ∈ revents /\ EventLoop.has_bits ev (Z.lor EventLoop.POLLERR EventLoop.POLLNVAL) = true.

(** What a loop throws whose callbacks fail in system calls only. *)
Definition io_error (K : Type) `{Kernel K} (e : exn) : Prop := is_unix_error e \/ polled_error K e.

Module Loop.
Import EventLoop.
Section Loop.
Context {K C : Type} `{Kernel K}.
Abbreviation W := (world K C).
Abbreviation Rule := (EventLoop.Rule K C).
Implicit Types (r : Rule) (rules : list Rule) (w : W).

(** A callback counts a read or a write, or loses interest. *)
Definition progress r w w' : Prop :=
  (exists n n', service_count r w = Ret (n, w) /\ service_count r w' = Ret (n', w') /\ n <> n')
  \/ exists w'', interest r w' = Ret (false, w'').

(** The contract of a client: an invariant [I] of its rules and of the world that
    does not mind a call of [poll], that keeps the descriptors of the
    rules alive, and that the three callbacks preserve; [E] are the exceptions
    they may throw. *)
Record client (I : list Rule -> W -> Prop) (E : exn -> Prop) : Prop := {
  client_poll rules w k fds timeout answer :
    I rules w ->
    I rules (World k (trace w ++ [Event (list Z) (Poll fds timeout) answer]) (heap w) (next_pointer w) (user w));
  client_live rules r w : I rules w -> r ∈ rules -> exists c, heap w !! fd r = Some c;
  client_interest rules r : r ∈ rules -> spec (I rules) (interest r) (fun _ w => I rules w) E;
  client_callback rules r w :
    r ∈ rules -> I rules w ->
    match callback r w with
    | Ret (_, w') => I rules w' /\ (progress r w w' \/ E busy_wait)
    | Throw e => E e
    end;
  client_drop pre r post :
    spec (I (pre ++ r :: post)) (drop_rule r) (fun _ w => I (pre ++ post) w) E
}.

(** A client may rely on the loop to call a callback only after its rule said that it
    is interested.  [ready r] is what the interest of [r] tells: the callback of [r]
    may assume it, provided that what the loop does between the question and the
    call does not undo it, which are the interests of the rules, the dropping of
    rules and the callbacks of the rules before [r]. *)
Record guarded (ready : Rule -> W -> Prop) (I : list Rule -> W -> Prop) (E : exn -> Prop) : Prop := {
  guarded_poll rules w k fds timeout answer :
    I rules w ->
    let w' := World k (trace w ++ [Event (list Z) (Poll fds timeout) answer]) (heap w) (next_pointer w) (user w) in
    I rules w' /\ forall r, ready r w -> ready r w';
  guarded_live rules r w : I rules w -> r ∈ rules -> exists c, heap w !! fd r = Some c;
  guarded_interest rules r w :
    r ∈ rules -> I rules w ->
    match interest r w with
    | Ret (b, w') => I rules w' /\ (b = true -> ready r w') /\ forall r', ready r' w -> ready r' w'
    | Throw e => E e
    end;
  guarded_callback pre r post w :
    I (pre ++ r :: post) w -> ready r w ->
    match callback r w with
    | Ret (_, w') => I (pre ++ r :: post) w' /\ (progress r w w' \/ E busy_wait)
                     /\ forall r', r' ∈ post -> ready r' w -> ready r' w'
    | Throw e => E e
    end;
  guarded_drop pre r post w :
    I (pre ++ r :: post) w ->
    match drop_rule r w with
    | Ret (_, w') => I (pre ++ post) w' /\ forall r', ready r' w -> ready r' w'
    | Throw e => E e
    end
}.

(** A client that does not rely on it. *)
Lemma client_guarded I E : client I E -> guarded (fun _ _ => True) I E.
Proof.
  intros HI. split.
  - intros rules w k fds timeout answer Hw. split; [by apply HI|done].
  - apply HI.
  - intros rules r w Hr Hw. pose proof (client_interest _ _ HI rules r Hr w Hw) as Hi.
    by destruct (interest r w) as [[b w']|e].
  - intros pre r post w Hw _. pose proof (client_callback _ _ HI _ r w (in_middle r pre post) Hw) as Hc.
    destruct (callback r w) as [[[] w']|e]; [|done]. split_and!; [apply Hc|apply Hc|done].
  - intros pre r post w Hw. pose proof (client_drop _ _ HI pre r post w Hw) as Hd.
    by destruct (drop_rule r w) as [[[] w']|e].
Qed.

Context (ready : Rule -> W -> Prop) (I : list Rule -> W -> Prop) (E : exn -> Prop) (HI : guarded ready I E).

(** Looking at a live descriptor changes nothing. *)
Lemma live_field {A} rules r (g : FDWrapper.t -> A) w :
  r ∈ rules -> I rules w -> exists a, (f ← FileDescriptor.internal_fd (fd r); mret (g f)) w = Ret (a, w).
Proof.
  intros Hr Hw. destruct (guarded_live _ _ _ HI _ _ _ Hw Hr) as [c Ec].
  erewrite Descriptors.bind_eq by (by apply (Descriptors.internal_fd_eq w _ c)). by eexists.
Qed.

Lemma live_service_count rules r w : r ∈ rules -> I rules w -> exists n, service_count r w = Ret (n, w).
Proof. intros Hr Hw. unfold service_count. destruct (direction r); by eapply live_field. Qed.

(** One callback of the second loop finds itself busy waiting only where its client
    admits it. *)
Lemma serve_one pre r post w :
  I (pre ++ r :: post) w -> ready r w ->
  match (count_before ← service_count r;
         callback r ;;
         count_after ← service_count r;
         if count_before =? count_after
         then interested ← interest r; if interested : bool then throw busy_wait else mret tt
         else mret tt) w with
  | Ret (_, w') => I (pre ++ r :: post) w' /\ forall r', r' ∈ post -> ready r' w -> ready r' w'
  | Throw e => E e
  end.
Proof.
  intros Hw Hr. pose proof (in_middle r pre post) as Hin.
  destruct (live_service_count _ r w Hin Hw) as [n E0]. rewrite (Descriptors.bind_eq _ _ _ _ _ E0).
  pose proof (guarded_callback _ _ _ HI pre r post w Hw Hr) as Hcb.
  destruct (callback r w) as [[[] w1]|e] eqn:E1; [|by rewrite (Descriptors.bind_throw _ _ _ _ E1)].
  rewrite (Descriptors.bind_eq _ _ _ _ _ E1). destruct Hcb as (Hw1 & Hp & Hpost).
  destruct (live_service_count _ r w1 Hin Hw1) as [n1 E2]. rewrite (Descriptors.bind_eq _ _ _ _ _ E2).
  destruct (Z.eqb_spec n n1) as [<-|]; [|done].
  pose proof (guarded_interest _ _ _ HI _ r w1 Hin Hw1) as Hi.
  destruct (interest r w1) as [[b w3]|e] eqn:E3; [|by rewrite (Descriptors.bind_throw _ _ _ _ E3)].
  rewrite (Descriptors.bind_eq _ _ _ _ _ E3). destruct Hi as (Hw3 & _ & Hst).
  assert (forall r', r' ∈ post -> ready r' w -> ready r' w3) as Hall by (intros; auto).
  destruct Hp as [[(m & m' & P1 & P2 & P3)|[w4 P]]|Hb]; [congruence| |by destruct b].
  rewrite E3 in P. by injection P as -> ->.
Qed.

(** The rules of a list are ready. *)
Definition all_ready (l : list Rule) w : Prop := Forall (fun r => ready r w) l.
Lemma all_ready_mono l w w' : (forall r, ready r w -> ready r w') -> all_ready l w -> all_ready l w'.
Proof. intros Hs Hl. eapply Forall_impl; [exact Hl|exact Hs]. Qed.

(** A rule is ready where its entry of the array asks for events. *)
Definition asked rules (entries : list Z) w : Prop := Forall2 (fun r ev => ev <> 0 -> ready r w) rules entries.

Lemma asked_mono rules entries w w' :
  (forall r, r ∈ rules -> ready r w -> ready r w') -> asked rules entries w -> asked rules entries w'.
Proof.
  intros Hs Ha. revert Hs. induction Ha as [|x ev rules entries Hx Ha IH]; intros Hs; constructor.
  - intros Hev. apply Hs; [left|auto].
  - apply IH. intros r Hr. apply Hs. by right.
Qed.

(** The first loop keeps some of the rules and makes a [pollfd] for each. *)
Lemma setup_spec rules pre l :
  spec (fun w => I (pre ++ rules) w /\ all_ready l w) (setup rules)
    (fun '(kept, pollfds, _) w =>
       (I (pre ++ kept) w /\ all_ready l w) /\ kept `sublist_of` rules /\ asked kept (pfd_events <$> pollfds) w) E.
Proof.
  revert pre l. induction rules as [|r rules IH]; intros pre l; simpl.
  { apply spec_ret. intros w Hw. split_and!; [apply Hw|apply Hw|done|constructor]. }
  pose proof (in_middle r pre rules) as Hr.
  assert (spec (fun w => I (pre ++ r :: rules) w /\ all_ready l w) (drop_rule r ;; setup rules)
    (fun '(kept, pollfds, _) w => (I (pre ++ kept) w /\ all_ready l w) /\ kept `sublist_of` r :: rules
       /\ asked kept (pfd_events <$> pollfds) w) E) as Hdrop.
  { eapply (spec_bind _ _ _ (fun _ w => I (pre ++ rules) w /\ all_ready l w)).
    - intros w [Hw Hl]. pose proof (guarded_drop _ _ _ HI pre r rules w Hw) as Hd.
      destruct (drop_rule r w) as [[[] w']|e]; [|done]. split; [apply Hd|]. eapply all_ready_mono; [apply Hd|done].
    - intros []. eapply spec_weaken; [apply (IH pre l)|done| |done]. intros [[kept pfds] b] w (? & ? & ?).
      split; [done|]. split; [by constructor|done]. }
  assert (forall (g : FDWrapper.t -> bool), spec (fun w => I (pre ++ r :: rules) w /\ all_ready l w)
    (f ← FileDescriptor.internal_fd (fd r); mret (g f)) (fun _ w => I (pre ++ r :: rules) w /\ all_ready l w) E) as Hlook.
  { intros g w Hw. by destruct (live_field _ r g w Hr (proj1 Hw)) as [a ->]. }
  eapply (spec_bind _ _ _ (fun _ w => I (pre ++ r :: rules) w /\ all_ready l w)).
  { destruct (direction r); [apply Hlook|by apply spec_ret]. }
  intros at_eof. apply spec_if; intros _; [done|].
  eapply spec_bind; [apply Hlook|]. intros is_closed; simpl. apply spec_if; intros _; [done|].
  eapply (spec_bind _ _ _ (fun b w => I (pre ++ r :: rules) w /\ all_ready (if b : bool then r :: l else l) w)).
  { intros w [Hw Hl]. pose proof (guarded_interest _ _ _ HI _ r w Hr Hw) as Hi.
    destruct (interest r w) as [[b w']|e]; [|done]. destruct Hi as (Hw' & Hb & Hs). split; [done|].
    pose proof (all_ready_mono l w w' Hs Hl). destruct b; [constructor; auto|done]. }
  intros interested. set (l' := if interested then r :: l else l).
  eapply (spec_bind _ _ _ (fun _ w => I (pre ++ r :: rules) w /\ all_ready l' w)).
  { intros w [Hw Hl]. unfold FileDescriptor.fd_num. by destruct (live_field _ r FDWrapper._fd w Hr Hw) as [a ->]. }
  intros n. specialize (IH (pre ++ [r]) l'). rewrite <- app_assoc in IH.
  eapply spec_bind; [exact IH|]. intros [[kept pfds] b]. apply spec_ret.
  intros w [[Hw Hl] [Hs Ha]]. rewrite <- app_assoc in Hw. subst l'.
  destruct interested; [apply Forall_cons in Hl as [Hr0 Hl]|]; (split; [done|]); (split; [by constructor|]); by constructor.
Qed.

(** The second loop serves each rule with the entry of its own descriptor. *)
Lemma serve_spec rules pre polled idx :
  (forall events ev, (events, ev) ∈ polled -> has_bits ev (Z.lor POLLERR POLLNVAL) = true -> polled_error K poll_error) ->
  spec (fun w => I (pre ++ rules) w /\ asked rules (drop idx polled).*1 w) (serve rules polled idx)
    (fun kept w => I (pre ++ kept) w /\ kept `sublist_of` rules) (fun e => E e \/ polled_error K e).
Proof.
  intros Hq. revert pre idx. induction rules as [|r rules IH]; intros pre idx; simpl in *.
  { apply spec_ret. intros w Hw. split; [apply Hw|done]. }
  destruct (polled !! idx) as [[events revents]|] eqn:El.
  2: { intros w [_ Ha]. rewrite drop_ge in Ha by (by apply lookup_ge_None). inversion Ha. }
  rewrite (drop_S polled (events, revents) idx El). cbn [fmap list_fmap fst].
  apply spec_if; intros Hb.
  { apply spec_throw. right. eapply Hq; [by eapply list_elem_of_lookup_2|exact Hb]. }
  assert (forall w w', (forall r', r' ∈ rules -> ready r' w -> ready r' w') -> forall es, asked rules es w -> asked rules es w')
    as Hmono by (intros w w' Hs es; by apply asked_mono).
  apply spec_if; intros _.
  - eapply (spec_bind _ _ _ (fun _ w => I (pre ++ rules) w /\ asked rules (drop (S idx) polled).*1 w)).
    + intros w [Hw [_ Ha]%Forall2_cons]. pose proof (guarded_drop _ _ _ HI pre r rules w Hw) as Hd.
      destruct (drop_rule r w) as [[[] w']|e]; [|by left]. destruct Hd as [Hw' Hs]. split; [done|].
      eapply Hmono; [|exact Ha]. auto.
    + intros []. eapply spec_weaken; [apply (IH pre (S idx))|done| |done].
      intros kept w [? ?]. split; [done|by constructor].
  - eapply (spec_bind _ _ _ (fun _ w => I (pre ++ r :: rules) w /\ asked rules (drop (S idx) polled).*1 w)).
    + intros w [Hw [Hr Ha]%Forall2_cons]. destruct (has_bits revents events) eqn:Hbits; [|done].
      assert (ready r w) as Hrw by (apply Hr; intros ->; unfold has_bits in Hbits; by rewrite Z.land_0_r in Hbits).
      pose proof (serve_one pre r rules w Hw Hrw) as Ho.
      match goal with |- match ?m w with _ => _ end => destruct (m w) as [[[] w']|e] end; [|by left].
      destruct Ho as [Hw' Hs]. split; [done|]. by eapply Hmono.
    + intros []. specialize (IH (pre ++ [r]) (S idx)). rewrite <- app_assoc in IH.
      eapply spec_bind; [apply IH|]. intros kept. apply spec_ret.
      intros w [? ?]. rewrite <- app_assoc in *. split; [done|by constructor].
Qed.

Lemma polled_array_events pfds revents : (polled_array pfds revents).*1 = pfd_events <$> pfds.
Proof.
  apply list_eq. intros i. unfold polled_array. rewrite !list_lookup_fmap, list_lookup_imap. by destruct (pfds !! i).
Qed.

Lemma polled_array_error k fds timeout k' revents events ev :
  syscall (list Z) k (Poll fds timeout) = (k', inr revents) ->
  (events, ev) ∈ polled_array fds revents -> has_bits ev (Z.lor POLLERR POLLNVAL) = true ->
  polled_error K poll_error.
Proof.
  intros Es [i El]%list_elem_of_lookup_1 Hb. split; [done|]. unfold polled_array in El.
  rewrite list_lookup_imap in El. destruct (fds !! i); [|done]. injection El as _ Ev.
  destruct (revents !! i) as [r|] eqn:Er; simpl in Ev; subst; [|done].
  eexists k, fds, timeout, k', revents, _. split_and!; [done|by eapply list_elem_of_lookup_2|done].
Qed.

(** A round of the loop keeps the client's invariant, only drops rules, and throws
    nothing but what the client's callbacks throw, or that [poll] reported an error
    on a descriptor: the array of descriptors is never overrun and no busy wait is
    found that the client does not admit. *)
Lemma guarded_round rules timeout :
  spec (I rules) (wait_next_event rules timeout)
    (fun '(rules', _) w => I rules' w /\ rules' `sublist_of` rules) (fun e => E e \/ polled_error K e).
Proof.
  unfold wait_next_event.
  eapply (spec_bind _ _ _ (fun '(kept, pfds, _) w => I kept w /\ kept `sublist_of` rules /\ asked kept (pfd_events <$> pfds) w)).
  { eapply spec_weaken; [apply (setup_spec rules [] [])| | |by left].
    - intros w Hw. split; [done|constructor].
    - intros [[kept pfds] b] w [[Hw _] Hk]. done. }
  intros [[kept pfds] b]; simpl. apply spec_if; intros _.
  { apply spec_ret. by intros w (? & ? & ?). }
  intros w (Hw & Hs & Ha). unfold call, mbind, prog_bind.
  destruct (syscall (list Z) (kernel w) (Poll pfds timeout)) as [k answer] eqn:Es.
  destruct (guarded_poll _ _ _ HI kept w k pfds timeout answer Hw) as [Hw' Hst].
  set (w' := World _ _ _ _ _) in *.
  assert (forall revents,
    (forall events ev, (events, ev) ∈ polled_array pfds revents -> has_bits ev (Z.lor POLLERR POLLNVAL) = true ->
       polled_error K poll_error) ->
    match (kept' ← serve kept (polled_array pfds revents) 0; mret (kept', Success)) w' with
    | Ret (a, w'') => (let '(rules', _) := a in fun w => I rules' w /\ rules' `sublist_of` rules) w''
    | Throw e => E e \/ polled_error K e
    end) as Hserve.
  { intros revents Hr. eapply (spec_bind _ _ _ (fun kept' w => I kept' w /\ kept' `sublist_of` rules)).
    - eapply spec_weaken; [apply (serve_spec kept [] (polled_array pfds revents) 0 Hr)|intros w0 Hw0; exact Hw0| |done].
      intros kept' w0 [? ?]. split; [done|]. by transitivity kept.
    - intros kept'. by apply spec_ret.
    - split; [exact Hw'|]. rewrite drop_0, polled_array_events. eapply Forall2_impl; [exact Ha|]. simpl. auto. }
  destruct answer as [code|revents].
  - destruct (bool_decide (code = EINTR)); [done|]. apply (Hserve []). intros events ev [i El]%list_elem_of_lookup_1.
    unfold polled_array in El. rewrite list_lookup_imap in El. destruct (pfds !! i); [|done]. by injection El as _ <-.
  - destruct (forallb _ revents); [done|]. apply (Hserve revents). intros events ev. by eapply polled_array_error.
Qed.

End Loop.

Lemma poll_silent fds timeout answer : silent [Event (list Z) (Poll fds timeout) answer].
Proof. by intros fd. Qed.

(** The same for a client that does not rely on its interest. *)
Lemma wait_next_event_spec {K C} `{Kernel K} (I : list (EventLoop.Rule K C) -> world K C -> Prop) (E : exn -> Prop)
    (HI : client I E) rules timeout :
  spec (I rules) (wait_next_event rules timeout)
    (fun '(rules', _) w => I rules' w /\ rules' `sublist_of` rules) (fun e => E e \/ polled_error K e).
Proof. eapply guarded_round, client_guarded, HI. Qed.

End Loop.

(** ** Who owns a descriptor

    The rules of a loop own one handle each of their descriptors.  A client that
    owns a handle too keeps the descriptor alive when a rule is dropped. *)

Module Owners.
Import EventLoop Descriptors.
Section Owners.
Context {K C : Type} `{Kernel K}.
Abbreviation W := (world K C).
Abbreviation Rule := (EventLoop.Rule K C).
Implicit Types (r : Rule) (rules : list Rule) (w : W).

(** How many of the rules hold a handle of [p]. *)
Definition rule_handles (p : FileDescriptor.t) rules : Z := zlen (filter (fun r => fd r = p) rules).

(** A descriptor is alive, has its number, and has an owner besides the rules. *)
Definition live rules w (p : FileDescriptor.t) (n : Z) : Prop :=
  exists c, heap w !! p = Some c /\ FDWrapper._fd (wrapper c) = n /\ rule_handles p rules < owners c.

Lemma live_touched rules w w' p nr nw evs q n :
  touched p nr nw w w' evs -> live rules w q n -> live rules w' q n.
Proof.
  intros [_ _ (c & c' & L & U & F & O & _)] (cq & Lq & Fq & Oq). unfold live. rewrite U.
  destruct (decide (q = p)) as [->|Hq].
  - rewrite L in Lq. injection Lq as <-. exists c'. by rewrite lookup_insert_eq, F, O.
  - exists cq. by rewrite lookup_insert_ne.
Qed.

Lemma handles_middle p pre r post :
  rule_handles p (pre ++ r :: post) = rule_handles p (pre ++ post) + (if decide (fd r = p) then 1 else 0).
Proof.
  unfold rule_handles. rewrite !filter_app, filter_cons. destruct (decide (fd r = p)); zlen_lia.
Qed.

(** Dropping the handle of a rule leaves the descriptor to its other owners. *)
Lemma live_release pre r post w p n c :
  live (pre ++ r :: post) w p n -> heap w !! fd r = Some c ->
  live (pre ++ post) (set_heap w (<[fd r := mk_cell (wrapper c) (owners c - 1)]> (heap w))) p n.
Proof.
  intros (cp & E & F & O) Ec. rewrite handles_middle in O. revert O. unfold live; simpl.
  destruct (decide (fd r = p)) as [<-|Hp]; intros O.
  - rewrite Ec in E. injection E as <-. eexists. rewrite lookup_insert_eq. split_and!; [done|done|simpl; lia].
  - exists cp. rewrite lookup_insert_ne by done. split_and!; [done|done|lia].
Qed.

(** The release itself, of a handle that is not the last one. *)
Lemma release_rule pre r post w n :
  live (pre ++ r :: post) w (fd r) n ->
  exists c, heap w !! fd r = Some c /\
    FileDescriptor.release (fd r) w
    = Ret (tt, set_heap w (<[fd r := mk_cell (wrapper c) (owners c - 1)]> (heap w))).
Proof.
  intros (c & E & F & O). exists c. split; [done|]. apply release_shared; [done|].
  rewrite handles_middle, decide_True in O by done. unfold rule_handles in O. zlen_lia.
Qed.

(** Adding a rule gives its descriptor one more owner. *)
Lemma add_rule_eq rules r w n :
  live rules w (fd r) n ->
  exists w', add_rule rules (fd r) (direction r) (callback r) (interest r) (cancel r) w
             = Ret (rules ++ [r], w')
    /\ trace w' = trace w /\ user w' = user w /\ next_pointer w' = next_pointer w
    /\ forall p m, live rules w p m -> live (rules ++ [r]) w' p m.
Proof.
  intros (c & E & F & O). unfold add_rule. erewrite bind_eq by (apply duplicate_eq; exact E).
  replace (mk_rule (fd r) _ _ _ _) with r by (by destruct r).
  eexists. split; [done|]. split_and!; try done. intros p m (cp & Ep & Fp & Op).
  unfold live; simpl. rewrite handles_middle, app_nil_r.
  destruct (decide (fd r = p)) as [<-|Hp].
  - rewrite E in Ep. injection Ep as <-. eexists. rewrite lookup_insert_eq. split_and!; [done|done|simpl; lia].
  - exists cp. rewrite lookup_insert_ne by done. split_and!; [done|done|lia].
Qed.

(** A callback that counts reads, or writes, makes progress. *)
Lemma touched_progress r nr nw w w' evs :
  touched (fd r) nr nw w w' evs ->
  0 < Z.of_nat (match direction r with In => nr | Out => nw end) < 2 ^ 32 ->
  Loop.progress r w w'.
Proof.
  intros [_ _ (c & c' & L & U & _ & _ & R & Wc)] Hd. left.
  unfold service_count. destruct (direction r).
  - exists (FDWrapper._read_count (wrapper c)), (FDWrapper._read_count (wrapper c')).
    unfold FileDescriptor.read_count. split_and!.
    + by erewrite bind_eq by (apply internal_fd_eq; exact L).
    + by erewrite bind_eq by (apply (internal_fd_eq _ _ c'); rewrite U; apply lookup_insert_eq).
    + rewrite R. intros E. symmetry in E. revert E. apply bumps_neq; lia.
  - exists (FDWrapper._write_count (wrapper c)), (FDWrapper._write_count (wrapper c')).
    unfold FileDescriptor.write_count. split_and!.
    + by erewrite bind_eq by (apply internal_fd_eq; exact L).
    + by erewrite bind_eq by (apply (internal_fd_eq _ _ c'); rewrite U; apply lookup_insert_eq).
    + rewrite Wc. intros E. symmetry in E. revert E. apply bumps_neq; lia.
Qed.

End Owners.
End Owners.

(** ** Properties *)

Lemma setup_lengths {K C} `{Kernel K} (rules : list (EventLoop.Rule K C)) w kept pfds b w' :
  EventLoop.setup rules w = Ret ((kept, pfds, b), w') -> length pfds = length kept.
Proof.
  revert w kept pfds b w'. induction rules as [|r rules IH]; intros w kept pfds b w'; simpl.
  { by intros [= <- <- <- <-]. }
  unfold mbind, prog_bind at 1. intros E. repeat case_match; simplify_eq; try (by eapply IH).
  all: repeat (unfold mbind, prog_bind, mret, prog_ret in *; case_match; simplify_eq; try (by eapply IH)).
  all: simpl; f_equal; by eapply IH.
Qed.

(** With no event returned the second loop does nothing. *)
Lemma serve_idle {K C} `{Kernel K} (rules : list (EventLoop.Rule K C)) pfds idx w :
  length pfds = (idx + length rules)%nat ->
  EventLoop.serve rules (EventLoop.polled_array pfds []) idx w = Ret (rules, w).
Proof.
  revert idx. induction rules as [|r rules IH]; intros idx Hl; simpl in *; [done|].
  unfold EventLoop.polled_array at 1. rewrite list_lookup_imap.
  destruct (lookup_lt_is_Some_2 pfds idx) as [x Ex]; [lia|]. rewrite Ex. simpl.
  erewrite Descriptors.bind_eq by reflexivity. erewrite Descriptors.bind_eq by (apply IH; lia). reflexivity.
Qed.

(** An error of [poll] other than an interrupted call is lost: the round returns
    [Success] as if rules had been served, no callback is run and nothing is
    thrown. *)
Theorem poll_error_ignored {K C} `{Kernel K} (rules kept : list (EventLoop.Rule K C)) (pfds : list pollfd)
    (timeout : Z) (w w1 : world K C) (k : K) (code : positive) :
  EventLoop.setup rules w = Ret ((kept, pfds, true), w1) ->
  syscall (list Z) (kernel w1) (Poll pfds timeout) = (k, inl code) -> code <> EventLoop.EINTR ->
  EventLoop.wait_next_event rules timeout w
  = Ret ((kept, EventLoop.Success),
         World k (trace w1 ++ [Event (list Z) (Poll pfds timeout) (inl code)]) (heap w1) (next_pointer w1) (user w1)).
Proof.
  intros Es Ep Hc. unfold EventLoop.wait_next_event. rewrite (Descriptors.bind_eq _ _ _ _ _ Es). cbn [negb].
  erewrite Descriptors.bind_eq by (unfold call; rewrite Ep; reflexivity). cbv iota beta.
  rewrite bool_decide_eq_false_2 by done.
  erewrite Descriptors.bind_eq by (apply serve_idle; by apply setup_lengths in Es). reflexivity.
Qed.
