(* ===== verification/StreamCopy.v ===== *)
(** * Copying between a socket and the standard streams (apps/bidirectional_stream_copy.cc)

    Four rules of an event loop move bytes from standard input to a socket and
    from the socket to standard output, through two byte streams.  The theorem:
    whatever the operating system answers, and whenever one looks, what was
    taken from one side is what was passed to the other followed by what is
    still in the stream between them. *)

From S2P Require Import Prelude SpongeBuffer ByteStream UtilBuffer FileDescriptor Socket EventLoop.

Module StreamCopy.

Definition max_copy_length : Z := 65536.
Definition buffer_size : Z := 1048576.
Definition STDIN_FILENO : Z := 0.
Definition STDOUT_FILENO : Z := 1.

(** The variables of the function that its callbacks share. *)
Record vars := mk {
  _outbound : ByteStream.t;
  _inbound : ByteStream.t;
  _outbound_shutdown : bool;
  _inbound_shutdown : bool
}.

Definition initial : vars := mk (ByteStream.new buffer_size) (ByteStream.new buffer_size) false false.

(** The two directions: the callbacks of rules 1 and 2 work on [_outbound] as
    those of rules 3 and 4 do on [_inbound]. *)
Inductive side := Outbound | Inbound.
Definition other (d : side) : side := match d with Outbound => Inbound | Inbound => Outbound end.

Definition stream (d : side) (c : vars) : ByteStream.t :=
  match d with Outbound => _outbound c | Inbound => _inbound c end.
Definition set_stream (d : side) (c : vars) (s : ByteStream.t) : vars :=
  match d with
  | Outbound => mk s (_inbound c) (_outbound_shutdown c) (_inbound_shutdown c)
  | Inbound => mk (_outbound c) s (_outbound_shutdown c) (_inbound_shutdown c)
  end.
Definition is_shutdown (d : side) (c : vars) : bool :=
  match d with Outbound => _outbound_shutdown c | Inbound => _inbound_shutdown c end.
Definition set_shutdown (d : side) (c : vars) : vars :=
  match d with
  | Outbound => mk (_outbound c) (_inbound c) true (_inbound_shutdown c)
  | Inbound => mk (_outbound c) (_inbound c) (_outbound_shutdown c) true
  end.

Section StreamCopy.
Context {K : Type} `{Kernel K}.
Abbreviation W := (world K vars).
Abbreviation Rule := (EventLoop.Rule K vars).

(** [end_input], the [cancel] of every rule *)
Definition end_input (d : side) : prog W unit :=
  c ← read_user; write_user (set_stream d c (ByteStream.end_input (stream d c))).

(** Rules 1 and 3: read from the descriptor into the stream. *)
Definition fill (d : side) (p : FileDescriptor.t) : prog W unit :=
  c ← read_user;
  data ← FileDescriptor.read p (ByteStream.remaining_capacity (stream d c));
  c ← read_user;
  write_user (set_stream d c (fst (ByteStream.write (stream d c) data))) ;;
  at_eof ← FileDescriptor.eof p;
  if at_eof : bool then end_input d else mret tt.

Definition fill_interest (d : side) : prog W bool :=
  c ← read_user;
  mret (negb (ByteStream.error (stream d c)) && (0 <? ByteStream.remaining_capacity (stream d c))
        && negb (ByteStream.error (stream (other d) c))).

(** Rules 2 and 4: write from the stream into the descriptor.  At the end the
    socket is shut down, or standard output closed. *)
Definition drain (d : side) (p : FileDescriptor.t) : prog W unit :=
  c ← read_user;
  let bytes_to_write := Z.min max_copy_length (ByteStream.buffer_size (stream d c)) in
  data ← lift (ByteStream.peek_output (stream d c) bytes_to_write);
  bytes_written ← FileDescriptor.write p (BufferViewList.of_string data) false;
  c ← read_user;
  s ← lift (ByteStream.pop_output (stream d c) bytes_written);
  write_user (set_stream d c s) ;;
  if ByteStream.eof s
  then (match d with
        | Outbound => Socket.shutdown p SHUT_WR
        | Inbound => FileDescriptor.close p
        end) ;;
       c ← read_user; write_user (set_shutdown d c)
  else mret tt.

Definition drain_interest (d : side) : prog W bool :=
  c ← read_user;
  mret (negb (ByteStream.buffer_empty (stream d c)) || (ByteStream.eof (stream d c) && negb (is_shutdown d c))).

(** The four rules, in the order they are added. *)
Definition fill_rule (d : side) (p : FileDescriptor.t) : Rule :=
  EventLoop.mk_rule p EventLoop.In (fill d p) (fill_interest d) (end_input d).
Definition drain_rule (d : side) (p : FileDescriptor.t) : Rule :=
  EventLoop.mk_rule p EventLoop.Out (drain d p) (drain_interest d) (end_input d).

Definition add_rule (rules : list Rule) (r : Rule) : prog W (list Rule) :=
  EventLoop.add_rule rules (EventLoop.fd r) (EventLoop.direction r)
    (EventLoop.callback r) (EventLoop.interest r) (EventLoop.cancel r).

(** The last loop, run for at most [fuel] rounds: the rules left, and whether
    the loop is over. *)
Fixpoint copy_loop (fuel : nat) (rules : list Rule) : prog W (list Rule * bool) :=
  match fuel with
  | O => mret (rules, false)
  | S fuel =>
      '(rules, result) ← EventLoop.wait_next_event rules (-1);
      if bool_decide (result = EventLoop.Exit) then mret (rules, true) else copy_loop fuel rules
  end.

(** The part of the function before the loop: the handles of the standard
    streams, and the rules. *)
Definition set_up (socket : Socket.t) : prog W (list Rule * (FileDescriptor.t * FileDescriptor.t)) :=
  input ← FileDescriptor.new STDIN_FILENO;
  output ← FileDescriptor.new STDOUT_FILENO;
  write_user initial ;;
  FileDescriptor.set_blocking socket false ;;
  FileDescriptor.set_blocking input false ;;
  FileDescriptor.set_blocking output false ;;
  rules ← add_rule [] (fill_rule Outbound input);
  rules ← add_rule rules (drain_rule Outbound socket);
  rules ← add_rule rules (fill_rule Inbound socket);
  rules ← add_rule rules (drain_rule Inbound output);
  mret (rules, (input, output)).

(** The function; when the loop is over its handles and the event loop are
    destroyed, the last declared first. *)
Definition bidirectional_stream_copy (fuel : nat) (socket : Socket.t) : prog W bool :=
  '(rules, (input, output)) ← set_up socket;
  '(rules, over) ← copy_loop fuel rules;
  if over : bool
  then FileDescriptor.release_all (output :: input :: (EventLoop.fd <$> rules)) ;; mret true
  else mret false.

End StreamCopy.
End StreamCopy.

(** ** Nothing is lost, repeated or reordered *)

Module Copying.
Import StreamCopy Descriptors Owners.
Section Copying.
Context {K : Type} `{KernelLaws K}.
Abbreviation W := (world K vars).
Abbreviation Rule := (EventLoop.Rule K vars).

(** The handles and descriptor numbers of the socket and the standard streams,
    and the calls made before the copying began. *)
Context (ps pi po : FileDescriptor.t) (ns : Z) (t0 : list event).
Context (Hns : ns <> STDIN_FILENO /\ ns <> STDOUT_FILENO).

Definition src (d : side) : FileDescriptor.t := match d with Outbound => pi | Inbound => ps end.
Definition dst (d : side) : FileDescriptor.t := match d with Outbound => ps | Inbound => po end.
Definition src_fd (d : side) : Z := match d with Outbound => STDIN_FILENO | Inbound => ns end.
Definition dst_fd (d : side) : Z := match d with Outbound => ns | Inbound => STDOUT_FILENO end.

Definition all_rules : list Rule :=
  [fill_rule Outbound pi; drain_rule Outbound ps; fill_rule Inbound ps; drain_rule Inbound po].

Definition stream_ok (s : ByteStream.t) : Prop := ByteStream.wf s /\ ByteStream._capacity s = buffer_size.

(** What was taken on one side is what was passed on at the other and what the
    stream between them holds. *)
Definition faithful (evs : list event) (c : vars) : Prop :=
  forall d, taken (src_fd d) evs = sent (dst_fd d) evs ++ ByteStream.bytes (stream d c).

Record inv (rules : list Rule) (w : W) : Prop := {
  inv_rules : forall r, r ∈ rules -> r ∈ all_rules;
  inv_socket : live rules w ps ns;
  inv_input : live rules w pi STDIN_FILENO;
  inv_output : live rules w po STDOUT_FILENO;
  inv_streams : forall d, stream_ok (stream d (user w));
  inv_trace : exists evs, trace w = t0 ++ evs /\ faithful evs (user w)
}.

Lemma inv_src rules w d : inv rules w -> live rules w (src d) (src_fd d).
Proof. intros Hi. destruct d; apply Hi. Qed.
Lemma inv_dst rules w d : inv rules w -> live rules w (dst d) (dst_fd d).
Proof. intros Hi. destruct d; apply Hi. Qed.

(** The invariant after a step that moves as many bytes into a stream as it takes
    and out of it as it passes on. *)
Lemma inv_touched rules w w' p nr nw evs :
  inv rules w -> touched p nr nw w w' evs ->
  (forall d, stream_ok (stream d (user w'))) ->
  (forall d, ByteStream.bytes (stream d (user w)) ++ taken (src_fd d) evs
             = sent (dst_fd d) evs ++ ByteStream.bytes (stream d (user w'))) ->
  inv rules w'.
Proof.
  intros [Hr Hs Hi Ho Hst (evs0 & Ht & Hf)] T Hs' Hm. split; try (by eapply live_touched); try done.
  exists (evs0 ++ evs). rewrite (tc_trace _ _ _ _ _ _ T), Ht, app_assoc. split; [done|].
  intros d. rewrite taken_app, sent_app, Hf, <- !app_assoc. by rewrite Hm.
Qed.

Lemma stream_set_eq d c s : stream d (set_stream d c s) = s.
Proof. by destruct d. Qed.
Lemma stream_set_other d c s : stream (other d) (set_stream d c s) = stream (other d) c.
Proof. by destruct d. Qed.
Lemma stream_set_shutdown d e c : stream e (set_shutdown d c) = stream e c.
Proof. by destruct d, e. Qed.
Lemma side_cases (d e : side) : e = d \/ e = other d.
Proof. destruct d, e; auto. Qed.

Lemma fds_differ d : src_fd (other d) <> src_fd d /\ dst_fd (other d) <> dst_fd d.
Proof. destruct Hns, d; simpl; auto. Qed.

(** Writing as much as there is room for loses nothing. *)
Lemma write_fits s data :
  stream_ok s -> zlen data <= ByteStream.remaining_capacity s ->
  stream_ok (fst (ByteStream.write s data)) /\
  ByteStream.bytes (fst (ByteStream.write s data)) = ByteStream.bytes s ++ data.
Proof.
  intros [Hw Hc] Hd. rewrite ByteStream.remaining_capacity_spec in Hd by done.
  pose proof (ByteStream.wf_capacity s Hw) as Hu. unfold is_u64 in Hu. zlen_pose.
  destruct (ByteStream.write_spec s data Hw ltac:(lia)) as (W1 & W2 & _ & W3 & _).
  split; [split; [done|congruence]|]. rewrite W2. f_equal. apply take_ge. unfold zlen in *. lia.
Qed.

Lemma end_input_ok s : stream_ok s -> stream_ok (ByteStream.end_input s).
Proof. intros [? ?]. split; [by apply ByteStream.end_input_wf | done]. Qed.

(** A change of one stream and of nothing else. *)
Lemma inv_set_stream rules w (u : vars) :
  inv rules w -> (forall e, stream_ok (stream e u)) ->
  (forall e, ByteStream.bytes (stream e u) = ByteStream.bytes (stream e (user w))) ->
  inv rules (set_user w u).
Proof.
  intros Hi Hs Hb. destruct (inv_src rules w Outbound Hi) as (c & E & _).
  eapply inv_touched; [done | by eapply touched_user | done |].
  intros e. change (taken _ []) with (@nil byte). change (sent _ []) with (@nil byte).
  rewrite app_nil_r. simpl. by rewrite Hb.
Qed.

Lemma copy_end_input_inv rules d : spec (inv rules) (end_input d) (fun _ w => inv rules w) is_unix_error.
Proof.
  intros w Hi. change (inv rules (set_user w (set_stream d (user w) (ByteStream.end_input (stream d (user w)))))).
  apply (inv_set_stream rules w); [done| |]; intros e; destruct (side_cases d e) as [->| ->];
    rewrite ?stream_set_eq, ?stream_set_other; try done.
  - apply end_input_ok, Hi.
  - apply Hi.
Qed.

Lemma fill_inv rules d w :
  inv rules w ->
  match fill d (src d) w with
  | Ret (_, w') => inv rules w' /\ exists evs, touched (src d) 1 0 w w' evs
  | Throw e => is_unix_error e
  end.
Proof.
  intros Hi. destruct (inv_src rules w d Hi) as (c & E & Ef & _).
  unfold fill. erewrite bind_eq by reflexivity.
  set (s := stream d (user w)) in *. pose proof (inv_streams _ _ Hi d : stream_ok s) as Hs.
  pose proof (read_touches w (src d) c (ByteStream.remaining_capacity s) E) as Hr.
  destruct (FileDescriptor.read _ _ w) as [[str w1]|e] eqn:Er.
  2: { rewrite (bind_throw _ _ _ _ Er). apply Hr. apply Z.mod_pos_bound. lia. }
  rewrite (bind_eq _ _ _ _ _ Er).
  destruct Hr as (Hl & Hu & evs & T & M); [apply Z.mod_pos_bound; lia|].
  destruct (write_fits s str Hs Hl) as [Hs' Hb].
  erewrite bind_eq by reflexivity. rewrite Hu. fold s.
  set (u := set_stream d (user w) (fst (ByteStream.write s str))).
  erewrite bind_eq by reflexivity.
  destruct (touched_live _ _ _ _ _ _ _ T E) as (c1 & E1 & _).
  pose proof (touched_trans _ _ _ _ _ _ _ _ _ _ T (touched_user _ w1 c1 u E1)) as T'.
  rewrite app_nil_r in T'; simpl in T'.
  assert (inv rules (set_user w1 u)) as Hi'.
  { eapply inv_touched; [done|exact T'| |]; intros e; destruct (side_cases d e) as [->| ->]; subst u; simpl;
      rewrite ?stream_set_eq, ?stream_set_other; try done.
    - apply Hi.
    - destruct (moves_taken _ _ _ _ M (src_fd d)) as [_ ->], (moves_taken _ _ _ _ M (dst_fd d)) as [-> _].
      rewrite Ef, Z.eqb_refl. cbn [concat]. rewrite app_nil_r, Hb. by destruct (_ =? _).
    - destruct (moves_taken _ _ _ _ M (src_fd (other d))) as [_ ->], (moves_taken _ _ _ _ M (dst_fd (other d))) as [-> _].
      rewrite Ef, (proj2 (Z.eqb_neq _ _)) by apply fds_differ. rewrite app_nil_r. by destruct (_ =? _). }
  erewrite bind_eq by (apply eof_eq; exact E1).
  destruct (FDWrapper._eof _); [|split; [done|by exists evs]].
  pose proof (copy_end_input_inv rules d _ Hi') as He. split; [exact He|]. exists evs.
  rewrite <- (app_nil_r evs). by eapply (touched_trans _ _ _ 0 0); [exact T'|eapply touched_user].
Qed.

(** The first part of [drain]: some of the stream is passed on and popped. *)
Lemma drain_some rules d w :
  inv rules w ->
  let s := stream d (user w) in
  exists data, ByteStream.peek_output s (Z.min max_copy_length (ByteStream.buffer_size s)) = Ret data /\
  match FileDescriptor.write (dst d) (BufferViewList.of_string data) false w with
  | Ret (n, w1) =>
      user w1 = user w /\ exists s' evs, ByteStream.pop_output s n = Ret s' /\ stream_ok s' /\
        inv rules (set_user w1 (set_stream d (user w) s')) /\
        touched (dst d) 0 1 w (set_user w1 (set_stream d (user w) s')) evs
  | Throw e => is_unix_error e
  end.
Proof.
  intros Hi s. destruct (inv_dst rules w d Hi) as (c & E & Ef & _).
  pose proof (inv_streams _ _ Hi d : stream_ok s) as [Hw Hc].
  rewrite ByteStream.buffer_size_bytes by done. set (m := Z.min _ _).
  pose proof (ByteStream.wf_bound s Hw) as Hb. rewrite Hc in Hb.
  assert (0 <= m < 2 ^ 64) as Hm by (subst m; unfold max_copy_length, buffer_size in *; zlen_lia).
  exists (take (Z.to_nat m) (ByteStream.bytes s)). split; [by apply ByteStream.bs_peek_output_spec|].
  set (data := take _ _). assert (zlen data <= zlen (ByteStream.bytes s)) as Hd.
  { subst data. rewrite zlen_take. lia. }
  pose proof (write_touches w (dst d) c (BufferViewList.of_string data) false E) as Hwr.
  change (concat (BufferViewList.of_string data)) with (data ++ []) in Hwr. rewrite app_nil_r in Hwr.
  specialize (Hwr ltac:(unfold buffer_size in *; lia)).
  destruct (FileDescriptor.write _ _ _ w) as [[n w1]|e]; [|done].
  destruct Hwr as (Hn & _ & _ & Hu & evs & rounds & _ & Hr & T & M). rewrite (Hr eq_refl) in T.
  split; [done|]. destruct (ByteStream.pop_output_spec s n Hw ltac:(lia)) as (s' & Ep & Hp).
  destruct Hp as (Hw' & Hb' & Hc' & _). assert (stream_ok s') as Hs' by (split; [done|congruence]).
  exists s', evs. split; [done|]. split; [done|].
  destruct (touched_live _ _ _ _ _ _ _ T E) as (c1 & E1 & _).
  pose proof (touched_trans _ _ _ _ _ _ _ _ _ _ T
    (touched_user _ w1 c1 (set_stream d (user w) s') E1)) as T'.
  rewrite app_nil_r in T'; simpl in T'. split; [|done].
  eapply inv_touched; [done|exact T'| |]; intros e; destruct (side_cases d e) as [->| ->]; simpl;
    rewrite ?stream_set_eq, ?stream_set_other; try done.
  - apply Hi.
  - destruct (moves_taken _ _ _ _ M (src_fd d)) as [_ ->], (moves_taken _ _ _ _ M (dst_fd d)) as [-> _].
    rewrite Ef, Z.eqb_refl, Hb'. replace (take (Z.to_nat n) data) with (take (Z.to_nat n) (ByteStream.bytes s)).
    + rewrite take_drop. destruct (_ =? _); apply app_nil_r.
    + subst data. rewrite take_take. f_equal. revert Hn. rewrite zlen_take. lia.
  - destruct (moves_taken _ _ _ _ M (src_fd (other d))) as [_ ->], (moves_taken _ _ _ _ M (dst_fd (other d))) as [-> _].
    rewrite Ef, (proj2 (Z.eqb_neq (dst_fd _) _)) by apply fds_differ.
    destruct (_ =? _); apply app_nil_r.
Qed.

Lemma drain_inv rules d w :
  inv rules w ->
  match drain d (dst d) w with
  | Ret (_, w') => inv rules w' /\ exists evs nw, (1 <= nw <= 2)%nat /\ touched (dst d) 0 nw w w' evs
  | Throw e => is_unix_error e
  end.
Proof.
  intros Hi. unfold drain. erewrite bind_eq by reflexivity.
  destruct (drain_some rules d w Hi) as (data & Ed & Hd).
  erewrite bind_eq by (unfold lift; rewrite Ed; reflexivity).
  destruct (FileDescriptor.write _ _ _ w) as [[n w1]|e] eqn:Ew; [|by rewrite (bind_throw _ _ _ _ Ew)].
  rewrite (bind_eq _ _ _ _ _ Ew). destruct Hd as (Hu & s' & evs & Ep & Hs' & Hi' & T).
  erewrite bind_eq by reflexivity. rewrite Hu.
  erewrite bind_eq by (unfold lift; rewrite Ep; reflexivity).
  erewrite bind_eq by reflexivity. set (w2 := set_user w1 _) in *.
  destruct (ByteStream.eof s'); [|split; [done|]; exists evs, 1%nat; split; [lia|done]].
  destruct (inv_dst rules w2 d Hi') as (c & E & _).
  set (finish := match d with Outbound => _ | Inbound => _ end).
  assert (match finish w2 with
          | Ret (_, w3) => user w3 = user w2 /\ exists evs' nw, (nw <= 1)%nat /\ touched (dst d) 0 nw w2 w3 evs' /\ silent evs'
          | Throw e => is_unix_error e
          end) as Hf.
  { subst finish. destruct d.
    - pose proof (shutdown_write_touches w2 (dst Outbound) c E) as Hf.
      destruct (Socket.shutdown _ _ w2) as [[[] w3]|e]; [|done]. destruct Hf as (? & evs' & ? & ?).
      split; [done|]. by exists evs', 1%nat.
    - pose proof (close_touches w2 (dst Inbound) c E) as Hf.
      destruct (FileDescriptor.close _ w2) as [[[] w3]|e]; [|done]. destruct Hf as (? & evs' & ? & ?).
      split; [done|]. exists evs', 0%nat. split; [lia|done]. }
  destruct (finish w2) as [[[] w3]|e] eqn:Ef; [|by rewrite (bind_throw _ _ _ _ Ef)].
  rewrite (bind_eq _ _ _ _ _ Ef). destruct Hf as (Hu3 & evs' & nw & Hnw & T3 & S3).
  erewrite bind_eq by reflexivity. rewrite Hu3.
  destruct (touched_live _ _ _ _ _ _ _ T3 E) as (c3 & E3 & _).
  pose proof (touched_trans _ _ _ _ _ _ _ _ _ _ T3
    (touched_user _ w3 c3 (set_shutdown d (user w2)) E3)) as T4. rewrite app_nil_r in T4; simpl in T4.
  split.
  - eapply inv_touched; [exact Hi'|exact T4| |]; intros e; simpl; rewrite stream_set_shutdown.
    + apply Hi'.
    + destruct (silent_taken _ S3 (src_fd e)) as [_ ->], (silent_taken _ S3 (dst_fd e)) as [-> _]. by rewrite app_nil_r.
  - eexists _, (nw + 1)%nat. split; [lia|]. eapply (touched_trans _ _ _ _ _ _ _ _ _ _ T T4).
Qed.

Lemma copy_rules_cases r :
  r ∈ all_rules -> exists d, r = fill_rule d (src d) \/ r = drain_rule d (dst d).
Proof.
  unfold all_rules. rewrite !elem_of_cons. intros [->|[->|[->|[->|Hr]]]].
  - exists Outbound. by left.
  - exists Outbound. by right.
  - exists Inbound. by left.
  - exists Inbound. by right.
  - by apply not_elem_of_nil in Hr.
Qed.

Lemma copy_rule_live rules r w :
  inv rules w -> r ∈ rules -> exists n, live rules w (EventLoop.fd r) n.
Proof.
  intros Hi Hr. destruct (copy_rules_cases r (inv_rules _ _ Hi r Hr)) as [d [->| ->]]; eexists.
  - by apply inv_src.
  - by apply inv_dst.
Qed.

Lemma copy_drop_inv pre r post :
  spec (inv (pre ++ r :: post)) (EventLoop.drop_rule r) (fun _ w => inv (pre ++ post) w) is_unix_error.
Proof.
  intros w0 Hi0. assert (exists d, EventLoop.cancel r = end_input d) as [d Ed].
  { destruct (copy_rules_cases r (inv_rules _ _ Hi0 r (in_middle _ _ _))) as [d [->| ->]]; by exists d. }
  unfold EventLoop.drop_rule. rewrite Ed. revert w0 Hi0.
  eapply spec_bind; [apply copy_end_input_inv|]. intros [] w Hi.
  destruct (copy_rule_live _ r w Hi (in_middle _ _ _)) as (n & Hl).
  destruct (release_rule _ _ _ _ _ Hl) as (c & E & ->).
  destruct Hi as [Hr Hs Hi Ho Hst Ht]. split; try (by apply live_release); try done.
  intros r' Hr'. apply Hr. rewrite elem_of_app, elem_of_cons. apply elem_of_app in Hr'. tauto.
Qed.

(** The copying rules keep the contract of the event loop. *)
(** Calls that move no data do not matter. *)
Lemma copy_silent rules w k evs :
  silent evs -> inv rules w -> inv rules (World k (trace w ++ evs) (heap w) (next_pointer w) (user w)).
Proof.
  intros Hs [Hr Hso Hi Ho Hst (evs0 & Ht & Hf)]. split; try done. simpl.
  exists (evs0 ++ evs). rewrite Ht, app_assoc. split; [done|]. intros d.
  destruct (silent_taken _ Hs (src_fd d)) as [_ E1], (silent_taken _ Hs (dst_fd d)) as [E2 _].
  by rewrite taken_app, sent_app, E1, E2, !app_nil_r.
Qed.

Lemma copy_client : Loop.client inv is_unix_error.
Proof.
  split.
  - intros rules w k fds timeout answer. apply copy_silent, Loop.poll_silent.
  - intros rules r w Hi Hr. destruct (copy_rule_live _ _ _ Hi Hr) as (n & c & E & _). eauto.
  - intros rules r Hr w Hi.
    destruct (copy_rules_cases r (inv_rules _ _ Hi r Hr)) as [d [->| ->]]; exact Hi.
  - intros rules r w Hr Hi. destruct (copy_rules_cases r (inv_rules _ _ Hi r Hr)) as [d [->| ->]]; simpl.
    + pose proof (fill_inv rules d w Hi) as Hf. destruct (fill _ _ w) as [[[] w']|e]; [|done].
      destruct Hf as (Hi' & evs & T). split; [done|].
      left. apply (touched_progress (fill_rule d (src d)) 1 0 w w' evs); simpl; [done|lia].
    + pose proof (drain_inv rules d w Hi) as Hf. destruct (drain _ _ w) as [[[] w']|e]; [|done].
      destruct Hf as (Hi' & evs & nw & Hnw & T). split; [done|].
      left. apply (touched_progress (drain_rule d (dst d)) 0 nw w w' evs); simpl; [done|lia].
  - apply copy_drop_inv.
Qed.

Lemma copy_loop_inv fuel rules :
  spec (inv rules) (copy_loop fuel rules) (fun '(rules', _) w => inv rules' w) (io_error K).
Proof.
  revert rules. induction fuel as [|fuel IH]; intros rules; simpl; [by apply spec_ret|].
  eapply spec_bind; [apply (Loop.wait_next_event_spec _ _ copy_client)|].
  intros [rules' result]. eapply (spec_weaken (inv rules') _ _ (fun '(rules'', _) w => inv rules'' w)); [|by intros w [? ?]|by intros []|done].
  apply spec_if; intros _; [by apply spec_ret | apply IH].
Qed.

Lemma add_rule_inv rules r :
  r ∈ all_rules ->
  spec (fun w => inv rules w) (add_rule rules r) (fun rules' w => rules' = rules ++ [r] /\ inv rules' w) is_unix_error.
Proof.
  intros Ha w Hi. assert (exists n, live rules w (EventLoop.fd r) n) as (n & Hl).
  { destruct (copy_rules_cases r Ha) as [d [->| ->]]; eexists; [by apply inv_src | by apply inv_dst]. }
  destruct (add_rule_eq rules r w n Hl) as (w' & E & Ht & Hu & _ & Hlive). unfold add_rule. rewrite E.
  split; [done|]. destruct Hi as [Hr Hs Hi Ho Hst Htr]. split; try (by apply Hlive); rewrite ?Ht, ?Hu; try done.
  intros r'. rewrite elem_of_app, elem_of_cons. intros [?|[->|Hnil]]; [by apply Hr|done|].
  by apply not_elem_of_nil in Hnil.
Qed.

Lemma set_blocking_inv rules p :
  (forall w, inv rules w -> exists c, heap w !! p = Some c) ->
  spec (inv rules) (FileDescriptor.set_blocking p false) (fun _ w => inv rules w) is_unix_error.
Proof.
  intros Hp w Hi. destruct (Hp w Hi) as [c E].
  destruct (set_blocking_cases w p c false E) as [[code ->]|(k & evs & Hs & ->)]; [by exists code|].
  by apply copy_silent.
Qed.

(** At the end the handles are there to be dropped. *)
Lemma handles_owned rules w : inv rules w -> owned (po :: pi :: (EventLoop.fd <$> rules)) w.
Proof.
  intros Hi p Hp.
  assert (Hc : forall q, zlen (filter (fun x => x = q) (EventLoop.fd <$> rules)) = rule_handles q rules).
  { intros q. unfold rule_handles. clear. induction rules as [|r rules IH]; [done|].
    cbn [fmap list_fmap]. rewrite !filter_cons. destruct (decide _); rewrite ?zlen_cons, IH; done. }
  assert (pi <> po) as Hd.
  { intros Ep. destruct (inv_input _ _ Hi) as (c & E & F & _), (inv_output _ _ Hi) as (c' & E' & F' & _).
    rewrite Ep, E' in E. injection E as ->. rewrite F in F'. discriminate. }
  assert (exists n, live rules w p n) as (n & c & E & F & O).
  { apply elem_of_cons in Hp as [->|Hp]; [eexists; apply Hi|]. apply elem_of_cons in Hp as [->|Hp]; [eexists; apply Hi|].
    apply list_elem_of_fmap in Hp as (r & -> & Hr). by apply (copy_rule_live rules). }
  exists c. split; [done|]. rewrite !filter_cons.
  repeat destruct (decide _); subst; try done; rewrite ?zlen_cons, Hc; lia.
Qed.

End Copying.

(** The function starts its loop with the four rules in the invariant. *)
Lemma set_up_inv {K} `{KernelLaws K} (w : world K vars) (ps : FileDescriptor.t) (c : cell) (ns : Z) :
  heap w !! ps = Some c -> FDWrapper._fd (wrapper c) = ns -> 1 <= owners c ->
  ns <> STDIN_FILENO /\ ns <> STDOUT_FILENO ->
  (forall p, is_Some (heap w !! p) -> (p < next_pointer w)%nat) ->
  match set_up ps w with
  | Ret ((rules, (pi, po)), w') => inv ps pi po ns (trace w) rules w'
  | Throw e => is_unix_error e
  end.
Proof.
  intros E F O Hns Hf. unfold set_up.
  erewrite bind_eq by by apply new_eq. erewrite bind_eq by by apply new_eq. simpl.
  erewrite bind_eq by reflexivity. set (pi := next_pointer w). set (po := S pi).
  set (w1 := set_user _ initial). assert (ps < pi)%nat by (apply Hf; eauto).
  assert (inv ps pi po ns (trace w) [] w1) as Hi.
  { split; unfold live, rule_handles; simpl.
    - intros r Hr. by apply not_elem_of_nil in Hr.
    - exists c. rewrite !lookup_insert_ne by (subst po; lia). split_and!; [done|done|zlen_lia].
    - eexists. rewrite lookup_insert_ne by (subst po; lia). rewrite lookup_insert_eq. done.
    - eexists. by rewrite lookup_insert_eq.
    - intros d. destruct d; (split; [by apply ByteStream.new_wf | done]).
    - exists []. rewrite app_nil_r. split; [done|]. by intros []. }
  clearbody w1. clear E F O Hf. set (I := inv ps pi po ns (trace w)).
  match goal with |- match ?m w1 with _ => _ end =>
    assert (spec (I []) m (fun '(rules, (pi, po)) w' => inv ps pi po ns (trace w) rules w') is_unix_error) as Hm
  end.
  { do 3 (eapply spec_bind;
      [apply set_blocking_inv; intros w2 Hi2; destruct Hi2 as [_ (?&?&_) (?&?&_) (?&?&_) _ _]; eauto|intros []]).
    do 4 (eapply spec_bind; [apply add_rule_inv; unfold all_rules; rewrite !elem_of_cons; tauto|intros rules; apply spec_pure; intros ->]).
    by apply spec_ret. }
  specialize (Hm w1 Hi).
  by match goal with |- match ?m w1 with _ => _ end => destruct (m w1) as [[[rules [? ?]] w']|e] end.
Qed.

End Copying.

(** ** Properties *)

(** C12: The copying is faithful. Whatever the operating system answers (within the
    documented bounds of read and writev) and after any number of rounds, the bytes
    read from standard input are those written to the socket followed by those in
    the outbound stream, and the bytes read from the socket are those written to
    standard output followed by those in the inbound stream: none is lost, repeated
    or reordered, and neither stream holds more than its capacity. The function
    throws nothing but the error of a system call, or the event loop's error where
    [poll] reports POLLERR or POLLNVAL on a descriptor; in particular the loop never
    reports a busy wait. At the start the socket is an open descriptor other than
    standard input and output. *)
Theorem stream_copy_faithful {K} `{KernelLaws K} (w : world K StreamCopy.vars)
    (socket : Socket.t) (c : cell) (ns : Z) (fuel : nat) :
  heap w !! socket = Some c -> FDWrapper._fd (wrapper c) = ns -> 1 <= owners c ->
  ns <> StreamCopy.STDIN_FILENO /\ ns <> StreamCopy.STDOUT_FILENO ->
  (forall p, is_Some (heap w !! p) -> (p < next_pointer w)%nat) ->
  match StreamCopy.bidirectional_stream_copy fuel socket w with
  | Ret (_, w') =>
      exists evs, trace w' = trace w ++ evs
      /\ taken StreamCopy.STDIN_FILENO evs = sent ns evs ++ ByteStream.bytes (StreamCopy._outbound (user w'))
      /\ taken ns evs
         = sent StreamCopy.STDOUT_FILENO evs ++ ByteStream.bytes (StreamCopy._inbound (user w'))
      /\ ByteStream.buffer_size (StreamCopy._outbound (user w')) <= StreamCopy.buffer_size
      /\ ByteStream.buffer_size (StreamCopy._inbound (user w')) <= StreamCopy.buffer_size
  | Throw e => io_error K e
  end.
Proof.
  intros E F O Hns Hf. unfold StreamCopy.bidirectional_stream_copy.
  pose proof (Copying.set_up_inv w socket c ns E F O Hns Hf) as Hs.
  destruct (StreamCopy.set_up socket w) as [[[rules [pi po]] w1]|e] eqn:Es;
    [|rewrite (Descriptors.bind_throw _ _ _ _ Es); by left].
  rewrite (Descriptors.bind_eq _ _ _ _ _ Es).
  pose proof (Copying.copy_loop_inv socket pi po ns (trace w) Hns fuel rules w1 Hs) as Hl.
  destruct (StreamCopy.copy_loop fuel rules w1) as [[[rules' b] w2]|e] eqn:El;
    [|by rewrite (Descriptors.bind_throw _ _ _ _ El)].
  rewrite (Descriptors.bind_eq _ _ _ _ _ El). pose proof (Copying.handles_owned _ _ _ _ _ _ _ Hl) as Ho.
  assert (exists w' evs', (if b then FileDescriptor.release_all (po :: pi :: (EventLoop.fd <$> rules')) ;; mret true
            else mret false) w2 = Ret (b, w') /\ silent evs' /\ trace w' = trace w2 ++ evs' /\ user w' = user w2)
    as (w' & evs' & -> & Hsil & Ht' & Eu).
  { destruct b; [|exists w2, []; rewrite app_nil_r; by split_and!].
    destruct (Descriptors.release_all_silent _ _ Ho) as (w' & evs' & Er & Hr). exists w', evs'.
    by rewrite (Descriptors.bind_eq _ _ _ _ _ Er). }
  destruct Hl as [_ _ _ _ Hst (evs & Ht & Hfa)]. exists (evs ++ evs').
  rewrite Ht', Ht, Eu, app_assoc, !taken_app, !sent_app.
  rewrite !(fun fd => proj1 (silent_taken _ Hsil fd)), !(fun fd => proj2 (silent_taken _ Hsil fd)), !app_nil_r.
  destruct (Hst StreamCopy.Outbound) as [W1 C1], (Hst StreamCopy.Inbound) as [W2 C2].
  pose proof (ByteStream.wf_bound _ W1). pose proof (ByteStream.wf_bound _ W2).
  rewrite !ByteStream.buffer_size_bytes by done.
  split_and!; [done|apply (Hfa StreamCopy.Outbound)|apply (Hfa StreamCopy.Inbound)| |]; simpl in *; lia.
Qed.

(** A socket as descriptor 5 with four bytes waiting, and five on standard input. *)
Definition copy_world : world pipes StreamCopy.vars :=
  World (mk_pipes [(0, [Byte.x68; Byte.x65; Byte.x6c; Byte.x6c; Byte.x6f]); (5, [Byte.x77; Byte.x6f; Byte.x72; Byte.x64])] 0)
    [] {[0%nat := mk_cell (FDWrapper.mk 5 false false 0 0) 1]} 1 StreamCopy.initial.

Lemma copy_world_fresh p : is_Some (heap copy_world !! p) -> (p < next_pointer copy_world)%nat.
Proof. unfold copy_world; simpl. intros [c [<- _]%lookup_singleton_Some]. lia. Qed.

(** How a run ended: over or not, and what went to the socket and to standard output. *)
Definition copy_result (o : outcome (bool * world pipes StreamCopy.vars))
    : option (bool * string * string) :=
  match o with
  | Ret (b, w) => Some (b, sent 5 (trace w), sent 1 (trace w))
  | Throw _ => None
  end.

Lemma stream_copy_faithful_witness :
  exists w', StreamCopy.bidirectional_stream_copy 10 0%nat copy_world = Ret (true, w')
  /\ sent 5 (trace w') = [Byte.x68; Byte.x65; Byte.x6c; Byte.x6c; Byte.x6f]
  /\ taken 5 (trace w') = [Byte.x77; Byte.x6f; Byte.x72; Byte.x64] ++ ByteStream.bytes (StreamCopy._inbound (user w')).
Proof.
  pose proof (stream_copy_faithful copy_world 0%nat (mk_cell (FDWrapper.mk 5 false false 0 0) 1) 5 10
    eq_refl eq_refl ltac:(done) ltac:(done) copy_world_fresh) as Hw.
  assert (copy_result (StreamCopy.bidirectional_stream_copy 10 0%nat copy_world)
    = Some (true, [Byte.x68; Byte.x65; Byte.x6c; Byte.x6c; Byte.x6f], [Byte.x77; Byte.x6f; Byte.x72; Byte.x64])) as Hr
    by (vm_compute; reflexivity).
  destruct (StreamCopy.bidirectional_stream_copy _ _ copy_world) as [[b w']|e]; [|discriminate].
  cbn [copy_result] in Hr. injection Hr as -> E5 E1. destruct Hw as (evs & Ht & _ & H2 & _).
  exists w'. simpl in Ht. rewrite Ht in *. unfold StreamCopy.STDOUT_FILENO in H2. rewrite E1 in H2. done.
Defined.
