(* ===== verification/TCPSpongeSocket.v ===== *)
(** * The TCP socket (tcp_helpers/tcp_sponge_socket.hh, tcp_helpers/tcp_sponge_socket.cc)

    The socket runs a [TCPConnection] in a thread.  An event loop with four rules
    moves segments between the connection and a datagram adapter, and bytes
    between the connection and the pipe whose other end the owner holds.

    The adapter is any type with an [Adapter] instance, and its device anything
    with a [Device] instance.  The owner's thread is part of the environment: it
    reads and writes its end of the pipe, and may set the flag that stops the loop
    ([Load_abort]). *)

From S2P Require Import Prelude WrappingIntegers SpongeBuffer ByteStream UtilBuffer Parser TCPSegment EthernetFrame.
From S2P Require Import Address FdAdapter StreamReassembler TCPReceiver TCPSender TCPConnection.
From S2P Require Import Exceptions FileDescriptor Socket EventLoop.

(** ** Devices *)

(** How an adapter reads its device and writes to it. *)
Class Device (K C I O : Type) := {
  device_read : FileDescriptor.t -> prog (world K C) I;
  device_write : FileDescriptor.t -> O -> prog (world K C) unit
}.

(** The TUN and TAP devices are read and written whole. *)
#[export] Instance stream_device {K C} `{Kernel K} : Device K C string BufferList.t := {|
  device_read p := FileDescriptor.read p FileDescriptor.size_max;
  device_write p o := _ ← FileDescriptor.write p (BufferViewList.of_BufferList o) true; mret tt
|}.

#[export] Instance udp_device {K C} `{Kernel K}
    : Device K C TCPOverUDPSocketAdapter.received_datagram (Address.t * BufferList.t) := {|
  device_read p := UDPSocket.recv p UDPSocket.default_mtu;
  device_write p o := UDPSocket.sendto p (fst o) (BufferViewList.of_BufferList (snd o))
|}.

Module TCPSpongeSocket.

Definition TCP_TICK_MS : Z := 10.
Definition max_write : Z := 65536.

(** The members of the class that change; the descriptors are [handles]. *)
Record vars (A : Type) := mk {
  _datagram_adapter : A;
  _tcp : option TCPConnection.t;
  _inbound_shutdown : bool;
  _outbound_shutdown : bool;
  _fully_acked : bool
}.
Arguments mk {A} _ _ _ _ _.
Arguments _datagram_adapter {A} _.
Arguments _tcp {A} _.
Arguments _inbound_shutdown {A} _.
Arguments _outbound_shutdown {A} _.
Arguments _fully_acked {A} _.

(** The socket itself (the owner's end of the pipe), the thread's end, and the
    adapter's device. *)
Record handles := mk_handles {
  self : FileDescriptor.t;
  _thread_data : FileDescriptor.t;
  device : FileDescriptor.t
}.

Section TCPSpongeSocket.
Context {K A I O : Type} `{Kernel K} `{NetDb} `{Adapter A I O} `{!Device K (vars A) I O}.
Abbreviation W := (world K (vars A)).
Abbreviation Rule := (EventLoop.Rule K (vars A)).
Variable h : handles.

Definition set_adapter (a : A) : prog W unit :=
  v ← read_user;
  write_user (mk a (_tcp v) (_inbound_shutdown v) (_outbound_shutdown v) (_fully_acked v)).
Definition set_tcp (c : option TCPConnection.t) : prog W unit :=
  v ← read_user;
  write_user (mk (_datagram_adapter v) c (_inbound_shutdown v) (_outbound_shutdown v) (_fully_acked v)).
Definition set_inbound_shutdown : prog W unit :=
  v ← read_user; write_user (mk (_datagram_adapter v) (_tcp v) true (_outbound_shutdown v) (_fully_acked v)).
Definition set_outbound_shutdown : prog W unit :=
  v ← read_user; write_user (mk (_datagram_adapter v) (_tcp v) (_inbound_shutdown v) true (_fully_acked v)).
Definition set_fully_acked : prog W unit :=
  v ← read_user; write_user (mk (_datagram_adapter v) (_tcp v) (_inbound_shutdown v) (_outbound_shutdown v) true).

(** [_tcp->] and [_tcp.value()] *)
Definition tcp_value : prog W TCPConnection.t :=
  v ← read_user;
  match _tcp v with Some c => mret c | None => throw undefined_behaviour end.
Definition on_tcp (f : TCPConnection.t -> outcome TCPConnection.t) : prog W unit :=
  c ← tcp_value; c' ← lift (f c); set_tcp (Some c').

(** What an adapter's method writes to the device. *)
Fixpoint write_outputs (p : FileDescriptor.t) (outs : list O) : prog W unit :=
  match outs with
  | [] => mret tt
  | o :: outs => device_write p o ;; write_outputs p outs
  end.

Definition adapter_read : prog W (option TCPSegment.t) :=
  i ← device_read (device h);
  v ← read_user;
  '(a, seg, outs) ← lift (FdAdapter.adapter_read (_datagram_adapter v) i);
  set_adapter a ;;
  write_outputs (device h) outs ;;
  mret seg.

Definition adapter_write (seg : TCPSegment.t) : prog W unit :=
  v ← read_user;
  '(a, _, outs) ← lift (FdAdapter.adapter_write (_datagram_adapter v) seg);
  set_adapter a ;;
  write_outputs (device h) outs.

Definition adapter_tick (ms : Z) : prog W unit :=
  v ← read_user;
  '(a, outs) ← lift (FdAdapter.adapter_tick (_datagram_adapter v) ms);
  set_adapter a ;;
  write_outputs (device h) outs.

(** The debugging output prints the peer's address, which can throw. *)
Definition debug_destination : prog W unit :=
  v ← read_user;
  _ ← lift (Address.to_string (destination (adapter_config (_datagram_adapter v))));
  mret tt.

(** Rule 1: read from the filtered packet stream into the connection. *)
Definition receive : prog W unit :=
  seg ← adapter_read;
  (match seg with
   | Some seg => on_tcp (fun c => TCPConnection.segment_received c seg)
   | None => mret tt
   end) ;;
  at_eof ← FileDescriptor.eof (_thread_data h);
  c ← tcp_value;
  v ← read_user;
  if at_eof && (TCPConnection.bytes_in_flight c =? 0) && negb (_fully_acked v)
  then debug_destination ;; set_fully_acked
  else mret tt.
Definition receive_interest : prog W bool := c ← tcp_value; mret (TCPConnection.active c).

(** Rule 2: read from the pipe into the outbound stream. *)
Definition take_from_owner : prog W unit :=
  c ← tcp_value;
  data ← FileDescriptor.read (_thread_data h) (TCPConnection.remaining_outbound_capacity c);
  let len := zlen data in
  c ← tcp_value;
  '(amount_written, c) ← lift (TCPConnection.write c data);
  set_tcp (Some c) ;;
  if negb (amount_written =? len) then throw runtime_error else
  at_eof ← FileDescriptor.eof (_thread_data h);
  if at_eof : bool
  then on_tcp TCPConnection.end_input_stream ;; set_outbound_shutdown ;; debug_destination
  else mret tt.
Definition take_interest : prog W bool :=
  c ← tcp_value;
  v ← read_user;
  mret (TCPConnection.active c && negb (_outbound_shutdown v)
        && (0 <? TCPConnection.remaining_outbound_capacity c)).
Definition take_cancel : prog W unit :=
  on_tcp TCPConnection.end_input_stream ;; set_outbound_shutdown.

(** Rule 3: write from the inbound stream into the pipe. *)
Definition set_inbound (c : TCPConnection.t) (s : ByteStream.t) : TCPConnection.t :=
  TCPConnection.set_receiver c (TCPReceiver.set_stream_out (TCPConnection._receiver c) s).
Definition give_to_owner : prog W unit :=
  c ← tcp_value;
  let inbound := TCPConnection.inbound_stream c in
  let amount_to_write := Z.min max_write (ByteStream.buffer_size inbound) in
  buffer ← lift (ByteStream.peek_output inbound amount_to_write);
  bytes_written ← FileDescriptor.write (_thread_data h) (BufferViewList.of_string buffer) false;
  c ← tcp_value;
  inbound ← lift (ByteStream.pop_output (TCPConnection.inbound_stream c) bytes_written);
  set_tcp (Some (set_inbound c inbound)) ;;
  if ByteStream.eof inbound || ByteStream.error inbound
  then Socket.shutdown (_thread_data h) SHUT_WR ;; set_inbound_shutdown ;; debug_destination
  else mret tt.
Definition give_interest : prog W bool :=
  c ← tcp_value;
  v ← read_user;
  let inbound := TCPConnection.inbound_stream c in
  mret (negb (ByteStream.buffer_empty inbound)
        || ((ByteStream.eof inbound || ByteStream.error inbound) && negb (_inbound_shutdown v))).

(** Rule 4: hand the outbound segments to the adapter; one round per segment. *)
Fixpoint send_loop (fuel : nat) : prog W unit :=
  c ← tcp_value;
  match TCPConnection.segments_out c with
  | [] => mret tt
  | front :: rest =>
      match fuel with
      | 0%nat => throw out_of_fuel
      | S fuel =>
          adapter_write front ;;
          c ← tcp_value;
          set_tcp (Some (TCPConnection.set_segments_out c (tail (TCPConnection.segments_out c)))) ;;
          send_loop fuel
      end
  end.
Definition send : prog W unit :=
  c ← tcp_value; send_loop (length (TCPConnection.segments_out c)).
Definition send_interest : prog W bool :=
  c ← tcp_value; mret (negb (bool_decide (TCPConnection.segments_out c = []))).

(** The four rules, in the order they are added. *)
Definition rule1 : Rule := EventLoop.mk_rule (device h) EventLoop.In receive receive_interest (mret tt).
Definition rule2 : Rule :=
  EventLoop.mk_rule (_thread_data h) EventLoop.In take_from_owner take_interest take_cancel.
Definition rule3 : Rule := EventLoop.mk_rule (_thread_data h) EventLoop.Out give_to_owner give_interest (mret tt).
Definition rule4 : Rule := EventLoop.mk_rule (device h) EventLoop.Out send send_interest (mret tt).

Definition add_rule (rules : list Rule) (r : Rule) : prog W (list Rule) :=
  EventLoop.add_rule rules (EventLoop.fd r) (EventLoop.direction r)
    (EventLoop.callback r) (EventLoop.interest r) (EventLoop.cancel r).

(** [_initialize_TCP]: a new connection and the rules of the loop. *)
Definition _initialize_TCP (config : TCPConfig.t) : prog W (list Rule) :=
  random ← SystemCall Random;
  set_tcp (Some (TCPConnection.new config random)) ;;
  rules ← add_rule [] rule1;
  rules ← add_rule rules rule2;
  rules ← add_rule rules rule3;
  add_rule rules rule4.

(** [_tcp_loop], for at most [fuel] rounds: the rules left, and whether the loop
    is over. *)
Fixpoint tcp_rounds (fuel : nat) (condition : prog W bool) (rules : list Rule) (base_time : Z)
    : prog W (list Rule * bool) :=
  match fuel with
  | 0%nat => mret (rules, false)
  | S fuel =>
      go ← condition;
      if negb go then mret (rules, true) else
      '(rules, ret) ← EventLoop.wait_next_event rules TCP_TICK_MS;
      stop ← (if bool_decide (ret = EventLoop.Exit) then mret true else SystemCall Load_abort);
      if stop : bool then mret (rules, true) else
      c ← tcp_value;
      if TCPConnection.active c
      then next_time ← timestamp_ms;
           on_tcp (fun c => Ret (TCPConnection.tick c (uint64 (next_time - base_time)))) ;;
           adapter_tick (uint64 (next_time - base_time)) ;;
           tcp_rounds fuel condition rules next_time
      else tcp_rounds fuel condition rules base_time
  end.
Definition _tcp_loop (fuel : nat) (condition : prog W bool) (rules : list Rule) : prog W (list Rule * bool) :=
  base_time ← timestamp_ms;
  tcp_rounds fuel condition rules base_time.

Definition in_state (s : TCPState.State) : prog W bool :=
  c ← tcp_value; mret (TCPState.eqb (TCPState.state c) (TCPState.of_State s)).

(** [connect], up to the start of the thread, which runs [_tcp_main]. *)
Definition connect (fuel : nat) (c_tcp : TCPConfig.t) (c_ad : FdAdapterConfig) : prog W (list Rule * bool) :=
  v ← read_user;
  if negb (bool_decide (_tcp v = None)) then throw runtime_error else
  rules ← _initialize_TCP c_tcp;
  v ← read_user;
  set_adapter (adapter_set_config (_datagram_adapter v) c_ad) ;;
  debug_destination ;;
  on_tcp TCPConnection.connect ;;
  syn_sent ← in_state TCPState.SYN_SENT;
  if negb syn_sent then throw runtime_error else
  r ← _tcp_loop fuel (in_state TCPState.SYN_SENT) rules;
  debug_destination ;;
  mret r.

Definition listen_and_accept (fuel : nat) (c_tcp : TCPConfig.t) (c_ad : FdAdapterConfig)
    : prog W (list Rule * bool) :=
  v ← read_user;
  if negb (bool_decide (_tcp v = None)) then throw runtime_error else
  rules ← _initialize_TCP c_tcp;
  v ← read_user;
  set_adapter (adapter_set_listening (adapter_set_config (_datagram_adapter v) c_ad) true) ;;
  r ← _tcp_loop fuel
        (listening ← in_state TCPState.LISTEN;
         received ← in_state TCPState.SYN_RCVD;
         syn_sent ← in_state TCPState.SYN_SENT;
         mret (listening || received || syn_sent)) rules;
  debug_destination ;;
  mret r.

(** The body of the thread.  [_tcp.reset()] also runs the destructor of the
    connection, which changes only the connection it destroys. *)
Definition _tcp_main (fuel : nat) (rules : list Rule) : prog W (list Rule * bool) :=
  v ← read_user;
  if bool_decide (_tcp v = None) then throw runtime_error else
  '(rules, over) ← _tcp_loop fuel (mret true) rules;
  if negb over then mret (rules, false) else
  Socket.shutdown (self h) SHUT_RDWR ;;
  set_tcp None ;;
  mret (rules, true).

(** [wait_until_closed], up to joining the thread. *)
Definition wait_until_closed : prog W unit := Socket.shutdown (self h) SHUT_RDWR.

End TCPSpongeSocket.

Section Construction.
Context {K A I O : Type} `{Kernel K} `{NetDb} `{Adapter A I O}.

(** The constructors: a socket pair, one end of which the thread reads without
    blocking. *)
Definition of_pair (first second device : FileDescriptor.t) : prog (world K (vars A)) handles :=
  self ← LocalStreamSocket.of_fd first;
  thread_data ← LocalStreamSocket.of_fd second;
  FileDescriptor.set_blocking thread_data false ;;
  mret (mk_handles self thread_data device).
Definition new (adapter : A) (device : FileDescriptor.t) : prog (world K (vars A)) handles :=
  '(first, second) ← LocalStreamSocket.socket_pair_helper SOCK_STREAM;
  h ← of_pair first second device;
  write_user (mk adapter None false false false) ;;
  mret h.

End Construction.
End TCPSpongeSocket.

(** ** The socket drives the connection and the adapter *)

Module Driving.
Import TCPSpongeSocket Descriptors Owners.

(** The calls an adapter gets. *)
Inductive adapter_op :=
  | ARead (i : string)
  | AWrite (seg : TCPSegment.t)
  | ATick (ms : Z).

Section Adapter.
Context {A : Type} `{Adapter A string BufferList.t}.

(** The reply of a call: a segment that was read, and what goes to the device. *)
Definition adapter_step (a : A) (o : adapter_op) : outcome (A * (option TCPSegment.t * list BufferList.t)) :=
  match o with
  | ARead i => '(a, seg, outs) ← FdAdapter.adapter_read a i; Ret (a, (seg, outs))
  | AWrite seg => '(a, _, outs) ← FdAdapter.adapter_write a seg; Ret (a, (None, outs))
  | ATick ms => '(a, outs) ← FdAdapter.adapter_tick a ms; Ret (a, (None, outs))
  end.

Lemma calm_adapter_step `{!CalmAdapter A string BufferList.t} a o : calm (adapter_step a o).
Proof.
  pose proof calm_adapter_read. pose proof calm_adapter_write. pose proof calm_adapter_tick.
  destruct o; simpl; solve_calm.
Qed.
End Adapter.

(** The segments given to an adapter, those it returned, and those given to a
    connection; what an adapter was given from its device, and what it had for it. *)
Definition written_to (aops : list adapter_op) : list TCPSegment.t :=
  omap (fun o => match o with AWrite seg => Some seg | _ => None end) aops.
Definition read_from (aops : list adapter_op) : list string :=
  omap (fun o => match o with ARead i => Some i | _ => None end) aops.
Definition outputs (replies : list (option TCPSegment.t * list BufferList.t)) : list BufferList.t :=
  concat (snd <$> replies).
Definition small (outs : list BufferList.t) : Prop := Forall (fun o => zlen (BufferList.bytes o) < 2 ^ 64) outs.
Definition output_bytes (outs : list BufferList.t) : string := concat (BufferList.bytes <$> outs).

Lemma outputs_app r1 r2 : outputs (r1 ++ r2) = outputs r1 ++ outputs r2.
Proof. unfold outputs. by rewrite fmap_app, concat_app. Qed.
Lemma outputs_one seg outs : outputs [(seg, outs)] = outs.
Proof. apply app_nil_r. Qed.
Lemma output_bytes_app o1 o2 : output_bytes (o1 ++ o2) = output_bytes o1 ++ output_bytes o2.
Proof. unfold output_bytes. by rewrite fmap_app, concat_app. Qed.

Definition returned (replies : list (option TCPSegment.t * list BufferList.t)) : list TCPSegment.t :=
  omap fst replies.
Definition received (ops : list ConnectionSpec.op) : list TCPSegment.t :=
  omap (fun o => match o with ConnectionSpec.Segment seg => Some seg | _ => None end) ops.

(** All that the outside saw of a connection. *)
Definition total (rs : list ConnectionSpec.seen) : ConnectionSpec.seen :=
  fold_left ConnectionSpec.add rs ConnectionSpec.nothing.

Section Driving.
Context {K A : Type} `{KernelLaws K} `{NetDb} `{Adapter A string BufferList.t}.
Abbreviation W := (world K (vars A)).
Abbreviation Rule := (EventLoop.Rule K (vars A)).

(** The handles and numbers of the thread's end of the pipe and of the device, the
    adapter and the calls made before, and the connection's configuration. *)
Context (h : handles) (nt nd : Z) (t0 : list event) (a0 : A) (cfg : TCPConfig.t) (random : Z).
Context (Hn : nt <> nd).
Implicit Types (w : W) (rules : list Rule).

(** The connection [c] and the adapter [a] are where some calls led them.  The
    segments the adapter returned went to the connection (but for [pend]), those
    of the connection to the adapter.  The bytes that [evs] moved through the
    pipe are those that the connection was given and gave; each read of the
    device went to the adapter, and what the adapter had for the device was
    written to it, in order. *)
Definition driven (pend : list TCPSegment.t) (c : TCPConnection.t) (a : A) (evs : list event) : Prop :=
  exists ops rs aops ars,
    run ConnectionSpec.step (TCPConnection.new cfg random) ops = Ret (c, rs) /\
    run adapter_step a0 aops = Ret (a, ars) /\
    ByteStream.wf (TCPConnection.inbound_stream c) /\
    received ops ++ pend = returned ars /\
    ConnectionSpec.sent (total rs) = written_to aops /\
    taken nt evs = ConnectionSpec.written (total rs) /\
    sent nt evs = ConnectionSpec.got (total rs) /\
    reads nd evs = read_from aops /\
    (small (outputs ars) -> sent nd evs = output_bytes (outputs ars)).

(** The calls of the adapter that the loop makes at a time: one read or tick, or
    the writing of segments from the front of the connection's queue. *)
Definition calls (c : TCPConnection.t) (aops : list adapter_op) : Prop :=
  (exists o, aops = [o] /\ match o with AWrite _ => False | _ => True end) \/
  exists segs, segs `prefix_of` TCPConnection.segments_out c /\ aops = AWrite <$> segs.

(** How the loop may throw: an error of a system call or one that [poll] reports;
    an exception of the adapter or of the connection at a call that the loop makes
    in a state it drove them to; the peer's address that cannot be printed; or a
    datagram of the adapter larger than the address space. *)
Inductive socket_exn : exn -> Prop :=
  | se_unix code : socket_exn (unix_error code)
  | se_poll e : polled_error K e -> socket_exn e
  | se_adapter c a evs aops a' ars o e :
      driven [] c a evs -> calls c (aops ++ [o]) -> run adapter_step a aops = Ret (a', ars) ->
      adapter_step a' o = Throw e -> socket_exn e
  | se_connection pend c a evs o e :
      driven pend c a evs -> pend = received [o] -> ConnectionSpec.step c o = Throw e -> socket_exn e
  | se_print pend c a evs e :
      driven pend c a evs -> Address.to_string (destination (adapter_config a)) = Throw e -> socket_exn e
  | se_large c a evs aops a' ars o e :
      driven [] c a evs -> calls c aops -> run adapter_step a aops = Ret (a', ars) -> o ∈ outputs ars ->
      2 ^ 64 <= zlen (BufferList.bytes o) -> e <> busy_wait -> socket_exn e.

(** None of them is a busy wait. *)
Lemma socket_exn_calm e : CalmAdapter A string BufferList.t -> socket_exn e -> e <> busy_wait.
Proof.
  intros Hc [code|e' [-> _]|c a evs aops a' ars o e' _ _ _ E|pend c a evs o e' _ _ E|pend c a evs e' _ E|]; try done.
  - intros ->. by apply (calm_adapter_step a' o).
  - intros ->. by apply (calm_connection c o).
  - intros ->. by apply (calm_to_string (destination (adapter_config a))).
Qed.

(** Nothing moves through descriptor [n]. *)
Definition idle (n : Z) (evs : list event) : Prop := sent n evs = [] /\ reads n evs = [].
Definition quiet (evs : list event) : Prop := idle nt evs /\ idle nd evs.

Lemma idle_taken n evs : idle n evs -> taken n evs = [].
Proof. intros [_ E]. unfold taken. by rewrite E. Qed.
Lemma idle_app n evs evs' : idle n evs -> idle n evs' -> idle n (evs ++ evs').
Proof. intros [E1 E2] [E3 E4]. unfold idle. by rewrite sent_app, reads_app, E1, E2, E3, E4. Qed.
Lemma moves_idle n m out inp evs : m <> n -> moves n out inp evs -> idle m evs.
Proof. intros Hm M. destruct (M m) as [M1 M2]. unfold idle. by rewrite M1, M2, (proj2 (Z.eqb_neq _ _)). Qed.

Lemma total_snoc rs r : total (rs ++ [r]) = ConnectionSpec.add (total rs) r.
Proof. unfold total. by rewrite fold_left_app. Qed.

Lemma driven_quiet pend c a evs evs' : quiet evs' -> driven pend c a evs -> driven pend c a (evs ++ evs').
Proof.
  intros [Q1 [Q2 Q3]] (ops & rs & aops & ars & R1 & R2 & R3 & R4 & R5 & R6 & R7 & R8 & R9).
  exists ops, rs, aops, ars.
  by rewrite taken_app, !sent_app, reads_app, (proj1 Q1), (idle_taken _ _ Q1), Q2, Q3, !app_nil_r.
Qed.

(** A call of the connection that is neither a segment nor [Drain]. *)
Lemma driven_step pend c a evs o c' r evs' :
  driven pend c a evs -> ConnectionSpec.step c o = Ret (c', r) ->
  match o with ConnectionSpec.Segment _ | ConnectionSpec.Drain => False | ConnectionSpec.Read len => 0 <= len | _ => True end ->
  taken nt evs' = ConnectionSpec.written r -> sent nt evs' = ConnectionSpec.got r -> idle nd evs' ->
  driven pend c' a (evs ++ evs').
Proof.
  intros (ops & rs & aops & ars & R1 & R2 & R3 & R4 & R5 & R6 & R7 & R8 & R9) E Ho T S [D1 D2].
  exists (ops ++ [o]), (rs ++ [r]), aops, ars. split_and!.
  - by eapply run_snoc.
  - done.
  - eapply ConnectionSpec.step_inbound_wf; [|done|exact E]. intros len ->. done.
  - unfold received. rewrite omap_app. by destruct o; simpl; rewrite ?app_nil_r.
  - rewrite total_snoc. simpl. rewrite R5. enough (ConnectionSpec.sent r = []) as -> by apply app_nil_r.
    revert E. destruct o; simpl; try done; intros E; repeat (apply bind_Ret in E as (? & _ & E));
      destruct_and?; repeat case_match; simplify_eq; try done.
  - by rewrite total_snoc, taken_app, R6, T.
  - by rewrite total_snoc, sent_app, R7, S.
  - by rewrite reads_app, D2, app_nil_r.
  - by rewrite sent_app, D1, app_nil_r.
Qed.

Lemma driven_segment c a evs seg :
  driven [seg] c a evs ->
  match TCPConnection.segment_received c seg with
  | Ret c' => driven [] c' a evs
  | Throw e => socket_exn e
  end.
Proof.
  intros D. destruct (TCPConnection.segment_received c seg) as [c'|e] eqn:Es.
  2: { eapply (se_connection _ _ _ _ (ConnectionSpec.Segment seg)); [exact D|done|]. simpl. by rewrite Es. }
  destruct D as (ops & rs & aops & ars & R1 & R2 & R3 & R4 & R5 & R6 & R7 & R8 & R9).
  exists (ops ++ [ConnectionSpec.Segment seg]), (rs ++ [ConnectionSpec.nothing]), aops, ars.
  assert (ConnectionSpec.step c (ConnectionSpec.Segment seg) = Ret (c', ConnectionSpec.nothing)) as E
    by (simpl; by rewrite Es).
  rewrite total_snoc. simpl. rewrite !app_nil_r. split_and!; try done.
  - by eapply run_snoc.
  - by eapply ConnectionSpec.segment_received_inbound_wf.
  - unfold received. rewrite omap_app. done.
Qed.

(** A call of the adapter that does not write a segment, with what it moves through
    the device. *)
Lemma driven_adapter c a evs o a' seg outs evs' :
  driven [] c a evs -> match o with AWrite _ => False | _ => True end ->
  adapter_step a o = Ret (a', (seg, outs)) -> idle nt evs' -> reads nd evs' = read_from [o] ->
  (small outs -> sent nd evs' = output_bytes outs) ->
  driven (option_list seg) c a' (evs ++ evs').
Proof.
  intros (ops & rs & aops & ars & R1 & R2 & R3 & R4 & R5 & R6 & R7 & R8 & R9) Ho E Q Hr Hs.
  exists ops, rs, (aops ++ [o]), (ars ++ [(seg, outs)]).
  rewrite taken_app, !sent_app, reads_app, (proj1 Q), (idle_taken _ _ Q), !app_nil_r, R8, Hr, outputs_app, outputs_one.
  split_and!; try done.
  - by eapply run_snoc.
  - unfold returned. rewrite omap_app. fold (returned ars). rewrite <- R4, app_nil_r. by destruct seg.
  - unfold written_to. rewrite omap_app, R5. destruct o; [by rewrite app_nil_r|done|by rewrite app_nil_r].
  - unfold read_from. by rewrite omap_app.
  - intros [S1 S2]%Forall_app. by rewrite output_bytes_app, R9, Hs.
Qed.

Lemma calls_one c o : match o with AWrite _ => False | _ => True end -> calls c [o].
Proof. intros Ho. left. by exists o. Qed.

(** Writing the whole queue of the connection to the adapter. *)
Lemma driven_drain c a evs a' ars' evs' :
  driven [] c a evs ->
  run adapter_step a (AWrite <$> TCPConnection.segments_out c) = Ret (a', ars') ->
  idle nt evs' -> reads nd evs' = [] -> (small (outputs ars') -> sent nd evs' = output_bytes (outputs ars')) ->
  driven [] (TCPConnection.set_segments_out c []) a' (evs ++ evs').
Proof.
  intros (ops & rs & aops & ars & R1 & R2 & R3 & R4 & R5 & R6 & R7 & R8 & R9) E Q Hr Hs.
  exists (ops ++ [ConnectionSpec.Drain]),
    (rs ++ [ConnectionSpec.Seen [] (TCPConnection.segments_out c) []]),
    (aops ++ (AWrite <$> TCPConnection.segments_out c)), (ars ++ ars').
  rewrite total_snoc, taken_app, !sent_app, reads_app, (proj1 Q), (idle_taken _ _ Q), R8, Hr, outputs_app.
  simpl. rewrite !app_nil_r. split_and!; try done.
  - by eapply run_snoc.
  - by eapply run_app.
  - unfold received, returned. rewrite !omap_app. simpl. rewrite app_nil_r.
    fold (received ops) (returned ars). rewrite app_nil_r in R4. rewrite R4.
    enough (omap fst ars' = []) as -> by (by rewrite app_nil_r).
    clear -E. revert a ars' E. induction (TCPConnection.segments_out c) as [|seg segs IH]; intros a ars'; simpl.
    + by intros [= <- <-].
    + intros ([a1 r] & E1 & ([a2 ars] & E2 & [= -> <-])%bind_Ret)%bind_Ret.
      apply bind_Ret in E1 as ([[? ?] ?] & _ & [= <- <-]). simpl. by eapply IH.
  - rewrite R5. unfold written_to. rewrite omap_app. f_equal. clear.
    induction (TCPConnection.segments_out c) as [|seg segs IH]; simpl; [done|]. by f_equal.
  - unfold read_from. rewrite omap_app. enough (omap _ (AWrite <$> TCPConnection.segments_out c) = []) as ->
      by (by rewrite app_nil_r). clear. by induction (TCPConnection.segments_out c).
  - intros [S1 S2]%Forall_app. by rewrite output_bytes_app, R9, Hs.
Qed.

(** ** The state of the thread *)

Definition all_rules : list Rule := [rule1 h; rule2 h; rule3 h; rule4 h].

(** The thread runs connection [c] with adapter [a]. *)
Record at_ (rules : list Rule) (pend : list TCPSegment.t) (c : TCPConnection.t) (a : A) (w : W) : Prop := {
  at_rules : forall r, r ∈ rules -> r ∈ all_rules;
  at_thread : live rules w (_thread_data h) nt;
  at_device : live rules w (device h) nd;
  at_tcp : _tcp (user w) = Some c;
  at_adapter : _datagram_adapter (user w) = a;
  at_driven : exists evs, trace w = t0 ++ evs /\ driven pend c a evs
}.

Definition inv (rules : list Rule) (w : W) : Prop := exists c a, at_ rules [] c a w.

Lemma at_move rules pend c a w p nr nw w' evs' pend' c' a' :
  at_ rules pend c a w -> touched p nr nw w w' evs' ->
  _tcp (user w') = Some c' -> _datagram_adapter (user w') = a' ->
  (forall evs, driven pend c a evs -> driven pend' c' a' (evs ++ evs')) ->
  at_ rules pend' c' a' w'.
Proof.
  intros [Hr Ht Hd _ _ (evs & E & D)] T Ec Ea Hm. split; try done; try (by eapply live_touched).
  exists (evs ++ evs'). rewrite (tc_trace _ _ _ _ _ _ T), E, app_assoc. split; [done|]. by apply Hm.
Qed.

(** A change of the program's variables. *)
Lemma at_user rules pend c a w v pend' c' a' :
  at_ rules pend c a w -> _tcp v = Some c' -> _datagram_adapter v = a' ->
  (forall evs, driven pend c a evs -> driven pend' c' a' evs) ->
  at_ rules pend' c' a' (set_user w v).
Proof.
  intros Ha Ec Ea Hm. destruct (at_thread _ _ _ _ _ Ha) as (x & E & _).
  eapply at_move; [done|by eapply touched_user|done|done|]. intros evs D. rewrite app_nil_r. by apply Hm.
Qed.

Lemma tcp_value_eq rules pend c a w : at_ rules pend c a w -> tcp_value w = Ret (c, w).
Proof. intros Ha. unfold tcp_value. erewrite bind_eq by reflexivity. by rewrite (at_tcp _ _ _ _ _ Ha). Qed.

Lemma write_outputs_spec outs w x :
  heap w !! device h = Some x -> FDWrapper._fd (wrapper x) = nd ->
  match write_outputs (device h) outs w with
  | Ret (_, w') => user w' = user w /\ exists evs nw, touched (device h) 0 nw w w' evs /\
      idle nt evs /\ reads nd evs = [] /\ (small outs -> sent nd evs = output_bytes outs)
  | Throw e => is_unix_error e \/ e <> busy_wait /\ exists o, o ∈ outs /\ 2 ^ 64 <= zlen (BufferList.bytes o)
  end.
Proof.
  revert w x. induction outs as [|o outs IH]; intros w x E F; simpl.
  { split; [done|]. exists [], 0%nat. split; [by eapply touched_refl|done]. }
  pose proof (write_any w (device h) x (BufferViewList.of_BufferList o) true E) as Hw.
  destruct (FileDescriptor.write _ _ _ w) as [[m w1]|e] eqn:Ew.
  2: { erewrite bind_throw by (apply bind_throw; exact Ew). destruct Hw as [Hw|[Hl Hb]]; [by left|right].
       split; [done|]. exists o. split; [constructor|exact Hl]. }
  erewrite bind_eq by (erewrite bind_eq by exact Ew; reflexivity).
  destruct Hw as (Hu & evs & nw & out & T & M & Ho). rewrite F in M. specialize (Ho eq_refl).
  destruct (touched_live _ _ _ _ _ _ _ T E) as (x1 & E1 & F1). rewrite F in F1.
  specialize (IH w1 x1 E1 F1). destruct (write_outputs (device h) outs w1) as [[[] w2]|e].
  - destruct IH as (Hu2 & evs2 & nw2 & T2 & Q2 & R2 & S2). split; [congruence|].
    exists (evs ++ evs2), (nw2 + nw)%nat. split; [by eapply (touched_trans _ _ _ 0) |].
    destruct (M nd) as [M1 M2]. rewrite Z.eqb_refl in M1, M2.
    rewrite sent_app, reads_app, M1, M2, R2. split; [apply idle_app; [by eapply moves_idle|done]|].
    split; [done|]. intros [So Ss]%Forall_cons. rewrite (S2 Ss), (Ho So). done.
  - destruct IH as [?|(Hb & o' & Hin & Hl)]; [by left|right]. split; [done|]. exists o'. split; [by constructor|done].
Qed.

(** The end of every call of the adapter but a write: its new state is stored, what
    it has for the device is written; [w] is where the loop was, [w0] where it is
    when the adapter answers. *)
Lemma adapter_out rules c a w w0 a' o seg outs nr evs0 :
  at_ rules [] c a w -> match o with AWrite _ => False | _ => True end ->
  adapter_step a o = Ret (a', (seg, outs)) ->
  touched (device h) nr 0 w w0 evs0 -> user w0 = user w -> moves nd [] (read_from [o]) evs0 ->
  match (set_adapter a' ;; write_outputs (device h) outs) w0 with
  | Ret (_, w') =>
      at_ rules (option_list seg) c a' w' /\ exists evs nw, touched (device h) nr nw w w' evs
  | Throw e => socket_exn e
  end.
Proof.
  intros Ha Hno Es T0 Hu0 M0. erewrite bind_eq by reflexivity. set (w1 := set_user w0 _).
  destruct (at_device _ _ _ _ _ Ha) as (x & E & F & _).
  destruct (touched_live _ _ _ _ _ _ _ T0 E) as (x0 & E0 & F0). rewrite F in F0.
  pose proof (touched_user (device h) w0 x0 (user w1) E0) as T1.
  pose proof (touched_trans _ _ _ _ _ _ _ _ _ _ T0 T1) as T01. rewrite app_nil_r in T01; simpl in T01.
  pose proof (write_outputs_spec outs w1 x0 E0 F0) as Hw.
  destruct (write_outputs (device h) outs w1) as [[[] w']|e].
  - destruct Hw as (Hu & evs & nw & T & Q & R & S). simpl in Hu.
    pose proof (touched_trans _ _ _ _ _ _ _ _ _ _ T01 T) as T2. simpl in T2. split.
    + eapply at_move; [exact Ha|exact T2| | |].
      * rewrite Hu. simpl. rewrite Hu0. apply (at_tcp _ _ _ _ _ Ha).
      * by rewrite Hu.
      * intros evs1 D. destruct (M0 nd) as [M1 M2]. rewrite Z.eqb_refl in M1, M2.
        eapply driven_adapter; [exact D|exact Hno|exact Es| | |].
        -- apply idle_app; [by eapply moves_idle|done].
        -- by rewrite reads_app, M2, R, app_nil_r.
        -- intros Hsm. by rewrite sent_app, M1, S.
    + rewrite Nat.add_0_r in T2. by eexists _, nw.
  - destruct (at_driven _ _ _ _ _ Ha) as (evs & _ & D).
    destruct Hw as [[code ->]|(Hb & o' & Ho & Hl)]; [constructor|].
    eapply (se_large c a evs [o] a' [(seg, outs)]); [exact D|by apply calls_one| | |exact Hl|exact Hb].
    + simpl. by rewrite Es.
    + by rewrite outputs_one.
Qed.

Lemma adapter_read_at rules c a w :
  at_ rules [] c a w ->
  match adapter_read h w with
  | Ret (seg, w') =>
      exists a', at_ rules (option_list seg) c a' w' /\ exists evs nw, touched (device h) 1 nw w w' evs
  | Throw e => socket_exn e
  end.
Proof.
  intros Ha. destruct (at_device _ _ _ _ _ Ha) as (x & E & F & _).
  unfold adapter_read, device_read, stream_device.
  pose proof (read_touches w (device h) x FileDescriptor.size_max E) as Hr.
  destruct (FileDescriptor.read _ _ w) as [[i w1]|e] eqn:Er.
  2: { rewrite (bind_throw _ _ _ _ Er). destruct Hr as [code ->]; [done|constructor]. }
  rewrite (bind_eq _ _ _ _ _ Er). destruct Hr as (_ & Hu & evs & T & M); [done|]. rewrite F in M.
  erewrite bind_eq by reflexivity. rewrite Hu, (at_adapter _ _ _ _ _ Ha). unfold lift.
  destruct (at_driven _ _ _ _ _ Ha) as (evs1 & _ & D).
  destruct (FdAdapter.adapter_read a i) as [[[a' seg] outs]|e] eqn:Ea.
  2: { erewrite bind_throw by reflexivity.
       eapply (se_adapter c a evs1 [] a [] (ARead i)); [exact D|by apply calls_one|done|]. simpl. by rewrite Ea. }
  erewrite bind_eq by reflexivity.
  pose proof (adapter_out rules c a w w1 a' (ARead i) seg outs 1 evs Ha Logic.I) as Ho.
  specialize (Ho ltac:(simpl; by rewrite Ea) T Hu M).
  revert Ho. unfold mbind, prog_bind. destruct (set_adapter a' w1) as [[[] w2]|e]; [|done].
  destruct (write_outputs (device h) outs w2) as [[[] w3]|e]; [|done].
  intros [Ha3 Ht]. by exists a'.
Qed.

Lemma debug_destination_at rules pend c a w :
  at_ rules pend c a w ->
  match debug_destination w with Ret (_, w') => w' = w | Throw e => socket_exn e end.
Proof.
  intros Ha. unfold debug_destination. erewrite bind_eq by reflexivity. unfold lift.
  destruct (Address.to_string _) as [str|e] eqn:E; [done|].
  erewrite bind_throw; [|reflexivity]. destruct (at_driven _ _ _ _ _ Ha) as (evs & _ & D).
  rewrite (at_adapter _ _ _ _ _ Ha) in E. by eapply se_print.
Qed.

(** A call of the connection that gives nothing to the outside. *)
Lemma on_tcp_at rules c a w f o :
  at_ rules [] c a w ->
  (forall c, ConnectionSpec.step c o = (c' ← f c; Ret (c', ConnectionSpec.nothing))) ->
  match o with ConnectionSpec.EndInput | ConnectionSpec.Connect | ConnectionSpec.Tick _ => True | _ => False end ->
  match on_tcp f w with
  | Ret (_, w') => exists c' v, w' = set_user w v /\ at_ rules [] c' a w'
  | Throw e => socket_exn e
  end.
Proof.
  intros Ha Hs Ho. unfold on_tcp. erewrite bind_eq by (eapply tcp_value_eq; exact Ha).
  specialize (Hs c). unfold lift. destruct (f c) as [c'|e].
  - erewrite bind_eq by reflexivity. eexists c', _. split; [reflexivity|].
    eapply at_user; [exact Ha|done|simpl; apply (at_adapter _ _ _ _ _ Ha)|]. intros evs D.
    rewrite <- (app_nil_r evs). eapply (driven_step _ _ _ _ o); [exact D|exact Hs|by destruct o|done|done|done].
  - erewrite bind_throw by reflexivity. destruct (at_driven _ _ _ _ _ Ha) as (evs & _ & D).
    eapply (se_connection _ _ _ _ o); [exact D|by destruct o|exact Hs].
Qed.

(** A flag is set, the connection and the adapter stay. *)
Lemma set_flag_at rules pend c a w v :
  at_ rules pend c a w -> _tcp v = _tcp (user w) -> _datagram_adapter v = _datagram_adapter (user w) ->
  at_ rules pend c a (set_user w v).
Proof.
  intros Ha E1 E2. eapply at_user; [exact Ha| | |done].
  - rewrite E1. apply (at_tcp _ _ _ _ _ Ha).
  - rewrite E2. apply (at_adapter _ _ _ _ _ Ha).
Qed.

(** What the adapter returned goes to the connection. *)
Lemma deliver_at rules c a w seg :
  at_ rules (option_list seg) c a w ->
  match (match seg with
         | Some seg => on_tcp (fun c => TCPConnection.segment_received c seg)
         | None => mret tt
         end) w with
  | Ret (_, w') => exists c' v, w' = set_user w v /\ at_ rules [] c' a w'
  | Throw e => socket_exn e
  end.
Proof.
  intros Ha. destruct seg as [seg|]; simpl in Ha.
  2: { exists c, (user w). destruct w. split; [done|exact Ha]. }
  unfold on_tcp. erewrite bind_eq by (eapply tcp_value_eq; exact Ha).
  destruct (at_driven _ _ _ _ _ Ha) as (evs1 & _ & D). pose proof (driven_segment c a evs1 seg D) as Hs.
  assert (forall evs c', TCPConnection.segment_received c seg = Ret c' -> driven [seg] c a evs -> driven [] c' a evs) as Hany.
  { intros evs2 c' Es D2. pose proof (driven_segment c a evs2 seg D2) as H2'. by rewrite Es in H2'. }
  unfold lift. destruct (TCPConnection.segment_received c seg) as [c2|e]; [|by erewrite bind_throw by reflexivity].
  erewrite bind_eq by reflexivity. eexists c2, _. split; [reflexivity|].
  eapply at_user; [exact Ha|done|simpl; apply (at_adapter _ _ _ _ _ Ha)|]. intros evs2. by apply Hany.
Qed.

(** Rule 1. *)
Lemma receive_at rules c a w :
  at_ rules [] c a w ->
  match receive h w with
  | Ret (_, w') => inv rules w' /\ exists evs nw, touched (device h) 1 nw w w' evs
  | Throw e => socket_exn e
  end.
Proof.
  intros Ha. unfold receive. pose proof (adapter_read_at rules c a w Ha) as Hr.
  destruct (adapter_read h w) as [[seg w1]|e] eqn:Er; [|by rewrite (bind_throw _ _ _ _ Er)].
  rewrite (bind_eq _ _ _ _ _ Er). destruct Hr as (a1 & Ha1 & evs & nw & T).
  pose proof (deliver_at rules c a1 w1 seg Ha1) as Hm.
  match type of Hm with match ?m w1 with _ => _ end => destruct (m w1) as [[[] w2]|e] eqn:Em end;
    [|by rewrite (bind_throw _ _ _ _ Em)].
  rewrite (bind_eq _ _ _ _ _ Em). destruct Hm as (c2 & v & -> & Ha2).
  destruct (at_device _ _ _ _ _ Ha1) as (x & Ex & _).
  pose proof (touched_trans _ _ _ _ _ _ _ _ _ _ T (touched_user _ w1 x v Ex)) as T3.
  rewrite app_nil_r in T3; simpl in T3. destruct (at_thread _ _ _ _ _ Ha2) as (y & Ey & _).
  erewrite bind_eq by (apply eof_eq; exact Ey). erewrite bind_eq by (eapply tcp_value_eq; exact Ha2).
  erewrite bind_eq by reflexivity.
  match goal with |- context [if ?b then _ else _] => destruct b end.
  2: { split; [by exists c2, a1|by exists evs, nw]. }
  pose proof (debug_destination_at rules [] c2 a1 _ Ha2) as Hd.
  destruct (debug_destination _) as [[[] w3]|e] eqn:Ed; [|by rewrite (bind_throw _ _ _ _ Ed)].
  rewrite (bind_eq _ _ _ _ _ Ed). subst w3. split.
  - exists c2, a1. by apply (set_flag_at rules [] c2 a1 _ _ Ha2).
  - exists (evs ++ []), (0 + nw)%nat. by eapply (touched_trans _ 1 nw 0 0); [exact T3|eapply touched_user].
Qed.

(** The connection takes all that its free space was asked for. *)
Lemma tcp_write_all c data n c' :
  TCPConnection.write c data = Ret (n, c') -> zlen data <= TCPConnection.remaining_outbound_capacity c ->
  n = zlen data.
Proof.
  unfold TCPConnection.write, TCPConnection.remaining_outbound_capacity. intros E Hl.
  assert (snd (ByteStream.write (TCPSender.stream_in (TCPConnection._sender c)) data) = zlen data) as Hw.
  { unfold ByteStream.write. destruct data as [|b data]; [done|]. set (d := b :: data) in *. clearbody d.
    simpl. case_if; lia. }
  destruct (ByteStream.write _ data) as [st m]. simpl in Hw. subst m.
  by apply bind_Ret in E as (s' & _ & [= <- <-]).
Qed.

(** The end of rule 2, and its [cancel]: the outbound stream ends. *)
Lemma take_cancel_at rules c a w :
  at_ rules [] c a w ->
  match take_cancel w with
  | Ret (_, w') => exists c' v, w' = set_user w v /\ at_ rules [] c' a w'
  | Throw e => socket_exn e
  end.
Proof.
  intros Ha. unfold take_cancel.
  pose proof (on_tcp_at rules c a w TCPConnection.end_input_stream ConnectionSpec.EndInput Ha ltac:(done) I) as Ho.
  destruct (on_tcp _ w) as [[[] w1]|e] eqn:Eo; [|by rewrite (bind_throw _ _ _ _ Eo)].
  rewrite (bind_eq _ _ _ _ _ Eo). destruct Ho as (c1 & v & -> & Ha1).
  eexists c1, _. split; [|by apply (set_flag_at rules [] c1 a _ _ Ha1)]. reflexivity.
Qed.

(** Rule 2. *)
Lemma take_from_owner_at rules c a w :
  at_ rules [] c a w ->
  match take_from_owner h w with
  | Ret (_, w') => inv rules w' /\ exists evs, touched (_thread_data h) 1 0 w w' evs
  | Throw e => socket_exn e
  end.
Proof.
  intros Ha. unfold take_from_owner. erewrite bind_eq by (eapply tcp_value_eq; exact Ha).
  destruct (at_thread _ _ _ _ _ Ha) as (x & E & F & _).
  pose proof (read_touches w (_thread_data h) x (TCPConnection.remaining_outbound_capacity c) E) as Hr.
  destruct (FileDescriptor.read _ _ w) as [[data w1]|e] eqn:Er.
  2: { rewrite (bind_throw _ _ _ _ Er). destruct Hr as [code ->]; [apply Z.mod_pos_bound; lia|constructor]. }
  rewrite (bind_eq _ _ _ _ _ Er).
  destruct Hr as (Hl & Hu & evs & T & M); [apply Z.mod_pos_bound; lia|]. rewrite F in M.
  erewrite bind_eq by (unfold tcp_value; erewrite bind_eq by reflexivity; rewrite Hu, (at_tcp _ _ _ _ _ Ha); reflexivity).
  destruct (at_driven _ _ _ _ _ Ha) as (evs0 & _ & D). unfold lift.
  destruct (TCPConnection.write c data) as [[n c1]|e] eqn:Ew.
  2: { erewrite bind_throw by reflexivity. eapply (se_connection _ _ _ _ (ConnectionSpec.Write data)); [exact D|done|].
       simpl. by rewrite Ew. }
  erewrite bind_eq by reflexivity. pose proof (tcp_write_all _ _ _ _ Ew Hl) as ->.
  erewrite bind_eq by reflexivity. rewrite Z.eqb_refl. cbn [negb]. set (w2 := set_user w1 _).
  destruct (touched_live _ _ _ _ _ _ _ T E) as (x1 & E1 & _).
  pose proof (touched_trans _ _ _ _ _ _ _ _ _ _ T (touched_user _ w1 x1 (user w2) E1)) as T2.
  rewrite app_nil_r in T2; simpl in T2.
  assert (at_ rules [] c1 a w2) as Ha2.
  { eapply at_move; [exact Ha|exact T2|done|simpl; rewrite Hu; apply (at_adapter _ _ _ _ _ Ha)|].
    intros evs1 D1. destruct (moves_taken _ _ _ _ M nt) as [M1 M2]. rewrite Z.eqb_refl in M1, M2.
    eapply (driven_step _ _ _ _ (ConnectionSpec.Write data)); [exact D1|simpl; by rewrite Ew|done| |done|].
    - rewrite M2. simpl. rewrite app_nil_r. symmetry. apply take_ge. unfold zlen. lia.
    - by eapply moves_idle. }
  destruct (at_thread _ _ _ _ _ Ha2) as (y & Ey & _). erewrite bind_eq by (apply eof_eq; exact Ey).
  destruct (FDWrapper._eof _). 2: { split; [by exists c1, a|by exists evs]. }
  pose proof (take_cancel_at rules c1 a w2 Ha2) as Hc. unfold take_cancel in Hc.
  destruct ((on_tcp _ ;; set_outbound_shutdown) w2) as [[[] w3]|e] eqn:E3.
  - destruct Hc as (c3 & v & -> & Ha3). rewrite bind_assoc, (bind_eq _ _ _ _ _ E3).
    pose proof (debug_destination_at rules [] c3 a _ Ha3) as Hd.
    destruct (debug_destination _) as [[[] w4]|e]; [|done]. subst w4. split; [by exists c3, a|].
    exists (evs ++ []). by eapply (touched_trans _ 1 0 0 0); [exact T2|eapply touched_user].
  - by rewrite bind_assoc, (bind_throw _ _ _ _ E3).
Qed.

Lemma at_inbound_wf rules pend c a w : at_ rules pend c a w -> ByteStream.wf (TCPConnection.inbound_stream c).
Proof. by intros [_ _ _ _ _ (evs & _ & ops & rs & aops & ars & _ & _ & Hw & _)]. Qed.

(** The first part of rule 3: some of the inbound stream goes into the pipe. *)
Lemma give_some_at rules c a w :
  at_ rules [] c a w ->
  let s := TCPConnection.inbound_stream c in
  exists data, ByteStream.peek_output s (Z.min max_write (ByteStream.buffer_size s)) = Ret data /\
  match FileDescriptor.write (_thread_data h) (BufferViewList.of_string data) false w with
  | Ret (n, w1) =>
      user w1 = user w /\ exists s' evs, ByteStream.pop_output s n = Ret s' /\
        touched (_thread_data h) 0 1 w w1 evs /\
        forall evs0, driven [] c a evs0 -> driven [] (set_inbound c s') a (evs0 ++ evs)
  | Throw e => socket_exn e
  end.
Proof.
  intros Ha s. pose proof (at_inbound_wf _ _ _ _ _ Ha : ByteStream.wf s) as Hw.
  destruct (at_thread _ _ _ _ _ Ha) as (x & E & F & _).
  rewrite ByteStream.buffer_size_bytes by done. set (m := Z.min _ _).
  assert (0 <= m <= zlen (ByteStream.bytes s) /\ m < 2 ^ 64) as Hm.
  { subst m. unfold max_write. zlen_pose. lia. }
  exists (take (Z.to_nat m) (ByteStream.bytes s)). split; [apply ByteStream.bs_peek_output_spec; [done|split; lia]|].
  set (data := take _ _). assert (zlen data = m) as Hd by (subst data; rewrite zlen_take; lia).
  pose proof (write_touches w (_thread_data h) x (BufferViewList.of_string data) false E) as Hwr.
  change (concat (BufferViewList.of_string data)) with (data ++ []) in Hwr. rewrite app_nil_r in Hwr.
  specialize (Hwr ltac:(lia)). destruct (FileDescriptor.write _ _ _ w) as [[n w1]|e].
  2: { destruct Hwr as [code ->]. constructor. }
  destruct Hwr as (Hn1 & _ & _ & Hu & evs & rounds & _ & Hr & T & M). rewrite (Hr eq_refl) in T. rewrite F in M.
  split; [done|]. destruct (ByteStream.pop_is_read s n Hw ltac:(lia)) as (s' & Ep & Ed).
  exists s', evs. split; [done|]. split; [done|]. intros evs0 D.
  destruct (moves_taken _ _ _ _ M nt) as [M1 M2]. rewrite Z.eqb_refl in M1, M2.
  eapply (driven_step _ _ _ _ (ConnectionSpec.Read n) _
    (ConnectionSpec.Seen [] [] (take (Z.to_nat n) (ByteStream.bytes s)))); [exact D| |simpl; lia|exact M2| |by eapply moves_idle].
  - simpl. fold s. rewrite ByteStream.buffer_size_bytes, Z.min_l, Ed by (done || lia). reflexivity.
  - rewrite M1. simpl. subst data. rewrite take_take. f_equal. lia.
Qed.

(** Rule 3. *)
Lemma give_to_owner_at rules c a w :
  at_ rules [] c a w ->
  match give_to_owner h w with
  | Ret (_, w') => inv rules w' /\ exists evs nw, (1 <= nw <= 2)%nat /\ touched (_thread_data h) 0 nw w w' evs
  | Throw e => socket_exn e
  end.
Proof.
  intros Ha. unfold give_to_owner. erewrite bind_eq by (eapply tcp_value_eq; exact Ha).
  destruct (give_some_at rules c a w Ha) as (data & Ed & Hd). cbv zeta in *.
  erewrite bind_eq by (unfold lift; rewrite Ed; reflexivity).
  destruct (FileDescriptor.write _ _ _ w) as [[n w1]|e] eqn:Ew; [|by rewrite (bind_throw _ _ _ _ Ew)].
  rewrite (bind_eq _ _ _ _ _ Ew). destruct Hd as (Hu & s' & evs & Ep & T & Hdr).
  erewrite bind_eq by (unfold tcp_value; erewrite bind_eq by reflexivity; rewrite Hu, (at_tcp _ _ _ _ _ Ha); reflexivity).
  erewrite bind_eq by (unfold lift; rewrite Ep; reflexivity).
  erewrite bind_eq by reflexivity. set (w2 := set_user w1 _).
  destruct (at_thread _ _ _ _ _ Ha) as (x & E & _).
  destruct (touched_live _ _ _ _ _ _ _ T E) as (x1 & E1 & _).
  pose proof (touched_trans _ _ _ _ _ _ _ _ _ _ T (touched_user _ w1 x1 (user w2) E1)) as T2.
  rewrite app_nil_r in T2; simpl in T2.
  assert (at_ rules [] (set_inbound c s') a w2) as Ha2.
  { eapply at_move; [exact Ha|exact T2|done|simpl; rewrite Hu; apply (at_adapter _ _ _ _ _ Ha)|exact Hdr]. }
  destruct (_ || _). 2: { split; [by exists (set_inbound c s'), a|]. exists evs, 1%nat. split; [lia|done]. }
  pose proof (shutdown_write_touches w2 (_thread_data h) x1 E1) as Hs.
  destruct (Socket.shutdown _ _ w2) as [[[] w3]|e] eqn:Es.
  2: { rewrite (bind_throw _ _ _ _ Es). destruct Hs as [code ->]. constructor. }
  rewrite (bind_eq _ _ _ _ _ Es). destruct Hs as (Hu3 & evs3 & T3 & S3).
  assert (at_ rules [] (set_inbound c s') a w3) as Ha3.
  { eapply at_move; [exact Ha2|exact T3| | |].
    - rewrite Hu3. apply (at_tcp _ _ _ _ _ Ha2).
    - rewrite Hu3. apply (at_adapter _ _ _ _ _ Ha2).
    - intros evs0. apply driven_quiet. split; apply S3. }
  erewrite bind_eq by reflexivity. set (w4 := set_user w3 _).
  assert (at_ rules [] (set_inbound c s') a w4) as Ha4 by by apply (set_flag_at rules [] _ a _ _ Ha3).
  pose proof (debug_destination_at _ _ _ _ _ Ha4) as Hd. destruct (debug_destination w4) as [[[] w5]|e]; [|done].
  subst w5. split; [by eexists _, a|]. destruct (touched_live _ _ _ _ _ _ _ T3 E1) as (x3 & E3 & _).
  exists (evs ++ evs3 ++ []), (0 + 1 + 1)%nat. split; [lia|].
  eapply (touched_trans _ 0 1 0 (0 + 1)); [exact T2|]. eapply (touched_trans _ 0 1 0 0); [exact T3|].
  by eapply touched_user.
Qed.

(** In the middle of rule 4: of the queue of [c], [rest] is still to be written. *)
Record sending rules (c : TCPConnection.t) (a : A) (rest : list TCPSegment.t) (a1 : A) w : Prop := {
  sd_rules : forall r, r ∈ rules -> r ∈ all_rules;
  sd_thread : live rules w (_thread_data h) nt;
  sd_device : live rules w (device h) nd;
  sd_tcp : _tcp (user w) = Some (TCPConnection.set_segments_out c rest);
  sd_adapter : _datagram_adapter (user w) = a1;
  sd_driven : exists evs evs1 sofar ars, trace w = t0 ++ evs ++ evs1 /\ driven [] c a evs /\
    (idle nt evs1 /\ reads nd evs1 = [] /\ (small (outputs ars) -> sent nd evs1 = output_bytes (outputs ars))) /\
    run adapter_step a (AWrite <$> sofar) = Ret (a1, ars) /\ TCPConnection.segments_out c = sofar ++ rest
}.

(** One segment is written. *)
Lemma adapter_write_sending rules c a seg rest a1 w :
  sending rules c a (seg :: rest) a1 w ->
  match adapter_write h seg w with
  | Ret (_, w') => exists a2, sending rules c a rest a2
      (set_user w' (mk (_datagram_adapter (user w')) (Some (TCPConnection.set_segments_out c rest))
        (_inbound_shutdown (user w')) (_outbound_shutdown (user w')) (_fully_acked (user w'))))
      /\ _tcp (user w') = Some (TCPConnection.set_segments_out c (seg :: rest))
  | Throw e => socket_exn e
  end.
Proof.
  intros [Hr Ht Hd Ec Ea (evs & evs1 & sofar & ars & Et & D & Q & R & Eq)].
  assert (calls c ((AWrite <$> sofar) ++ [AWrite seg])) as Hcalls.
  { right. exists (sofar ++ [seg]). rewrite fmap_app. split; [|done]. rewrite Eq. apply prefix_app, prefix_cons, prefix_nil. }
  unfold adapter_write. erewrite bind_eq by reflexivity. rewrite Ea. unfold lift.
  destruct (FdAdapter.adapter_write a1 seg) as [[[a2 seg'] outs]|e] eqn:Ew.
  2: { erewrite bind_throw by reflexivity. eapply (se_adapter c a evs _ a1 ars (AWrite seg)); [done|exact Hcalls|done|].
       simpl. by rewrite Ew. }
  assert (adapter_step a1 (AWrite seg) = Ret (a2, (None, outs))) as Es by (simpl; by rewrite Ew).
  pose proof (run_snoc _ _ _ _ _ _ _ _ R Es) as R2.
  erewrite bind_eq by reflexivity. cbv beta iota.
  erewrite bind_eq by reflexivity. set (w1 := set_user w _).
  destruct Hd as (x & E & F & Ho). pose proof (write_outputs_spec outs w1 x E F) as Hw.
  destruct (write_outputs (device h) outs w1) as [[[] w2]|e].
  2: { destruct Hw as [[code ->]|(Hb & o & Hin & Hl)]; [constructor|].
       eapply (se_large c a evs); [exact D|exact Hcalls|exact R2| |exact Hl|exact Hb].
       rewrite outputs_app, outputs_one. apply elem_of_app. by right. }
  destruct Hw as (Hu & evs2 & nw & T & Q2 & Q3 & Q4). rewrite Hu. simpl. exists a2. split; [|by rewrite Ec].
  assert (touched (device h) 0 nw w w2 evs2) as T'.
  { pose proof (touched_trans _ _ _ _ _ _ _ _ _ _ (touched_user (device h) w x (user w1) E) T) as T1.
    simpl in T1. by rewrite Nat.add_0_r in T1. }
  assert (forall p n v, live rules w p n -> live rules (set_user w2 v) p n) as Hlive.
  { intros p n v Hl. pose proof (live_touched _ _ _ _ _ _ _ _ _ T' Hl) as (y & Hy). by exists y. }
  split; simpl; try done; try (by apply Hlive).
  - apply Hlive. by exists x.
  - exists evs, (evs1 ++ evs2), (sofar ++ [seg]), (ars ++ [(None, outs)]).
    split_and!; [by rewrite (tc_trace _ _ _ _ _ _ T'), Et, <- !app_assoc|done| | | | |].
    + apply idle_app; [apply Q|done].
    + by rewrite reads_app, (proj1 (proj2 Q)), Q3.
    + rewrite outputs_app, outputs_one, sent_app, output_bytes_app. intros [S1 S2]%Forall_app.
      by rewrite (proj2 (proj2 Q) S1), (Q4 S2).
    + rewrite fmap_app. exact R2.
    + by rewrite <- app_assoc.
Qed.

Lemma send_loop_sending rules c a rest a1 w :
  sending rules c a rest a1 w ->
  match send_loop h (length rest) w with
  | Ret (_, w') => exists a2, at_ rules [] (TCPConnection.set_segments_out c []) a2 w'
  | Throw e => socket_exn e
  end.
Proof.
  revert a1 w. induction rest as [|seg rest IH]; intros a1 w Hs.
  - cbn [length send_loop].
    erewrite bind_eq by (unfold tcp_value; erewrite bind_eq by reflexivity; rewrite (sd_tcp _ _ _ _ _ _ Hs); reflexivity).
    destruct Hs as [Hr Ht Hd Ec Ea (evs & evs1 & sofar & ars & Et & D & Q & R & Eq)].
    exists a1. split; try done. exists (evs ++ evs1). split; [done|].
    rewrite app_nil_r in Eq. destruct Q as (Q1 & Q2 & Q3).
    eapply driven_drain; [exact D|rewrite Eq; exact R|done|done|done].
  - cbn [length send_loop].
    erewrite bind_eq by (unfold tcp_value; erewrite bind_eq by reflexivity; rewrite (sd_tcp _ _ _ _ _ _ Hs); reflexivity).
    cbn [TCPConnection.segments_out TCPConnection.set_segments_out TCPConnection._segments_out].
    pose proof (adapter_write_sending _ _ _ _ _ _ _ Hs) as Hw.
    destruct (adapter_write h seg w) as [[[] w1]|e] eqn:Ew; [|by rewrite (bind_throw _ _ _ _ Ew)].
    rewrite (bind_eq _ _ _ _ _ Ew). destruct Hw as (a2 & Hs2 & Ec).
    erewrite bind_eq by (unfold tcp_value; erewrite bind_eq by reflexivity; rewrite Ec; reflexivity).
    erewrite bind_eq by reflexivity. apply (IH a2). exact Hs2.
Qed.

(** Rule 4: the whole queue goes to the adapter. *)
Lemma send_at rules c a w :
  at_ rules [] c a w ->
  match send h w with
  | Ret (_, w') => inv rules w' /\ send_interest w' = Ret (false, w')
  | Throw e => socket_exn e
  end.
Proof.
  intros Ha. unfold send. erewrite bind_eq by (eapply tcp_value_eq; exact Ha).
  pose proof (send_loop_sending rules c a (TCPConnection.segments_out c) a w) as Hs.
  assert (sending rules c a (TCPConnection.segments_out c) a w) as Hsd.
  { destruct Ha as [Hr Ht Hd Ec Ea (evs & Et & D)]. split; try done.
    - rewrite Ec. by destruct c.
    - exists evs, [], [], []. rewrite app_nil_r. split_and!; done. }
  specialize (Hs Hsd). destruct (send_loop h _ w) as [[[] w']|e]; [|done].
  destruct Hs as (a2 & Ha2). split; [by eexists _, a2|].
  unfold send_interest. erewrite bind_eq by (eapply tcp_value_eq; exact Ha2). reflexivity.
Qed.

(** ** The contract of the event loop *)

Lemma socket_rules_cases r :
  r ∈ all_rules -> r = rule1 h \/ r = rule2 h \/ r = rule3 h \/ r = rule4 h.
Proof. unfold all_rules. rewrite !elem_of_cons, elem_of_nil. tauto. Qed.

Lemma socket_rule_live rules r w : inv rules w -> r ∈ rules -> exists n, live rules w (EventLoop.fd r) n.
Proof.
  intros (c & a & Ha) Hr. pose proof (at_thread _ _ _ _ _ Ha). pose proof (at_device _ _ _ _ _ Ha).
  destruct (socket_rules_cases r (at_rules _ _ _ _ _ Ha r Hr)) as [->|[->|[->| ->]]]; eexists; eassumption.
Qed.

Lemma interest_inv rules r :
  r ∈ all_rules -> spec (inv rules) (EventLoop.interest r) (fun _ w => inv rules w) socket_exn.
Proof.
  intros Hr w Hi. destruct Hi as (c & a & Ha).
  destruct (socket_rules_cases r Hr) as [->|[->|[->| ->]]]; simpl;
    unfold receive_interest, take_interest, give_interest, send_interest;
    (erewrite bind_eq by (eapply tcp_value_eq; exact Ha)); try (by exists c, a);
    (erewrite bind_eq by reflexivity); by exists c, a.
Qed.

Lemma cancel_inv rules r :
  r ∈ all_rules -> spec (inv rules) (EventLoop.cancel r) (fun _ w => inv rules w) socket_exn.
Proof.
  intros Hr w (c & a & Ha). destruct (socket_rules_cases r Hr) as [->|[->|[->| ->]]]; try (by exists c, a).
  simpl. pose proof (take_cancel_at rules c a w Ha) as Hc. destruct (take_cancel w) as [[[] w']|e]; [|done].
  destruct Hc as (c' & v & _ & Ha'). by exists c', a.
Qed.

Lemma socket_drop_inv pre r post :
  spec (inv (pre ++ r :: post)) (EventLoop.drop_rule r) (fun _ w => inv (pre ++ post) w) socket_exn.
Proof.
  intros w0 Hi0. assert (r ∈ all_rules) as Hr.
  { destruct Hi0 as (c & a & Ha). apply (at_rules _ _ _ _ _ Ha), in_middle. }
  revert w0 Hi0. unfold EventLoop.drop_rule. eapply spec_bind; [by apply cancel_inv|]. intros [] w Hi.
  destruct (socket_rule_live _ r w Hi (in_middle _ _ _)) as (n & Hl).
  destruct (release_rule _ _ _ _ _ Hl) as (x & E & ->). destruct Hi as (c & a & [Hru Ht Hd Ec Ea Hdr]).
  exists c, a. split; try done; try (by apply live_release).
  intros r' Hr'. apply Hru. rewrite elem_of_app, elem_of_cons. apply elem_of_app in Hr'. tauto.
Qed.

(** Calls that move no data do not matter. *)
Lemma socket_silent rules w k evs :
  silent evs -> inv rules w -> inv rules (World k (trace w ++ evs) (heap w) (next_pointer w) (user w)).
Proof.
  intros Hs (c & a & [Hr Ht Hd Ec Ea (evs0 & Et & D)]). exists c, a. split; try done. simpl.
  exists (evs0 ++ evs). rewrite Et, app_assoc. split; [done|]. apply driven_quiet, D. split; apply Hs.
Qed.

Lemma socket_client : Loop.client inv socket_exn.
Proof.
  split.
  - intros rules w k fds timeout answer. apply socket_silent, Loop.poll_silent.
  - intros rules r w Hi Hr. destruct (socket_rule_live _ _ _ Hi Hr) as (n & x & E & _). eauto.
  - intros rules r Hr w Hi. pose proof Hi as (c & a & Ha).
    by apply interest_inv, Hi; apply (at_rules _ _ _ _ _ Ha).
  - intros rules r w Hr (c & a & Ha).
    destruct (socket_rules_cases r (at_rules _ _ _ _ _ Ha r Hr)) as [->|[->|[->| ->]]]; simpl.
    + pose proof (receive_at rules c a w Ha) as Hc. destruct (receive h w) as [[[] w']|e]; [|done].
      destruct Hc as (Hi & evs & nw & T). split; [done|].
      left. apply (touched_progress (rule1 h) 1 nw w w' evs); simpl; [done|lia].
    + pose proof (take_from_owner_at rules c a w Ha) as Hc. destruct (take_from_owner h w) as [[[] w']|e]; [|done].
      destruct Hc as (Hi & evs & T). split; [done|].
      left. apply (touched_progress (rule2 h) 1 0 w w' evs); simpl; [done|lia].
    + pose proof (give_to_owner_at rules c a w Ha) as Hc. destruct (give_to_owner h w) as [[[] w']|e]; [|done].
      destruct Hc as (Hi & evs & nw & Hnw & T). split; [done|].
      left. apply (touched_progress (rule3 h) 0 nw w w' evs); simpl; [done|lia].
    + pose proof (send_at rules c a w Ha) as Hc. destruct (send h w) as [[[] w']|e]; [|done].
      destruct Hc as (Hi & E). split; [done|]. left. right. by eexists.
  - apply socket_drop_inv.
Qed.

(** ** The loop of the thread *)

Lemma silent_call_inv {B} rules (r : request B) :
  (forall answer, silent [Event B r answer]) ->
  spec (inv rules) (SystemCall r) (fun _ w => inv rules w) socket_exn.
Proof.
  intros Hs w Hi. destruct (SystemCall_cases r w) as [[code ->]|(k & b & ->)]; [constructor|].
  by apply socket_silent.
Qed.

Lemma on_tcp_inv rules f o :
  (forall c, ConnectionSpec.step c o = (c' ← f c; Ret (c', ConnectionSpec.nothing))) ->
  match o with ConnectionSpec.EndInput | ConnectionSpec.Connect | ConnectionSpec.Tick _ => True | _ => False end ->
  spec (inv rules) (on_tcp f) (fun _ w => inv rules w) socket_exn.
Proof.
  intros Hs Ho w (c & a & Ha). pose proof (on_tcp_at rules c a w f o Ha Hs Ho) as Hf.
  destruct (on_tcp f w) as [[[] w']|e]; [|done]. destruct Hf as (c' & v & _ & Ha'). by exists c', a.
Qed.

Lemma adapter_tick_inv rules ms :
  spec (inv rules) (adapter_tick h ms) (fun _ w => inv rules w) socket_exn.
Proof.
  intros w (c & a & Ha). unfold adapter_tick. erewrite bind_eq by reflexivity.
  rewrite (at_adapter _ _ _ _ _ Ha). destruct (at_driven _ _ _ _ _ Ha) as (evs & _ & D).
  unfold lift. destruct (FdAdapter.adapter_tick a ms) as [[a' outs]|e] eqn:Es.
  2: { erewrite bind_throw by reflexivity.
       eapply (se_adapter c a evs [] a [] (ATick ms)); [exact D|by apply calls_one|done|]. simpl. by rewrite Es. }
  erewrite bind_eq by reflexivity. destruct (at_device _ _ _ _ _ Ha) as (x & E & _).
  pose proof (adapter_out rules c a w w a' (ATick ms) None outs 0 [] Ha Logic.I) as Ho.
  specialize (Ho ltac:(simpl; by rewrite Es) (touched_refl _ _ _ E) eq_refl (moves_silent _ _ silent_nil)).
  match type of Ho with match ?m w with _ => _ end => change (match m w with Ret (_, w') => inv rules w' | Throw e => socket_exn e end);
    destruct (m w) as [[[] w']|e] end; [|done]. destruct Ho as [Ha' _]. by exists c, a'.
Qed.

Lemma tcp_value_inv rules : spec (inv rules) tcp_value (fun _ w => inv rules w) socket_exn.
Proof. intros w (c & a & Ha). rewrite (tcp_value_eq _ _ _ _ _ Ha). by exists c, a. Qed.

Lemma tcp_rounds_inv fuel condition rules base_time :
  (forall rules, spec (inv rules) condition (fun _ w => inv rules w) socket_exn) ->
  spec (inv rules) (tcp_rounds h fuel condition rules base_time) (fun '(rules', _) w => inv rules' w) socket_exn.
Proof.
  intros Hc. revert rules base_time. induction fuel as [|fuel IH]; intros rules base_time; simpl.
  { by apply spec_ret. }
  eapply spec_bind; [apply Hc|]. intros go; simpl. apply spec_if; intros _; [by apply spec_ret|].
  eapply spec_bind.
  { eapply spec_weaken; [apply (Loop.wait_next_event_spec _ _ socket_client)|done|intros r w Hw; exact Hw|].
    intros e [He|He]; [done|by apply se_poll]. }
  intros [rules' ret].
  eapply (spec_weaken (inv rules') _ _ (fun '(rules'', _) w => inv rules'' w));
    [|by intros w [? ?]|by intros []|done].
  eapply (spec_bind _ _ _ (fun _ w => inv rules' w)).
  { apply spec_if; intros _; [by apply spec_ret|]. apply silent_call_inv. by intros answer fd. }
  intros stop. apply spec_if; intros _; [by apply spec_ret|].
  eapply spec_bind; [apply tcp_value_inv|]. intros c. apply spec_if; intros _; [|apply IH].
  eapply spec_bind; [apply silent_call_inv; by intros answer fd|]. intros next_time.
  eapply spec_bind; [by apply (on_tcp_inv _ _ (ConnectionSpec.Tick (uint64 (next_time - base_time))))|]. intros [].
  eapply spec_bind; [apply adapter_tick_inv|]. intros []. apply IH.
Qed.

Lemma tcp_loop_inv fuel condition rules :
  (forall rules, spec (inv rules) condition (fun _ w => inv rules w) socket_exn) ->
  spec (inv rules) (_tcp_loop h fuel condition rules) (fun '(rules', _) w => inv rules' w) socket_exn.
Proof.
  intros Hc. unfold _tcp_loop. eapply spec_bind; [apply silent_call_inv; by intros answer fd|].
  intros base_time. by apply tcp_rounds_inv.
Qed.

Lemma in_state_inv rules st : spec (inv rules) (in_state st) (fun _ w => inv rules w) socket_exn.
Proof. eapply spec_bind; [apply tcp_value_inv|]. intros c. by apply spec_ret. Qed.

Lemma debug_destination_inv rules : spec (inv rules) debug_destination (fun _ w => inv rules w) socket_exn.
Proof.
  intros w Hi. pose proof Hi as (c & a & Ha). pose proof (debug_destination_at rules [] c a w Ha) as Hd.
  destruct (debug_destination w) as [[[] w']|e]; [|done]. by subst w'.
Qed.

End Driving.

(** ** Opening a socket *)

Section Opening.
Context {K A : Type} `{KernelLaws K} `{NetDb} `{Adapter A string BufferList.t}.
Abbreviation W := (world K (vars A)).
Context (h : handles) (nt nd : Z) (cfg : TCPConfig.t).
Context (Hn : nt <> nd) (Hcfg : is_u64 (TCPConfig.recv_capacity cfg)).
Implicit Types (w : W).

Lemma initialize_spec w :
  live [] w (_thread_data h) nt -> live [] w (device h) nd ->
  match _initialize_TCP h cfg w with
  | Ret (rules, w') =>
      exists random evs, rules = all_rules h /\ live rules w' (_thread_data h) nt /\ live rules w' (device h) nd /\
        user w' = mk (_datagram_adapter (user w)) (Some (TCPConnection.new cfg random)) (_inbound_shutdown (user w))
                    (_outbound_shutdown (user w)) (_fully_acked (user w)) /\
        trace w' = trace w ++ evs /\ silent evs
  | Throw e => is_unix_error e
  end.
Proof.
  intros Lt Ld. unfold _initialize_TCP.
  destruct (SystemCall_cases Random w) as [[code E]|(k & random & E)].
  { rewrite (bind_throw _ _ _ _ E). by exists code. }
  rewrite (bind_eq _ _ _ _ _ E). erewrite bind_eq by reflexivity. set (w0 := set_user _ _).
  assert (live [] w0 (_thread_data h) nt) as Lt0 by done. assert (live [] w0 (device h) nd) as Ld0 by done.
  destruct (add_rule_eq [] (rule1 h) w0 nd Ld0) as (w1 & E1 & T1 & U1 & _ & L1).
  erewrite bind_eq by exact E1.
  destruct (add_rule_eq ([] ++ [rule1 h]) (rule2 h) w1 nt (L1 _ _ Lt0)) as (w2 & E2 & T2 & U2 & _ & L2).
  erewrite bind_eq by exact E2.
  destruct (add_rule_eq (([] ++ [rule1 h]) ++ [rule2 h]) (rule3 h) w2 nt (L2 _ _ (L1 _ _ Lt0)))
    as (w3 & E3 & T3 & U3 & _ & L3).
  erewrite bind_eq by exact E3.
  destruct (add_rule_eq ((([] ++ [rule1 h]) ++ [rule2 h]) ++ [rule3 h]) (rule4 h) w3 nd
    (L3 _ _ (L2 _ _ (L1 _ _ Ld0)))) as (w4 & E4 & T4 & U4 & _ & L4).
  unfold add_rule at 1. rewrite E4.
  eexists random, _. split; [done|]. split; [by apply L4, L3, L2, L1|]. split; [by apply L4, L3, L2, L1|].
  rewrite U4, U3, U2, U1, T4, T3, T2, T1. split; [done|]. split; [done|]. by intros fd.
Qed.

(** With a fresh connection and its adapter configured, the invariant holds. *)
Lemma opened_inv t0 a0 random rules w evs :
  rules = all_rules h -> live rules w (_thread_data h) nt -> live rules w (device h) nd ->
  _tcp (user w) = Some (TCPConnection.new cfg random) -> _datagram_adapter (user w) = a0 ->
  trace w = t0 ++ evs -> silent evs ->
  at_ h nt nd t0 a0 cfg random rules [] (TCPConnection.new cfg random) a0 w.
Proof.
  intros -> Lt Ld Ec Ea Et Hs. split; try done. exists evs. split; [done|].
  exists [], [], [], []. unfold taken. destruct (Hs nt) as [-> ->], (Hs nd) as [-> ->]. split_and!; try done. by apply ByteStream.new_wf.
Qed.

(** The fresh connection's first call puts it in the state [connect] expects. *)
Lemma connect_syn_sent random :
  exists c, TCPConnection.connect (TCPConnection.new cfg random) = Ret c
    /\ TCPState.eqb (TCPState.state c) (TCPState.of_State TCPState.SYN_SENT) = true.
Proof. eexists. split; reflexivity. Qed.

(** What a program of the socket leaves: the invariant for some initial number. *)
Definition opened (t0 : list event) (a0 : A) (r : outcome (list (EventLoop.Rule K (vars A)) * bool * W)) : Prop :=
  match r with
  | Ret ((rules, _), w') => exists random, inv h nt nd t0 a0 cfg random rules w'
  | Throw e => is_unix_error e \/ exists random, socket_exn nt nd a0 cfg random e
  end.

Lemma spec_opened t0 a0 random (P : W -> Prop) m w :
  spec P m (fun '(rules, _) w => inv h nt nd t0 a0 cfg random rules w) (socket_exn nt nd a0 cfg random) ->
  P w -> opened t0 a0 (m w).
Proof.
  intros Hm Hw. specialize (Hm w Hw). unfold opened.
  destruct (m w) as [[[rules b] w']|e]; [by exists random|right; by exists random].
Qed.

Lemma connect_opened fuel c_ad w :
  live [] w (_thread_data h) nt -> live [] w (device h) nd -> _tcp (user w) = None ->
  opened (trace w) (adapter_set_config (_datagram_adapter (user w)) c_ad) (connect h fuel cfg c_ad w).
Proof.
  intros Lt Ld Et. unfold connect. erewrite bind_eq by reflexivity. rewrite bool_decide_eq_true_2 by done. cbn [negb].
  pose proof (initialize_spec w Lt Ld) as Hi.
  destruct (_initialize_TCP h cfg w) as [[rules w1]|e] eqn:Ei; [|rewrite (bind_throw _ _ _ _ Ei); by left].
  rewrite (bind_eq _ _ _ _ _ Ei). destruct Hi as (random & evs & Er & Lt1 & Ld1 & Hu & Htr & Hs).
  erewrite bind_eq by reflexivity. erewrite bind_eq by reflexivity. rewrite Hu. simpl.
  set (a0 := adapter_set_config _ _). set (w2 := set_user w1 _).
  assert (at_ h nt nd (trace w) a0 cfg random rules [] (TCPConnection.new cfg random) a0 w2) as Ha2.
  { eapply opened_inv; try done. }
  pose proof (debug_destination_at h nt nd (trace w) a0 cfg random rules [] _ a0 w2 Ha2) as Hd.
  destruct (debug_destination w2) as [[[] w3]|e] eqn:Ed; [|rewrite (bind_throw _ _ _ _ Ed); right; by exists random].
  rewrite (bind_eq _ _ _ _ _ Ed). subst w3. destruct (connect_syn_sent random) as (c & Ec & Es).
  erewrite bind_eq.
  2: { unfold on_tcp. erewrite bind_eq by (eapply tcp_value_eq; exact Ha2). unfold lift. rewrite Ec. reflexivity. }
  set (w4 := set_user w2 _).
  assert (at_ h nt nd (trace w) a0 cfg random rules [] c a0 w4) as Ha4.
  { eapply at_user; [exact Ha2|done|done|]. intros evs0 D. rewrite <- (app_nil_r evs0).
    eapply driven_step with (o := ConnectionSpec.Connect); [exact D|cbn [ConnectionSpec.step]; by rewrite Ec|done..]. }
  erewrite bind_eq.
  2: { unfold in_state. erewrite bind_eq by (eapply tcp_value_eq; exact Ha4). reflexivity. }
  rewrite Es. cbn [negb]. apply (spec_opened _ _ random (inv h nt nd (trace w) a0 cfg random rules)).
  2: by exists c, a0.
  eapply spec_bind; [by apply tcp_loop_inv; [done|intros; by apply in_state_inv]|]. intros [rules' b].
  eapply spec_bind; [by apply debug_destination_inv|]. intros []. by apply spec_ret.
Qed.

Lemma listen_opened fuel c_ad w :
  live [] w (_thread_data h) nt -> live [] w (device h) nd -> _tcp (user w) = None ->
  opened (trace w) (adapter_set_listening (adapter_set_config (_datagram_adapter (user w)) c_ad) true)
    (listen_and_accept h fuel cfg c_ad w).
Proof.
  intros Lt Ld Et. unfold listen_and_accept. erewrite bind_eq by reflexivity.
  rewrite bool_decide_eq_true_2 by done. cbn [negb]. pose proof (initialize_spec w Lt Ld) as Hi.
  destruct (_initialize_TCP h cfg w) as [[rules w1]|e] eqn:Ei; [|rewrite (bind_throw _ _ _ _ Ei); by left].
  rewrite (bind_eq _ _ _ _ _ Ei). destruct Hi as (random & evs & Er & Lt1 & Ld1 & Hu & Htr & Hs).
  erewrite bind_eq by reflexivity. erewrite bind_eq by reflexivity. rewrite Hu. simpl.
  set (a0 := adapter_set_listening _ _). set (w2 := set_user w1 _).
  apply (spec_opened _ _ random (inv h nt nd (trace w) a0 cfg random rules)).
  2: { eexists _, a0. eapply opened_inv; try done. }
  eapply spec_bind.
  { apply tcp_loop_inv; [done|]. intros rules'. do 3 (eapply spec_bind; [by apply in_state_inv|intros ?]).
    by apply spec_ret. }
  intros [rules' b]. eapply spec_bind; [by apply debug_destination_inv|]. intros []. by apply spec_ret.
Qed.

(** Opening, then the loop of the thread. *)
Definition session (client : bool) (fuel fuel' : nat) (c_ad : FdAdapterConfig)
    : prog W (list (EventLoop.Rule K (vars A)) * bool) :=
  '(rules, _) ← (if client then connect h fuel cfg c_ad else listen_and_accept h fuel cfg c_ad);
  _tcp_loop h fuel' (mret true) rules.

(** The adapter as the opening configures it. *)
Definition configured (client : bool) (a : A) (c_ad : FdAdapterConfig) : A :=
  if client then adapter_set_config a c_ad else adapter_set_listening (adapter_set_config a c_ad) true.

Lemma session_opened client fuel fuel' c_ad w :
  live [] w (_thread_data h) nt -> live [] w (device h) nd -> _tcp (user w) = None ->
  opened (trace w) (configured client (_datagram_adapter (user w)) c_ad) (session client fuel fuel' c_ad w).
Proof.
  intros Lt Ld Et. set (a0 := configured _ _ _). unfold session.
  assert (opened (trace w) a0 ((if client then connect h fuel cfg c_ad else listen_and_accept h fuel cfg c_ad) w)) as Ho.
  { subst a0. destruct client; [by apply connect_opened|by apply listen_opened]. }
  match type of Ho with opened _ _ (?m w) => destruct (m w) as [[[rules b] w1]|e] eqn:Em end.
  2: { by rewrite (bind_throw _ _ _ _ Em). }
  rewrite (bind_eq _ _ _ _ _ Em). destruct Ho as (random & Hi).
  eapply spec_opened; [|exact Hi]. apply tcp_loop_inv; [done|]. intros rules'. by apply spec_ret.
Qed.

End Opening.
End Driving.

(** ** Leaving without a reset *)

(** Shutting a socket down passes nothing through any descriptor. *)
Lemma shutdown_both_silent {K C} `{Kernel K} (w : world K C) p c :
  heap w !! p = Some c ->
  match Socket.shutdown p SHUT_RDWR w with
  | Ret (_, w') => user w' = user w /\ exists evs, trace w' = trace w ++ evs /\ silent evs
  | Throw e => is_unix_error e
  end.
Proof.
  intros E. unfold Socket.shutdown. erewrite Descriptors.bind_eq by (apply Descriptors.fd_num_eq; exact E).
  destruct (Descriptors.SystemCall_cases (Shutdown (FDWrapper._fd (wrapper c)) SHUT_RDWR) w)
    as [[code Es]|(k & [] & Es)].
  { rewrite (Descriptors.bind_throw _ _ _ _ Es). by exists code. }
  rewrite (Descriptors.bind_eq _ _ _ _ _ Es).
  change (SHUT_RDWR =? SHUT_RD) with false. change (SHUT_RDWR =? SHUT_WR) with false.
  change (SHUT_RDWR =? SHUT_RDWR) with true. cbn match.
  erewrite Descriptors.bind_eq by (apply Descriptors.register_read_eq; exact E).
  erewrite Descriptors.register_write_eq by (simpl; apply lookup_insert_eq).
  simpl. split; [done|]. eexists. split; [done|]. by intros fd.
Qed.

(** When the thread leaves its loop with the connection still active, because the
    owner's destructor told it to stop, it passes nothing on any more: the RST
    that the connection's destructor queues is destroyed with the connection. *)
Theorem abort_without_reset {K A : Type} `{Kernel K} `{NetDb} `{Adapter A string BufferList.t}
    (h : TCPSpongeSocket.handles) (fuel : nat) (rules rules' : list (EventLoop.Rule K (TCPSpongeSocket.vars A)))
    (w w1 : world K (TCPSpongeSocket.vars A)) (c : TCPConnection.t) (x : cell) :
  TCPSpongeSocket._tcp (user w) <> None ->
  TCPSpongeSocket._tcp_loop h fuel (mret true) rules w = Ret ((rules', true), w1) ->
  TCPSpongeSocket._tcp (user w1) = Some c -> TCPConnection.active c = true ->
  heap w1 !! TCPSpongeSocket.self h = Some x ->
  (exists seg, last (TCPConnection.segments_out (TCPConnection.destroy c)) = Some seg
     /\ TCPHeader.rst (TCPSegment.header seg) = true) /\
  match TCPSpongeSocket._tcp_main h fuel rules w with
  | Ret (_, w') => TCPSpongeSocket._tcp (user w') = None /\ forall fd, sent fd (trace w') = sent fd (trace w1)
  | Throw e => is_unix_error e
  end.
Proof.
  intros Hn El Ec Ha Ex. split.
  { unfold TCPConnection.destroy. rewrite Ha. unfold TCPConnection._send_rst_to_peer.
    eexists. split; [apply last_snoc|]. done. }
  unfold TCPSpongeSocket._tcp_main. erewrite Descriptors.bind_eq by reflexivity.
  rewrite bool_decide_eq_false_2 by done. rewrite (Descriptors.bind_eq _ _ _ _ _ El). cbn [negb].
  pose proof (shutdown_both_silent w1 _ _ Ex) as Hs.
  destruct (Socket.shutdown _ _ w1) as [[[] w2]|e] eqn:Es; [|by rewrite (Descriptors.bind_throw _ _ _ _ Es)].
  rewrite (Descriptors.bind_eq _ _ _ _ _ Es). destruct Hs as (Hu & evs & Ht & Hsil).
  split; [done|]. intros fd. simpl. by rewrite Ht, sent_app, (proj1 (Hsil fd)), app_nil_r.
Qed.

(** ** Properties *)

(** C10: The socket joins the owner, the connection and the network, for an adapter
    that reads and writes a file descriptor (the TUN and the TAP adapter; the UDP
    adapter's calls are other system calls and are not covered). From [connect] or
    [listen_and_accept] on, whatever the operating system answers (within the
    documented bounds of read and writev) and for any number of rounds, the thread
    has done to its connection and to its adapter what some sequences of their calls
    do, such that the adapter was given each string read from the device, one call
    per read and in order; every segment the adapter returned was given to the
    connection, and every segment of the connection's queue to the adapter, once and
    in order; the bytes written to the device are those the adapter had for it, in
    order (if none of its packets is as large as the address space); the bytes read
    from the owner's pipe are those written to the connection, and those written to
    the pipe are those read from its inbound stream. An exception is never the
    loop's busy wait (for an adapter that does not throw that itself, as those of
    this library do not): it comes from a system call, from an error that [poll]
    reports on a descriptor, from the adapter or the connection at a call that the
    loop makes in such a state, from printing the adapter's destination, or from a
    packet that does not fit the address space. The pipe and the device are open and
    have different numbers, and the receiver's capacity fits 64 bits. *)
Theorem socket_drives_connection {K A : Type} `{KernelLaws K} `{NetDb} `{CalmAdapter A string BufferList.t}
    (h : TCPSpongeSocket.handles) (nt nd : Z) (cfg : TCPConfig.t) (c_ad : FdAdapterConfig)
    (client : bool) (fuel fuel' : nat) (w : world K (TCPSpongeSocket.vars A)) :
  is_u64 (TCPConfig.recv_capacity cfg) -> nt <> nd ->
  Owners.live [] w (TCPSpongeSocket._thread_data h) nt -> Owners.live [] w (TCPSpongeSocket.device h) nd ->
  TCPSpongeSocket._tcp (user w) = None ->
  let a0 := Driving.configured client (TCPSpongeSocket._datagram_adapter (user w)) c_ad in
  match Driving.session h cfg client fuel fuel' c_ad w with
  | Ret (_, w') => exists random c evs, TCPSpongeSocket._tcp (user w') = Some c /\ trace w' = trace w ++ evs /\
      Driving.driven nt nd a0 cfg random [] c (TCPSpongeSocket._datagram_adapter (user w')) evs
  | Throw e => e <> busy_wait /\ (is_unix_error e \/ exists random, Driving.socket_exn nt nd a0 cfg random e)
  end.
Proof.
  intros Hc Hn Lt Ld Et a0.
  pose proof (Driving.session_opened h nt nd cfg Hn Hc client fuel fuel' c_ad w Lt Ld Et) as Ho.
  fold a0 in Ho. destruct (Driving.session _ _ _ _ _ _ w) as [[[rules b] w']|e].
  2: { split; [|exact Ho]. destruct Ho as [[code ->]|(random & He)]; [done|by eapply Driving.socket_exn_calm]. }
  destruct Ho as (random & c & a & [_ _ _ Ec Ea (evs & Etr & D)]). exists random, c, evs.
  rewrite Ea. done.
Qed.

(** ** Concrete inputs *)

#[local] Existing Instance quad_db.
#[local] Existing Instance quad_db_laws.

(** A socket over a TUN device, descriptor 3, whose owner has written two bytes to
    the pipe, descriptors 5 and 6. *)
Definition socket_handles : TCPSpongeSocket.handles := TCPSpongeSocket.mk_handles 0 1 2.
Definition socket_world : world pipes (TCPSpongeSocket.vars FdAdapterBase.t) :=
  World (mk_pipes [(6, [Byte.x68; Byte.x69])] 0) []
    (<[0%nat := mk_cell (FDWrapper.mk 5 false false 0 0) 1]>
      (<[1%nat := mk_cell (FDWrapper.mk 6 false false 0 0) 1]>
        {[2%nat := mk_cell (FDWrapper.mk 3 false false 0 0) 1]})) 3
    (TCPSpongeSocket.mk adapter_a None false false false).

Lemma socket_world_thread : Owners.live [] socket_world (TCPSpongeSocket._thread_data socket_handles) 6.
Proof. by exists (mk_cell (FDWrapper.mk 6 false false 0 0) 1). Qed.
Lemma socket_world_device : Owners.live [] socket_world (TCPSpongeSocket.device socket_handles) 3.
Proof. by exists (mk_cell (FDWrapper.mk 3 false false 0 0) 1). Qed.

(** What a run took from the pipe, and how much it wrote to the device. *)
Definition session_result
    (o : outcome (list (EventLoop.Rule pipes (TCPSpongeSocket.vars FdAdapterBase.t)) * bool
                  * world pipes (TCPSpongeSocket.vars FdAdapterBase.t))) : option (string * Z) :=
  match o with
  | Ret (_, w) => Some (taken 6 (trace w), zlen (sent 3 (trace w)))
  | Throw _ => None
  end.

Lemma session_example :
  session_result (Driving.session socket_handles TCPConfig.default true 2 2 (FdAdapterBase.config adapter_a) socket_world)
  = Some ([Byte.x68; Byte.x69], 40).
Proof. vm_compute. reflexivity. Qed.

Lemma socket_drives_connection_witness :
  exists (w' : world pipes (TCPSpongeSocket.vars FdAdapterBase.t)) c random evs,
    session_result (Driving.session socket_handles TCPConfig.default true 2 2 (FdAdapterBase.config adapter_a) socket_world)
    = Some (taken 6 (trace w'), 40)
    /\ trace w' = evs /\ taken 6 evs = [Byte.x68; Byte.x69]
    /\ Driving.driven 6 3 adapter_a TCPConfig.default random [] c (TCPSpongeSocket._datagram_adapter (user w')) evs.
Proof.
  pose proof (socket_drives_connection socket_handles 6 3 TCPConfig.default (FdAdapterBase.config adapter_a) true 2 2
    socket_world ltac:(by split) ltac:(lia) socket_world_thread socket_world_device eq_refl) as Hs.
  pose proof session_example as He. rewrite He.
  destruct (Driving.session _ _ _ _ _ _ socket_world) as [[r w']|e]; [|discriminate].
  destruct Hs as (random & c & evs & _ & Ht & D). exists w', c, random, evs.
  cbn [session_result] in He. injection He as E1 E2. simpl in Ht. subst evs. rewrite E1.
  split; [reflexivity|]. split; [reflexivity|]. split; [reflexivity|]. exact D.
Defined.
