(* ===== verification/FullStackSocket.v ===== *)
(** * Devices and ready-made sockets (util/tun.hh/.cc, tcp_helpers/tcp_sponge_socket.cc)

    The TUN and TAP devices, and the two sockets that fix a device and a source
    address: [CS144TCPSocket] puts TCP in IP datagrams, [FullStackSocket] puts
    those in Ethernet frames as well. *)

From S2P Require Import Prelude WrappingIntegers SpongeBuffer ByteStream UtilBuffer Parser Codec TCPSegment.
From S2P Require Import EthernetFrame Address NetworkInterface FdAdapter TCPSender TCPConnection.
From S2P Require Import FileDescriptor Socket EventLoop TCPSpongeSocket.

(** ** TUN and TAP devices (util/tun.hh, util/tun.cc) *)

Module TunTapFD.
Section TunTapFD.
Context {K C : Type} `{Kernel K}.
Abbreviation W := (world K C).

Definition CLONEDEV : string := chars "/dev/net/tun".
Definition O_RDWR : Z := 2.
Definition IFF_TUN : Z := 1.
Definition IFF_TAP : Z := 2.
Definition IFF_NO_PI : Z := 4096.
Definition IFNAMSIZ : Z := 16.

(** The name of the interface as [strncpy] leaves it in [ifr_name]: cut at a null
    byte or at 15 bytes, and filled with null bytes. *)
Fixpoint c_str (s : string) : string :=
  match s with
  | [] => []
  | c :: s => if decide (c = Byte.x00) then [] else c :: c_str s
  end.
Definition ifr_name (devname : string) : string :=
  resize (take (Z.to_nat (IFNAMSIZ - 1)) (c_str devname)) IFNAMSIZ.

Definition new (devname : string) (is_tun : bool) : prog W FileDescriptor.t :=
  n ← SystemCall (Open CLONEDEV O_RDWR);
  p ← FileDescriptor.new n;
  let ifr_flags := Z.lor (if is_tun then IFF_TUN else IFF_TAP) IFF_NO_PI in
  fd ← FileDescriptor.fd_num p;
  SystemCall (Tunsetiff fd (ifr_name devname) ifr_flags) ;;
  mret p.

End TunTapFD.

Definition TunFD {K C} `{Kernel K} (devname : string) : prog (world K C) FileDescriptor.t := new devname true.
Definition TapFD {K C} `{Kernel K} (devname : string) : prog (world K C) FileDescriptor.t := new devname false.

End TunTapFD.

(** ** Ready-made sockets *)

(** An [FdAdapterConfig] as declared: no address and no losses. *)
Definition default_config `{NetDb} : outcome FdAdapterConfig :=
  source ← Address.of_ip (chars "0") 0;
  destination ← Address.of_ip (chars "0") 0;
  Ret (mk_config source destination 0 0).

(** A [TCPConfig] with [rt_timeout] assigned. *)
Definition quick_config : TCPConfig.t :=
  TCPConfig.mk 100 (TCPConfig.recv_capacity TCPConfig.default) (TCPConfig.send_capacity TCPConfig.default)
    (TCPConfig.fixed_isn TCPConfig.default).

(** The configuration of the adapter in both [connect]s: a random source port. *)
Definition multiplexer_config {K C} `{Kernel K} `{NetDb} (source_ip : string) (address : Address.t)
    : prog (world K C) FdAdapterConfig :=
  cfg ← lift default_config;
  r ← SystemCall Random;
  source ← lift (Address.of_host source_ip (std_to_string (uint16 r)));
  mret (mk_config source address (loss_rate_dn cfg) (loss_rate_up cfg)).

Module CS144TCPSocket.
Section CS144TCPSocket.
Context {K : Type} `{Kernel K} `{NetDb}.
Abbreviation W := (world K (TCPSpongeSocket.vars FdAdapterBase.t)).

Definition new : prog W TCPSpongeSocket.handles :=
  device ← TunTapFD.TunFD (chars "tun144");
  cfg ← lift default_config;
  TCPSpongeSocket.new (FdAdapterBase.mk cfg false) device.

Definition connect (h : TCPSpongeSocket.handles) (fuel : nat) (address : Address.t)
    : prog W (list (EventLoop.Rule K (TCPSpongeSocket.vars FdAdapterBase.t)) * bool) :=
  c_ad ← multiplexer_config (chars "169.254.144.9") address;
  TCPSpongeSocket.connect (I := string) (O := BufferList.t) h fuel quick_config c_ad.

End CS144TCPSocket.
End CS144TCPSocket.

Module FullStackSocket.

Definition LOCAL_TAP_IP_ADDRESS : string := chars "169.254.10.9".
Definition LOCAL_TAP_NEXT_HOP_ADDRESS : string := chars "169.254.10.1".

(** The first byte of an address as [random_private_ethernet_address] leaves it. *)
Definition private_byte (b : byte) : byte := byte_of_Z (Z.land (Z.lor (byte_to_Z b) 0x02) 0xfe).

Section FullStackSocket.
Context {K : Type} `{Kernel K} `{NetDb}.
Abbreviation A := TCPOverIPv4OverEthernetAdapter.t.
Abbreviation W := (world K (TCPSpongeSocket.vars A)).

Fixpoint random_bytes (n : nat) : prog W (list byte) :=
  match n with
  | 0%nat => mret []
  | S n => r ← SystemCall Random; rest ← random_bytes n; mret (byte_of_Z (uint8 r) :: rest)
  end.

Definition random_private_ethernet_address : prog W EthernetAddress :=
  addr ← random_bytes 6;
  match addr with
  | b :: rest => mret (private_byte b :: rest)
  | [] => throw out_of_range
  end.

(** The constructor; the adapter writes a frame to the device when it is made. *)
Definition new : prog W TCPSpongeSocket.handles :=
  device ← TunTapFD.TapFD (chars "tap10");
  eth_address ← random_private_ethernet_address;
  ip_address ← lift (Address.of_host LOCAL_TAP_IP_ADDRESS (chars "0"));
  next_hop ← lift (Address.of_host LOCAL_TAP_NEXT_HOP_ADDRESS (chars "0"));
  cfg ← lift default_config;
  '(adapter, outs) ← lift (TCPOverIPv4OverEthernetAdapter.new (FdAdapterBase.mk cfg false) eth_address ip_address next_hop);
  TCPSpongeSocket.write_outputs device outs ;;
  TCPSpongeSocket.new adapter device.

Definition connect (h : TCPSpongeSocket.handles) (fuel : nat) (address : Address.t)
    : prog W (list (EventLoop.Rule K (TCPSpongeSocket.vars A)) * bool) :=
  c_ad ← multiplexer_config LOCAL_TAP_IP_ADDRESS address;
  TCPSpongeSocket.connect (I := string) (O := BufferList.t) h fuel quick_config c_ad.

End FullStackSocket.
End FullStackSocket.
