(* ===== verification/NetworkSimulator.v ===== *)
(** * The network simulator (apps/network_simulator.cc)

    A router with seven interfaces, six hosts, and the wires between them: hosts
    send datagrams to each other through the router, and each checks that it
    received what it expects and nothing else.

    The random generator is the sequence [rd] of its values, the state of a
    program the number of values drawn.  What the program prints is left out. *)

From S2P Require Import Prelude UtilBuffer Parser Codec IPv4Datagram EthernetFrame Address NetworkInterface Router.

(** ** Random Ethernet addresses *)

Section Random.
Variable rd : nat -> Z.

(** [rd()] *)
Definition draw : prog nat Z := fun n => Ret (rd n, S n).

Fixpoint draw_bytes (n : nat) : prog nat (list byte) :=
  match n with
  | 0%nat => mret []
  | S n => r ← draw; rest ← draw_bytes n; mret (byte_of_Z (uint8 r) :: rest)
  end.

Definition random_host_ethernet_address : prog nat EthernetAddress :=
  addr ← draw_bytes 6;
  match addr with
  | b :: rest => mret (byte_of_Z (Z.land (Z.lor (byte_to_Z b) 0x02) 0xfe) :: rest)
  | _ => throw out_of_range
  end.

Definition random_router_ethernet_address : prog nat EthernetAddress :=
  addr ← draw_bytes 6;
  match addr with
  | _ :: _ :: _ :: rest => mret (Byte.x02 :: Byte.x00 :: Byte.x00 :: rest)
  | _ => throw out_of_range
  end.

End Random.

Definition ip `{NetDb} (str : string) : outcome Z := a ← Address.of_ip str 0; Address.ipv4_numeric a.

(** [clear(queue1, queue2)]: what is left of [queue2]. *)
Fixpoint clear {A} (queue1 queue2 : list A) : list A :=
  match queue1 with
  | [] => queue2
  | _ :: queue1 => clear queue1 (tail queue2)
  end.

(** The queue of frames of an interface, replaced. *)
Definition set_frames (i : AsyncNetworkInterface.t) (frames : list EthernetFrame.t) : AsyncNetworkInterface.t :=
  let n := AsyncNetworkInterface.base i in
  AsyncNetworkInterface.mk
    (NetworkInterface.mk (NetworkInterface._ethernet_address n) (NetworkInterface._ip_address n) frames
       (NetworkInterface._arp_ip_queue n) (NetworkInterface._ip_mac_map n)
       (NetworkInterface._ms_since_last_tick n) (NetworkInterface._expire_time n))
    (AsyncNetworkInterface._datagrams_out i).
Definition frames_out (i : AsyncNetworkInterface.t) : list EthernetFrame.t :=
  NetworkInterface.frames_out (AsyncNetworkInterface.base i).

(** ** Hosts *)

Module Host.

Record t := mk {
  _name : string;
  _my_address : Address.t;
  _interface : AsyncNetworkInterface.t;
  _next_hop : Address.t;
  _expecting_to_receive : list IPv4Datagram.t
}.

(** [serialize().concatenate()] *)
Definition wire (d : IPv4Datagram.t) : outcome string :=
  bl ← IPv4Datagram.serialize d; Ret (BufferList.concatenate bl).

Fixpoint expecting (expecting_to_receive : list IPv4Datagram.t) (expected : IPv4Datagram.t) : outcome bool :=
  match expecting_to_receive with
  | [] => Ret false
  | x :: expecting_to_receive =>
      a ← wire x; b ← wire expected;
      if decide (a = b) then Ret true else expecting expecting_to_receive expected
  end.

Fixpoint remove_expectation (expecting_to_receive : list IPv4Datagram.t) (expected : IPv4Datagram.t)
    : outcome (list IPv4Datagram.t) :=
  match expecting_to_receive with
  | [] => Ret []
  | x :: rest =>
      a ← wire x; b ← wire expected;
      if decide (a = b) then Ret rest else
      rest ← remove_expectation rest expected; Ret (x :: rest)
  end.

Definition set_interface (h : t) (i : AsyncNetworkInterface.t) : t :=
  mk (_name h) (_my_address h) i (_next_hop h) (_expecting_to_receive h).
Definition set_expecting (h : t) (l : list IPv4Datagram.t) : t :=
  mk (_name h) (_my_address h) (_interface h) (_next_hop h) l.

Definition address (h : t) : Address.t := _my_address h.
Definition interface (h : t) : AsyncNetworkInterface.t := _interface h.
Definition name (h : t) : string := _name h.
Definition expect (h : t) (expected : IPv4Datagram.t) : t := set_expecting h (_expecting_to_receive h ++ [expected]).

(** The loop of [check] over the queue of datagrams. *)
Fixpoint check_loop (datagrams : list IPv4Datagram.t) (h : t) : outcome t :=
  match datagrams with
  | [] => Ret h
  | dgram_received :: datagrams =>
      b ← expecting (_expecting_to_receive h) dgram_received;
      if negb b then Throw runtime_error else
      l ← remove_expectation (_expecting_to_receive h) dgram_received;
      let h := set_expecting h l in
      check_loop datagrams (set_interface h (AsyncNetworkInterface.pop_datagram (_interface h)))
  end.

Definition check (h : t) : outcome t :=
  h ← check_loop (AsyncNetworkInterface.datagrams_out (_interface h)) h;
  match _expecting_to_receive h with
  | [] => Ret h
  | _ => Throw runtime_error
  end.

Section Random.
Variable rd : nat -> Z.

Definition new `{NetDb} (name : string) (my_address next_hop : Address.t) : prog nat t :=
  eth ← random_host_ethernet_address rd;
  interface ← lift (NetworkInterface.construct eth my_address);
  mret (mk name my_address (AsyncNetworkInterface.of_interface interface) next_hop []).

(** The datagram that [send_to] makes. *)
Definition datagram (src dst ttl : Z) (payload : string) : IPv4Datagram.t :=
  let h := IPv4Header.default in
  let payload := BufferList.of_string payload in
  IPv4Datagram.mk
    (IPv4Header.mk (IPv4Header.ver h) (IPv4Header.hlen h) (IPv4Header.tos h)
       (uint16 (IPv4Header.hlen h * 4 + BufferList.size payload))
       (IPv4Header.id h) (IPv4Header.df h) (IPv4Header.mf h) (IPv4Header.offset h) ttl (IPv4Header.proto h)
       (IPv4Header.cksum h) src dst)
    payload.

Definition send_to (h : t) (destination : Address.t) (ttl : Z) : prog nat (t * IPv4Datagram.t) :=
  src ← lift (Address.ipv4_numeric (_my_address h));
  dst ← lift (Address.ipv4_numeric destination);
  r ← draw rd;
  let dgram := datagram src dst ttl (chars "random payload: {" ++ std_to_string r ++ chars "}") in
  i ← lift (AsyncNetworkInterface.send_datagram (_interface h) dgram (_next_hop h));
  mret (set_interface h i, dgram).

End Random.
End Host.

(** ** The network *)

Module Network.

(** [_hosts] in the order of insertion; the program does not depend on the order
    in which the unordered map is traversed. *)
Record t := mk {
  _router : Router.t;
  default_id : Z; eth0_id : Z; eth1_id : Z; eth2_id : Z; uun3_id : Z; hs4_id : Z; mit5_id : Z;
  _hosts : list (string * Host.t)
}.

Definition set_router (n : t) (r : Router.t) : t :=
  mk r (default_id n) (eth0_id n) (eth1_id n) (eth2_id n) (uun3_id n) (hs4_id n) (mit5_id n) (_hosts n).
Definition set_hosts (n : t) (hosts : list (string * Host.t)) : t :=
  mk (_router n) (default_id n) (eth0_id n) (eth1_id n) (eth2_id n) (uun3_id n) (hs4_id n) (mit5_id n) hosts.

Fixpoint find (hosts : list (string * Host.t)) (name : string) : option Host.t :=
  match hosts with
  | [] => None
  | (key, h) :: hosts => if decide (key = name) then Some h else find hosts name
  end.

Definition host (n : t) (name : string) : outcome Host.t :=
  match find (_hosts n) name with
  | None => Throw runtime_error
  | Some h => if decide (Host.name h = name) then Ret h else Throw runtime_error
  end.

(** The host, changed in place. *)
Definition set_host (n : t) (name : string) (h : Host.t) : t :=
  set_hosts n (map (fun '(key, h') => if decide (key = name) then (key, h) else (key, h')) (_hosts n)).

Fixpoint deliver (src : list EthernetFrame.t) (dst : AsyncNetworkInterface.t) : outcome AsyncNetworkInterface.t :=
  match src with
  | [] => Ret dst
  | frame :: src =>
      let payload := BufferList.of_string (BufferList.concatenate (EthernetFrame.payload frame)) in
      dst ← AsyncNetworkInterface.recv_frame dst (EthernetFrame.mk (EthernetFrame.header frame) payload);
      deliver src dst
  end.

Definition exchange_frames (x y : AsyncNetworkInterface.t)
    : outcome (AsyncNetworkInterface.t * AsyncNetworkInterface.t) :=
  let x_frames := frames_out x in
  let y_frames := frames_out y in
  y ← deliver x_frames y;
  x ← deliver y_frames x;
  Ret (set_frames x (clear x_frames (frames_out x)), set_frames y (clear y_frames (frames_out y))).

Definition exchange_frames3 (x y z : AsyncNetworkInterface.t)
    : outcome (AsyncNetworkInterface.t * AsyncNetworkInterface.t * AsyncNetworkInterface.t) :=
  let x_frames := frames_out x in
  let y_frames := frames_out y in
  let z_frames := frames_out z in
  y ← deliver x_frames y;
  z ← deliver x_frames z;
  x ← deliver y_frames x;
  z ← deliver y_frames z;
  x ← deliver z_frames x;
  y ← deliver z_frames y;
  Ret (set_frames x (clear x_frames (frames_out x)), set_frames y (clear y_frames (frames_out y)),
       set_frames z (clear z_frames (frames_out z))).

(** A wire between an interface of the router and a host. *)
Definition connect2 (n : t) (id : Z) (name : string) : outcome t :=
  x ← Router.interface (_router n) id;
  h ← host n name;
  '(x, y) ← exchange_frames x (Host.interface h);
  Ret (set_host (set_router n (Router.set_interface (_router n) id x)) name (Host.set_interface h y)).

(** A wire between an interface of the router and two hosts. *)
Definition connect3 (n : t) (id : Z) (name1 name2 : string) : outcome t :=
  x ← Router.interface (_router n) id;
  h1 ← host n name1;
  h2 ← host n name2;
  '(x, y, z) ← exchange_frames3 x (Host.interface h1) (Host.interface h2);
  Ret (set_host (set_host (set_router n (Router.set_interface (_router n) id x))
         name1 (Host.set_interface h1 y)) name2 (Host.set_interface h2 z)).

Definition simulate_physical_connections (n : t) : outcome t :=
  n ← connect2 n (default_id n) (chars "default_router");
  n ← connect2 n (eth0_id n) (chars "applesauce");
  n ← connect2 n (eth2_id n) (chars "cherrypie");
  n ← connect2 n (hs4_id n) (chars "hs_router");
  connect3 n (uun3_id n) (chars "dm42") (chars "dm43").

Fixpoint rounds (i : nat) (n : t) : outcome t :=
  match i with
  | 0%nat => Ret n
  | S i =>
      r ← Router.route (_router n);
      n ← simulate_physical_connections (set_router n r);
      rounds i n
  end.

Fixpoint check_hosts (hosts : list (string * Host.t)) : outcome (list (string * Host.t)) :=
  match hosts with
  | [] => Ret []
  | (name, h) :: hosts => h ← Host.check h; hosts ← check_hosts hosts; Ret ((name, h) :: hosts)
  end.

Definition simulate (n : t) : outcome t :=
  n ← rounds 256 n;
  hosts ← check_hosts (_hosts n);
  Ret (set_hosts n hosts).

Section Random.
Variable rd : nat -> Z.
Context `{NetDb}.

Definition add_interface (r : Router.t) (ip_address : string) : prog nat (Router.t * Z) :=
  eth ← random_router_ethernet_address rd;
  a ← lift (Address.of_ip ip_address 0);
  interface ← lift (NetworkInterface.construct eth a);
  mret (Router.add_interface r (AsyncNetworkInterface.of_interface interface)).

(** [_hosts.insert]; the names inserted are distinct. *)
Definition insert_host (hosts : list (string * Host.t)) (name my_address next_hop : string)
    : prog nat (list (string * Host.t)) :=
  a ← lift (Address.of_ip my_address 0);
  hop ← lift (Address.of_ip next_hop 0);
  h ← Host.new rd name a hop;
  mret (hosts ++ [(name, h)]).

Definition add_route (n : t) (route_prefix : string) (prefix_length : Z) (next_hop : outcome (option Address.t))
    (interface_num : Z) : outcome t :=
  p ← ip route_prefix;
  hop ← next_hop;
  r ← Router.add_route (_router n) p prefix_length hop interface_num;
  Ret (set_router n r).

Definition host_address (n : t) (name : string) : outcome (option Address.t) :=
  h ← host n name; Ret (Some (Host.address h)).

Definition add_routes (n : t) : outcome t :=
  n ← add_route n (chars "0.0.0.0") 0 (host_address n (chars "default_router")) (default_id n);
  n ← add_route n (chars "10.0.0.0") 8 (Ret None) (eth0_id n);
  n ← add_route n (chars "172.16.0.0") 16 (Ret None) (eth1_id n);
  n ← add_route n (chars "192.168.0.0") 24 (Ret None) (eth2_id n);
  n ← add_route n (chars "198.178.229.0") 24 (Ret None) (uun3_id n);
  n ← add_route n (chars "143.195.0.0") 17 (host_address n (chars "hs_router")) (hs4_id n);
  n ← add_route n (chars "143.195.128.0") 18 (host_address n (chars "hs_router")) (hs4_id n);
  n ← add_route n (chars "143.195.192.0") 19 (host_address n (chars "hs_router")) (hs4_id n);
  add_route n (chars "128.30.76.255") 16 (Some <$> Address.of_ip (chars "128.30.0.1") 0) (mit5_id n).

Definition new : prog nat t :=
  '(r, default_id) ← add_interface Router.new (chars "171.67.76.46");
  '(r, eth0_id) ← add_interface r (chars "10.0.0.1");
  '(r, eth1_id) ← add_interface r (chars "172.16.0.1");
  '(r, eth2_id) ← add_interface r (chars "192.168.0.1");
  '(r, uun3_id) ← add_interface r (chars "198.178.229.1");
  '(r, hs4_id) ← add_interface r (chars "143.195.0.2");
  '(r, mit5_id) ← add_interface r (chars "128.30.76.255");
  hosts ← insert_host [] (chars "applesauce") (chars "10.0.0.2") (chars "10.0.0.1");
  hosts ← insert_host hosts (chars "default_router") (chars "171.67.76.1") (chars "0");
  hosts ← insert_host hosts (chars "cherrypie") (chars "192.168.0.2") (chars "192.168.0.1");
  hosts ← insert_host hosts (chars "hs_router") (chars "143.195.0.1") (chars "0");
  hosts ← insert_host hosts (chars "dm42") (chars "198.178.229.42") (chars "198.178.229.1");
  hosts ← insert_host hosts (chars "dm43") (chars "198.178.229.43") (chars "198.178.229.1");
  lift (add_routes (mk r default_id eth0_id eth1_id eth2_id uun3_id hs4_id mit5_id hosts)).

(** ** The scenarios *)

(** [network.host(from).send_to(destination, ttl)] *)
Definition send (n : t) (from : string) (destination : outcome Address.t) (ttl : Z)
    : prog nat (t * IPv4Datagram.t) :=
  h ← lift (host n from);
  a ← lift destination;
  '(h, dgram) ← Host.send_to rd h a ttl;
  mret (set_host n from h, dgram).

(** One exchange: the datagram is sent, expected at [receiver] with its time to
    live decremented, and the network simulated. *)
Definition transfer (n : t) (from : string) (destination : outcome Address.t) (receiver : string) : prog nat t :=
  '(n, dgram_sent) ← send n from destination 64;
  h ← lift (host n receiver);
  let n := set_host n receiver (Host.expect h (Router.decrement_ttl dgram_sent)) in
  lift (simulate n).

(** One exchange whose datagram must not arrive. *)
Definition expire (n : t) (from : string) (destination : outcome Address.t) (ttl : Z) : prog nat t :=
  '(n, _) ← send n from destination ttl;
  lift (simulate n).

Definition address_of (n : t) (name : string) : outcome Address.t := h ← host n name; Ret (Host.address h).

Definition network_simulator : prog nat t :=
  n ← new;
  n ← transfer n (chars "applesauce") (address_of n (chars "cherrypie")) (chars "cherrypie");
  n ← transfer n (chars "cherrypie") (address_of n (chars "applesauce")) (chars "applesauce");
  n ← transfer n (chars "applesauce") (Address.of_ip (chars "1.2.3.4") 0) (chars "default_router");
  n ← transfer n (chars "applesauce") (Address.of_ip (chars "143.195.131.17") 0) (chars "hs_router");
  n ← transfer n (chars "cherrypie") (Address.of_ip (chars "143.195.193.52") 0) (chars "hs_router");
  n ← transfer n (chars "cherrypie") (Address.of_ip (chars "143.195.223.255") 0) (chars "hs_router");
  n ← transfer n (chars "cherrypie") (Address.of_ip (chars "143.195.224.0") 0) (chars "default_router");
  n ← transfer n (chars "dm42") (address_of n (chars "dm43")) (chars "dm43");
  n ← expire n (chars "applesauce") (Address.of_ip (chars "1.2.3.4") 0) 1;
  expire n (chars "applesauce") (Address.of_ip (chars "1.2.3.4") 0) 0.

End Random.
End Network.
