(* ===== verification/Simulation.v ===== *)
(** * The simulated network delivers every datagram

    What one frame does to the stations of a wire, what a round of the simulator
    does to the network, and the theorem about the whole program of
    NetworkSimulator.v. *)

From S2P Require Import Prelude UtilBuffer Parser Codec Checksum IPv4Datagram EthernetFrame Address NetworkInterface Router.
From S2P Require Import NetworkSimulator.

(** ** Stations and frames *)

(** What does not change of an interface: its Ethernet address, its address, and
    the number of the latter. *)
Record card := mk_card { mac : EthernetAddress; addr : Address.t; own : Z }.

Record card_ok (c : card) : Prop := {
  co_mac : real_address (mac c);
  co_addr : Address.ipv4_numeric (addr c) = Ret (own c);
  co_own : is_u32 (own c)
}.

(** An interface no time has passed for. *)
Definition st (c : card) (frames : list EthernetFrame.t) (queue : gmap Z (Z * IPv4Datagram.t))
    (cache : IP2EthernetCache.t) (ds : list IPv4Datagram.t) : AsyncNetworkInterface.t :=
  AsyncNetworkInterface.mk (NetworkInterface.mk (mac c) (addr c) frames queue cache 0 (30 * 1000)) ds.

Definition learn (cache : IP2EthernetCache.t) (ip : Z) (m : EthernetAddress) : IP2EthernetCache.t :=
  IP2EthernetCache.set_cache cache ip m 0 (30 * 1000).

(** The queue of an interface that waits for the address to send [d] to. *)
Definition waiting (c : card) (d : IPv4Datagram.t) : gmap Z (Z * IPv4Datagram.t) :=
  {[own c := (uint64 (0 + 5 * 1000), d)]}.

Definition request (s : card) (target : Z) : EthernetFrame.t :=
  NetworkInterface.make_frame ETHERNET_BROADCAST (mac s) EthernetHeader.TYPE_ARP
    (ARPMessage.to_bytes
       (NetworkInterface.make_arp ARPMessage.OPCODE_REQUEST (mac s) (own s) zero_address target)).

(** The answer of [r] to a request of [s]. *)
Definition reply (r s : card) : EthernetFrame.t :=
  NetworkInterface.make_frame (mac s) (mac r) EthernetHeader.TYPE_ARP
    (ARPMessage.to_bytes
       (NetworkInterface.make_arp ARPMessage.OPCODE_REPLY (mac r) (own r) (mac s) (own s))).

Definition wire_bytes (d : IPv4Datagram.t) : string :=
  match IPv4Datagram.serialize d with Ret bl => BufferList.concatenate bl | Throw _ => [] end.

Definition carrier (src dst : EthernetAddress) (d : IPv4Datagram.t) : EthernetFrame.t :=
  NetworkInterface.make_frame dst src EthernetHeader.TYPE_IPv4 (wire_bytes d).

(** A cache that knows nothing wrong of an address. *)
Definition knows_right (cache : IP2EthernetCache.t) (c : card) : Prop :=
  IP2EthernetCache.get_cache cache (own c) = None \/ IP2EthernetCache.get_cache cache (own c) = Some (mac c).

Section Station.
Implicit Types (c s r z : card) (fs : list EthernetFrame.t).

Lemma st_host c fs q cache ds : card_ok c -> host (AsyncNetworkInterface.base (st c fs q cache ds)) (own c).
Proof. intros []. by split. Qed.

Lemma arp_bytes opcode sender sender_ip target target_ip :
  opcode = ARPMessage.OPCODE_REQUEST \/ opcode = ARPMessage.OPCODE_REPLY ->
  ARPMessage.serialize (NetworkInterface.make_arp opcode sender sender_ip target target_ip)
  = Ret (ARPMessage.to_bytes (NetworkInterface.make_arp opcode sender sender_ip target target_ip)).
Proof. intros Ho. apply ARPMessage.serialize_to_bytes. by destruct Ho as [-> | ->]. Qed.

Lemma wire_bytes_ok d bl : IPv4Datagram.serialize d = Ret bl -> BufferList.concatenate bl = wire_bytes d.
Proof. unfold wire_bytes. by intros ->. Qed.

Lemma send_st_known c fs q cache ds d hop ip m :
  card_ok c -> Address.ipv4_numeric hop = Ret ip -> IP2EthernetCache.get_cache cache ip = Some m ->
  IPv4Datagram.fits d ->
  AsyncNetworkInterface.send_datagram (st c fs q cache ds) d hop
  = Ret (st c (fs ++ [carrier (mac c) m d]) q cache ds).
Proof.
  intros Hc Hh Hm Hd. unfold AsyncNetworkInterface.send_datagram.
  destruct (send_known (AsyncNetworkInterface.base (st c fs q cache ds)) d hop ip m Hh Hm Hd) as (bl & E & ->).
  by rewrite (wire_bytes_ok d) by done.
Qed.

Lemma send_st_unknown c fs cache ds d hop ip :
  card_ok c -> Address.ipv4_numeric hop = Ret ip -> is_u32 ip -> IP2EthernetCache.get_cache cache ip = None ->
  AsyncNetworkInterface.send_datagram (st c fs ∅ cache ds) d hop
  = Ret (st c (fs ++ [request c ip]) (waiting c d) cache ds).
Proof.
  intros Hc Hh Hip Hm. unfold AsyncNetworkInterface.send_datagram.
  destruct (send_unknown _ (own c) d hop ip (st_host c fs ∅ cache ds Hc) Hh Hip Hm) as (bs & E & ->);
    [apply lookup_empty|].
  cbn [st AsyncNetworkInterface.base NetworkInterface._ethernet_address] in E.
  rewrite arp_bytes in E by (by left). apply Ret_inj in E as <-. reflexivity.
Qed.

(** The bytes of a frame are those it was made of. *)
Lemma deliver_frame dst src type (p : string) i :
  Network.deliver [NetworkInterface.make_frame dst src type p] i
  = AsyncNetworkInterface.recv_frame i (NetworkInterface.make_frame dst src type p).
Proof.
  cbn [Network.deliver]. rewrite BufferList.concatenate_bytes, make_frame_payload.
  change (EthernetFrame.mk _ _) with (NetworkInterface.make_frame dst src type p).
  by destruct (AsyncNetworkInterface.recv_frame _ _).
Qed.

Lemma deliver_arp opcode sender sender_ip target target_ip dst src i n' :
  opcode = ARPMessage.OPCODE_REQUEST \/ opcode = ARPMessage.OPCODE_REPLY ->
  is_address sender -> is_u32 sender_ip -> is_address target -> is_u32 target_ip ->
  recv_arp (AsyncNetworkInterface.base i)
    (NetworkInterface.make_arp opcode sender sender_ip target target_ip) = Ret n' ->
  Network.deliver [NetworkInterface.make_frame dst src EthernetHeader.TYPE_ARP
    (ARPMessage.to_bytes (NetworkInterface.make_arp opcode sender sender_ip target target_ip))] i
  = Ret (AsyncNetworkInterface.mk n' (AsyncNetworkInterface._datagrams_out i)).
Proof.
  intros Ho H1 H2 H3 H4 E. rewrite deliver_frame. unfold AsyncNetworkInterface.recv_frame.
  destruct (recv_arp_frame (AsyncNetworkInterface.base i)
    (NetworkInterface.make_arp opcode sender sender_ip target target_ip) dst src) as (bs & Es & _ & Er);
    [by apply make_arp_valid|].
  rewrite arp_bytes in Es by done. apply Ret_inj in Es as <-. by rewrite Er, E.
Qed.

(** The station that is asked for answers, and learns who asked. *)
Lemma deliver_request s r fs q cache ds :
  card_ok s -> card_ok r -> knows_right cache r ->
  Network.deliver [request s (own r)] (st r fs q cache ds)
  = Ret (st r (fs ++ [reply r s]) q (learn cache (own s) (mac s)) ds).
Proof.
  intros [Hs1 _ Hs2] Hr Hk. pose proof Hr as [Hr1 _ Hr2].
  destruct (recv_request_own _ (own r) (mac s) (own s) (st_host r fs q cache ds Hr) Hs1 Hs2 Hk) as (bs & E & Er).
  cbn [st AsyncNetworkInterface.base NetworkInterface._ethernet_address] in E.
  rewrite arp_bytes in E by (by right). apply Ret_inj in E as <-.
  unfold request. erewrite deliver_arp; [|by left|apply Hs1|done|reflexivity|done|exact Er]. reflexivity.
Qed.

(** Another one that does not know the answer only learns who asked. *)
Lemma deliver_request_other s z target fs q cache ds :
  card_ok s -> card_ok z -> is_u32 target -> target <> own z -> IP2EthernetCache.get_cache cache target = None ->
  Network.deliver [request s target] (st z fs q cache ds)
  = Ret (st z fs q (learn cache (own s) (mac s)) ds).
Proof.
  intros [Hs1 _ Hs2] [_ Hz _] Ht Hne Hc. unfold request.
  erewrite deliver_arp; [|by left|apply Hs1|done|reflexivity|done|]; [reflexivity|].
  change (recv_arp ?n ?m) with (NetworkInterface.recv_request n m). unfold NetworkInterface.recv_request.
  cbn [ARPMessage.target_ip_address ARPMessage.sender_ethernet_address ARPMessage.sender_ip_address
       ARPMessage.target_ethernet_address NetworkInterface.make_arp st AsyncNetworkInterface.base
       NetworkInterface._ip_mac_map NetworkInterface._ip_address].
  rewrite Hc, Hz. cbn [mbind outcome_bind]. rewrite (proj2 (Z.eqb_neq _ _)) by done. cbn [mbind outcome_bind].
  by rewrite (learn_real _ _ (mac s)) by done.
Qed.

(** What an answer makes a station learn. *)
Definition learn_reply (cache : IP2EthernetCache.t) (r s : card) : IP2EthernetCache.t :=
  learn (learn cache (own r) (mac r)) (own s) (mac s).

Lemma deliver_reply s r fs cache ds d :
  card_ok s -> card_ok r -> IPv4Datagram.fits d ->
  Network.deliver [reply r s] (st s fs (waiting s d) cache ds)
  = Ret (st s (fs ++ [carrier (mac s) (mac r) d]) ∅ (learn_reply cache r s) ds).
Proof.
  intros [Hs1 _ Hs2] [Hr1 _ Hr2] Hd. unfold reply.
  destruct (datagram_serialize d Hd) as (bl & _ & E & _).
  erewrite deliver_arp; [|by right|apply Hr1|done|apply Hs1|done|]; [reflexivity|].
  change (recv_arp ?n ?m) with (NetworkInterface.recv_reply n m). unfold NetworkInterface.recv_reply.
  cbn [ARPMessage.target_ip_address ARPMessage.sender_ethernet_address ARPMessage.sender_ip_address
       ARPMessage.target_ethernet_address NetworkInterface.make_arp st AsyncNetworkInterface.base
       NetworkInterface._arp_ip_queue].
  unfold waiting. rewrite lookup_singleton_eq, E. cbn [mbind outcome_bind].
  rewrite (wire_bytes_ok d) by done. rewrite (learn_real _ _ (mac r)), (learn_real _ _ (mac s)) by done.
  unfold NetworkInterface.set_map, NetworkInterface.set_queue, NetworkInterface.push_frame. simpl.
  by rewrite delete_singleton_eq.
Qed.

Lemma deliver_reply_other s r z fs cache ds :
  card_ok s -> card_ok r ->
  Network.deliver [reply r s] (st z fs ∅ cache ds) = Ret (st z fs ∅ (learn_reply cache r s) ds).
Proof.
  intros [Hs1 _ Hs2] [Hr1 _ Hr2]. unfold reply.
  erewrite deliver_arp; [|by right|apply Hr1|done|apply Hs1|done|]; [reflexivity|].
  change (recv_arp ?n ?m) with (NetworkInterface.recv_reply n m). unfold NetworkInterface.recv_reply.
  cbn [ARPMessage.target_ip_address ARPMessage.sender_ethernet_address ARPMessage.sender_ip_address
       ARPMessage.target_ethernet_address NetworkInterface.make_arp st AsyncNetworkInterface.base
       NetworkInterface._arp_ip_queue].
  rewrite lookup_empty. cbn [mbind outcome_bind].
  by rewrite (learn_real _ _ (mac r)), (learn_real _ _ (mac s)) by done.
Qed.

Lemma deliver_carrier src r fs q cache ds d :
  card_ok r -> IPv4Datagram.fits d ->
  exists d', Network.deliver [carrier src (mac r) d] (st r fs q cache ds) = Ret (st r fs q cache (ds ++ [d']))
    /\ same_datagram d d'.
Proof.
  intros Hr Hd. destruct (datagram_serialize d Hd) as (bl & _ & E & _).
  destruct (recv_datagram _ (own r) src d bl (st_host r fs q cache ds Hr) Hd E) as (d' & Er & Hs).
  exists d'. split; [|done]. unfold carrier. rewrite deliver_frame. unfold AsyncNetworkInterface.recv_frame.
  cbn [st AsyncNetworkInterface.base NetworkInterface._ethernet_address] in Er.
  rewrite (wire_bytes_ok d) in Er by done. cbn [st AsyncNetworkInterface.base].
  by rewrite Er.
Qed.

Lemma deliver_carrier_other src dst z fs q cache ds d :
  card_ok z -> is_address dst -> dst <> mac z ->
  Network.deliver [carrier src dst d] (st z fs q cache ds) = Ret (st z fs q cache ds).
Proof.
  intros [Hz _ _] Hd Hne. unfold carrier. rewrite deliver_frame. unfold AsyncNetworkInterface.recv_frame.
  unfold NetworkInterface.recv_frame.
  cbn [EthernetFrame.header EthernetFrame._header NetworkInterface.make_frame EthernetHeader.type EthernetHeader.dst].
  change (EthernetHeader.TYPE_IPv4 =? EthernetHeader.TYPE_IPv4) with true. cbv iota.
  rewrite same_address_spec by (done || apply Hz).
  cbn [st AsyncNetworkInterface.base NetworkInterface._ethernet_address].
  by rewrite bool_decide_eq_false_2.
Qed.

End Station.

(** ** Wires *)

Lemma clear_self {A} (l : list A) : NetworkSimulator.clear l l = [].
Proof. induction l; [done|exact IHl]. Qed.

(** Only one station of a wire has frames to send. *)
Lemma exchange_from_y cx cy fs fx qx qx' qy cax cax' cay dx dx' dy :
  Network.deliver fs (st cx [] qx cax dx) = Ret (st cx fx qx' cax' dx') ->
  Network.exchange_frames (st cx [] qx cax dx) (st cy fs qy cay dy)
  = Ret (st cx fx qx' cax' dx', st cy [] qy cay dy).
Proof.
  intros E. unfold Network.exchange_frames. cbn [frames_out st NetworkInterface.frames_out NetworkInterface._frames_out
    AsyncNetworkInterface.base]. fold (st cx [] qx cax dx). cbn [Network.deliver mbind outcome_bind].
  rewrite E. cbn [mbind outcome_bind]. unfold set_frames, frames_out. simpl. by rewrite clear_self.
Qed.

Lemma exchange_from_x cx cy fs fy qx qy qy' cax cay cay' dx dy dy' :
  Network.deliver fs (st cy [] qy cay dy) = Ret (st cy fy qy' cay' dy') ->
  Network.exchange_frames (st cx fs qx cax dx) (st cy [] qy cay dy)
  = Ret (st cx [] qx cax dx, st cy fy qy' cay' dy').
Proof.
  intros E. unfold Network.exchange_frames. cbn [frames_out st NetworkInterface.frames_out NetworkInterface._frames_out
    AsyncNetworkInterface.base]. fold (st cy [] qy cay dy). rewrite E. cbn [Network.deliver mbind outcome_bind].
  unfold set_frames, frames_out. simpl. by rewrite clear_self.
Qed.

Lemma exchange3_from_x cx cy cz fs fy fz qx qy qy' qz qz' cax cay cay' caz caz' dx dy dy' dz dz' :
  Network.deliver fs (st cy [] qy cay dy) = Ret (st cy fy qy' cay' dy') ->
  Network.deliver fs (st cz [] qz caz dz) = Ret (st cz fz qz' caz' dz') ->
  Network.exchange_frames3 (st cx fs qx cax dx) (st cy [] qy cay dy) (st cz [] qz caz dz)
  = Ret (st cx [] qx cax dx, st cy fy qy' cay' dy', st cz fz qz' caz' dz').
Proof.
  intros E1 E2. unfold Network.exchange_frames3. cbn [frames_out st NetworkInterface.frames_out NetworkInterface._frames_out
    AsyncNetworkInterface.base]. fold (st cy [] qy cay dy) (st cz [] qz caz dz).
  rewrite E1. cbn [mbind outcome_bind]. rewrite E2. cbn [Network.deliver mbind outcome_bind].
  unfold set_frames, frames_out. simpl. by rewrite clear_self.
Qed.

Lemma exchange3_from_y cx cy cz fs fx fz qx qx' qy qz qz' cax cax' cay caz caz' dx dx' dy dz dz' :
  Network.deliver fs (st cx [] qx cax dx) = Ret (st cx fx qx' cax' dx') ->
  Network.deliver fs (st cz [] qz caz dz) = Ret (st cz fz qz' caz' dz') ->
  Network.exchange_frames3 (st cx [] qx cax dx) (st cy fs qy cay dy) (st cz [] qz caz dz)
  = Ret (st cx fx qx' cax' dx', st cy [] qy cay dy, st cz fz qz' caz' dz').
Proof.
  intros E1 E2. unfold Network.exchange_frames3. cbn [frames_out st NetworkInterface.frames_out NetworkInterface._frames_out
    AsyncNetworkInterface.base]. fold (st cx [] qx cax dx) (st cz [] qz caz dz).
  cbn [Network.deliver mbind outcome_bind]. rewrite E1. cbn [mbind outcome_bind]. rewrite E2.
  cbn [Network.deliver mbind outcome_bind]. unfold set_frames, frames_out. simpl. by rewrite clear_self.
Qed.

Lemma exchange3_from_z cx cy cz fs fx fy qx qx' qy qy' qz cax cax' cay cay' caz dx dx' dy dy' dz :
  Network.deliver fs (st cx [] qx cax dx) = Ret (st cx fx qx' cax' dx') ->
  Network.deliver fs (st cy [] qy cay dy) = Ret (st cy fy qy' cay' dy') ->
  Network.exchange_frames3 (st cx [] qx cax dx) (st cy [] qy cay dy) (st cz fs qz caz dz)
  = Ret (st cx fx qx' cax' dx', st cy fy qy' cay' dy', st cz [] qz caz dz).
Proof.
  intros E1 E2. unfold Network.exchange_frames3. cbn [frames_out st NetworkInterface.frames_out NetworkInterface._frames_out
    AsyncNetworkInterface.base]. fold (st cx [] qx cax dx) (st cy [] qy cay dy).
  cbn [Network.deliver mbind outcome_bind]. rewrite E1. cbn [mbind outcome_bind]. rewrite E2.
  cbn [Network.deliver mbind outcome_bind]. unfold set_frames, frames_out. simpl. by rewrite clear_self.
Qed.

(** ** A datagram crosses a wire *)

(** The exchanges on a wire, the router's side first, while the router has nothing
    to forward. *)
Inductive crossing : nat -> AsyncNetworkInterface.t -> AsyncNetworkInterface.t ->
    AsyncNetworkInterface.t -> AsyncNetworkInterface.t -> Prop :=
  | crossing_refl x y : crossing 0 x y x y
  | crossing_step n x y x1 y1 x2 y2 :
      AsyncNetworkInterface.datagrams_out x = [] -> Network.exchange_frames x y = Ret (x1, y1) ->
      crossing n x1 y1 x2 y2 -> crossing (S n) x y x2 y2.

Lemma knows_right_learn cache c c' :
  knows_right cache c -> own c <> own c' -> knows_right (learn cache (own c') (mac c')) c.
Proof. intros Hk Hne. unfold knows_right, learn. by rewrite get_set_cache, bool_decide_eq_false_2. Qed.

Lemma knows_right_learnt cache c : knows_right (learn cache (own c) (mac c)) c.
Proof. right. unfold learn. by rewrite get_set_cache, bool_decide_eq_true_2. Qed.

(** What two stations know of each other and of themselves. *)
Record knowledge (s r : card) (cs cr : IP2EthernetCache.t) : Prop := {
  kn_ss : knows_right cs s; kn_sr : knows_right cs r; kn_rs : knows_right cr s; kn_rr : knows_right cr r
}.

Lemma knowledge_request s r cs cr :
  own s <> own r -> knowledge s r cs cr -> knowledge s r cs (learn cr (own s) (mac s)).
Proof. intros Hne []. split; try done; [apply knows_right_learnt|by apply knows_right_learn]. Qed.

Lemma knowledge_reply s r cs cr :
  own s <> own r -> knowledge s r cs cr -> knowledge s r (learn_reply cs r s) cr.
Proof.
  intros Hne []. split; try done; [apply knows_right_learnt|].
  apply knows_right_learn; [apply knows_right_learnt|done].
Qed.

Lemma knowledge_sym s r cs cr : knowledge s r cs cr -> knowledge r s cr cs.
Proof. intros []. by split. Qed.

(** From a host to the router. *)
Lemma cross_up s r cs cr d hop :
  card_ok s -> card_ok r -> own s <> own r -> knowledge s r cs cr -> IPv4Datagram.fits d ->
  Address.ipv4_numeric hop = Ret (own r) ->
  exists n s1 cs' cr' d', AsyncNetworkInterface.send_datagram (st s [] ∅ cs []) d hop = Ret s1
    /\ crossing n (st r [] ∅ cr []) s1 (st r [] ∅ cr' [d']) (st s [] ∅ cs' [])
    /\ (n <= 3)%nat /\ same_datagram d d' /\ knowledge s r cs' cr'.
Proof.
  intros Hs Hr Hne Hk Hd Hh. pose proof Hk as [_ Hsr _ Hrr]. destruct Hsr as [Hc|Hc].
  - destruct (deliver_carrier (mac s) r [] ∅ (learn cr (own s) (mac s)) [] d Hr Hd) as (d' & E & Hsd).
    exists 3%nat. do 3 eexists. exists d'. split; [apply send_st_unknown; (done || apply Hr)|]. split_and!.
    + eapply crossing_step; [done|apply exchange_from_y; by apply deliver_request|].
      eapply crossing_step; [done|apply exchange_from_x; by apply deliver_reply|].
      eapply crossing_step; [done|apply exchange_from_y; exact E|]. apply crossing_refl.
    + lia.
    + done.
    + by apply knowledge_reply, knowledge_request.
  - destruct (deliver_carrier (mac s) r [] ∅ cr [] d Hr Hd) as (d' & E & Hsd).
    exists 1%nat. do 3 eexists. exists d'. split; [by eapply send_st_known|]. split_and!.
    + eapply crossing_step; [done|apply exchange_from_y; exact E|]. apply crossing_refl.
    + lia.
    + done.
    + done.
Qed.

(** From the router to a host. *)
Lemma cross_down s r cs cr d hop :
  card_ok s -> card_ok r -> own s <> own r -> knowledge s r cs cr -> IPv4Datagram.fits d ->
  Address.ipv4_numeric hop = Ret (own r) ->
  exists n s1 cs' cr' d', AsyncNetworkInterface.send_datagram (st s [] ∅ cs []) d hop = Ret s1
    /\ AsyncNetworkInterface.datagrams_out s1 = []
    /\ crossing n s1 (st r [] ∅ cr []) (st s [] ∅ cs' []) (st r [] ∅ cr' [d'])
    /\ (n <= 3)%nat /\ same_datagram d d' /\ knowledge s r cs' cr'.
Proof.
  intros Hs Hr Hne Hk Hd Hh. pose proof Hk as [_ Hsr _ Hrr]. destruct Hsr as [Hc|Hc].
  - destruct (deliver_carrier (mac s) r [] ∅ (learn cr (own s) (mac s)) [] d Hr Hd) as (d' & E & Hsd).
    exists 3%nat. do 3 eexists. exists d'. split; [apply send_st_unknown; (done || apply Hr)|].
    split; [done|]. split_and!.
    + eapply crossing_step; [done|apply exchange_from_x; by apply deliver_request|].
      eapply crossing_step; [done|apply exchange_from_y; by apply deliver_reply|].
      eapply crossing_step; [done|apply exchange_from_x; exact E|]. apply crossing_refl.
    + lia.
    + done.
    + by apply knowledge_reply, knowledge_request.
  - destruct (deliver_carrier (mac s) r [] ∅ cr [] d Hr Hd) as (d' & E & Hsd).
    exists 1%nat. do 3 eexists. exists d'. split; [by eapply send_st_known|]. split; [done|]. split_and!.
    + eapply crossing_step; [done|apply exchange_from_x; exact E|]. apply crossing_refl.
    + lia.
    + done.
    + done.
Qed.

(** ** The network as the interfaces of its wires *)

(** The wires with one host: that of the default router, of applesauce, of cherrypie
    and of the router of the HS network, by the number of the router's interface. *)
Inductive wire : Z -> Prop :=
  | wire_default : wire 0
  | wire_eth0 : wire 1
  | wire_eth2 : wire 3
  | wire_hs4 : wire 5.

Inductive interface_id : Z -> Prop :=
  | id_wire i : wire i -> interface_id i
  | id_eth1 : interface_id 2
  | id_uun3 : interface_id 4
  | id_mit5 : interface_id 6.
#[local] Hint Constructors wire interface_id : core.

Lemma wire_ne4 i : wire i -> 4 <> i /\ 2 <> i /\ 6 <> i.
Proof. by intros []. Qed.

Definition host_name (i : Z) : string :=
  if i =? 0 then chars "default_router" else if i =? 1 then chars "applesauce"
  else if i =? 3 then chars "cherrypie" else if i =? 5 then chars "hs_router" else chars "dm42".

Definition routes : list RouterInfo := [
  mk_info 0x00000000 0 (Some (Address.ipv4 0xab434c01 0)) 0;
  mk_info 0x0a000000 8 None 1;
  mk_info 0xac100000 16 None 2;
  mk_info 0xc0a80000 24 None 3;
  mk_info 0xc6b2e500 24 None 4;
  mk_info 0x8fc30000 17 (Some (Address.ipv4 0x8fc30001 0)) 5;
  mk_info 0x8fc38000 18 (Some (Address.ipv4 0x8fc30001 0)) 5;
  mk_info 0x8fc3c000 19 (Some (Address.ipv4 0x8fc30001 0)) 5;
  mk_info 0x801e4cff 16 (Some (Address.ipv4 0x801e0001 0)) 6].

(** The router's interfaces [x], the host [y i] at each of them, and the second host
    [z] of the wire that has two. *)
Definition router_of (x : Z -> AsyncNetworkInterface.t) : Router.t :=
  Router.mk [x 0; x 1; x 2; x 3; x 4; x 5; x 6] routes.
Definition net (x : Z -> AsyncNetworkInterface.t) (y : Z -> Host.t) (z : Host.t) : Network.t :=
  Network.mk (router_of x) 0 1 2 3 4 5 6
    [(host_name 1, y 1); (host_name 0, y 0); (host_name 3, y 3); (host_name 5, y 5); (host_name 4, y 4);
     (chars "dm43", z)].

Definition upd {A} (i : Z) (a : A) (f : Z -> A) (k : Z) : A := if k =? i then a else f k.

Lemma upd_eq {A} i (a : A) f : upd i a f i = a.
Proof. unfold upd. by rewrite Z.eqb_refl. Qed.
Lemma upd_ne {A} i (a : A) f k : k <> i -> upd i a f k = f k.
Proof. intros H. unfold upd. by rewrite (proj2 (Z.eqb_neq _ _)). Qed.

Lemma router_of_ext x x' : (forall k, interface_id k -> x k = x' k) -> router_of x = router_of x'.
Proof. intros H. unfold router_of. by rewrite !H by auto. Qed.

Lemma net_ext x x' y y' z :
  (forall k, interface_id k -> x k = x' k) -> (forall k, wire k \/ k = 4 -> y k = y' k) -> net x y z = net x' y' z.
Proof. intros Hx Hy. unfold net. rewrite (router_of_ext x x' Hx), !Hy by auto. done. Qed.

Lemma set_interface_same h : Host.set_interface h (Host.interface h) = h.
Proof. by destruct h. Qed.
Lemma host_interface_set h i : Host.interface (Host.set_interface h i) = i.
Proof. done. Qed.
Lemma host_set_set h i i' : Host.set_interface (Host.set_interface h i) i' = Host.set_interface h i'.
Proof. done. Qed.

(** The hosts have the names they are stored under. *)
Definition named (y : Z -> Host.t) (z : Host.t) : Prop :=
  (forall i, wire i \/ i = 4 -> Host.name (y i) = host_name i) /\ Host.name z = chars "dm43".

Lemma host_net x y z i : named y z -> wire i \/ i = 4 -> Network.host (net x y z) (host_name i) = Ret (y i).
Proof.
  intros [Hy _] Hi. generalize (Hy i Hi). clear Hy.
  destruct Hi as [[]| ->]; intros E; unfold Network.host; simpl; rewrite E; reflexivity.
Qed.

Lemma connect2_net x y z i id name x' y' :
  id = i -> name = host_name i ->
  named y z -> wire i -> Network.exchange_frames (x i) (Host.interface (y i)) = Ret (x', y') ->
  Network.connect2 (net x y z) id name = Ret (net (upd i x' x) (upd i (Host.set_interface (y i) y') y) z).
Proof.
  intros -> -> Hn Hi E. unfold Network.connect2. rewrite (host_net x y z i) by auto.
  assert (Router.interface (Network._router (net x y z)) i = Ret (x i)) as -> by (by destruct Hi).
  cbn [mbind outcome_bind]. rewrite E. by destruct Hi.
Qed.

Lemma connect3_net x y z id x' y' z' :
  id = 4 -> named y z ->
  Network.exchange_frames3 (x 4) (Host.interface (y 4)) (Host.interface z) = Ret (x', y', z') ->
  Network.connect3 (net x y z) id (chars "dm42") (chars "dm43")
  = Ret (net (upd 4 x' x) (upd 4 (Host.set_interface (y 4) y') y) (Host.set_interface z z')).
Proof.
  intros -> Hn E. unfold Network.connect3. pose proof (host_net x y z 4 Hn ltac:(auto)) as H4.
  change (host_name 4) with (chars "dm42") in H4. rewrite H4. cbn [mbind outcome_bind].
  assert (Network.host (net x y z) (chars "dm43") = Ret z) as ->.
  { unfold Network.host. simpl. destruct Hn as [_ Hz]. rewrite Hz. reflexivity. }
  change (Router.interface (Network._router (net x y z)) 4) with (Ret (x 4)).
  cbn [mbind outcome_bind]. rewrite E. reflexivity.
Qed.

Lemma named_upd y z i h : named y z -> Host.name h = Host.name (y i) -> named (upd i h y) z.
Proof.
  intros [Hy Hz] Hh. split; [|done]. intros k Hk. unfold upd. destruct (Z.eqb_spec k i) as [->|]; [|auto].
  rewrite Hh. auto.
Qed.

(** All wires at once: [x'], [y'] and [z'] are the interfaces after the exchanges. *)
Lemma physical_all x y z x' y' z' :
  named y z -> (forall k, wire k -> Network.exchange_frames (x k) (Host.interface (y k)) = Ret (x' k, y' k)) ->
  Network.exchange_frames3 (x 4) (Host.interface (y 4)) (Host.interface z) = Ret (x' 4, y' 4, z') ->
  x' 2 = x 2 -> x' 6 = x 6 ->
  Network.simulate_physical_connections (net x y z)
  = Ret (net x' (fun k => Host.set_interface (y k) (y' k)) (Host.set_interface z z')).
Proof.
  intros Hn H2 H3 E2 E6. unfold Network.simulate_physical_connections.
  rewrite (connect2_net _ _ _ 0 _ _ (x' 0) (y' 0)) by (done || by apply H2). cbn [mbind outcome_bind].
  apply (named_upd _ _ 0 (Host.set_interface (y 0) (y' 0))) in Hn as Hn0; [|done].
  rewrite (connect2_net _ _ _ 1 _ _ (x' 1) (y' 1)) by (done || by apply (H2 1)). cbn [mbind outcome_bind].
  apply (named_upd _ _ 1 (Host.set_interface (y 1) (y' 1))) in Hn0 as Hn1; [|done].
  rewrite (connect2_net _ _ _ 3 _ _ (x' 3) (y' 3)) by (done || by apply (H2 3)). cbn [mbind outcome_bind].
  apply (named_upd _ _ 3 (Host.set_interface (y 3) (y' 3))) in Hn1 as Hn3; [|done].
  rewrite (connect2_net _ _ _ 5 _ _ (x' 5) (y' 5)) by (done || by apply (H2 5)). cbn [mbind outcome_bind].
  apply (named_upd _ _ 5 (Host.set_interface (y 5) (y' 5))) in Hn3 as Hn5; [|done].
  rewrite (connect3_net _ _ _ _ (x' 4) (y' 4) z') by (done || exact H3). f_equal.
  apply net_ext; intros k Hk; [destruct Hk as [? []| | |] | destruct Hk as [[]| ->]]; done.
Qed.

(** A wire without traffic. *)
Definition still (x : Z -> AsyncNetworkInterface.t) (y : Z -> Host.t) (i : Z) : Prop :=
  Network.exchange_frames (x i) (Host.interface (y i)) = Ret (x i, Host.interface (y i)).
Definition still3 (x : Z -> AsyncNetworkInterface.t) (y : Z -> Host.t) (z : Host.t) : Prop :=
  Network.exchange_frames3 (x 4) (Host.interface (y 4)) (Host.interface z)
  = Ret (x 4, Host.interface (y 4), Host.interface z).

(** Traffic on one wire. *)
Lemma physical_wire x y z i x' y' :
  named y z -> wire i -> (forall k, wire k -> k <> i -> still x y k) -> still3 x y z ->
  Network.exchange_frames (x i) (Host.interface (y i)) = Ret (x', y') ->
  Network.simulate_physical_connections (net x y z)
  = Ret (net (upd i x' x) (upd i (Host.set_interface (y i) y') y) z).
Proof.
  intros Hn Hi Hs H3 E. assert (i <> 4 /\ i <> 2 /\ i <> 6) as (I4 & I2 & I6) by (by destruct Hi).
  rewrite (physical_all x y z (upd i x' x) (upd i y' (fun k => Host.interface (y k))) (Host.interface z)).
  - rewrite set_interface_same. f_equal. apply net_ext; [done|]. intros k _. unfold upd.
    destruct (Z.eqb_spec k i) as [->|]; [done|apply set_interface_same].
  - done.
  - intros k Hk. unfold upd. destruct (Z.eqb_spec k i) as [->|Hne]; [exact E|by apply Hs].
  - rewrite !upd_ne by done. exact H3.
  - by rewrite upd_ne.
  - by rewrite upd_ne.
Qed.

(** Traffic on the wire with two hosts. *)
Lemma physical_three x y z x' y' z' :
  named y z -> (forall k, wire k -> still x y k) ->
  Network.exchange_frames3 (x 4) (Host.interface (y 4)) (Host.interface z) = Ret (x', y', z') ->
  Network.simulate_physical_connections (net x y z)
  = Ret (net (upd 4 x' x) (upd 4 (Host.set_interface (y 4) y') y) (Host.set_interface z z')).
Proof.
  intros Hn Hs E. rewrite (physical_all x y z (upd 4 x' x) (upd 4 y' (fun k => Host.interface (y k))) z'); try done.
  - f_equal. apply net_ext; [done|]. intros k _. unfold upd.
    destruct (Z.eqb_spec k 4) as [->|]; [done|apply set_interface_same].
  - intros k Hk. rewrite !upd_ne by (by destruct Hk). by apply Hs.
Qed.

(** ** A round of routing *)

Lemma route_from_app n m r N :
  0 <= N -> Router.route_from (n + m) r N = (r ← Router.route_from n r N; Router.route_from m r (N + Z.of_nat n)).
Proof.
  revert r N. induction n as [|n IH]; intros r N HN; cbn [Nat.add Router.route_from].
  { cbn [mbind outcome_bind]. f_equal. lia. }
  destruct (Router.interface r N) as [i|]; [|done]. cbn [mbind outcome_bind].
  destruct (Router.route_queue _ r N) as [r'|]; [|done]. cbn [mbind outcome_bind].
  rewrite IH by lia. by replace (N + 1 + Z.of_nat n) with (N + Z.of_nat (S n)) by lia.
Qed.

Lemma route_from_still n r N :
  0 <= N ->
  (forall k, N <= k < N + Z.of_nat n ->
     exists i, Router.interface r k = Ret i /\ AsyncNetworkInterface.datagrams_out i = []) ->
  Router.route_from n r N = Ret r.
Proof.
  revert N. induction n as [|n IH]; intros N HN H; cbn [Router.route_from]; [done|].
  destruct (H N) as (i & Ei & Eq); [lia|]. rewrite Ei. cbn [mbind outcome_bind]. rewrite Eq. cbn [length Router.route_queue].
  rewrite Ei. cbn [mbind outcome_bind]. rewrite Eq. cbn [mbind outcome_bind].
  apply IH; [lia|]. intros k Hk. apply H. lia.
Qed.

Lemma interface_id_range k : interface_id k -> 0 <= k < 7.
Proof. intros Hk; destruct Hk as [? []| | |]; lia. Qed.

Lemma range_interface_id k : 0 <= k < 7 -> interface_id k.
Proof.
  intros Hk. assert (k = 0 \/ k = 1 \/ k = 2 \/ k = 3 \/ k = 4 \/ k = 5 \/ k = 6) as H by lia.
  destruct H as [->|[->|[->|[->|[->|[->| ->]]]]]]; auto.
Qed.

Lemma interface_router_of x k : interface_id k -> Router.interface (router_of x) k = Ret (x k).
Proof. intros Hk; destruct Hk as [? []| | |]; reflexivity. Qed.

Lemma set_interface_router_of x k i :
  interface_id k -> Router.set_interface (router_of x) k i = router_of (upd k i x).
Proof. intros Hk; destruct Hk as [? []| | |]; reflexivity. Qed.

(** The interfaces other than [i] have nothing to forward. *)
Definition no_datagrams_but (i : Z) (x : Z -> AsyncNetworkInterface.t) : Prop :=
  forall k, interface_id k -> k <> i -> AsyncNetworkInterface.datagrams_out (x k) = [].
Definition no_datagrams (x : Z -> AsyncNetworkInterface.t) : Prop :=
  forall k, interface_id k -> AsyncNetworkInterface.datagrams_out (x k) = [].

Lemma route_still x : no_datagrams x -> Router.route (router_of x) = Ret (router_of x).
Proof.
  intros H. apply (route_from_still 7 (router_of x) 0); [lia|]. intros k Hk%range_interface_id.
  exists (x k). split; [by apply interface_router_of|auto].
Qed.

Lemma route_single x x1 i d :
  interface_id i -> no_datagrams_but i x -> no_datagrams_but i x1 ->
  AsyncNetworkInterface.datagrams_out (x i) = [d] -> AsyncNetworkInterface.datagrams_out (x1 i) = [d] ->
  Router.route_one_datagram (router_of x) d = Ret (router_of x1) ->
  Router.route (router_of x) = Ret (router_of (upd i (AsyncNetworkInterface.pop_datagram (x1 i)) x1)).
Proof.
  intros Hi Hx Hx1 Ei E1 Er. pose proof (interface_id_range i Hi) as Hr.
  unfold Router.route. change (length _) with 7%nat.
  replace 7%nat with (Z.to_nat i + (1 + (6 - Z.to_nat i)))%nat by lia. rewrite route_from_app by lia.
  rewrite (route_from_still (Z.to_nat i) (router_of x) 0); [|lia|].
  2: { intros k Hk. exists (x k). assert (interface_id k) as Hid by (apply range_interface_id; lia).
       split; [by apply interface_router_of|apply Hx; [done|lia]]. }
  cbn [mbind outcome_bind]. replace (0 + Z.of_nat (Z.to_nat i)) with i by lia. cbn [Nat.add Router.route_from].
  rewrite interface_router_of by done. cbn [mbind outcome_bind]. rewrite Ei. cbn [length Router.route_queue].
  rewrite interface_router_of by done. cbn [mbind outcome_bind]. rewrite Ei, Er. cbn [mbind outcome_bind].
  rewrite interface_router_of by done. cbn [mbind outcome_bind]. rewrite set_interface_router_of by done.
  set (x2 := upd i _ x1). rewrite interface_router_of by done. cbn [mbind outcome_bind].
  assert (no_datagrams x2) as H2.
  { intros k Hk. unfold x2, upd. destruct (Z.eqb_spec k i) as [->|]; [|by apply Hx1].
    unfold AsyncNetworkInterface.datagrams_out in *. simpl. by rewrite E1. }
  rewrite (H2 i Hi). cbn [mbind outcome_bind]. apply route_from_still; [lia|]. intros k Hk. exists (x2 k).
  split; [apply interface_router_of, range_interface_id; lia|apply H2, range_interface_id; lia].
Qed.

(** A datagram that has arrived at the interface [i] is sent out at [j]. *)
Lemma route_forwards x i j d info hop xj :
  interface_id i -> interface_id j -> no_datagrams_but i x ->
  AsyncNetworkInterface.datagrams_out (x i) = [d] -> 1 < IPv4Header.ttl (IPv4Datagram.header d) ->
  Router.find_route (IPv4Header.dst (IPv4Datagram.header d)) routes 0 None = Ret (Some info) ->
  interface_num info = j ->
  hop = match next_hop info with Some a => a | None => Address.ipv4 (IPv4Header.dst (IPv4Datagram.header d)) 0 end ->
  NetworkInterface.send_datagram (AsyncNetworkInterface.base (x j)) (Router.decrement_ttl d) hop = Ret xj ->
  Router.route (router_of x)
  = Ret (router_of (upd j (AsyncNetworkInterface.mk xj [])
      (upd i (AsyncNetworkInterface.mk (AsyncNetworkInterface.base (x i)) []) x))).
Proof.
  intros Hi Hj Hx Ei Ht Ef <- Eh Es.
  set (x1 := upd (interface_num info) (AsyncNetworkInterface.mk xj (AsyncNetworkInterface._datagrams_out (x (interface_num info)))) x).
  assert (forall k, AsyncNetworkInterface.datagrams_out (x1 k) = AsyncNetworkInterface.datagrams_out (x k)) as H1.
  { intros k. unfold x1, upd. destruct (Z.eqb_spec k (interface_num info)) as [->|]; done. }
  rewrite (route_single x x1 i d); [|done|done|intros k Hk Hne; rewrite H1; auto|done|by rewrite H1|].
  - f_equal. apply router_of_ext. intros k Hk. unfold x1, upd, AsyncNetworkInterface.pop_datagram.
    unfold AsyncNetworkInterface.datagrams_out in *.
    destruct (Z.eqb_spec k i) as [->|Hne]; destruct (Z.eqb_spec i (interface_num info)) as [E|Hne'].
    + by rewrite <- E, Ei.
    + by rewrite Ei.
    + by rewrite <- E, (proj2 (Z.eqb_neq _ _)).
    + destruct (Z.eqb_spec k (interface_num info)) as [->|]; [|done].
      specialize (Hx _ Hj Hne). unfold AsyncNetworkInterface.datagrams_out in Hx. by rewrite Hx.
  - unfold Router.route_one_datagram. rewrite (proj2 (Z.leb_gt _ _)) by lia. cbn [router_of Router._router_list].
    rewrite Ef. cbn [mbind outcome_bind]. rewrite from_ipv4_numeric_ipv4. cbn [mbind outcome_bind].
    fold (router_of x). rewrite interface_router_of by done. cbn [mbind outcome_bind]. rewrite <- Eh.
    unfold AsyncNetworkInterface.send_datagram. rewrite Es. cbn [mbind outcome_bind].
    by rewrite set_interface_router_of.
Qed.

(** A datagram that has no time left to live is dropped. *)
Lemma route_drops x i d :
  interface_id i -> no_datagrams_but i x -> AsyncNetworkInterface.datagrams_out (x i) = [d] ->
  IPv4Header.ttl (IPv4Datagram.header d) <= 1 ->
  Router.route (router_of x)
  = Ret (router_of (upd i (AsyncNetworkInterface.mk (AsyncNetworkInterface.base (x i)) []) x)).
Proof.
  intros Hi Hx Ei Ht. rewrite (route_single x x i d); [|done..|].
  - unfold AsyncNetworkInterface.pop_datagram, AsyncNetworkInterface.datagrams_out in *. by rewrite Ei.
  - unfold Router.route_one_datagram. by rewrite (proj2 (Z.leb_le _ _)).
Qed.

(** ** Rounds *)

(** The wires other than [i] carry nothing. *)
Record others_still (i : Z) (x : Z -> AsyncNetworkInterface.t) (y : Z -> Host.t) (z : Host.t) : Prop := {
  os_named : named y z;
  os_wires k : wire k -> k <> i -> still x y k;
  os_three : i = 4 \/ still3 x y z
}.

Lemma others_still_upd i x y z x' h :
  others_still i x y z -> i <> 4 -> Host.name h = Host.name (y i) -> others_still i (upd i x' x) (upd i h y) z.
Proof.
  intros [Hn Hw H3] Hi Hh. split; [by apply named_upd| |].
  - intros k Hk Hne. unfold still. rewrite !upd_ne by done. by apply Hw.
  - right. unfold still3. rewrite !upd_ne by done. by destruct H3.
Qed.

Lemma upd_upd {A} i (a a' : A) f k : upd i a (upd i a' f) k = upd i a f k.
Proof. unfold upd. by destruct (k =? i). Qed.

Lemma net_upd_upd i x y z xi xi' yi yi' :
  net (upd i xi (upd i xi' x)) (upd i yi (upd i yi' y)) z = net (upd i xi x) (upd i yi y) z.
Proof. apply net_ext; intros; apply upd_upd. Qed.

Lemma rounds_route m x x' y z :
  Router.route (router_of x) = Ret (router_of x') -> no_datagrams x' ->
  Network.rounds (S m) (net x y z) = Network.rounds (S m) (net x' y z).
Proof.
  intros E H. cbn [Network.rounds].
  change (Network._router (net x y z)) with (router_of x). change (Network._router (net x' y z)) with (router_of x').
  rewrite E, (route_still x' H). reflexivity.
Qed.

Lemma round_wire m x y z i x' y' :
  wire i -> no_datagrams x -> others_still i x y z ->
  Network.exchange_frames (x i) (Host.interface (y i)) = Ret (x', y') ->
  Network.rounds (S m) (net x y z) = Network.rounds m (net (upd i x' x) (upd i (Host.set_interface (y i) y') y) z).
Proof.
  intros Hi Hx [Hn Hw H3] E. cbn [Network.rounds]. change (Network._router (net x y z)) with (router_of x).
  rewrite (route_still x Hx). cbn [mbind outcome_bind].
  change (Network.set_router (net x y z) (router_of x)) with (net x y z).
  rewrite (physical_wire x y z i x' y') by (done || by destruct H3; subst; [inversion Hi|]). done.
Qed.

Lemma rounds_crossing n m x y z i x' y' :
  crossing n (x i) (Host.interface (y i)) x' y' -> wire i -> no_datagrams_but i x -> others_still i x y z ->
  Network.rounds (n + m) (net x y z)
  = Network.rounds m (net (upd i x' x) (upd i (Host.set_interface (y i) y') y) z).
Proof.
  intros Hc Hi. remember (x i) as xi eqn:Ex. remember (Host.interface (y i)) as yi eqn:Ey.
  revert x y Ex Ey. induction Hc as [xi yi|n xi yi x1 y1 x2 y2 Hd E Hc IH]; intros x y -> -> Hx Ho.
  - f_equal. symmetry. apply net_ext; intros k _; unfold upd; destruct (Z.eqb_spec k i) as [->|]; try done.
    apply set_interface_same.
  - cbn [Nat.add]. assert (i <> 4) as Hi4 by (by destruct Hi).
    rewrite (round_wire (n + m) x y z i x1 y1); [|done| |done|done].
    + rewrite IH; [|by rewrite upd_eq|by rewrite upd_eq|..].
      * rewrite net_upd_upd, upd_eq. done.
      * intros k Hk Hne. rewrite upd_ne by done. by apply Hx.
      * by apply others_still_upd.
    + intros k Hk. destruct (decide (k = i)) as [->|]; [done|by apply Hx].
Qed.

Lemma rounds_still m x y z :
  no_datagrams x -> others_still 0 x y z -> still x y 0 -> Network.rounds m (net x y z) = Ret (net x y z).
Proof.
  intros Hx Ho H0. induction m as [|m IH]; [done|].
  rewrite (round_wire m x y z 0 _ _ wire_default Hx Ho H0). rewrite <- IH. f_equal.
  apply net_ext; intros k _; unfold upd; destruct (Z.eqb_spec k 0) as [->|]; try done. apply set_interface_same.
Qed.

(** ** What is received is what was expected *)

Lemma same_wire d d' : IPv4Datagram.fits d -> same_datagram d d' -> Host.wire d' = Host.wire d.
Proof.
  intros [Hv Hl] (ck & b & -> & Hb & _). destruct d as [h pl]. simpl in *.
  pose proof (IPv4Header.v_len _ Hv) as Hu. unfold is_u16 in Hu. pose proof (IPv4Header.v_hlen _ Hv).
  unfold Host.wire, IPv4Datagram.serialize. cbn [IPv4Datagram._payload IPv4Datagram._header].
  rewrite !BufferList.bl_size_bytes by (rewrite ?BufferList.bytes_of_buffer, ?Hb; lia).
  rewrite BufferList.bytes_of_buffer, Hb.
  change (IPv4Header.payload_length (IPv4Header.set_cksum h ck)) with (IPv4Header.payload_length h).
  change (IPv4Header.set_cksum (IPv4Header.set_cksum h ck) 0) with (IPv4Header.set_cksum h 0).
  destruct (negb _); [done|]. destruct (IPv4Header.serialize _) as [s0|]; [|done]. cbn [mbind outcome_bind].
  destruct (IPv4Header.serialize _) as [s1|]; [|done]. cbn [mbind outcome_bind].
  by rewrite !BufferList.concatenate_bytes, !BufferList.bytes_append, BufferList.bytes_of_buffer, Hb.
Qed.

(** After two wires and a router between them. *)
Lemma forwarded_wire d d1 d2 :
  IPv4Datagram.fits d -> same_datagram d d1 -> same_datagram (Router.decrement_ttl d1) d2 ->
  Host.wire d2 = Host.wire (Router.decrement_ttl d).
Proof.
  intros Hd H1 H2. rewrite (same_wire _ _ (decrement_ttl_fits _ (same_fits _ _ Hd H1)) H2).
  apply same_wire; [by apply decrement_ttl_fits|by apply same_decrement].
Qed.

Lemma fits_wire d : IPv4Datagram.fits d -> exists s, Host.wire d = Ret s.
Proof. intros Hd. destruct (datagram_serialize d Hd) as (bl & _ & E & _). unfold Host.wire. rewrite E. by eexists. Qed.

Lemma dec_digits_length n k : (length (dec_digits n k) <= n)%nat.
Proof.
  revert k. induction n as [|n IH]; intros k; simpl; [lia|]. case_match; simpl; [lia|].
  rewrite length_app. specialize (IH (k / 10)). simpl. lia.
Qed.

Lemma datagram_fits src dst ttl r :
  is_u32 src -> is_u32 dst -> is_u8 ttl ->
  IPv4Datagram.fits
    (Host.datagram src dst ttl (chars "random payload: {" ++ std_to_string r ++ chars "}")).
Proof.
  intros Hs Hd Ht. set (p := chars "random payload: {" ++ std_to_string r ++ chars "}").
  assert (0 <= zlen p <= 100) as Hp.
  { unfold p, zlen. rewrite !length_app. pose proof (dec_digits_length 20 r). unfold std_to_string.
    change (length (chars "random payload: {")) with 17%nat. change (length (chars "}")) with 1%nat. lia. }
  unfold Host.datagram. cbv zeta. split.
  - split; try done. apply uint16_range.
  - cbn [IPv4Datagram._header IPv4Datagram._payload IPv4Header.len IPv4Header.hlen IPv4Header.default].
    rewrite BufferList.bl_size_bytes; rewrite BufferList.bl_bytes_of_string; [|lia].
    change (IPv4Header.LENGTH / 4) with 5. nowrap. lia.
Qed.

Lemma check_idle h :
  AsyncNetworkInterface.datagrams_out (Host.interface h) = [] -> Host._expecting_to_receive h = [] ->
  Host.check h = Ret h.
Proof.
  unfold Host.check, Host.interface. intros -> He. cbn [Host.check_loop mbind outcome_bind]. by rewrite He.
Qed.

Lemma check_received name a c cache hop e d :
  IPv4Datagram.fits e -> Host.wire d = Host.wire e ->
  Host.check (Host.mk name a (st c [] ∅ cache [d]) hop [e]) = Ret (Host.mk name a (st c [] ∅ cache []) hop []).
Proof.
  intros He E. destruct (fits_wire e He) as (s & Es). rewrite Es in E.
  unfold Host.check, Host.check_loop. cbn [Host._interface AsyncNetworkInterface.datagrams_out
    AsyncNetworkInterface._datagrams_out st Host._expecting_to_receive Host.expecting].
  rewrite E, Es. cbn [mbind outcome_bind]. rewrite decide_True by done. cbn [mbind outcome_bind negb Host.remove_expectation].
  rewrite E, Es. cbn [mbind outcome_bind]. rewrite decide_True by done. reflexivity.
Qed.

(** ** One exchange of the program *)

Section Transfers.
Variables (rd : nat -> Z) (rc hc : Z -> card) (zc : card) (hop : Z -> Address.t) (zhop : Address.t).
Hypothesis rc_ok : forall i, wire i \/ i = 4 -> card_ok (rc i).
Hypothesis hc_ok : forall i, wire i \/ i = 4 -> card_ok (hc i).
Hypothesis zc_ok : card_ok zc.
Hypothesis ips_differ : forall i, wire i \/ i = 4 -> own (hc i) <> own (rc i).
Hypothesis hop_ok : forall i, i = 1 \/ i = 3 \/ i = 4 -> Address.ipv4_numeric (hop i) = Ret (own (rc i)).

Definition hst (i : Z) (interface : AsyncNetworkInterface.t) (e : list IPv4Datagram.t) : Host.t :=
  Host.mk (host_name i) (addr (hc i)) interface (hop i) e.
Definition zst (interface : AsyncNetworkInterface.t) (e : list IPv4Datagram.t) : Host.t :=
  Host.mk (chars "dm43") (addr zc) interface zhop e.

(** The state of a wire, and of the wire with two hosts, between two exchanges. *)
Definition idle_wire (x : Z -> AsyncNetworkInterface.t) (y : Z -> Host.t) (i : Z) : Prop :=
  exists cx cy, x i = st (rc i) [] ∅ cx [] /\ y i = hst i (st (hc i) [] ∅ cy []) []
    /\ knowledge (hc i) (rc i) cy cx.
Record idle (c4x c4y c4z : IP2EthernetCache.t) (x : Z -> AsyncNetworkInterface.t) (y : Z -> Host.t) (z : Host.t)
    : Prop := {
  idle_wires i : wire i -> idle_wire x y i;
  idle_x4 : x 4 = st (rc 4) [] ∅ c4x [];
  idle_y4 : y 4 = hst 4 (st (hc 4) [] ∅ c4y []) [];
  idle_z : z = zst (st zc [] ∅ c4z []) [];
  idle_eth1 : AsyncNetworkInterface.datagrams_out (x 2) = [];
  idle_mit5 : AsyncNetworkInterface.datagrams_out (x 6) = []
}.

(** A wire whose stations have nothing to send. *)
Definition calm (x : Z -> AsyncNetworkInterface.t) (y : Z -> Host.t) (i : Z) : Prop :=
  exists cx dx cy dy e, x i = st (rc i) [] ∅ cx dx /\ y i = hst i (st (hc i) [] ∅ cy dy) e.
Definition calm3 (x : Z -> AsyncNetworkInterface.t) (y : Z -> Host.t) (z : Host.t) : Prop :=
  exists cx dx cy dy e cz dz ez, x 4 = st (rc 4) [] ∅ cx dx /\ y 4 = hst 4 (st (hc 4) [] ∅ cy dy) e
    /\ z = zst (st zc [] ∅ cz dz) ez.

Lemma calm_still x y i : calm x y i -> still x y i.
Proof. intros (? & ? & ? & ? & ? & Ex & Ey). unfold still. rewrite Ex, Ey. by apply exchange_from_y. Qed.
Lemma calm3_still x y z : calm3 x y z -> still3 x y z.
Proof.
  intros (? & ? & ? & ? & ? & ? & ? & ? & Ex & Ey & Ez). unfold still3. rewrite Ex, Ey, Ez.
  by apply exchange3_from_y.
Qed.

Lemma idle_calm x y i : idle_wire x y i -> calm x y i.
Proof. intros (? & ? & Ex & Ey & _). by do 5 eexists. Qed.
Lemma calm_upd x y i xi yi k : k <> i -> calm x y k -> calm (upd i xi x) (upd i yi y) k.
Proof. intros Hk. unfold calm. by rewrite !upd_ne. Qed.
Lemma calm3_upd x y z i xi yi : 4 <> i -> calm3 x y z -> calm3 (upd i xi x) (upd i yi y) z.
Proof. intros Hi. unfold calm3. by rewrite !upd_ne. Qed.
Lemma calm_name x y i : calm x y i -> Host.name (y i) = host_name i.
Proof. by intros (? & ? & ? & ? & ? & _ & ->). Qed.

Lemma idle_no_datagrams c1 c2 c3 x y z : idle c1 c2 c3 x y z -> no_datagrams x.
Proof.
  intros H k Hk. destruct Hk as [k Hk| | |]; [|apply H| |apply H].
  - by destruct (idle_wires _ _ _ _ _ _ H k Hk) as (? & ? & -> & _).
  - by rewrite (idle_x4 _ _ _ _ _ _ H).
Qed.

Lemma idle_calm3 c1 c2 c3 x y z : idle c1 c2 c3 x y z -> calm3 x y z.
Proof. intros []. by do 8 eexists. Qed.

(** All wires but [i] calm, and [i] named. *)
Lemma calm_others x y z i :
  (forall k, wire k -> k <> i -> calm x y k) -> calm3 x y z -> Host.name (y i) = host_name i -> others_still i x y z.
Proof.
  intros Hw H3 Hn. split.
  - split; [|by destruct H3 as (? & ? & ? & ? & ? & ? & ? & ? & _ & _ & ->)].
    intros k [Hk| ->]; [|by destruct H3 as (? & ? & ? & ? & ? & ? & ? & ? & _ & -> & _)].
    destruct (decide (k = i)) as [->|Hne]; [done|by eapply calm_name, Hw].
  - intros k Hk Hne. by apply calm_still, Hw.
  - right. by apply calm3_still.
Qed.

Lemma idle_upd_wires c1 c2 c3 x y z x' y' :
  idle c1 c2 c3 x y z -> (forall i, wire i -> idle_wire x' y' i) ->
  x' 4 = x 4 -> y' 4 = y 4 -> x' 2 = x 2 -> x' 6 = x 6 -> idle c1 c2 c3 x' y' z.
Proof. intros [] Hw E1 E2 E3 E4. split; (done || congruence). Qed.

Lemma set_host_net x y z i h :
  wire i \/ i = 4 -> Network.set_host (net x y z) (host_name i) h = net x (upd i h y) z.
Proof. intros [[]| ->]; reflexivity. Qed.

Lemma host_address_ip i :
  wire i \/ i = 4 -> Address.ipv4_numeric (addr (hc i)) = Ret (own (hc i)).
Proof. intros Hi. apply hc_ok, Hi. Qed.

(** The datagram that the host of a wire sends. *)
Definition sent (i dst ttl : Z) (n : nat) : IPv4Datagram.t :=
  Host.datagram (own (hc i)) dst ttl (chars "random payload: {" ++ std_to_string (rd n) ++ chars "}").

Lemma sent_fits i dst ttl n : wire i \/ i = 4 -> is_u32 dst -> is_u8 ttl -> IPv4Datagram.fits (sent i dst ttl n).
Proof. intros Hi Hd Ht. apply datagram_fits; [apply hc_ok, Hi|done|done]. Qed.

Lemma send_net x y z i a dst ttl n s1 interface e :
  named y z -> wire i \/ i = 4 -> y i = hst i interface e -> Address.ipv4_numeric a = Ret dst ->
  AsyncNetworkInterface.send_datagram interface (sent i dst ttl n) (hop i) = Ret s1 ->
  Network.send rd (net x y z) (host_name i) (Ret a) ttl n
  = Ret (net x (upd i (hst i s1 e) y) z, sent i dst ttl n, S n).
Proof.
  intros Hn Hi Ey Ha Es. unfold Network.send. unfold mbind, prog_bind, lift. rewrite host_net by done.
  unfold Host.send_to. rewrite Ey. unfold mbind, prog_bind, lift, hst. cbn [Host._my_address Host._interface Host._next_hop].
  rewrite host_address_ip by done. rewrite Ha. unfold draw. fold (sent i dst ttl n). rewrite Es.
  unfold mret, prog_ret. by rewrite <- (set_host_net x y z i) by done.
Qed.

Lemma rounds_calm m x y z :
  no_datagrams x -> (forall k, wire k -> calm x y k) -> calm3 x y z ->
  Network.rounds m (net x y z) = Ret (net x y z).
Proof.
  intros Hx Hc H3. apply rounds_still; [done| |by apply calm_still, Hc].
  apply calm_others; [auto|done|]. eapply calm_name, Hc. done.
Qed.

Lemma async_send interface d a s1 :
  AsyncNetworkInterface.send_datagram interface d a = Ret s1 ->
  exists b, NetworkInterface.send_datagram (AsyncNetworkInterface.base interface) d a = Ret b
    /\ s1 = AsyncNetworkInterface.mk b (AsyncNetworkInterface._datagrams_out interface).
Proof. intros (b & E & Eb)%bind_Ret. apply Ret_inj in Eb. eauto. Qed.

(** Where a datagram that arrives at the router goes. *)
Definition routed (dst j : Z) (target : card) : Prop :=
  exists info, Router.find_route dst routes 0 None = Ret (Some info) /\ interface_num info = j
    /\ Address.ipv4_numeric (match next_hop info with Some a => a | None => Address.ipv4 dst 0 end)
       = Ret (own target).

(** The rounds that bring a datagram from the interface [i] of the router to the host
    at [j]. *)
Lemma forward_rounds m x y z i j d :
  wire i -> wire j -> i <> j -> (4 <= m)%nat ->
  (forall k, wire k -> calm x y k) -> calm3 x y z -> no_datagrams_but i x ->
  (exists cx, x i = st (rc i) [] ∅ cx [d]) ->
  (exists cx cy e, x j = st (rc j) [] ∅ cx [] /\ y j = hst j (st (hc j) [] ∅ cy []) e
     /\ knowledge (hc j) (rc j) cy cx) ->
  IPv4Datagram.fits d -> 1 < IPv4Header.ttl (IPv4Datagram.header d) ->
  routed (IPv4Header.dst (IPv4Datagram.header d)) j (hc j) ->
  exists cx cy d', same_datagram (Router.decrement_ttl d) d' /\ knowledge (hc j) (rc j) cy cx /\
    Network.rounds m (net x y z)
    = Ret (net (upd j (st (rc j) [] ∅ cx []) (upd i (AsyncNetworkInterface.mk (AsyncNetworkInterface.base (x i)) []) x))
             (upd j (Host.set_interface (y j) (st (hc j) [] ∅ cy [d'])) y) z).
Proof.
  intros Hi Hj Hij Hm Hc H3 Hx (ci & Ei) (cx & cy & e & Ex & Ey & Hk) Hf Ht (info & Ef & En & Eh).
  assert (wire j \/ j = 4) as Hj4 by auto.
  destruct (cross_down (rc j) (hc j) cx cy (Router.decrement_ttl d) _ (rc_ok j Hj4) (hc_ok j Hj4)
    (not_eq_sym (ips_differ j Hj4)) (knowledge_sym _ _ _ _ Hk) (decrement_ttl_fits d Hf) Eh)
    as (n & s1 & cs' & cr' & d' & Es & _ & Hcr & Hn & Hsd & Hk').
  exists cs', cr', d'. split; [done|]. split; [by apply knowledge_sym|].
  destruct (async_send _ _ _ _ Es) as (b & Eb & ->).
  set (x1 := upd i (AsyncNetworkInterface.mk (AsyncNetworkInterface.base (x i)) []) x).
  set (x2 := upd j (AsyncNetworkInterface.mk b []) x1).
  assert (no_datagrams x2) as Hx2.
  { intros k Hk2. unfold x2, x1, upd. destruct (Z.eqb_spec k j); [done|]. destruct (Z.eqb_spec k i); [done|by apply Hx]. }
  destruct m as [|m]; [lia|].
  assert (Router.route (router_of x) = Ret (router_of x2)) as Er.
  { eapply (route_forwards x i j d info); [auto..|by rewrite Ei|done|done|done|reflexivity|].
    rewrite Ex. exact Eb. }
  rewrite (rounds_route m x x2) by done.
  assert (forall k, wire k -> k <> j -> calm x2 y k) as Hc2.
  { intros k Hk2 Hne. unfold x2. destruct (Hc k Hk2) as (c1 & d1 & c2 & d2 & e2 & E1 & E2). unfold calm. rewrite upd_ne by done.
    unfold x1, upd. destruct (Z.eqb_spec k i) as [->|]; [|by do 5 eexists].
    rewrite Ei. by do 5 eexists. }
  assert (calm3 x2 y z) as H32.
  { destruct (wire_ne4 i Hi) as [? _], (wire_ne4 j Hj) as [? _]. unfold calm3, x2, x1. by rewrite !upd_ne. }
  assert (others_still j x2 y z) as Ho by (apply calm_others; [done..|by rewrite Ey]).
  assert (no_datagrams_but j x2) as Hx2' by (intros k Hk2 _; by apply Hx2).
  assert (crossing n (x2 j) (Host.interface (y j)) (st (rc j) [] ∅ cs' []) (st (hc j) [] ∅ cr' [d'])) as Hcr'.
  { unfold x2. rewrite upd_eq, Ey. exact Hcr. }
  replace (S m) with (n + (S m - n))%nat by lia.
  rewrite (rounds_crossing n (S m - n) x2 y z j _ _ Hcr' Hj Hx2' Ho).
  assert (net (upd j (st (rc j) [] ∅ cs' []) x2) (upd j (Host.set_interface (y j) (st (hc j) [] ∅ cr' [d'])) y) z
    = net (upd j (st (rc j) [] ∅ cs' []) x1) (upd j (Host.set_interface (y j) (st (hc j) [] ∅ cr' [d'])) y) z) as ->.
  { apply net_ext; [|done]. intros k _. unfold x2. apply upd_upd. }
  apply rounds_calm.
  - intros k Hk2. unfold upd at 1. destruct (Z.eqb_spec k j) as [->|Hne]; [done|].
    specialize (Hx2 k Hk2). unfold x2 in Hx2. by rewrite upd_ne in Hx2.
  - intros k Hk2. destruct (decide (k = j)) as [->|Hne].
    + unfold calm. rewrite !upd_eq, Ey. by do 5 eexists.
    + apply calm_upd; [done|]. specialize (Hc2 k Hk2 Hne). unfold calm, x2 in Hc2. by rewrite upd_ne in Hc2.
  - destruct (wire_ne4 j Hj) as [? _]. apply calm3_upd; [done|]. unfold calm3, x2 in *. by rewrite upd_ne in H32.
Qed.

Lemma check_net x y y' z z' :
  (forall k, wire k \/ k = 4 -> Host.check (y k) = Ret (y' k)) -> Host.check z = Ret z' ->
  (hosts ← Network.check_hosts (Network._hosts (net x y z)); Ret (Network.set_hosts (net x y z) hosts))
  = Ret (net x y' z').
Proof.
  intros Hy Hz. cbn [net Network._hosts Network.check_hosts].
  rewrite (Hy 1) by auto. cbn [mbind outcome_bind]. rewrite (Hy 0) by auto. cbn [mbind outcome_bind].
  rewrite (Hy 3) by auto. cbn [mbind outcome_bind]. rewrite (Hy 5) by auto. cbn [mbind outcome_bind].
  rewrite (Hy 4) by auto. cbn [mbind outcome_bind]. rewrite Hz. reflexivity.
Qed.

Lemma idle_check c1 c2 c3 x y z k : idle c1 c2 c3 x y z -> wire k \/ k = 4 -> Host.check (y k) = Ret (y k).
Proof.
  intros H [Hk| ->].
  - destruct (idle_wires _ _ _ _ _ _ H k Hk) as (? & ? & _ & -> & _). by apply check_idle.
  - rewrite (idle_y4 _ _ _ _ _ _ H). by apply check_idle.
Qed.

Lemma idle_named c1 c2 c3 x y z : idle c1 c2 c3 x y z -> named y z.
Proof.
  intros H. split; [|by rewrite (idle_z _ _ _ _ _ _ H)]. intros k [Hk| ->].
  - by eapply calm_name, idle_calm, H.
  - by rewrite (idle_y4 _ _ _ _ _ _ H).
Qed.

(** What sending does: after at most three rounds the router has the datagram. *)
Lemma send_rounds c1 c2 c3 x y z i d :
  i = 1 \/ i = 3 -> idle c1 c2 c3 x y z -> IPv4Datagram.fits d ->
  exists k s1 cx cy d', AsyncNetworkInterface.send_datagram (Host.interface (y i)) d (hop i) = Ret s1
    /\ (k <= 3)%nat /\ same_datagram d d' /\ knowledge (hc i) (rc i) cy cx
    /\ forall m y1, y1 i = hst i s1 [] -> (forall k, wire k -> k <> i -> calm x y1 k) -> calm3 x y1 z ->
         Network.rounds (k + m) (net x y1 z)
         = Network.rounds m (net (upd i (st (rc i) [] ∅ cx [d']) x) (upd i (hst i (st (hc i) [] ∅ cy []) []) y1) z).
Proof.
  intros Hi Hidle Hd. assert (wire i) as Hw by (by destruct Hi; subst).
  destruct (idle_wires _ _ _ _ _ _ Hidle i Hw) as (cx & cy & Ex & Ey & Hk).
  destruct (cross_up (hc i) (rc i) cy cx d (hop i)) as (k & s1 & cs & cr & d' & Es & Hcr & Hk3 & Hsd & Hk');
    [by apply hc_ok; left|by apply rc_ok; left|by apply ips_differ; left|done|done|apply hop_ok; lia|].
  exists k, s1, cr, cs, d'. rewrite Ey. split_and!; try done. intros m y1 E1 Hc H3.
  rewrite (rounds_crossing k m x y1 z i (st (rc i) [] ∅ cr [d']) (st (hc i) [] ∅ cs [])).
  - by rewrite E1.
  - by rewrite Ex, E1.
  - done.
  - intros k' Hk2 _. by apply (idle_no_datagrams _ _ _ _ _ _ Hidle).
  - apply calm_others; [done..|by rewrite E1].
Qed.

(** A datagram has come from wire [i] to the host of wire [j], which expects it. *)
Definition arrived (x : Z -> AsyncNetworkInterface.t) (y : Z -> Host.t) (i j : Z) (e : IPv4Datagram.t)
    (x' : Z -> AsyncNetworkInterface.t) (y' : Z -> Host.t) : Prop :=
  idle_wire x' y' i
  /\ (exists cx cy d, x' j = st (rc j) [] ∅ cx [] /\ y' j = hst j (st (hc j) [] ∅ cy [d]) [e]
        /\ knowledge (hc j) (rc j) cy cx /\ Host.wire d = Host.wire e)
  /\ forall l, l <> i -> l <> j -> x' l = x l /\ y' l = y l.

(** The check finds the expected datagram and nothing else; the network is idle again. *)
Lemma arrived_checks c1 c2 c3 x y z i j e x' y' :
  wire i -> wire j -> i <> j -> idle c1 c2 c3 x y z -> IPv4Datagram.fits e -> arrived x y i j e x' y' ->
  exists y2, (forall l, wire l \/ l = 4 -> Host.check (y' l) = Ret (y2 l)) /\ idle c1 c2 c3 x' y2 z.
Proof.
  intros Hw Hj Hij Hidle He (Hi & (cx & cy & d & Ex & Ey & Hk & Ed) & Hl).
  destruct (wire_ne4 i Hw) as (I4 & I2 & I6), (wire_ne4 j Hj) as (J4 & J2 & J6).
  exists (upd j (hst j (st (hc j) [] ∅ cy []) []) y'). split.
  - intros l Hwl. destruct (decide (l = j)) as [->|Hlj].
    { rewrite upd_eq, Ey. by apply check_received. }
    rewrite upd_ne by done. destruct (decide (l = i)) as [->|Hli].
    + destruct Hi as (? & ? & _ & -> & _). by apply check_idle.
    + rewrite (proj2 (Hl l Hli Hlj)). by eapply idle_check.
  - apply (idle_upd_wires _ _ _ x y); [done| |..]; [|rewrite ?upd_ne by done; by apply Hl..].
    intros l Hwl. unfold idle_wire. destruct (decide (l = j)) as [->|Hlj].
    { rewrite upd_eq. by exists cx, cy. }
    rewrite upd_ne by done. destruct (decide (l = i)) as [->|Hli]; [done|].
    destruct (Hl l Hli Hlj) as [-> ->]. by apply Hidle.
Qed.

(** Sending over wire [i] to the host of wire [j]: the rounds of one simulation carry the
    datagram through the router. *)
Lemma transfer_rounds c1 c2 c3 x y z i j dst n :
  i = 1 \/ i = 3 -> wire j -> i <> j -> idle c1 c2 c3 x y z -> is_u32 dst -> routed dst j (hc j) ->
  let e := Router.decrement_ttl (sent i dst 64 n) in
  exists s1 x' y', AsyncNetworkInterface.send_datagram (Host.interface (y i)) (sent i dst 64 n) (hop i) = Ret s1
    /\ Network.rounds 256 (net x (upd j (Host.expect (y j) e) (upd i (hst i s1 []) y)) z) = Ret (net x' y' z)
    /\ arrived x y i j e x' y'.
Proof.
  intros Hi Hj Hij Hidle Hdst Hr e. assert (wire i) as Hw by (by destruct Hi; subst).
  assert (IPv4Datagram.fits (sent i dst 64 n)) as Hf by (apply sent_fits; [auto|done|done]).
  destruct (send_rounds _ _ _ _ _ _ i (sent i dst 64 n) Hi Hidle Hf)
    as (k & s1 & ci & ciy & d1 & Es & Hk & Hsd & Hki & Hup).
  destruct (idle_wires _ _ _ _ _ _ Hidle j Hj) as (cx & cy & Ex & Ey & Hkj).
  destruct (wire_ne4 i Hw) as (I4 & I2 & I6), (wire_ne4 j Hj) as (J4 & J2 & J6).
  set (y1 := upd j (Host.expect (y j) e) (upd i (hst i s1 []) y)). set (x2 := upd i (st (rc i) [] ∅ ci [d1]) x).
  set (y2 := upd i (hst i (st (hc i) [] ∅ ciy []) []) y1).
  assert (y1 i = hst i s1 []) as E1i by (unfold y1; rewrite upd_ne, upd_eq by done; done).
  assert (y1 j = hst j (st (hc j) [] ∅ cy []) [e]) as E1j by (unfold y1; rewrite upd_eq, Ey; done).
  assert (forall l, wire l -> l <> i -> calm x y1 l) as Hc1.
  { intros l Hl Hne. unfold calm. destruct (decide (l = j)) as [->|]; [rewrite E1j; by do 5 eexists|].
    unfold y1. rewrite !upd_ne by done. by apply idle_calm, Hidle. }
  assert (calm3 x y1 z) as H31.
  { pose proof (idle_calm3 _ _ _ _ _ _ Hidle). unfold calm3, y1. by rewrite !upd_ne. }
  destruct (same_ttl_dst _ _ Hsd) as [Et Ed].
  assert (y2 j = hst j (st (hc j) [] ∅ cy []) [e]) as E2j by (unfold y2; by rewrite upd_ne).
  destruct (forward_rounds (256 - k) x2 y2 z i j d1) as (cx' & cy' & d2 & Hsd2 & Hk2 & Hdown).
  { done. } { done. } { done. } { lia. }
  { intros l Hl. destruct (decide (l = i)) as [->|]; [unfold calm, x2, y2; rewrite !upd_eq; by do 5 eexists|].
    apply calm_upd; auto. }
  { by apply calm3_upd. }
  { intros l Hl Hne. unfold x2. rewrite upd_ne by done. by apply (idle_no_datagrams _ _ _ _ _ _ Hidle). }
  { exists ci. unfold x2. by rewrite upd_eq. }
  { exists cx, cy, [e]. split; [|by split]. unfold x2. by rewrite upd_ne by done. }
  { by apply (same_fits (sent i dst 64 n)). }
  { rewrite Et. simpl. lia. }
  { rewrite Ed. exact Hr. }
  exists s1. do 2 eexists. split; [exact Es|]. fold y1. replace 256%nat with (k + (256 - k))%nat by lia.
  rewrite (Hup (256 - k)%nat y1 E1i Hc1 H31). fold x2 y2. split; [exact Hdown|]. split_and!.
  - exists ci, ciy. rewrite !(upd_ne j), upd_eq by done. unfold x2, y2. by rewrite !upd_eq.
  - exists cx', cy', d2. rewrite !upd_eq, E2j. split_and!; try done. by apply (forwarded_wire _ d1).
  - intros l Hli Hlj. unfold x2, y2, y1. by rewrite !upd_ne.
Qed.

Lemma transfer_ok c1 c2 c3 x y z i j a dst n :
  i = 1 \/ i = 3 -> wire j -> i <> j -> idle c1 c2 c3 x y z -> Address.ipv4_numeric a = Ret dst -> is_u32 dst ->
  routed dst j (hc j) ->
  exists x' y', Network.transfer rd (net x y z) (host_name i) (Ret a) (host_name j) n = Ret (net x' y' z, S n)
    /\ idle c1 c2 c3 x' y' z.
Proof.
  intros Hi Hj Hij Hidle Ha Hdst Hr. assert (wire i) as Hw by (by destruct Hi; subst).
  destruct (transfer_rounds _ _ _ _ _ _ i j dst n Hi Hj Hij Hidle Hdst Hr) as (s1 & x' & y' & Es & Hrd & Harr).
  destruct (arrived_checks _ _ _ _ _ _ _ _ _ _ _ Hw Hj Hij Hidle
              (decrement_ttl_fits _ (sent_fits i dst 64 n ltac:(auto) Hdst ltac:(done))) Harr) as (y2 & Hck & Hidle2).
  destruct (idle_wires _ _ _ _ _ _ Hidle i Hw) as (_ & cyi & _ & Eyi & _).
  exists x', y2. split; [|done]. unfold Network.transfer. unfold mbind, prog_bind.
  rewrite (send_net x y z i a dst 64 n s1 (st (hc i) [] ∅ cyi []) []);
    [|by eapply idle_named|auto|done|done|rewrite Eyi in Es; exact Es].
  unfold lift. rewrite host_net; [|apply named_upd; [by eapply idle_named|by rewrite Eyi]|auto].
  rewrite set_host_net by auto. rewrite upd_ne by done.
  unfold Network.simulate. rewrite Hrd. cbn [mbind outcome_bind].
  rewrite (check_net x' _ y2 z z); [done|done|]. by rewrite (idle_z _ _ _ _ _ _ Hidle); apply check_idle.
Qed.

(** A datagram without time to live reaches the router and goes no further. *)
Lemma expire_ok c1 c2 c3 x y z i a dst ttl n :
  i = 1 \/ i = 3 -> idle c1 c2 c3 x y z -> Address.ipv4_numeric a = Ret dst -> is_u32 dst -> 0 <= ttl <= 1 ->
  exists x' y', Network.expire rd (net x y z) (host_name i) (Ret a) ttl n = Ret (net x' y' z, S n)
    /\ idle c1 c2 c3 x' y' z.
Proof.
  intros Hi Hidle Ha Hdst Ht. assert (wire i) as Hw by (by destruct Hi; subst).
  assert (IPv4Datagram.fits (sent i dst ttl n)) as Hf by (apply sent_fits; [auto|done|unfold is_u8; lia]).
  destruct (send_rounds _ _ _ _ _ _ i (sent i dst ttl n) Hi Hidle Hf)
    as (k & s1 & ci & ciy & d1 & Es & Hk & Hsd & Hki & Hup).
  destruct (idle_wires _ _ _ _ _ _ Hidle i Hw) as (_ & cyi & _ & Eyi & _).
  destruct (wire_ne4 i Hw) as (I4 & I2 & I6), (same_ttl_dst _ _ Hsd) as [Et Ed].
  pose proof (idle_no_datagrams _ _ _ _ _ _ Hidle) as Hx.
  set (x2 := upd i (st (rc i) [] ∅ ci [d1]) x). set (x3 := upd i (st (rc i) [] ∅ ci []) x).
  set (y2 := upd i (hst i (st (hc i) [] ∅ ciy []) []) y).
  assert (idle c1 c2 c3 x3 y2 z) as Hidle'.
  { apply (idle_upd_wires _ _ _ x y); [done| |by unfold x3, y2; rewrite ?upd_ne..].
    intros l Hl. unfold idle_wire, x3, y2. destruct (decide (l = i)) as [->|Hli].
    - rewrite !upd_eq. by do 2 eexists.
    - rewrite !upd_ne by done. by apply Hidle. }
  assert (Router.route (router_of x2) = Ret (router_of x3)) as Er.
  { rewrite (route_drops x2 i d1); [| auto |..].
    - f_equal. apply router_of_ext. intros l Hl. unfold x2, x3. rewrite upd_eq, upd_upd. done.
    - intros l Hl Hne. unfold x2. rewrite upd_ne by done. auto.
    - unfold x2. by rewrite upd_eq.
    - rewrite Et. simpl. lia. }
  exists x3, y2. split; [|done]. unfold Network.expire. unfold mbind, prog_bind.
  rewrite (send_net x y z i a dst ttl n s1 (st (hc i) [] ∅ cyi []) []);
    [|by eapply idle_named|auto|done|done|rewrite Eyi in Es; exact Es].
  unfold lift, Network.simulate. replace 256%nat with (k + S (255 - k))%nat by lia.
  rewrite Hup; [|by rewrite upd_eq|intros l Hl Hne|].
  - rewrite (net_ext _ x2 _ y2) by (done || (intros; apply upd_upd)).
    rewrite (rounds_route _ x2 x3) by (done || by eapply idle_no_datagrams).
    rewrite rounds_calm; [|by eapply idle_no_datagrams|intros; by apply idle_calm, Hidle'|by eapply idle_calm3].
    cbn [mbind outcome_bind]. rewrite (check_net x3 y2 y2 z z); [done|intros; by eapply idle_check|].
    rewrite (idle_z _ _ _ _ _ _ Hidle). by apply check_idle.
  - unfold calm. rewrite upd_ne by done. by apply idle_calm, Hidle.
  - pose proof (idle_calm3 _ _ _ _ _ _ Hidle). unfold calm3. by rewrite upd_ne.
Qed.

(** ** The wire with two hosts *)

Inductive crossing3 : nat -> AsyncNetworkInterface.t -> AsyncNetworkInterface.t -> AsyncNetworkInterface.t ->
    AsyncNetworkInterface.t -> AsyncNetworkInterface.t -> AsyncNetworkInterface.t -> Prop :=
  | crossing3_refl x y z : crossing3 0 x y z x y z
  | crossing3_step n x y z x1 y1 z1 x2 y2 z2 :
      AsyncNetworkInterface.datagrams_out x = [] -> Network.exchange_frames3 x y z = Ret (x1, y1, z1) ->
      crossing3 n x1 y1 z1 x2 y2 z2 -> crossing3 (S n) x y z x2 y2 z2.

Lemma rounds_crossing3 n m x y z x' y' z' :
  crossing3 n (x 4) (Host.interface (y 4)) (Host.interface z) x' y' z' -> named y z -> no_datagrams_but 4 x ->
  (forall k, wire k -> still x y k) ->
  Network.rounds (n + m) (net x y z)
  = Network.rounds m (net (upd 4 x' x) (upd 4 (Host.set_interface (y 4) y') y) (Host.set_interface z z')).
Proof.
  intros Hc. remember (x 4) as xi eqn:Ex. remember (Host.interface (y 4)) as yi eqn:Ey.
  remember (Host.interface z) as zi eqn:Ez. revert x y z Ex Ey Ez.
  induction Hc as [xi yi zi|n xi yi zi x1 y1 z1 x2 y2 z2 Hd E Hc IH]; intros x y z -> -> -> Hn Hx Hs.
  - rewrite (set_interface_same z). f_equal. symmetry.
    apply net_ext; intros k _; unfold upd; destruct (Z.eqb_spec k 4) as [->|]; try done. apply set_interface_same.
  - cbn [Nat.add Network.rounds]. change (Network._router (net x y z)) with (router_of x).
    rewrite (route_still x); [|intros k Hk; destruct (decide (k = 4)) as [->|]; [done|by apply Hx]].
    cbn [mbind outcome_bind]. change (Network.set_router (net x y z) (router_of x)) with (net x y z).
    rewrite (physical_three x y z x1 y1 z1) by done. cbn [mbind outcome_bind].
    rewrite IH; [|by rewrite upd_eq|by rewrite upd_eq|done|..].
    + rewrite net_upd_upd, upd_eq. done.
    + destruct Hn as [Hn Hz]. by apply named_upd.
    + intros k Hk Hne. rewrite upd_ne by done. by apply Hx.
    + intros k Hk. destruct (wire_ne4 k Hk) as [H4 _]. unfold still. rewrite !upd_ne by done. by apply Hs.
Qed.

Hypothesis macs_differ : mac (rc 4) <> mac zc /\ mac zc <> mac (hc 4).
Hypothesis zc_ip : own zc <> own (rc 4) /\ own zc <> own (hc 4).

(** The caches of the three stations, when the first message has been answered. *)
Definition seen (c : IP2EthernetCache.t) : IP2EthernetCache.t := learn_reply c (rc 4) (hc 4).

Lemma get_learn c ip m ip' :
  IP2EthernetCache.get_cache (learn c ip m) ip' = if bool_decide (ip' = ip) then Some m else IP2EthernetCache.get_cache c ip'.
Proof. apply get_set_cache. Qed.

Lemma cross3_up d :
  IPv4Datagram.fits d ->
  exists s1 d', AsyncNetworkInterface.send_datagram (st (hc 4) [] ∅ IP2EthernetCache.new []) d (hop 4) = Ret s1
    /\ crossing3 3 (st (rc 4) [] ∅ IP2EthernetCache.new []) s1 (st zc [] ∅ IP2EthernetCache.new [])
         (st (rc 4) [] ∅ (learn IP2EthernetCache.new (own (hc 4)) (mac (hc 4))) [d'])
         (st (hc 4) [] ∅ (seen IP2EthernetCache.new) [])
         (st zc [] ∅ (seen (learn IP2EthernetCache.new (own (hc 4)) (mac (hc 4)))) [])
    /\ same_datagram d d'.
Proof.
  intros Hd. assert (card_ok (rc 4)) as Hr by auto. assert (card_ok (hc 4)) as Hh by auto.
  destruct (deliver_carrier (mac (hc 4)) (rc 4) [] ∅ (learn IP2EthernetCache.new (own (hc 4)) (mac (hc 4))) [] d Hr Hd)
    as (d' & E & Hsd).
  eexists. exists d'. split; [|split; [|exact Hsd]].
  - apply send_st_unknown; [done|by apply hop_ok; auto|apply Hr|]. unfold IP2EthernetCache.get_cache. apply lookup_empty.
  - eapply crossing3_step; [done|apply exchange3_from_y|].
    + apply deliver_request; [done|done|]. left. apply lookup_empty.
    + apply deliver_request_other; [done|done|apply Hr|by apply not_eq_sym, zc_ip|apply lookup_empty].
    + eapply crossing3_step; [done|apply exchange3_from_x|].
      * by apply deliver_reply.
      * by apply deliver_reply_other.
      * eapply crossing3_step; [done|apply exchange3_from_y; [exact E|]|apply crossing3_refl].
        apply deliver_carrier_other; [done|apply Hr|apply macs_differ].
Qed.

Lemma cross3_down d a :
  IPv4Datagram.fits d -> Address.ipv4_numeric a = Ret (own zc) ->
  exists s1 cx cy cz d',
    AsyncNetworkInterface.send_datagram
      (st (rc 4) [] ∅ (learn IP2EthernetCache.new (own (hc 4)) (mac (hc 4))) []) d a = Ret s1
    /\ AsyncNetworkInterface.datagrams_out s1 = []
    /\ crossing3 3 s1 (st (hc 4) [] ∅ (seen IP2EthernetCache.new) [])
         (st zc [] ∅ (seen (learn IP2EthernetCache.new (own (hc 4)) (mac (hc 4)))) [])
         (st (rc 4) [] ∅ cx []) (st (hc 4) [] ∅ cy []) (st zc [] ∅ cz [d'])
    /\ same_datagram d d'.
Proof.
  intros Hd Ha. assert (card_ok (rc 4)) as Hr by auto. assert (card_ok (hc 4)) as Hh by auto. destruct zc_ip as [Z1 Z2].
  assert (forall c, IP2EthernetCache.get_cache c (own zc) = None ->
    IP2EthernetCache.get_cache (seen c) (own zc) = None) as Hseen.
  { intros c Hc. unfold seen, learn_reply. by rewrite !get_learn, !bool_decide_eq_false_2. }
  assert (IP2EthernetCache.get_cache (learn IP2EthernetCache.new (own (hc 4)) (mac (hc 4))) (own zc) = None) as Hl.
  { rewrite get_learn, bool_decide_eq_false_2 by done. apply lookup_empty. }
  set (cz := learn (seen (learn IP2EthernetCache.new (own (hc 4)) (mac (hc 4)))) (own (rc 4)) (mac (rc 4))).
  destruct (deliver_carrier (mac (rc 4)) zc [] ∅ cz [] d zc_ok Hd) as (d' & E & Hsd).
  do 4 eexists. exists d'. split; [apply send_st_unknown; [done|done|apply zc_ok|done]|]. split; [done|]. split; [|done].
  eapply crossing3_step; [done|apply exchange3_from_x|].
  - apply deliver_request_other; [done|done|apply zc_ok|done|apply Hseen, lookup_empty].
  - apply deliver_request; [done|apply zc_ok|]. left. by apply Hseen.
  - eapply crossing3_step; [done|apply exchange3_from_z|].
    + by apply deliver_reply.
    + by apply deliver_reply_other.
    + eapply crossing3_step; [done|apply exchange3_from_x; [|exact E]|apply crossing3_refl].
      apply deliver_carrier_other; [done|apply zc_ok|apply macs_differ].
Qed.

Lemma host_z x y z : named y z -> Network.host (net x y z) (chars "dm43") = Ret z.
Proof. intros [_ Hz]. unfold Network.host. simpl. rewrite Hz. reflexivity. Qed.

Lemma set_host_z x y z h : Network.set_host (net x y z) (chars "dm43") h = net x y h.
Proof. reflexivity. Qed.

Lemma calm_still_three x y x4 y4 z' :
  (forall k, wire k -> calm x y k) -> Host.name y4 = host_name 4 -> Host.name z' = chars "dm43" ->
  named (upd 4 y4 y) z' /\ forall k, wire k -> still (upd 4 x4 x) (upd 4 y4 y) k.
Proof.
  intros Hc H4 Hz. split; [split; [|done]|]; intros k.
  - intros [Hk| ->]; [|by rewrite upd_eq]. destruct (wire_ne4 k Hk) as [H _]. rewrite upd_ne by done.
    by eapply calm_name, Hc.
  - intros Hk. destruct (wire_ne4 k Hk) as [H _]. unfold still. rewrite !upd_ne by done. by apply calm_still, Hc.
Qed.

(** The rounds in which the datagram [d] goes from one host of the wire to the router
    and back to the other. *)
Lemma three_rounds x y z e d :
  idle IP2EthernetCache.new IP2EthernetCache.new IP2EthernetCache.new x y z -> IPv4Datagram.fits d ->
  1 < IPv4Header.ttl (IPv4Datagram.header d) -> routed (IPv4Header.dst (IPv4Datagram.header d)) 4 zc ->
  exists s1 cx cy cz d2,
    AsyncNetworkInterface.send_datagram (st (hc 4) [] ∅ IP2EthernetCache.new []) d (hop 4) = Ret s1
    /\ Host.wire d2 = Host.wire (Router.decrement_ttl d)
    /\ Network.rounds 256 (net x (upd 4 (hst 4 s1 []) y) (zst (st zc [] ∅ IP2EthernetCache.new []) e))
       = Ret (net (upd 4 (st (rc 4) [] ∅ cx []) x) (upd 4 (hst 4 (st (hc 4) [] ∅ cy []) []) y)
                (zst (st zc [] ∅ cz [d2]) e)).
Proof.
  intros Hidle Hf Ht (info & Ef & En & Eh).
  destruct (cross3_up d Hf) as (s1 & d1 & Es & Hup & Hsd). destruct (same_ttl_dst _ _ Hsd) as [Et Ed].
  destruct (cross3_down (Router.decrement_ttl d1) _ (decrement_ttl_fits _ (same_fits _ _ Hf Hsd)) Eh)
    as (s2 & cx & cy & cz & d2 & Es2 & Hs2 & Hdown & Hsd2).
  assert (forall k, wire k -> calm x y k) as Hc by (intros; by apply idle_calm, Hidle).
  assert (forall x4, no_datagrams_but 4 (upd 4 x4 x)) as Hx.
  { intros x4 k Hk Hne. rewrite upd_ne by done. by apply (idle_no_datagrams _ _ _ _ _ _ Hidle). }
  exists s1, cx, cy, cz, d2. split; [done|]. split; [by apply (forwarded_wire _ d1)|].
  assert (net x (upd 4 (hst 4 s1 []) y) (zst (st zc [] ∅ IP2EthernetCache.new []) e)
    = net (upd 4 (x 4) x) (upd 4 (hst 4 s1 []) y) (zst (st zc [] ∅ IP2EthernetCache.new []) e)) as ->.
  { apply net_ext; [|done]. intros k _. unfold upd. by destruct (Z.eqb_spec k 4) as [->|]. }
  replace 256%nat with (3 + (S (2 + 250)))%nat by lia.
  destruct (calm_still_three x y (x 4) (hst 4 s1 []) (zst (st zc [] ∅ IP2EthernetCache.new []) e)) as [N1 S1]; [done..|].
  erewrite (rounds_crossing3 3 (S (2 + 250))); [| |exact N1|by apply Hx|exact S1].
  2: { rewrite !upd_eq, (idle_x4 _ _ _ _ _ _ Hidle). exact Hup. }
  rewrite net_upd_upd, upd_eq. cbn [Host.set_interface hst zst Host._name Host._my_address Host._next_hop Host._expecting_to_receive].
  change (Host.mk (host_name 4) (addr (hc 4)) ?i (hop 4) []) with (hst 4 i []).
  change (Host.mk (chars "dm43") (addr zc) ?i zhop e) with (zst i e).
  destruct (async_send _ _ _ _ Es2) as (b & Eb & ->).
  set (x4 := st (rc 4) [] ∅ (learn IP2EthernetCache.new (own (hc 4)) (mac (hc 4))) [d1]) in *.
  assert (no_datagrams (upd 4 (AsyncNetworkInterface.mk b []) x)) as Hnd.
  { intros k Hk. destruct (decide (k = 4)) as [->|Hne]; [by rewrite upd_eq|by apply Hx]. }
  rewrite (rounds_route _ (upd 4 x4 x) (upd 4 (AsyncNetworkInterface.mk b []) x)); [| |exact Hnd].
  - destruct (calm_still_three x y (AsyncNetworkInterface.mk b []) (hst 4 (st (hc 4) [] ∅ (seen IP2EthernetCache.new) []) [])
      (zst (st zc [] ∅ (seen (learn IP2EthernetCache.new (own (hc 4)) (mac (hc 4)))) []) e)) as [N2 S2]; [done..|].
    change (S (2 + 250)) with (3 + 250)%nat.
    erewrite (rounds_crossing3 3 250); [| |exact N2|by apply Hx|exact S2]; [|rewrite !upd_eq; exact Hdown].
    rewrite net_upd_upd, upd_eq. apply rounds_calm.
    + intros k Hk. destruct (decide (k = 4)) as [->|Hne]; [by rewrite upd_eq|by apply Hx].
    + intros k Hk. destruct (wire_ne4 k Hk) as [H4 _]. apply calm_upd; auto.
    + unfold calm3. rewrite !upd_eq. by do 8 eexists.
  - erewrite (route_forwards (upd 4 x4 x) 4 4 d1 info); [|auto|auto|by apply Hx|by rewrite upd_eq| | |done|reflexivity|].
    + reflexivity.
    + by rewrite Et.
    + by rewrite Ed.
    + rewrite upd_eq, Ed. exact Eb.
Qed.

Lemma transfer3_ok x y z a n :
  idle IP2EthernetCache.new IP2EthernetCache.new IP2EthernetCache.new x y z ->
  Address.ipv4_numeric a = Ret (own zc) -> routed (own zc) 4 zc ->
  exists c1 c2 c3 x' y' z',
    Network.transfer rd (net x y z) (host_name 4) (Ret a) (chars "dm43") n = Ret (net x' y' z', S n)
    /\ idle c1 c2 c3 x' y' z'.
Proof.
  intros Hidle Ha Hr. set (d := sent 4 (own zc) 64 n).
  assert (IPv4Datagram.fits d) as Hf by (apply sent_fits; [auto|apply zc_ok|done]).
  destruct (three_rounds x y z [Router.decrement_ttl d] d) as (s1 & cx & cy & cz & d2 & Es & Hwire & Hrounds);
    [done|done|by simpl|exact Hr|].
  pose proof (idle_named _ _ _ _ _ _ Hidle) as Hn.
  set (x' := upd 4 (st (rc 4) [] ∅ cx []) x). set (y' := upd 4 (hst 4 (st (hc 4) [] ∅ cy []) []) y).
  exists cx, cy, cz, x', y', (zst (st zc [] ∅ cz []) []). split.
  - unfold Network.transfer. unfold mbind, prog_bind.
    rewrite (send_net x y z 4 a (own zc) 64 n s1 (st (hc 4) [] ∅ IP2EthernetCache.new []) []);
      [|done|auto|by apply Hidle|done|exact Es].
    fold d. unfold lift. rewrite host_z by (apply named_upd; [done|by rewrite (idle_y4 _ _ _ _ _ _ Hidle)]).
    rewrite set_host_z, (idle_z _ _ _ _ _ _ Hidle).
    change (Host.expect (zst ?i []) ?e) with (zst i [e]).
    unfold Network.simulate. rewrite Hrounds. cbn [mbind outcome_bind]. fold x' y'.
    assert (forall k, wire k \/ k = 4 -> Host.check (y' k) = Ret (y' k)) as Hy.
    { intros k Hk. unfold y'. destruct (decide (k = 4)) as [->|Hne]; [rewrite upd_eq; by apply check_idle|].
      rewrite upd_ne by done. by eapply idle_check. }
    rewrite (check_net x' y' y' _ (zst (st zc [] ∅ cz []) [])); [done|done|].
    apply check_received; [by apply decrement_ttl_fits|done].
  - pose proof Hidle as []. split; unfold x', y'; rewrite ?upd_eq; try done.
    intros i Hi. destruct (wire_ne4 i Hi) as [H4 _]. unfold idle_wire. rewrite !upd_ne by done.
    by apply Hidle.
Qed.

Lemma address_of_idle c1 c2 c3 x y z i :
  idle c1 c2 c3 x y z -> wire i -> Network.address_of (net x y z) (host_name i) = Ret (addr (hc i)).
Proof.
  intros Hidle Hi. unfold Network.address_of. rewrite host_net by (auto || by eapply idle_named).
  by destruct (idle_wires _ _ _ _ _ _ Hidle i Hi) as (? & ? & _ & -> & _).
Qed.

Lemma address_of_z c1 c2 c3 x y z :
  idle c1 c2 c3 x y z -> Network.address_of (net x y z) (chars "dm43") = Ret (addr zc).
Proof.
  intros Hidle. unfold Network.address_of. rewrite host_z by (by eapply idle_named).
  by rewrite (idle_z _ _ _ _ _ _ Hidle).
Qed.

End Transfers.

(** ** The network that the constructor makes *)

(** What the manual pages of [getaddrinfo] and [getnameinfo] say of IPv4 addresses in
    numbers-and-dots notation: four numbers are the bytes of the address, a single
    zero is the address zero, and an address is printed as its four bytes. *)
Class DottedQuads `{NetDb} := {
  getaddrinfo_quad a : is_u32 a ->
    getaddrinfo (dotted_quad a) (std_to_string 0) (mk_hints (Z.lor AI_NUMERICHOST AI_NUMERICSERV) AF_INET)
    = inr (Some (sockaddr_in AF_INET 0 a, sizeof_sockaddr_in));
  getaddrinfo_zero :
    getaddrinfo (chars "0") (std_to_string 0) (mk_hints (Z.lor AI_NUMERICHOST AI_NUMERICSERV) AF_INET)
    = inr (Some (sockaddr_in AF_INET 0 0, sizeof_sockaddr_in));
  getnameinfo_quad a : is_u32 a ->
    getnameinfo (Address.storage (Address.ipv4 a 0)) sizeof_sockaddr_in (Z.lor NI_NUMERICHOST NI_NUMERICSERV)
    = inr (dotted_quad a, std_to_string 0)
}.

Section Program.
Context `{DottedQuads}.
Variable rd : nat -> Z.

(** The Ethernet addresses made of the six values from the [n]th on. *)
Definition byte_at (n : nat) : byte := byte_of_Z (uint8 (rd n)).
Definition router_mac (n : nat) : EthernetAddress :=
  [Byte.x02; Byte.x00; Byte.x00; byte_at (3 + n); byte_at (4 + n); byte_at (5 + n)].
Definition host_mac (n : nat) : EthernetAddress :=
  [byte_of_Z (Z.land (Z.lor (byte_to_Z (byte_at n)) 0x02) 0xfe); byte_at (1 + n); byte_at (2 + n); byte_at (3 + n);
   byte_at (4 + n); byte_at (5 + n)].

Lemma router_mac_real n : real_address (router_mac n).
Proof. by split. Qed.

Lemma host_mac_real n : real_address (host_mac n).
Proof.
  unfold host_mac. assert (forall b, byte_of_Z (Z.land (Z.lor (byte_to_Z b) 2) 254) <> Byte.xff
    /\ byte_of_Z (Z.land (Z.lor (byte_to_Z b) 2) 254) <> Byte.x00) as Hb by (by intros []).
  destruct (Hb (byte_at n)). split; [done| |]; intros [= E _]; done.
Qed.

Lemma of_quad s a : s = dotted_quad a -> is_u32 a -> Address.of_ip s 0 = Ret (Address.ipv4 a 0).
Proof.
  intros -> Ha. unfold Address.of_ip, Address.of_node, Address.make_hints.
  rewrite getaddrinfo_quad by done. apply of_sockaddr_ipv4.
Qed.

Lemma ip_quad a : is_u32 a -> Address.ip (Address.ipv4 a 0) = Ret (dotted_quad a).
Proof.
  intros Ha. unfold Address.ip, Address.ip_port. change (Address._size _) with sizeof_sockaddr_in.
  by rewrite getnameinfo_quad.
Qed.

Lemma of_zero : Address.of_ip (chars "0") 0 = Ret (Address.ipv4 0 0).
Proof.
  unfold Address.of_ip, Address.of_node, Address.make_hints. rewrite getaddrinfo_zero. apply of_sockaddr_ipv4.
Qed.

Lemma add_interface_eq r s a n :
  s = dotted_quad a -> is_u32 a ->
  Network.add_interface rd r s n
  = Ret (Router.mk (Router._interfaces r ++ [st (mk_card (router_mac n) (Address.ipv4 a 0) a) [] ∅ IP2EthernetCache.new []])
           (Router._router_list r), zlen (Router._interfaces r ++ [st (mk_card (router_mac n) (Address.ipv4 a 0) a) [] ∅ IP2EthernetCache.new []]) - 1,
         (6 + n)%nat).
Proof.
  intros Es Ha. unfold Network.add_interface. unfold mbind, prog_bind, lift. rewrite (of_quad s a Es Ha).
  unfold random_router_ethernet_address, NetworkInterface.construct. rewrite (ip_quad a Ha). reflexivity.
Qed.

Lemma insert_host_eq hosts name s a hop b n :
  s = dotted_quad a -> is_u32 a -> Address.of_ip hop 0 = Ret b ->
  Network.insert_host rd hosts name s hop n
  = Ret (hosts ++ [(name, Host.mk name (Address.ipv4 a 0)
      (st (mk_card (host_mac n) (Address.ipv4 a 0) a) [] ∅ IP2EthernetCache.new []) b [])], (6 + n)%nat).
Proof.
  intros Es Ha Eh. unfold Network.insert_host. unfold mbind, prog_bind, lift. rewrite (of_quad s a Es Ha), Eh.
  unfold Host.new, NetworkInterface.construct, mbind, prog_bind, lift. rewrite (ip_quad a Ha). reflexivity.
Qed.

Lemma add_route_eq r i0 i1 i2 i3 i4 i5 i6 hosts s a l hop h k :
  s = dotted_quad a -> is_u32 a -> hop = Ret h -> (forall b, h = Some b -> exists t, Address.ip b = Ret t) ->
  Network.add_route (Network.mk r i0 i1 i2 i3 i4 i5 i6 hosts) s l hop k
  = Ret (Network.mk (Router.push_route r a l h k) i0 i1 i2 i3 i4 i5 i6 hosts).
Proof.
  intros Es Ha Eh Ht. unfold Network.add_route, NetworkSimulator.ip. rewrite (of_quad s a Es Ha). cbn [mbind outcome_bind].
  rewrite (ipv4_numeric_ipv4 a 0 Ha). cbn [mbind outcome_bind]. rewrite Eh. cbn [mbind outcome_bind].
  by rewrite (Router.add_route_ret _ _ _ _ _ _ (ip_quad a Ha) Ht).
Qed.

Local Ltac has_text := intros ? [= <-]; eexists; by apply ip_quad.

Lemma add_routes_eq ifs hosts :
  (forall n, Network._hosts n = hosts ->
     Network.host_address n (chars "default_router") = Ret (Some (Address.ipv4 0xab434c01 0))) ->
  (forall n, Network._hosts n = hosts ->
     Network.host_address n (chars "hs_router") = Ret (Some (Address.ipv4 0x8fc30001 0))) ->
  Network.add_routes (Network.mk (Router.mk ifs []) 0 1 2 3 4 5 6 hosts)
  = Ret (Network.mk (Router.mk ifs routes) 0 1 2 3 4 5 6 hosts).
Proof.
  intros Hd Hh. unfold Network.add_routes.
  erewrite (add_route_eq _ _ _ _ _ _ _ _ _ _ 0 _ _ _ _ eq_refl); [|done|by apply Hd|has_text]. cbn [mbind outcome_bind].
  erewrite (add_route_eq _ _ _ _ _ _ _ _ _ _ 0x0a000000 _ _ _ _ eq_refl); [|done|reflexivity|done]. cbn [mbind outcome_bind].
  erewrite (add_route_eq _ _ _ _ _ _ _ _ _ _ 0xac100000 _ _ _ _ eq_refl); [|done|reflexivity|done]. cbn [mbind outcome_bind].
  erewrite (add_route_eq _ _ _ _ _ _ _ _ _ _ 0xc0a80000 _ _ _ _ eq_refl); [|done|reflexivity|done]. cbn [mbind outcome_bind].
  erewrite (add_route_eq _ _ _ _ _ _ _ _ _ _ 0xc6b2e500 _ _ _ _ eq_refl); [|done|reflexivity|done]. cbn [mbind outcome_bind].
  erewrite (add_route_eq _ _ _ _ _ _ _ _ _ _ 0x8fc30000 _ _ _ _ eq_refl); [|done|by apply Hh|has_text]. cbn [mbind outcome_bind].
  erewrite (add_route_eq _ _ _ _ _ _ _ _ _ _ 0x8fc38000 _ _ _ _ eq_refl); [|done|by apply Hh|has_text]. cbn [mbind outcome_bind].
  erewrite (add_route_eq _ _ _ _ _ _ _ _ _ _ 0x8fc3c000 _ _ _ _ eq_refl); [|done|by apply Hh|has_text]. cbn [mbind outcome_bind].
  erewrite (add_route_eq _ _ _ _ _ _ _ _ _ _ 0x801e4cff _ _ _ _ eq_refl); [|done| |]; [reflexivity| |has_text].
  rewrite (of_quad _ 0x801e0001) by (reflexivity || done). reflexivity.
Qed.

(** The addresses of the router's interfaces, and of the hosts at them. *)
Definition sim_rc (i : Z) : card :=
  let card_of n a := mk_card (router_mac n) (Address.ipv4 a 0) a in
  if i =? 0 then card_of 0%nat 0xab434c2e else if i =? 1 then card_of 6%nat 0x0a000001
  else if i =? 2 then card_of 12%nat 0xac100001 else if i =? 3 then card_of 18%nat 0xc0a80001
  else if i =? 4 then card_of 24%nat 0xc6b2e501 else if i =? 5 then card_of 30%nat 0x8fc30002
  else card_of 36%nat 0x801e4cff.
Definition sim_hc (i : Z) : card :=
  let card_of n a := mk_card (host_mac n) (Address.ipv4 a 0) a in
  if i =? 0 then card_of 48%nat 0xab434c01 else if i =? 1 then card_of 42%nat 0x0a000002
  else if i =? 3 then card_of 54%nat 0xc0a80002 else if i =? 5 then card_of 60%nat 0x8fc30001
  else card_of 66%nat 0xc6b2e52a.
Definition sim_zc : card := mk_card (host_mac 72) (Address.ipv4 0xc6b2e52b 0) 0xc6b2e52b.
Definition sim_hop (i : Z) : Address.t :=
  if (i =? 1) || (i =? 3) || (i =? 4) then Address.ipv4 (own (sim_rc i)) 0 else Address.ipv4 0 0.

Definition sim_x (i : Z) : AsyncNetworkInterface.t := st (sim_rc i) [] ∅ IP2EthernetCache.new [].
Definition sim_y (i : Z) : Host.t :=
  hst sim_hc sim_hop i (st (sim_hc i) [] ∅ IP2EthernetCache.new []) [].
Definition sim_z : Host.t := zst sim_zc (sim_hop 4) (st sim_zc [] ∅ IP2EthernetCache.new []) [].

Lemma new_net : Network.new rd 0%nat = Ret (net sim_x sim_y sim_z, 78%nat).
Proof.
  unfold Network.new. unfold mbind, prog_bind.
  rewrite (add_interface_eq _ _ 0xab434c2e) by (reflexivity || done).
  rewrite (add_interface_eq _ _ 0x0a000001) by (reflexivity || done).
  rewrite (add_interface_eq _ _ 0xac100001) by (reflexivity || done).
  rewrite (add_interface_eq _ _ 0xc0a80001) by (reflexivity || done).
  rewrite (add_interface_eq _ _ 0xc6b2e501) by (reflexivity || done).
  rewrite (add_interface_eq _ _ 0x8fc30002) by (reflexivity || done).
  rewrite (add_interface_eq _ _ 0x801e4cff) by (reflexivity || done).
  rewrite (insert_host_eq _ _ _ 0x0a000002 _ (Address.ipv4 0x0a000001 0)) by (reflexivity || done || by apply of_quad).
  rewrite (insert_host_eq _ _ _ 0xab434c01 _ (Address.ipv4 0 0)) by (reflexivity || done || apply of_zero).
  rewrite (insert_host_eq _ _ _ 0xc0a80002 _ (Address.ipv4 0xc0a80001 0)) by (reflexivity || done || by apply of_quad).
  rewrite (insert_host_eq _ _ _ 0x8fc30001 _ (Address.ipv4 0 0)) by (reflexivity || done || apply of_zero).
  rewrite (insert_host_eq _ _ _ 0xc6b2e52a _ (Address.ipv4 0xc6b2e501 0)) by (reflexivity || done || by apply of_quad).
  rewrite (insert_host_eq _ _ _ 0xc6b2e52b _ (Address.ipv4 0xc6b2e501 0)) by (reflexivity || done || by apply of_quad).
  unfold lift.
  change (Network.mk (Router.mk ?ifs _) _ _ _ _ _ _ _ ?hosts) with (Network.mk (Router.mk ifs []) 0 1 2 3 4 5 6 hosts).
  rewrite add_routes_eq; [reflexivity|intros n E..].
  - unfold Network.host_address, Network.host. rewrite E. reflexivity.
  - unfold Network.host_address, Network.host. rewrite E. reflexivity.
Qed.

Lemma ipv4_card_ok m a : real_address m -> is_u32 a -> card_ok (mk_card m (Address.ipv4 a 0) a).
Proof. intros Hm Ha. split; [done|by apply ipv4_numeric_ipv4|done]. Qed.

Lemma sim_rc_ok i : wire i \/ i = 4 -> card_ok (sim_rc i).
Proof. intros [[]| ->]; apply ipv4_card_ok; (apply router_mac_real || done). Qed.
Lemma sim_hc_ok i : wire i \/ i = 4 -> card_ok (sim_hc i).
Proof. intros [[]| ->]; apply ipv4_card_ok; (apply host_mac_real || done). Qed.
Lemma sim_zc_ok : card_ok sim_zc.
Proof. apply ipv4_card_ok; (apply host_mac_real || done). Qed.
Lemma sim_ips i : wire i \/ i = 4 -> own (sim_hc i) <> own (sim_rc i).
Proof. by intros [[]| ->]. Qed.
Lemma sim_hop_ok i : i = 1 \/ i = 3 \/ i = 4 -> Address.ipv4_numeric (sim_hop i) = Ret (own (sim_rc i)).
Proof. by intros [->|[->| ->]]; apply ipv4_numeric_ipv4. Qed.

Lemma sim_idle :
  idle sim_rc sim_hc sim_zc sim_hop (sim_hop 4) IP2EthernetCache.new IP2EthernetCache.new IP2EthernetCache.new
    sim_x sim_y sim_z.
Proof.
  split; try done. intros i Hi. do 2 eexists. split; [done|]. split; [done|].
  split; left; apply lookup_empty.
Qed.

(** The routing table sends [dst] out at [j], to the address of [target]. *)
Definition next_stop (dst j : Z) (target : card) : Prop :=
  match Router.find_route dst routes 0 None with
  | Ret (Some info) => interface_num info = j
      /\ match next_hop info with Some a => a | None => Address.ipv4 dst 0 end = Address.ipv4 (own target) 0
  | _ => False
  end.

Lemma sim_routed dst j target : next_stop dst j target -> is_u32 (own target) -> routed dst j target.
Proof.
  unfold next_stop. destruct (Router.find_route dst routes 0 None) as [[info|]|] eqn:E; [|done..].
  intros [E2 E3] Hu. exists info. split; [done|]. split; [done|]. rewrite E3. by apply ipv4_numeric_ipv4.
Qed.

(** One exchange between hosts at different interfaces, or one that expires. *)
Lemma sim_transfer x y z c1 c2 c3 i j a dst n :
  idle sim_rc sim_hc sim_zc sim_hop (sim_hop 4) c1 c2 c3 x y z -> i = 1 \/ i = 3 -> wire j -> i <> j ->
  a = Ret (Address.ipv4 dst 0) -> is_u32 dst ->
  next_stop dst j (sim_hc j) ->
  exists x' y', Network.transfer rd (net x y z) (host_name i) a (host_name j) n = Ret (net x' y' z, S n)
    /\ idle sim_rc sim_hc sim_zc sim_hop (sim_hop 4) c1 c2 c3 x' y' z.
Proof.
  intros Hidle Hi Hj Hij -> Hd Hn.
  eapply transfer_ok; [apply sim_rc_ok|apply sim_hc_ok|apply sim_ips|apply sim_hop_ok|done..| | |].
  - by apply ipv4_numeric_ipv4.
  - done.
  - apply sim_routed; [exact Hn|]. apply sim_hc_ok. by left.
Qed.

Lemma sim_address x y z c1 c2 c3 i :
  idle sim_rc sim_hc sim_zc sim_hop (sim_hop 4) c1 c2 c3 x y z -> wire i ->
  Network.address_of (net x y z) (host_name i) = Ret (Address.ipv4 (own (sim_hc i)) 0).
Proof. intros Hidle Hi. rewrite (address_of_idle _ _ _ _ _ _ _ _ _ _ _ i Hidle Hi). by destruct Hi. Qed.

Lemma sim_expire x y z c1 c2 c3 a dst ttl n :
  idle sim_rc sim_hc sim_zc sim_hop (sim_hop 4) c1 c2 c3 x y z ->
  a = Ret (Address.ipv4 dst 0) -> is_u32 dst -> 0 <= ttl <= 1 ->
  exists x' y', Network.expire rd (net x y z) (host_name 1) a ttl n = Ret (net x' y' z, S n)
    /\ idle sim_rc sim_hc sim_zc sim_hop (sim_hop 4) c1 c2 c3 x' y' z.
Proof.
  intros Hidle -> Hd Ht.
  eapply expire_ok; [apply sim_rc_ok|apply sim_hc_ok|apply sim_ips|apply sim_hop_ok|by left|done| |done|done].
  by apply ipv4_numeric_ipv4.
Qed.

End Program.

(** The hosts have received what they expected and nothing else. *)
Definition all_quiet (n : Network.t) : Prop :=
  Forall (fun '(_, h) => Host._expecting_to_receive h = []
    /\ AsyncNetworkInterface.datagrams_out (Host.interface h) = []) (Network._hosts n).

Lemma idle_all_quiet rc hc zc hop zhop c1 c2 c3 x y z : idle rc hc zc hop zhop c1 c2 c3 x y z -> all_quiet (net x y z).
Proof.
  intros Hidle. assert (forall i, wire i -> Host._expecting_to_receive (y i) = []
    /\ AsyncNetworkInterface.datagrams_out (Host.interface (y i)) = []) as Hw.
  { intros i Hi. by destruct (idle_wires _ _ _ _ _ _ _ _ _ _ _ Hidle i Hi) as (? & ? & _ & -> & _). }
  unfold all_quiet, net. cbn [Network._hosts].
  rewrite (idle_y4 _ _ _ _ _ _ _ _ _ _ _ Hidle), (idle_z _ _ _ _ _ _ _ _ _ _ _ Hidle).
  repeat (apply Forall_cons; split; [auto|]). by apply Forall_nil.
Qed.

(** C17: the network simulator succeeds. Given the documented behaviour of
    getaddrinfo and getnameinfo on IPv4 addresses in dotted notation, and whatever
    the random generator yields, as long as the second host of the shared wire has
    an Ethernet address of its own, every datagram of the program arrives, through
    address resolution on both wires and the router between them, at the host the
    routing table says, with its time to live decremented and nothing else changed;
    those whose time to live is spent arrive nowhere; no host receives anything it
    does not expect, and nothing throws. *)
Theorem simulator_succeeds `{DottedQuads} (rd : nat -> Z) :
  router_mac rd 24 <> host_mac rd 72 -> host_mac rd 72 <> host_mac rd 66 ->
  exists n, Network.network_simulator rd 0%nat = Ret (n, 88%nat) /\ all_quiet n.
Proof.
  intros M1 M2. unfold Network.network_simulator. unfold mbind, prog_bind. rewrite new_net.
  destruct (sim_transfer rd _ _ _ _ _ _ 1 3 (Network.address_of (net (sim_x rd) (sim_y rd) (sim_z rd)) (host_name 3)) 0xc0a80002 78 (sim_idle rd)) as (x1 & y1 & E1 & I1);
    [auto|auto|done|exact (sim_address rd _ _ _ _ _ _ 3 (sim_idle rd) wire_eth2)|done|by split|].
  change (chars "applesauce") with (host_name 1). change (chars "cherrypie") with (host_name 3). rewrite E1. clear E1.
  destruct (sim_transfer rd _ _ _ _ _ _ 3 1 (Network.address_of (net x1 y1 (sim_z rd)) (host_name 1)) 0x0a000002 79 I1) as (x2 & y2 & E2 & I2);
    [auto|auto|done|exact (sim_address rd _ _ _ _ _ _ 1 I1 wire_eth0)|done|by split|]. rewrite E2. clear E2.
  destruct (sim_transfer rd _ _ _ _ _ _ 1 0 (Address.of_ip (chars "1.2.3.4") 0) 0x01020304 80 I2) as (x3 & y3 & E3 & I3);
    [auto|auto|done|apply of_quad; [reflexivity|split; lia]|done|by split|].
  change (chars "default_router") with (host_name 0). rewrite E3. clear E3.
  destruct (sim_transfer rd _ _ _ _ _ _ 1 5 (Address.of_ip (chars "143.195.131.17") 0) 0x8fc38311 81 I3) as (x4 & y4 & E4 & I4);
    [auto|auto|done|apply of_quad; [reflexivity|split; lia]|done|by split|].
  change (chars "hs_router") with (host_name 5). rewrite E4. clear E4.
  destruct (sim_transfer rd _ _ _ _ _ _ 3 5 (Address.of_ip (chars "143.195.193.52") 0) 0x8fc3c134 82 I4) as (x5 & y5 & E5 & I5);
    [auto|auto|done|apply of_quad; [reflexivity|split; lia]|done|by split|]. rewrite E5. clear E5.
  destruct (sim_transfer rd _ _ _ _ _ _ 3 5 (Address.of_ip (chars "143.195.223.255") 0) 0x8fc3dfff 83 I5) as (x6 & y6 & E6 & I6);
    [auto|auto|done|apply of_quad; [reflexivity|split; lia]|done|by split|]. rewrite E6. clear E6.
  destruct (sim_transfer rd _ _ _ _ _ _ 3 0 (Address.of_ip (chars "143.195.224.0") 0) 0x8fc3e000 84 I6) as (x7 & y7 & E7 & I7);
    [auto|auto|done|apply of_quad; [reflexivity|split; lia]|done|by split|]. rewrite E7. clear E7.
  destruct (transfer3_ok rd (sim_rc rd) (sim_hc rd) (sim_zc rd) (sim_hop rd) (sim_hop rd 4) (sim_rc_ok rd) (sim_hc_ok rd)
    (sim_zc_ok rd) (sim_hop_ok rd) (conj M1 M2) ltac:(by split) _ _ _ (addr (sim_zc rd)) 85 I7)
    as (c1 & c2 & c3 & x8 & y8 & z8 & E8 & I8);
    [by apply ipv4_numeric_ipv4|by apply sim_routed|]. rewrite (address_of_z _ _ _ _ _ _ _ _ _ _ _ I7).
  change (chars "dm42") with (host_name 4). rewrite E8. clear E8.
  destruct (sim_expire rd _ _ _ _ _ _ (Address.of_ip (chars "1.2.3.4") 0) 0x01020304 1 86 I8) as (x9 & y9 & E9 & I9);
    [apply of_quad; [reflexivity|split; lia]|done|lia|]. rewrite E9. clear E9.
  destruct (sim_expire rd _ _ _ _ _ _ (Address.of_ip (chars "1.2.3.4") 0) 0x01020304 0 87 I9) as (x10 & y10 & E10 & I10);
    [apply of_quad; [reflexivity|split; lia]|done|lia|]. rewrite E10. clear E10.
  eexists. split; [done|]. by eapply idle_all_quiet.
Qed.

(** ** A concrete run *)

(** A resolver that reads numbers and dots, and a generator. *)
#[local] Instance dotted_db : NetDb := {|
  getaddrinfo node service hints :=
    match read_quad 3 node 0, read_quad 0 node 0 with
    | Some a, _ | None, Some a => inr (Some (sockaddr_in AF_INET (dec_value service) a, sizeof_sockaddr_in))
    | None, None => inl (-2)
    end;
  getnameinfo a size flags :=
    inr (dotted_quad (be_value (slice a 4 4)), std_to_string (be_value (slice a 2 2)));
  inet_ntoa := dotted_quad
|}.

#[local] Instance dotted_db_laws : DottedQuads.
Proof.
  split.
  - intros a Ha. cbn [getaddrinfo dotted_db]. by rewrite read_dotted_quad.
  - reflexivity.
  - intros a Ha. cbn [getnameinfo dotted_db]. by destruct (storage_fields a 0 Ha) as [-> ->].
Qed.

Definition example_rd (n : nat) : Z := Z.of_nat n * 2654435761 mod 2 ^ 32.

Lemma simulator_succeeds_witness :
  exists n, Network.network_simulator example_rd 0%nat = Ret (n, 88%nat) /\ all_quiet n.
Proof. apply (simulator_succeeds example_rd); vm_compute; discriminate. Defined.

(** With two stations of the shared wire at one Ethernet address, the datagram of the
    eighth exchange reaches both, and the check of the first throws. *)
Lemma shared_address_fails :
  Network.network_simulator (fun _ => 0) 0%nat = Throw runtime_error.
Proof. vm_compute. reflexivity. Qed.
