(* ===== verification/Benchmark.v ===== *)
(** * The benchmark (apps/tcp_benchmark.cc)

    Two connections in one process: the first sends a string, the second has
    nothing to send and closes at once; the segments of each are handed to the
    other, those of the sender in order or in reverse.

    The string is a parameter, as are the random numbers of the two senders; the
    clock readings and what is printed are left out.  The two [while] loops run as
    long as the connections make them, and are fuelled. *)

From S2P Require Import Prelude WrappingIntegers SpongeBuffer ByteStream StreamReassembler UtilBuffer TCPSegment.
From S2P Require Import TCPReceiver TCPSender TCPConnection.

Module Benchmark.

Definition len : Z := 100 * 1024 * 1024.

(** The segments given to [y], one after the other. *)
Fixpoint receive_all (y : TCPConnection.t) (segments : list TCPSegment.t) : outcome TCPConnection.t :=
  match segments with
  | [] => Ret y
  | seg :: segments => y ← TCPConnection.segment_received y seg; receive_all y segments
  end.

Definition move_segments (x y : TCPConnection.t) (segments : list TCPSegment.t) (reorder : bool)
    : outcome (TCPConnection.t * TCPConnection.t * list TCPSegment.t) :=
  let segments := segments ++ TCPConnection.segments_out x in
  let x := TCPConnection.set_segments_out x [] in
  y ← receive_all y (if reorder then rev segments else segments);
  Ret (x, y, []).

(** The variables that the loop captures. *)
Record t := mk {
  x : TCPConnection.t;
  y : TCPConnection.t;
  bytes_to_send : Buffer.t;
  x_closed : bool;
  string_received : string
}.

(** [while (bytes_to_send.size() and x.remaining_outbound_capacity())] *)
Fixpoint write_input (fuel : nat) (x : TCPConnection.t) (bytes_to_send : Buffer.t)
    : outcome (TCPConnection.t * Buffer.t) :=
  if (Buffer.size bytes_to_send =? 0) || (TCPConnection.remaining_outbound_capacity x =? 0)
  then Ret (x, bytes_to_send) else
  match fuel with
  | 0%nat => Throw out_of_fuel
  | S fuel =>
      let want := Z.min (TCPConnection.remaining_outbound_capacity x) (Buffer.size bytes_to_send) in
      '(written, x) ← TCPConnection.write x (slice (Buffer.str bytes_to_send) 0 want);
      if negb (want =? written) then Throw runtime_error else
      bytes_to_send ← Buffer.remove_prefix bytes_to_send written;
      write_input fuel x bytes_to_send
  end.

Definition loop (reorder : bool) (b : t) : outcome t :=
  '(x, bytes_to_send) ← write_input (S (length (Buffer.str (bytes_to_send b)))) (x b) (bytes_to_send b);
  '(x, x_closed) ← (if (Buffer.size bytes_to_send =? 0) && negb (x_closed b)
                    then x ← TCPConnection.end_input_stream x; Ret (x, true) else Ret (x, x_closed b));
  '(x, y, segments) ← move_segments x (y b) [] reorder;
  '(y, x, _) ← move_segments y x segments false;
  let available_output := ByteStream.buffer_size (TCPConnection.inbound_stream y) in
  '(y, string_received) ←
    (if 0 <? available_output
     then '(d, stream) ← ByteStream.read (TCPConnection.inbound_stream y) available_output;
          Ret (TCPConnection.set_receiver y (TCPReceiver.set_stream_out (TCPConnection._receiver y) stream),
               string_received b ++ d)
     else Ret (y, string_received b));
  Ret (mk (TCPConnection.tick x 1000) (TCPConnection.tick y 1000) bytes_to_send x_closed string_received).

(** [while (not y.inbound_stream().eof()) loop();] *)
Fixpoint until_eof (fuel : nat) (reorder : bool) (b : t) : outcome t :=
  if ByteStream.eof (TCPConnection.inbound_stream (y b)) then Ret b else
  match fuel with
  | 0%nat => Throw out_of_fuel
  | S fuel => b ← loop reorder b; until_eof fuel reorder b
  end.

(** [while (x.active() or y.active()) loop();] *)
Fixpoint until_inactive (fuel : nat) (reorder : bool) (b : t) : outcome t :=
  if negb (TCPConnection.active (x b) || TCPConnection.active (y b)) then Ret b else
  match fuel with
  | 0%nat => Throw out_of_fuel
  | S fuel => b ← loop reorder b; until_inactive fuel reorder b
  end.

Definition start (random_x random_y : Z) (string_to_send : string) : outcome t :=
  x ← TCPConnection.connect (TCPConnection.new TCPConfig.default random_x);
  y ← TCPConnection.end_input_stream (TCPConnection.new TCPConfig.default random_y);
  Ret (mk x y (Buffer.of_string string_to_send) false []).

Definition main_loop (fuel : nat) (random_x random_y : Z) (string_to_send : string) (reorder : bool) : outcome t :=
  b ← start random_x random_y string_to_send;
  b ← until_eof fuel reorder b;
  if negb (bool_decide (string_received b = string_to_send)) then Throw runtime_error else
  until_inactive fuel reorder b.

End Benchmark.
