(* ===== verification/BenchmarkRun.v ===== *)
(** * The benchmark completes

    [Benchmark.main_loop] never throws: the string arrives whole at the second
    connection and both connections shut down, within a number of turns of the loop
    that depends on the length of the string only.

    [Sending] follows a sender that has sent its SYN through the calls of the loop,
    [Wire] says what the segments in the two queues are, [Receiving] and [Acking]
    follow the two connections through the exchange of one turn, [Turn] puts the
    parts of a turn together. *)

From S2P Require Import Prelude WrappingIntegers SpongeBuffer ByteStream StreamReassembler UtilBuffer TCPSegment.
From S2P Require Import TCPReceiver TCPSender TCPConnection Transfer Benchmark.

(** ** The sender *)

Module Sending.
Import TCPSender.

(** The header fields that the sender leaves alone. *)
Definition quiet (seg : TCPSegment.t) : Prop :=
  TCPHeader.ack (TCPSegment.header seg) = false /\ TCPHeader.rst (TCPSegment.header seg) = false.

(** A sender of the stream [W] that has sent its SYN and whose queue has been emptied. *)
Record ready (i : WrappingInt32) (W : string) (una : Z) (s : t) : Prop := {
  r_inv : inv W una s;
  r_isn : _isn s = i;
  r_started : 0 < _next_seqno s;
  r_stream : ByteStream.no_empty_buffer (_stream s);
  r_capacity : 0 < ByteStream._capacity (_stream s);
  r_quiet : Forall quiet (segs_in_flight s);
  r_out : _segments_out s = []
}.

(** Nothing in flight only if there is nothing to send. *)
Definition busy (W : string) (una : Z) (s : t) : Prop :=
  una = _next_seqno s -> 0 < una -> buffered s = [] /\ (ended s = true -> una = zlen W + 2).

Lemma segs_ok_none isn W e a segs : segs_ok isn W e a segs a -> segs = [].
Proof.
  destruct segs as [|seg segs]; [done|]. intros (_ & H2 & H3). apply segs_ok_le in H3. lia.
Qed.

Lemma next_index_bound i W una s : ready i W una s -> 0 <= una <= _next_seqno s /\ _next_seqno s <= zlen W + 2
  /\ zlen W < 2 ^ 63 /\ _next_seqno s - una <= 65536 /\ wi_ok i.
Proof.
  intros Hs. pose proof (r_inv _ _ _ _ Hs) as Hi. pose proof (inv_numbers W una s Hi) as (? & ? & ? & _).
  pose proof (r_isn _ _ _ _ Hs) as <-. zlen_pose.
  destruct Hi as [? ? ? Hrd ? Hnx ? ? Hfl ? ? ? ? ?]. zlen_pose. split_and!; try done; try lia.
Qed.

Lemma drained_inv W una s : inv W una s -> inv W una (set_segments_out s []).
Proof. intros []. by split. Qed.

Lemma drained_same s : _segments_out s = [] -> set_segments_out s [] = s.
Proof. intros <-. by destruct s. Qed.

Lemma push_all_retrans segs s :
  _consecutive_retrans (fold_left push_segment segs s) = _consecutive_retrans s.
Proof. revert s. induction segs as [|seg segs IH]; intros s; [done|]. simpl. by rewrite IH. Qed.

Lemma push_all_flight segs s b :
  segs_in_flight (fold_left push_segment segs (set_stream s b)) = segs_in_flight s ++ segs.
Proof.
  change (segs_in_flight s) with (segs_in_flight (set_stream s b)). generalize (set_stream s b). clear s.
  induction segs as [|seg segs IH]; intros s; simpl; [by rewrite app_nil_r|].
  rewrite IH. unfold segs_in_flight at 1. unfold push_segment. simpl. rewrite fmap_app. simpl.
  by rewrite <- app_assoc.
Qed.

(** [fill_window] *)
Lemma fill_ready i W una s :
  ready i W una s ->
  exists s' segs, fill_window s = Ret s' /\ _segments_out s' = segs /\ ready i W una (set_segments_out s' [])
    /\ segs_ok i W (ended s) (_next_seqno s) segs (_next_seqno s') /\ Forall quiet segs
    /\ ended s' = ended s /\ _window_size s' = _window_size s /\ _consecutive_retrans s' = _consecutive_retrans s
    /\ _next_seqno s' <= Z.max (_next_seqno s) (una + _window_size s)
    /\ segs_in_flight s' = segs_in_flight s ++ segs /\ (una = 0 -> segs = []) /\ busy W una s'.
Proof.
  intros [Hs Ei Hn Hne Hc Hq Ho]. destruct (fill_window_ok W una s Hs) as (b & segs & z & f & E & Hf).
  destruct (inv_numbers W una s Hs) as (Hr0 & Hle & Hf0 & _).
  destruct (filled_inv W una s b segs z f Hs Hf) as (Hs' & Enx & Est & Eo & Ew & Ei').
  assert (Forall quiet (Outbound.held (fold_left push_segment segs (set_stream s b)))) as Hq'.
  { apply (Outbound.fill_window_held quiet s); [done|done|]. unfold Outbound.held. by rewrite Ho, app_nil_r. }
  unfold Outbound.held in Hq'. rewrite Eo, Ho in Hq'. apply Forall_app in Hq' as [Hq1 Hq2].
  pose proof (i_window _ _ _ Hs). pose proof (i_flight _ _ _ Hs) as Hfl. pose proof (i_read _ _ _ Hs).
  pose proof (i_bound _ _ _ Hs). pose proof (i_una _ _ _ Hs). pose proof (i_near _ _ _ Hs).
  pose proof (i_syn _ _ _ Hs) as Hsyn.
  pose proof Hf as [_ _ Fb Fe Fc Fn Fs _ Fz Ff Fd]. rewrite Ei in Fs.
  rewrite (proj2 (Z.eqb_neq (_next_seqno s) 0)), andb_false_r in Fz by lia. zlen_pose.
  assert (_consecutive_retrans (fold_left push_segment segs (set_stream s b)) = _consecutive_retrans s) as Ecr.
  { change (_consecutive_retrans s) with (_consecutive_retrans (set_stream s b)). apply push_all_retrans. }
  exists (fold_left push_segment segs (set_stream s b)), segs.
  assert (0 <= sendable s /\ (can_send s = true -> sendable s = Z.min (_window_size s - _byted_in_flight s) (zlen (buffered s))
     /\ _byted_in_flight s < _window_size s) /\ (can_send s = false -> sendable s = 0)) as (Hsd & Hsd1 & Hsd2).
  { unfold sendable. destruct (can_send s) eqn:Ec; [|done]. unfold can_send in Ec. zbool. lia. }
  split_and!; rewrite ?Enx, ?Ew; try done; try apply push_all_flight.
  - by rewrite Eo, Ho.
  - split; simpl; rewrite ?Est, ?Enx; try done.
    + by apply drained_inv.
    + congruence.
    + apply segs_ok_le in Fs. lia.
    + by apply Fn.
    + by rewrite Fc.
  - unfold ended. by rewrite Est.
  - destruct (can_send s) eqn:Ec.
    + destruct (Hsd1 eq_refl). destruct f; [destruct (Ff eq_refl) as (_ & _ & _ & _ & ?)|]; lia.
    + rewrite Hsd2 in Fz by done. destruct f; [by destruct (Ff eq_refl)|]. lia.
  - intros ->. assert (can_send s = false) as Ec.
    { unfold can_send. rewrite Hsyn, (proj2 (Z.eqb_neq (_next_seqno s) 0)), andb_false_r by lia. done. }
    rewrite Hsd2 in Fz by done. destruct f; [destruct (Ff eq_refl) as (? & _); congruence|].
    rewrite !Z.add_0_r in Fz. rewrite Fz in Fs. by apply segs_ok_none in Fs.
  - unfold busy, buffered, ended. rewrite Enx, Est, Fe, Fb. intros Ez Hu0.
    assert (sendable s = 0 /\ f = false /\ una = _next_seqno s) as (E0 & -> & Eu) by (destruct f; lia).
    assert (can_send s = true) as Ec.
    { unfold can_send. rewrite Hsyn, (proj2 (Z.ltb_lt 0 una)), (proj2 (Z.ltb_lt _ _)) by lia. done. }
    destruct (Hsd1 Ec) as [Emin Hlt]. rewrite E0 in *.
    assert (zlen (buffered s) = 0) as Eb by lia. split.
    { apply drop_ge. unfold zlen in *. lia. }
    intros He. destruct (decide (_next_seqno s = 2 + bytes_read s)) as [|Hx]; [lia|].
    assert (false = true) as [=]. apply Fd. split_and!; [done|exact He|done|by apply ByteStream.no_empty_clogged|lia|lia].
Qed.

(** The segments in flight tell where they start. *)
Lemma segs_ok_start isn W e a b segs z : segs_ok isn W e a segs z -> segs_ok isn W e b segs z -> a = b.
Proof.
  revert a b. induction segs as [|seg segs IH]; intros a b; simpl; [lia|].
  intros (_ & _ & H1) (_ & _ & H2). specialize (IH _ _ H1 H2). lia.
Qed.

(** The part of the segments in flight that reaches [m] when an acknowledgment up to
    [a <= m] has removed some. *)
Lemma drop_until isn W e una q1 m q2 z n una' :
  segs_ok isn W e una q1 m -> segs_ok isn W e m q2 z -> segs_ok isn W e una' (drop n (q1 ++ q2)) z -> una' <= m ->
  exists q1', drop n (q1 ++ q2) = q1' ++ q2 /\ segs_ok isn W e una' q1' m.
Proof.
  revert una n. induction q1 as [|x q1 IH]; intros una n H1 H2 H3 Hm.
  - simpl in *. subst una. exists []. destruct n as [|n].
    { rewrite drop_0 in *. split; [done|]. simpl. by eapply segs_ok_start. }
    assert (forall q n a, segs_ok isn W e a q z -> segs_ok isn W e una' (drop n q) z -> a <= una') as Hdrop.
    { clear. intros q. induction q as [|x q IH]; intros n a Ha Hd.
      - rewrite drop_nil in Hd. simpl in *. lia.
      - destruct n as [|n]; [rewrite drop_0 in Hd; pose proof (segs_ok_start _ _ _ _ _ _ _ Ha Hd); lia|].
        destruct Ha as (_ & ? & Ha). pose proof (IH n _ Ha Hd). lia. }
    destruct q2 as [|y q2]; [rewrite drop_nil in *; simpl in *; split; [done|lia]|].
    simpl in H3. destruct H2 as (_ & ? & H2). pose proof (Hdrop q2 n _ H2 H3). lia.
  - destruct n as [|n].
    + rewrite drop_0 in *. exists (x :: q1). split; [done|].
      assert (una' = una) as ->; [|done]. symmetry. eapply segs_ok_start; [|exact H3].
      by eapply segs_ok_app.
    + destruct H1 as (_ & _ & H1). by apply (IH _ n H1).
Qed.

(** An acknowledgment up to [a <= m], where [m] is the end of a segment in flight. *)
Lemma ack_ready i W una s a w q1 q2 m :
  ready i W una s -> segs_in_flight s = q1 ++ q2 -> segs_ok i W (ended s) una q1 m ->
  segs_ok i W (ended s) m q2 (_next_seqno s) -> una <= a <= m -> is_u16 w ->
  let s' := ack_received s (wrap a i) w in
  exists una' q1', ready i W una' s' /\ una <= una' <= a /\ (a = m -> una' = m)
    /\ segs_in_flight s' = q1' ++ q2 /\ segs_ok i W (ended s) una' q1' m
    /\ _next_seqno s' = _next_seqno s /\ _stream s' = _stream s /\ _window_size s' = Z.max 1 w
    /\ ((una' = una /\ _consecutive_retrans s' = _consecutive_retrans s) \/ _consecutive_retrans s' = 0).
Proof.
  intros Hr Eqq Hq1 Hq2 Ha Hw. pose proof (next_index_bound _ _ _ _ Hr) as (? & ? & ? & ? & ?).
  pose proof (segs_ok_le _ _ _ _ _ _ Hq2). destruct Hr as [Hs Ei Hn Hne Hc Hq Ho]. cbv zeta. zlen_pose.
  pose proof (ack_received_ok W una s (wrap a i) w Hs Hw (or_introl Hn)) as Hk. cbv zeta in Hk.
  rewrite Ei, unwrap_wrap_near in Hk by (done || (unfold is_u64; lia) || lia).
  rewrite (proj2 (Z.ltb_ge _ _)) in Hk by lia.
  destruct Hk as (una' & n & Hs' & Hu & (Ei' & Est & En & _) & Ew & Eo & Eq & Ecr & Hfr).
  pose proof (i_queue _ _ _ Hs') as Hqq. fold (segs_in_flight (ack_received s (wrap a i) w)) in Hqq.
  unfold ended in *. rewrite Eq, Eqq, Ei', Ei, Est, En in Hqq.
  destruct (drop_until _ _ _ _ _ _ _ _ n una' Hq1 Hq2 Hqq) as (q1' & Ed & Hq1'); [lia|].
  exists una', q1'. split_and!; try done; try lia; try congruence.
  - split; rewrite ?Ei', ?En, ?Est, ?Eo, ?Eq; try done. by apply Forall_drop.
  - intros ->. rewrite Eq, Eqq, Ed in Hfr. destruct q1' as [|x q1']; simpl in Hq1'; [done|].
    destruct Hq1' as (_ & _ & Hle). apply segs_ok_le in Hle. simpl in Hfr. lia.
  - destruct n as [|n]; [|by right]. left. split; [|done]. rewrite drop_0 in Hqq.
    eapply segs_ok_start; [exact Hqq|]. by eapply segs_ok_app.
Qed.

(** [tick] retransmits the oldest segment or nothing. *)
Lemma tick_ready i W una s ms :
  ready i W una s ->
  let s' := tick s ms in
  ready i W una (set_segments_out s' [])
  /\ (_segments_out s' = [] \/ exists seg, _segments_out s' = [seg] /\ head (segs_in_flight s) = Some seg)
  /\ _next_seqno s' = _next_seqno s /\ _stream s' = _stream s /\ _window_size s' = _window_size s
  /\ segs_in_flight s' = segs_in_flight s
  /\ (_consecutive_retrans s = 0 -> 0 <= _consecutive_retrans s' <= 1)
  /\ (segs_in_flight s = [] -> _consecutive_retrans s' = _consecutive_retrans s).
Proof.
  intros [Hs Ei Hn Hne Hc Hq Ho]. pose proof (drained_inv _ _ _ (sender_tick_inv W una s ms Hs)) as Hs'.
  assert (segs_in_flight (tick s ms) = segs_in_flight s
    /\ (_segments_out (tick s ms) = [] \/ exists seg, _segments_out (tick s ms) = [seg] /\ head (segs_in_flight s) = Some seg)
    /\ (_consecutive_retrans s = 0 -> 0 <= _consecutive_retrans (tick s ms) <= 1)
    /\ (segs_in_flight s = [] -> _consecutive_retrans (tick s ms) = _consecutive_retrans s)
    /\ _isn (tick s ms) = i /\ _next_seqno (tick s ms) = _next_seqno s /\ _stream (tick s ms) = _stream s
    /\ _window_size (tick s ms) = _window_size s) as (E1 & E2 & E3 & E8 & E4 & E5 & E6 & E7).
  { unfold tick, segs_in_flight. cbn [_seg_queue].
    destruct (_seg_queue s) as [|x q] eqn:Eq; [|case_if]; simpl; rewrite ?Ho, ?Eq; split_and!; try done; try lia;
      [by left|right; by eexists|intros ->; vm_compute; split; discriminate|by left]. }
  cbv zeta. split; [|split_and!; done].
  assert (Forall quiet (segs_in_flight (set_segments_out (tick s ms) []))) as Hq'
    by (change (segs_in_flight (set_segments_out (tick s ms) [])) with (segs_in_flight (tick s ms)); by rewrite E1).
  split; try done; cbn [_next_seqno _stream set_segments_out]; by rewrite ?E5, ?E6.
Qed.

(** Writing no more than fits. *)
Lemma write_ready i W una s data :
  ready i W una s -> ended s = false -> zlen W + zlen data < 2 ^ 63 -> data <> [] ->
  zlen data <= ByteStream.remaining_capacity (_stream s) ->
  exists b, ByteStream.write (_stream s) data = (b, zlen data) /\ ready i (W ++ data) una (set_stream s b)
    /\ ended (set_stream s b) = false.
Proof.
  intros [Hs Ei Hn Hne Hc Hq Ho] He Hb Hd Hcap. zlen_pose.
  pose proof (ByteStream.remaining_capacity_spec _ (i_stream _ _ _ Hs)) as Erc. rewrite Erc in Hcap.
  destruct (write_inv W una s data Hs He Hb) as (b & n & E & En & Hi).
  assert (ByteStream.accepted (_stream s) data = data) as Ea
    by (unfold ByteStream.accepted; apply take_ge; unfold zlen in *; lia).
  rewrite Ea in *. subst n. exists b. split; [done|].
  destruct (ByteStream.write_spec (_stream s) data) as (_ & _ & _ & Hcp & _ & Hie & _); [apply Hs|lia|].
  pose proof (ByteStream.write_no_empty_buffer (_stream s) data (i_stream _ _ _ Hs) Hne) as Hne'.
  rewrite E in Hcp, Hie, Hne'. simpl in *. split; [|unfold ended in *; simpl; by rewrite Hie].
  split; simpl; try done; [|by rewrite Hcp]. apply Hne'. right. rewrite Erc.
  assert (zlen data <> 0) by (intros ?%zlen_zero_nil; done). lia.
Qed.

Lemma end_ready i W una s :
  ready i W una s -> ready i W una (set_stream s (ByteStream.end_input (_stream s))).
Proof. intros [Hs Ei Hn Hne Hc Hq Ho]. split; try done. by apply end_input_inv. Qed.

End Sending.

(** ** The segments on their way *)

Module Wire.
Import TCPSender.

Section Wire.
Context (ix iy : WrappingInt32) (cap : Z).

(** A segment of the first connection once it has seen the SYN and the FIN of the
    second: a part of the stream [W] at the sequence number [b], or an empty one. *)
Record x_seg (W : string) (e : bool) (b : Z) (seg : TCPSegment.t) : Prop := {
  xs_ack : TCPHeader.ack (TCPSegment.header seg) = true;
  xs_ackno : TCPHeader.ackno (TCPSegment.header seg) = wrap 2 iy;
  xs_rst : TCPHeader.rst (TCPSegment.header seg) = false;
  xs_win : is_u16 (TCPHeader.win (TCPSegment.header seg));
  xs_pos : 1 <= b <= zlen W + 2;
  xs_body : seg_ok ix W e seg b
    \/ (TCPHeader.seqno (TCPSegment.header seg) = wrap b ix /\ seg_syn seg = false /\ seg_fin seg = false
        /\ payload_bytes seg = [])
}.

(** [segs] continue the stream from [cur] to [z], with repetitions of what starts at
    [lo] or later. *)
Fixpoint runs (W : string) (e : bool) (lo cur : Z) (segs : list TCPSegment.t) (z : Z) : Prop :=
  match segs with
  | [] => cur = z
  | seg :: segs =>
      exists b, lo <= b <= cur /\ x_seg W e b seg /\ runs W e lo (Z.max cur (b + seg_length seg)) segs z
  end.

(** A segment of the second connection: it acknowledges everything below [a] and
    offers a window that ends at [limit] at the latest.  It is empty or repeats the
    first one. *)
Record y_seg (limit a : Z) (seg : TCPSegment.t) : Prop := {
  ys_ack : TCPHeader.ack (TCPSegment.header seg) = true;
  ys_ackno : TCPHeader.ackno (TCPSegment.header seg) = wrap a ix;
  ys_rst : TCPHeader.rst (TCPSegment.header seg) = false;
  ys_win : is_u16 (TCPHeader.win (TCPSegment.header seg));
  ys_limit : a + TCPHeader.win (TCPSegment.header seg) <= limit;
  ys_cap : TCPHeader.win (TCPSegment.header seg) <= cap;
  ys_payload : payload_bytes seg = [];
  ys_body : (TCPHeader.seqno (TCPSegment.header seg) = wrap 2 iy /\ seg_syn seg = false /\ seg_fin seg = false)
    \/ (TCPHeader.seqno (TCPSegment.header seg) = iy /\ seg_syn seg = true /\ seg_fin seg = true)
}.

(** Acknowledgments that grow from [lo]; the last one is of [hi]. *)
Fixpoint acks (limit lo : Z) (segs : list TCPSegment.t) (hi : Z) : Prop :=
  match segs with
  | [] => lo = hi
  | seg :: segs => exists a, lo <= a /\ y_seg limit a seg /\ acks limit a segs hi
  end.

Lemma acks_le limit lo segs hi : acks limit lo segs hi -> lo <= hi.
Proof using.
  revert lo. induction segs as [|seg segs IH]; intros lo; simpl; [lia|].
  intros (a & Ha & _ & H). specialize (IH _ H). lia.
Qed.

Lemma acks_snoc limit lo segs hi seg a :
  acks limit lo segs hi -> hi <= a -> y_seg limit a seg -> acks limit lo (segs ++ [seg]) a.
Proof using.
  revert lo. induction segs as [|x segs IH]; intros lo; simpl.
  - intros -> Ha Hy. by exists a.
  - intros (b & Hb & Hx & H) Ha Hy. exists b. split; [done|]. split; [done|]. by apply IH.
Qed.

Lemma x_seg_length W e b seg :
  x_seg W e b seg -> seg_syn seg = false /\ b + seg_length seg <= zlen W + 2
  /\ seg_length seg = zlen (payload_bytes seg) + (if seg_fin seg then 1 else 0)
  /\ TCPSegment.length_in_sequence_space seg = seg_length seg.
Proof using.
  intros [_ _ _ _ Hb Hx]. unfold seg_length. zlen_pose. destruct Hx as [Hok|(_ & Es & Ef & Ep)].
  - destruct (seg_ok_length _ _ _ _ _ Hok) as [El _]. destruct Hok as [_ _ Es _ Hend Hfin _].
    rewrite (proj2 (Z.eqb_neq _ _)) in Es by lia. rewrite El. unfold seg_length. rewrite Es.
    split; [done|]. split; [|split; lia]. destruct (seg_fin seg); lia.
  - unfold TCPSegment.length_in_sequence_space. fold (payload_bytes seg) (seg_syn seg) (seg_fin seg).
    rewrite Es, Ef, Ep. change (zlen (@nil byte)) with 0. split; [done|]. split; [lia|done].
Qed.

Lemma runs_le W e lo cur segs z : runs W e lo cur segs z -> cur <= z.
Proof using.
  revert cur. induction segs as [|x segs IH]; intros cur; simpl; [lia|].
  intros (b & _ & _ & H). specialize (IH _ H). lia.
Qed.

Lemma runs_app W e lo cur segs mid segs' z :
  runs W e lo cur segs mid -> runs W e lo mid segs' z -> runs W e lo cur (segs ++ segs') z.
Proof using.
  revert cur. induction segs as [|x segs IH]; intros cur; simpl; [by intros ->|].
  intros (b & Hb & Hx & H) H'. exists b. split; [done|]. split; [done|]. by apply IH.
Qed.

(** The stream may grow, and end. *)
Lemma x_seg_extend W e w e' b seg :
  x_seg W e b seg -> (e = true -> w = [] /\ e' = true) -> x_seg (W ++ w) e' b seg.
Proof using.
  intros [H1 H2 H3 H4 H5 H6] He. split; try done; [rewrite zlen_app; zlen_pose; lia|].
  destruct H6 as [H6|H6]; [left|by right]. by apply (seg_ok_extend ix W e).
Qed.

Lemma runs_extend W e w e' lo cur segs z :
  runs W e lo cur segs z -> (e = true -> w = [] /\ e' = true) -> runs (W ++ w) e' lo cur segs z.
Proof using.
  intros H He. revert cur H. induction segs as [|x segs IH]; intros cur; simpl; [done|].
  intros (b & Hb & Hx & H). exists b. split; [done|]. split; [by apply (x_seg_extend W e)|]. by apply IH.
Qed.

(** What the first connection makes of the segments of its sender. *)
Lemma fill_ack_x r W e seg b :
  TCPReceiver.ackno r = Some (wrap 2 iy) -> seg_ok ix W e seg b -> Sending.quiet seg -> 1 <= b ->
  x_seg W e b (TCPConnection.fill_ack r seg).
Proof using.
  intros Er Hok [_ Hr] Hb. pose proof (Endpoint.window_size_range r).
  split; simpl; rewrite ?Er; try done.
  - unfold is_u16. lia.
  - destruct Hok. zlen_pose. lia.
  - left. by destruct Hok; split.
Qed.

Lemma fill_ack_empty r W e s :
  TCPReceiver.ackno r = Some (wrap 2 iy) -> _isn s = ix -> 1 <= _next_seqno s <= zlen W + 2 ->
  x_seg W e (_next_seqno s)
    (TCPConnection.fill_ack r (TCPSegment.mk (set_flags TCPHeader.default false false (next_seqno s)) Buffer.null)).
Proof using.
  intros Er Ei Hn. pose proof (Endpoint.window_size_range r).
  split; simpl; rewrite ?Er; try done.
  - unfold is_u16. lia.
  - right. unfold next_seqno. by rewrite Ei.
Qed.

Lemma runs_fill r W e lo a segs z :
  TCPReceiver.ackno r = Some (wrap 2 iy) -> segs_ok ix W e a segs z -> Forall Sending.quiet segs ->
  1 <= lo <= a -> runs W e lo a (TCPConnection.fill_ack r <$> segs) z.
Proof using.
  intros Er. revert a. induction segs as [|seg segs IH]; intros a; simpl; [done|].
  intros (H1 & H2 & H3) Hq Hlo. inversion Hq; subst. exists a. split; [lia|].
  split; [apply fill_ack_x; (done || lia)|].
  replace (Z.max a (a + seg_length (TCPConnection.fill_ack r seg))) with (a + seg_length seg).
  - apply IH; [done|done|lia].
  - change (seg_length (TCPConnection.fill_ack r seg)) with (seg_length seg). lia.
Qed.

End Wire.
End Wire.

(** ** The second connection *)

Module Receiving.
Import TCPConnection Wire.

(** The next sequence number that the receiver waits for. *)
Definition position (r : TCPReceiver.t) : Z :=
  StreamReassembler._top_pointer (TCPReceiver._reassembler r)
  + (if ByteStream.input_ended (TCPReceiver.stream_out r) then 1 else 0).

(** Bytes wait for a gap only after the end of the stream. *)
Definition gapless (r : TCPReceiver.t) : Prop :=
  ByteStream.input_ended (TCPReceiver.stream_out r) = true
  \/ StreamReassembler._buffer_list (TCPReceiver._reassembler r) = [].

Section Receiving.
Context (ix iy : WrappingInt32) (D : string) (cap : Z).

Record receiving (read pos : Z) (r : TCPReceiver.t) : Prop := {
  rv_inv : TCPReceiver.inv ix D r;
  rv_capacity : StreamReassembler._capacity (TCPReceiver._reassembler r) = cap;
  rv_gapless : gapless r;
  rv_read : TCPReceiver.bytes_read r = read;
  rv_pos : position r = pos
}.

Lemma receiving_bounds read pos r :
  receiving read pos r ->
  let top := StreamReassembler._top_pointer (TCPReceiver._reassembler r) in
  1 + read <= top <= 1 + zlen D /\ top = 1 + read + zlen (ByteStream.bytes (TCPReceiver.stream_out r))
  /\ top + StreamReassembler.room (TCPReceiver._reassembler r) = 1 + read + cap /\ 0 <= read
  /\ (ByteStream.input_ended (TCPReceiver.stream_out r) = true -> top = 1 + zlen D)
  /\ 1 + zlen D < 2 ^ 64 - 1 /\ 0 <= StreamReassembler.room (TCPReceiver._reassembler r).
Proof using.
  intros [Hr Hc _ <- _]. pose proof (TCPReceiver.inv_reassembler _ _ _ Hr) as Hra. cbv zeta.
  pose proof (StreamReassembler.inv_top_le _ _ _ Hra). pose proof (StreamReassembler.inv_top _ _ _ Hra).
  pose proof (StreamReassembler.inv_bound _ _ _ Hra). pose proof (StreamReassembler.inv_ended _ _ _ Hra).
  destruct (StreamReassembler.current_capacity_room _ _ _ Hra) as [_ ?].
  pose proof (ByteStream.wf_read _ (StreamReassembler.inv_output _ _ _ Hra)) as [? ?].
  unfold TCPReceiver.bytes_read, TCPReceiver.stream_out, StreamReassembler.stream_out in *.
  unfold StreamReassembler.room in *. zlen_pose. split_and!; try done; lia.
Qed.

(** A segment of the first connection is a data segment for the receiver. *)
Lemma x_seg_data r W rest e b seg :
  TCPReceiver.inv ix D r -> D = W ++ rest -> (e = true -> rest = []) -> x_seg ix iy W e b seg ->
  Z.abs (b - StreamReassembler._top_pointer (TCPReceiver._reassembler r)) < 2 ^ 31 -> zlen D < 2 ^ 63 ->
  TCPReceiver.data_segment ix D r seg b.
Proof using.
  intros Hr ED He [_ _ _ _ Hb Hx] Hn HD. assert (zlen D = zlen W + zlen rest) as El by (rewrite ED; apply zlen_app).
  zlen_pose. destruct Hx as [[_ Hq Hsy Hd Hend Hfin _]|(Hq & Hsy & Hf & Hp)].
  - rewrite (proj2 (Z.eqb_neq _ _)) in Hsy by lia. replace (Z.max b 1) with b in * by lia.
    split; [done|done|done|]. fold (TCPSender.payload_bytes seg). fold (TCPSender.seg_fin seg).
    pose proof (zlen_nonneg (TCPSender.payload_bytes seg)). split; [lia|lia| |].
    + rewrite Hd at 1. rewrite ED. symmetry. apply slice_app_l; lia.
    + intros Ef. destruct (Hfin Ef) as [Een ?]. rewrite (He Een), zlen_nil in El. lia.
  - split; [done|done|done|]. fold (TCPSender.payload_bytes seg). fold (TCPSender.seg_fin seg).
    rewrite Hp, Hf. split; rewrite ?zlen_nil; [lia|lia|by rewrite slice_empty|done].
Qed.

(** The receiver gets the next segment, or one it has. *)
Lemma receive_next read pos r W rest e b seg :
  receiving read pos r -> D = W ++ rest -> (e = true -> rest = []) -> x_seg ix iy W e b seg -> zlen D < 2 ^ 63 ->
  pos - 2 ^ 30 < b <= pos -> b + TCPSender.seg_length seg <= Z.max pos (1 + read + cap) ->
  exists r', TCPReceiver.segment_received r seg = Ret r'
    /\ receiving read (Z.max pos (b + TCPSender.seg_length seg)) r'.
Proof using.
  intros Hv ED He Hx HD Hb Hfit. pose proof (receiving_bounds _ _ _ Hv) as (? & ? & ? & ? & Hend & ? & ?).
  destruct (x_seg_length _ _ _ _ _ _ Hx) as (Hsy & Hlen & El & _).
  pose proof Hv as [Hr Hc Hg Hrd Hp]. unfold position in Hp.
  assert (zlen D = zlen W + zlen rest) as ElD by (rewrite ED; apply zlen_app). zlen_pose.
  assert (TCPReceiver.data_segment ix D r seg b) as Hd.
  { apply (x_seg_data r W rest e); try done. destruct (ByteStream.input_ended _); lia. }
  destruct (ByteStream.input_ended (TCPReceiver.stream_out r)) eqn:Ee.
  - destruct (TCPReceiver.data_received_ended ix D r seg b) as (r' & E & Hr' & (_ & Ht & Hc' & Hrd' & _) & Ee'); [done..|].
    exists r'. split; [done|]. specialize (Hend eq_refl). split; [done|congruence|by left| |].
    + unfold TCPReceiver.bytes_read, TCPReceiver.stream_out, StreamReassembler.stream_out in *. congruence.
    + unfold position. rewrite Ee'. lia.
  - destruct Hg as [Hg|Hg]; [congruence|]. destruct (TCPReceiver.ds_data _ _ _ _ _ Hd) as [_ Hl _ Hfin].
    fold (TCPSender.payload_bytes seg) in *. fold (TCPSender.seg_fin seg) in *.
    destruct (TCPReceiver.data_received_in_order ix D r seg b) as (r' & E & Hr' & Hg' & (_ & Ht & Hc' & Hrd' & _) & Ee');
      try done; fold (TCPSender.payload_bytes seg) in *; fold (TCPSender.seg_fin seg) in *; try lia.
    { destruct (TCPSender.seg_fin seg); lia. }
    { intros Ef. specialize (Hfin Ef). rewrite Ef in El. lia. }
    exists r'. split; [done|]. split; [done|congruence|by right| |].
    + unfold TCPReceiver.bytes_read, TCPReceiver.stream_out, StreamReassembler.stream_out in *. congruence.
    + unfold position. rewrite Ee', Ee. simpl. destruct (TCPSender.seg_fin seg); [specialize (Hfin eq_refl)|]; lia.
Qed.

(** The connection: it has nothing to send, and has not shut down. *)
Record listening (u read pos : Z) (c : t) : Prop := {
  l_timeout : TCPConfig.rt_timeout (_cfg c) = 1000;
  l_sender : Sending.ready iy [] u (_sender c);
  l_next : TCPSender._next_seqno (_sender c) = 2;
  l_retrans : 0 <= TCPSender._consecutive_retrans (_sender c) <= 1;
  l_receiver : receiving read pos (_receiver c);
  l_linger : _linger_after_streams_finish c = true;
  l_rst : _is_rst c = false;
  l_first : _send_fin_first c = true
}.

Lemma listening_sender u s :
  Sending.ready iy [] u s -> TCPSender._next_seqno s = 2 ->
  ByteStream.eof (TCPSender.stream_in s) = true /\ TCPSender.is_fin_received s = (u =? 2) /\ 0 <= u <= 2.
Proof using.
  intros Hs Hn. pose proof (Sending.next_index_bound _ _ _ _ Hs) as (? & _). destruct Hs as [Hs _ _ Hne _ _ _].
  pose proof (TCPSender.i_read _ _ _ Hs) as Hrd. pose proof (TCPSender.inv_numbers _ _ _ Hs) as (? & _).
  rewrite zlen_nil in Hrd. zlen_pose. unfold TCPSender.is_fin_received. rewrite (TCPSender.i_fin _ _ _ Hs).
  assert (TCPSender.bytes_read s = 0) as -> by lia. split; [|split; [done|lia]].
  destruct (TCPSender.i_next _ _ _ Hs) as [?|[?|(_ & He & Hb)]]; [lia|lia|].
  by apply TCPSender.eof_intro.
Qed.

(** There is nothing to send. *)
Lemma fill_idle u s :
  Sending.ready iy [] u s -> TCPSender._next_seqno s = 2 ->
  exists s', TCPSender.fill_window s = Ret s' /\ Sending.ready iy [] u s' /\ TCPSender._next_seqno s' = 2
    /\ TCPSender._consecutive_retrans s' = TCPSender._consecutive_retrans s
    /\ TCPSender.segs_in_flight s' = TCPSender.segs_in_flight s.
Proof using.
  intros Hs Hn. destruct (Sending.fill_ready iy [] u s Hs)
    as (s' & segs & E & Eo & Hs' & Hsegs & _ & _ & _ & Ecr & _ & Hfl & _).
  pose proof (Sending.next_index_bound _ _ _ _ Hs') as (_ & Hle & _). simpl in Hle. rewrite Hn in Hsegs.
  pose proof (TCPSender.segs_ok_le _ _ _ _ _ _ Hsegs). change (zlen (@nil byte)) with 0 in Hle.
  assert (TCPSender._next_seqno s' = 2) as En by lia. rewrite En in Hsegs. apply Sending.segs_ok_none in Hsegs.
  rewrite Hsegs, app_nil_r in Hfl. rewrite Sending.drained_same in Hs' by congruence. by exists s'.
Qed.

(** The acknowledgment it sends. *)
Lemma fill_ack_y limit read pos r s :
  receiving read pos r -> TCPSender._isn s = iy -> TCPSender._next_seqno s = 2 -> cap <= 65535 ->
  2 + read + cap <= limit ->
  y_seg ix iy cap limit pos
    (fill_ack r (TCPSegment.mk (TCPSender.set_flags TCPHeader.default false false (TCPSender.next_seqno s)) Buffer.null)).
Proof using.
  intros Hv Ei En Hcap Hlim. pose proof (receiving_bounds _ _ _ Hv) as (? & ? & ? & ? & ? & ? & ?).
  destruct Hv as [Hr Hc Hg Hrd Hp]. pose proof (TCPReceiver.ackno_inv ix D r Hr) as Ea.
  fold (position r) in Ea. rewrite Hp in Ea. pose proof (TCPReceiver.window_inv ix D r Hr) as Ew.
  unfold position in Hp. zlen_pose.
  split; simpl; rewrite ?Ea, ?Ew; try done.
  - unfold is_u16. lia.
  - destruct (ByteStream.input_ended _); lia.
  - lia.
  - left. unfold TCPSender.next_seqno. by rewrite Ei, En.
Qed.

(** What a segment leaves in the queue of the connection. *)
Definition answered (limit pos pos' : Z) (c c' : t) : Prop :=
  (_segments_out c' = _segments_out c /\ pos' = pos)
  \/ exists ack, _segments_out c' = _segments_out c ++ [ack] /\ y_seg ix iy cap limit pos' ack.

(** The sender's queue is moved to the connection's. *)
Lemma listening_sent u read pos c s segs :
  listening u read pos c -> Sending.ready iy [] u (TCPSender.set_segments_out s []) ->
  TCPSender._next_seqno s = 2 -> TCPSender._consecutive_retrans s = TCPSender._consecutive_retrans (_sender c) ->
  TCPSender._segments_out s = segs ->
  listening u read pos (_send_ack_if_need (set_sender c s))
  /\ _segments_out (_send_ack_if_need (set_sender c s)) = _segments_out c ++ (fill_ack (_receiver c) <$> segs).
Proof using.
  intros [] Hs Hn Hr Es. split; [|simpl; by rewrite <- Es]. split; try done. simpl. by rewrite Hr.
Qed.

Lemma listening_ack limit u read pos c s :
  listening u read pos c -> Sending.ready iy [] u s -> TCPSender._next_seqno s = 2 ->
  TCPSender._consecutive_retrans s = TCPSender._consecutive_retrans (_sender c) ->
  cap <= 65535 -> 2 + read + cap <= limit ->
  let c' := _send_ack_if_need (set_sender c (TCPSender.send_empty_segment s)) in
  listening u read pos c' /\ answered limit pos pos c c'.
Proof using.
  intros Hl Hs Hn Hr Hcap Hlim. pose proof (Sending.r_out _ _ _ _ Hs) as Ho.
  destruct (listening_sent u read pos c (TCPSender.send_empty_segment s)
    [TCPSegment.mk (TCPSender.set_flags TCPHeader.default false false (TCPSender.next_seqno s)) Buffer.null])
    as [H1 H2]; try done.
  { change (TCPSender.set_segments_out (TCPSender.send_empty_segment s) []) with (TCPSender.set_segments_out s []).
    by rewrite Sending.drained_same. }
  { simpl. by rewrite Ho. }
  split; [done|]. right. eexists. split; [exact H2|].
  apply (fill_ack_y limit read); [apply Hl|apply Hs|done..].
Qed.

Lemma listening_reply limit u read pos c seg :
  listening u read pos c -> 0 < u \/ TCPHeader.syn (TCPSegment.header seg) = true ->
  cap <= 65535 -> 2 + read + cap <= limit ->
  TCPSegment.length_in_sequence_space seg = TCPSender.seg_length seg ->
  exists c', reply c seg = Ret c' /\ listening u read pos c' /\ _last_received_time c' = _last_received_time c
    /\ TCPSender.segs_in_flight (_sender c') = TCPSender.segs_in_flight (_sender c)
    /\ TCPSender._consecutive_retrans (_sender c') = TCPSender._consecutive_retrans (_sender c)
    /\ answered limit pos pos c c'
    /\ (0 < TCPSender.seg_length seg -> exists ack, _segments_out c' = _segments_out c ++ [ack] /\ y_seg ix iy cap limit pos ack).
Proof using.
  intros Hl Hu Hcap Hlim El. unfold reply. pose proof (l_sender _ _ _ _ Hl) as Hs.
  pose proof (TCPSender.i_syn _ _ _ (Sending.r_inv _ _ _ _ Hs)) as Hsyn.
  assert (TCPSender.is_syn_received (_sender c) || TCPHeader.syn (TCPSegment.header seg) = true) as ->.
  { unfold TCPSender.is_syn_received. rewrite Hsyn. destruct Hu as [Hu| ->]; [|by rewrite orb_true_r].
    by rewrite (proj2 (Z.ltb_lt _ _)). }
  destruct (fill_idle u (_sender c) Hs (l_next _ _ _ _ Hl)) as (s & -> & Hs' & Hn & Hr & Hfl). cbn [mbind outcome_bind].
  unfold TCPSender.segments_out. rewrite (Sending.r_out _ _ _ _ Hs'). cbn [andb].
  destruct (listening_ack limit u read pos c s Hl Hs' Hn Hr Hcap Hlim) as [H1 H2].
  destruct (listening_sent u read pos c s [] Hl) as [H3 H4];
    [by rewrite Sending.drained_same by apply Hs'|done|done|apply Hs'|].
  set (b := if negb _ then true else _). destruct b eqn:Eb.
  - eexists. split; [done|]. split; [done|]. split; [done|]. split; [exact Hfl|]. split; [exact Hr|]. split; [done|].
    intros _. destruct H2 as [[Heq _]|H2]; [|done]. simpl in Heq. rewrite fmap_app in Heq.
    apply (f_equal length) in Heq. rewrite !length_app in Heq. simpl in Heq. lia.
  - eexists. split; [done|]. split; [done|]. split; [done|]. split; [exact Hfl|]. split; [exact Hr|].
    rewrite fmap_nil, app_nil_r in H4. split; [by left|].
    intros Hp. exfalso. subst b. rewrite El, (proj2 (Z.leb_le 1 _)), andb_true_r in Eb by lia.
    by destruct (Buffer.size _ =? 0).
Qed.

(** The acknowledgment in a segment is of all that this connection has sent. *)
Lemma listening_acked u s ackno w :
  Sending.ready iy [] u s -> TCPSender._next_seqno s = 2 -> 0 <= TCPSender._consecutive_retrans s <= 1 ->
  ackno = wrap 2 iy -> is_u16 w ->
  let s' := TCPSender.ack_received s ackno w in
  Sending.ready iy [] 2 s' /\ TCPSender._next_seqno s' = 2 /\ 0 <= TCPSender._consecutive_retrans s' <= 1.
Proof using.
  intros Hs Hn Hr -> Hw. pose proof (Sending.r_inv _ _ _ _ Hs) as Hi. pose proof (TCPSender.i_queue _ _ _ Hi) as Hq.
  fold (TCPSender.segs_in_flight s) in Hq. rewrite Hn, (Sending.r_isn _ _ _ _ Hs) in Hq.
  destruct (listening_sender u s Hs Hn) as (_ & _ & ?).
  destruct (Sending.ack_ready iy [] u s 2 w (TCPSender.segs_in_flight s) [] 2)
    as (u' & q & Hs' & _ & E & _ & _ & En & _ & _ & Hcr); try done; [by rewrite app_nil_r|lia|].
  rewrite E in * by done. split; [done|]. split; [congruence|]. destruct Hcr as [[_ ->]| ->]; lia.
Qed.

Lemma active_listening u read pos c : listening u read pos c -> active c = true.
Proof using. intros Hl. unfold active. rewrite (l_rst _ _ _ _ Hl), (l_linger _ _ _ _ Hl). by rewrite andb_false_r. Qed.

Lemma listening_touched u read pos c n : listening u read pos c -> listening u read pos (set_last_received_time c n).
Proof using. by intros []. Qed.

(** A segment of the first connection. *)
Lemma listening_step limit u read pos c W rest e b seg :
  listening u read pos c -> D = W ++ rest -> (e = true -> rest = []) -> x_seg ix iy W e b seg -> zlen D < 2 ^ 63 ->
  pos - 2 ^ 30 < b <= pos -> b + TCPSender.seg_length seg <= Z.max pos (1 + read + cap) ->
  cap <= 65535 -> 2 + read + cap <= limit ->
  let pos' := Z.max pos (b + TCPSender.seg_length seg) in
  exists c', segment_received c seg = Ret c' /\ listening 2 read pos' c' /\ answered limit pos pos' c c'
    /\ _last_received_time c' = 0.
Proof using.
  intros Hl ED He Hx HD Hb Hfit Hcap Hlim pos'. pose proof (listening_touched u read pos c 0 Hl) as Hl0.
  destruct (x_seg_length _ _ _ _ _ _ Hx) as (Hsy & Hlen & El & El').
  unfold segment_received. rewrite (xs_rst _ _ _ _ _ _ Hx). cbv zeta.
  change (_segments_out c) with (_segments_out (set_last_received_time c 0)).
  assert (_last_received_time (set_last_received_time c 0) = 0) as Et by done.
  assert (answered limit pos pos' (set_last_received_time c 0) = answered limit pos pos' c) as Ean by done.
  rewrite <- Ean. clear Ean. generalize dependent (set_last_received_time c 0). clear Hl c. intros c Hl Et.
  rewrite (active_listening u read pos c Hl). cbn [negb].
  destruct (listening_sender u (_sender c) (l_sender _ _ _ _ Hl) (l_next _ _ _ _ Hl)) as (Heof & Hfin & _).
  rewrite Hfin, (l_first _ _ _ _ Hl), (xs_ack _ _ _ _ _ _ Hx), (xs_ackno _ _ _ _ _ _ Hx). cbn [andb].
  pose proof (receiving_bounds _ _ _ (l_receiver _ _ _ _ Hl)) as (? & ? & ? & ? & Hended & ? & ?).
  pose proof (rv_pos _ _ _ (l_receiver _ _ _ _ Hl)) as Hp. unfold position in Hp.
  assert (zlen D = zlen W + zlen rest) as ElD by (rewrite ED; apply zlen_app). zlen_pose.
  destruct ((u =? 2) && ByteStream.eof (TCPReceiver.stream_out (_receiver c)) && _) eqn:Eguard.
  { zbool. subst u. exists c. assert (ByteStream.input_ended (TCPReceiver.stream_out (_receiver c)) = true) as Ee
      by (by apply TCPSender.eof_bytes). rewrite Ee in Hp. specialize (Hended Ee).
    assert (pos' = pos) as -> by lia. split; [done|]. split; [done|]. split; [by left|done]. }
  destruct (receive_next read pos (_receiver c) W rest e b seg (l_receiver _ _ _ _ Hl)) as (r' & Er & Hr'); [done..|].
  destruct (listening_acked u (_sender c) (wrap 2 iy) (TCPHeader.win (TCPSegment.header seg)))
    as (Hs1 & Hn1 & Hc1); [apply Hl..|done|apply Hx|].
  cbn [_receiver set_sender]. rewrite Er. cbn [mbind outcome_bind]. fold pos' in Hr'.
  set (s1 := TCPSender.ack_received _ _ _) in *. clearbody s1.
  set (c1 := set_receiver (set_sender c s1) r').
  assert (listening 2 read pos' c1) as Hl1 by (by destruct Hl; split).
  assert (_last_received_time c1 = 0 /\ _segments_out c1 = _segments_out c) as [Et1 Eo1] by done.
  assert (_receiver c1 = r' /\ _sender c1 = s1) as [Er1 Es1] by done. clearbody c1.
  destruct (listening_sender 2 s1 Hs1 Hn1) as (Heof1 & _ & _).
  rewrite Es1, Heof1, andb_false_r. cbn match. rewrite (l_first _ _ _ _ Hl1), andb_false_r, Es1. cbn match.
  match goal with |- context [if ?k then Ret _ else _] => destruct k eqn:Ek end.
  - eexists. split; [done|]. destruct (listening_ack limit 2 read pos' c1 s1 Hl1 Hs1 Hn1) as [G1 G2];
      [by rewrite Es1|done|done|]. split; [done|]. split; [|done].
    destruct G2 as [[G2 _]|G2]; [|right; by rewrite Eo1 in G2].
    exfalso. simpl in G2. rewrite fmap_app in G2. apply (f_equal length) in G2.
    rewrite !length_app in G2. simpl in G2. lia.
  - destruct (listening_reply limit 2 read pos' c1 seg Hl1) as (c' & E & Hl' & Et' & _ & _ & Han & Hans); [left; lia|done..|].
    exists c'. split; [done|]. split; [done|]. split; [|by rewrite Et'].
    destruct (decide (0 < TCPSender.seg_length seg)) as [Hp0|Hp0].
    + right. destruct (Hans Hp0) as (ack & E1 & E2). exists ack. by rewrite <- Eo1.
    + assert (pos' = pos) as Epos by lia. rewrite Epos in *.
      destruct Han as [[E1 _]|E1]; [left; by rewrite E1|right; by rewrite <- Eo1].
Qed.

(** All that the first connection has sent, in order. *)
Lemma listening_all limit W rest e lo z segs u read pos c hi :
  listening u read pos c -> D = W ++ rest -> (e = true -> rest = []) -> zlen D < 2 ^ 63 ->
  runs ix iy W e lo pos segs z -> z - 2 ^ 30 < lo -> z <= Z.max pos (1 + read + cap) ->
  cap <= 65535 -> 2 + read + cap <= limit -> acks ix iy cap limit hi (_segments_out c) pos ->
  exists c' u', Benchmark.receive_all c segs = Ret c' /\ listening u' read z c'
    /\ acks ix iy cap limit hi (_segments_out c') z
    /\ (segs <> [] -> _last_received_time c' = 0 /\ u' = 2)
    /\ (segs = [] -> c' = c /\ u' = u).
Proof using.
  intros Hl ED He HD Hruns Hlo Hz Hcap Hlim Hacks.
  revert u pos c Hl Hruns Hz Hacks. induction segs as [|seg segs IH]; intros u pos c Hl Hruns Hz Hacks.
  { simpl in Hruns. subst z. exists c, u. split; [done|]. done. }
  destruct Hruns as (b & Hb & Hx & Hruns). pose proof (runs_le _ _ _ _ _ _ _ _ Hruns).
  destruct (listening_step limit u read pos c W rest e b seg) as (c1 & E & Hl1 & Han & Et); try done; try lia.
  cbn [Benchmark.receive_all]. rewrite E. cbn [mbind outcome_bind].
  destruct (IH 2 _ c1 Hl1 Hruns) as (c' & u' & E' & Hl' & Ha' & H1 & H2); [lia| |].
  { destruct Han as [[-> ->]|(ack & -> & Hy)]; [done|]. apply (acks_snoc _ _ _ _ _ _ pos); [done|lia|done]. }
  exists c', u'. split; [done|]. split; [done|]. split; [done|]. split; [|done]. intros _.
  destruct segs as [|seg' segs]; [|by apply H1]. by destruct (H2 eq_refl) as [-> ->].
Qed.

End Receiving.
End Receiving.

(** ** The first connection *)

Module Acking.
Import TCPConnection Wire.

Section Acking.
Context (ix iy : WrappingInt32) (cap : Z).

(** The receiver has got the whole stream of the second connection, which is empty. *)
Record closed_in (r : TCPReceiver.t) : Prop := {
  ci_inv : TCPReceiver.inv iy [] r;
  ci_ended : ByteStream.input_ended (TCPReceiver.stream_out r) = true
}.

Lemma closed_in_facts r :
  closed_in r -> StreamReassembler._top_pointer (TCPReceiver._reassembler r) = 1
  /\ TCPReceiver.ackno r = Some (wrap 2 iy) /\ ByteStream.eof (TCPReceiver.stream_out r) = true.
Proof using.
  intros [Hr He]. pose proof (TCPReceiver.inv_reassembler _ _ _ Hr) as Hra.
  pose proof (StreamReassembler.inv_ended _ _ _ Hra He) as Ht. rewrite zlen_nil in Ht.
  pose proof (StreamReassembler.inv_top _ _ _ Hra) as Htop.
  pose proof (ByteStream.wf_read _ (StreamReassembler.inv_output _ _ _ Hra)) as [? ?].
  pose proof (TCPReceiver.ackno_inv _ _ _ Hr) as Ea. rewrite He, Ht in Ea. zlen_pose.
  split; [lia|]. split; [exact Ea|]. apply TCPSender.eof_intro; [done| |apply Hra].
  apply zlen_zero_nil. unfold TCPReceiver.stream_out, StreamReassembler.stream_out. lia.
Qed.

(** Nothing that the second connection sends changes this. *)
Lemma closed_in_step r limit a seg :
  closed_in r -> y_seg ix iy cap limit a seg ->
  exists r', TCPReceiver.segment_received r seg = Ret r' /\ closed_in r'.
Proof using.
  intros Hc Hy. destruct (closed_in_facts r Hc) as (Ht & _ & _). destruct Hc as [Hr He].
  destruct Hy as [_ _ _ _ _ _ Hp [(Hq & Hs & Hf)|(Hq & Hs & Hf)]].
  - unfold TCPSender.payload_bytes, TCPSender.seg_syn, TCPSender.seg_fin in *.
    destruct (TCPReceiver.data_received_ended iy [] r seg 2) as (r' & E & Hr' & _ & He'); [done| |done|].
    + split; [done|done|rewrite Ht; lia|]. rewrite Hp, Hf. by split.
    + exists r'. by split.
  - unfold TCPSender.payload_bytes, TCPSender.seg_syn, TCPSender.seg_fin in *.
    pose proof Hr as [Ei Hi Hra]. unfold TCPReceiver.segment_received, TCPReceiver.push_back_wrap_string.
    rewrite Ei, Hs, Hf, Hq, Hp. rewrite (bool_decide_eq_false_2 (Some iy = None)) by done. cbn [andb negb].
    rewrite TCPReceiver.unwrap_isn by (done || lia). unfold StreamReassembler.push_substring. rewrite Ht.
    change (zlen (@nil byte) =? 0) with true. change (uint64 (0 + zlen (@nil byte))) with 0.
    change (0 <? 1) with true. cbn [andb mbind outcome_bind]. change (uint64 (0 + 1)) with 1.
    assert (StreamReassembler.set_top_pointer (TCPReceiver._reassembler r) 1 = TCPReceiver._reassembler r) as ->
      by (rewrite <- Ht; by destruct (TCPReceiver._reassembler r)).
    case_if; eexists; (split; [done|]); by split.
Qed.

(** The connection after the handshake: it has seen the end of the other stream before
    the end of its own. *)
Record talking (W : string) (una : Z) (c : t) : Prop := {
  t_sender : Sending.ready ix W una (_sender c);
  t_una : 1 <= una;
  t_busy : Sending.busy W una (_sender c);
  t_receiver : closed_in (_receiver c);
  t_linger : _linger_after_streams_finish c = false;
  t_rst : _is_rst c = false;
  t_first : _send_fin_first c = false
}.

Lemma talking_touched W una c n : talking W una c -> talking W una (set_last_received_time c n).
Proof using. by intros []. Qed.

(** It is over once its FIN has been acknowledged. *)
Lemma talking_active W una c :
  talking W una c -> active c = negb (una =? zlen W + 2).
Proof using.
  intros Ht. unfold active. rewrite (t_rst _ _ _ Ht), (t_linger _ _ _ Ht).
  destruct (closed_in_facts _ (t_receiver _ _ _ Ht)) as (_ & _ & ->).
  pose proof (Sending.r_inv _ _ _ _ (t_sender _ _ _ Ht)) as Hi. unfold TCPSender.is_fin_received.
  rewrite (TCPSender.i_fin _ _ _ Hi). pose proof (TCPSender.i_read _ _ _ Hi) as Hrd.
  pose proof (Sending.next_index_bound _ _ _ _ (t_sender _ _ _ Ht)) as (? & ? & _).
  pose proof (TCPSender.inv_numbers _ _ _ Hi) as (? & _). zlen_pose.
  replace (una =? TCPSender.bytes_read (_sender c) + 2) with (una =? zlen W + 2); [by destruct (_ =? _)|].
  pose proof (zlen_nonneg (TCPSender.buffered (_sender c))).
  destruct (TCPSender.i_next _ _ _ Hi) as [?|[?|(? & ? & Eb)]]; try (rewrite Eb, zlen_nil in Hrd);
    destruct (Z.eqb_spec una (zlen W + 2)), (Z.eqb_spec una (TCPSender.bytes_read (_sender c) + 2)); done || lia.
Qed.

(** During the exchange: what was sent before, up to [m], is being acknowledged; what
    was sent since is in the connection's queue. *)
Record exchanging (W : string) (e : bool) (una m : Z) (c : t) : Prop := {
  e_talking : talking W una c;
  e_ended : TCPSender.ended (_sender c) = e;
  e_flight : exists q1 q2, TCPSender.segs_in_flight (_sender c) = q1 ++ q2
    /\ TCPSender.segs_ok ix W e una q1 m /\ TCPSender.segs_ok ix W e m q2 (TCPSender._next_seqno (_sender c));
  e_runs : runs ix iy W e m m (_segments_out c) (TCPSender._next_seqno (_sender c))
}.

(** The sender fills the window and its segments are moved to the queue. *)
Lemma exchanging_fill W e una m c s q1 q2 :
  Sending.ready ix W una s -> 1 <= una -> TCPSender.ended s = e -> closed_in (_receiver c) ->
  _linger_after_streams_finish c = false -> _is_rst c = false -> _send_fin_first c = false ->
  TCPSender.segs_in_flight s = q1 ++ q2 -> TCPSender.segs_ok ix W e una q1 m ->
  TCPSender.segs_ok ix W e m q2 (TCPSender._next_seqno s) ->
  runs ix iy W e m m (_segments_out c) (TCPSender._next_seqno s) ->
  exists s' segs, TCPSender.fill_window s = Ret s' /\ TCPSender._segments_out s' = segs
    /\ let c' := _send_ack_if_need (set_sender c s') in
       exchanging W e una m c'
       /\ TCPSender._next_seqno s <= TCPSender._next_seqno (_sender c')
          <= Z.max (TCPSender._next_seqno s) (una + TCPSender._window_size s)
       /\ TCPSender._window_size (_sender c') = TCPSender._window_size s
       /\ TCPSender._consecutive_retrans (_sender c') = TCPSender._consecutive_retrans s.
Proof using.
  intros Hs Hu He Hr Hli Hrs Hfi Eq Hq1 Hq2 Hruns.
  destruct (Sending.fill_ready ix W una s Hs)
    as (s' & segs & E & Eo & Hs' & Hsegs & Hqt & Ee & Ew & Ecr & Hle & Efl & _ & Hbusy).
  destruct (closed_in_facts _ Hr) as (_ & Ea & _). rewrite He in *.
  pose proof (TCPSender.segs_ok_le _ _ _ _ _ _ Hq1). pose proof (TCPSender.segs_ok_le _ _ _ _ _ _ Hq2).
  exists s', segs. split; [done|]. split; [done|]. cbv zeta.
  pose proof (TCPSender.segs_ok_le _ _ _ _ _ _ Hsegs). split; [|done]. split.
  - by split.
  - exact Ee.
  - exists q1, (q2 ++ segs). simpl. change (TCPSender.segs_in_flight (TCPSender.set_segments_out s' []))
      with (TCPSender.segs_in_flight s'). rewrite Efl, Eq, app_assoc. split; [done|]. split; [done|].
    by eapply TCPSender.segs_ok_app.
  - simpl. unfold TCPSender.segments_out. rewrite Eo. eapply runs_app; [exact Hruns|]. by apply runs_fill; [..|lia].
Qed.

(** An acknowledgment when there was nothing to send. *)
Lemma exchanging_empty W e una m c s :
  exchanging W e una m (_send_ack_if_need (set_sender c s)) -> TCPSender._segments_out s = [] ->
  let c' := _send_ack_if_need (set_sender c (TCPSender.send_empty_segment s)) in
  exchanging W e una m c' /\ _sender c' = _sender (_send_ack_if_need (set_sender c s)).
Proof using.
  intros [Ht He Hf Hr] Eo. destruct (closed_in_facts _ (t_receiver _ _ _ Ht)) as (_ & Ea & _).
  pose proof (Sending.next_index_bound _ _ _ _ (t_sender _ _ _ Ht)) as (? & ? & _). pose proof (t_una _ _ _ Ht).
  pose proof (runs_le _ _ _ _ _ _ _ _ Hr). destruct Hf as (q1 & q2 & Eq & Hq1 & Hq2).
  pose proof (TCPSender.segs_ok_le _ _ _ _ _ _ Hq1).
  split; [|done]. split; [by destruct Ht|done|by exists q1, q2|].
  simpl in *. unfold TCPSender.segments_out in *. rewrite Eo in *. simpl in *. rewrite app_nil_r in Hr.
  eapply runs_app; [exact Hr|]. exists (TCPSender._next_seqno s). split; [lia|]. split.
  - apply fill_ack_empty; [done|apply Ht|lia].
  - change (TCPSender.seg_length _) with 0. simpl. lia.
Qed.

Lemma not_keep_alive limit a seg :
  y_seg ix iy cap limit a seg ->
  (TCPSegment.length_in_sequence_space seg =? 0)
  && wi_eqb (wi_sub (wrap 2 iy) 1) (TCPHeader.seqno (TCPSegment.header seg)) = false.
Proof using.
  intros [_ _ _ _ _ _ Hp [(Hq & _)|(_ & Hs & Hf)]].
  - rewrite Hq. apply andb_false_intro2. apply not_true_iff_false. rewrite wi_eqb_spec.
    intros E%(f_equal raw_value). revert E. rewrite wrap_raw. unfold wi_sub. simpl. rewrite ?wrap_raw. uint_lia.
  - unfold TCPSegment.length_in_sequence_space. unfold TCPSender.payload_bytes, TCPSender.seg_syn, TCPSender.seg_fin in *.
    by rewrite Hp, Hs, Hf.
Qed.

(** What an acknowledgment does to the numbers of the sender. *)
Definition acked (limit una una' : Z) (s s' : TCPSender.t) : Prop :=
  una <= una' /\ TCPSender._next_seqno s <= TCPSender._next_seqno s' <= Z.max (TCPSender._next_seqno s) limit
  /\ TCPSender._window_size s' <= Z.max (TCPSender._window_size s) cap
  /\ ((una' = una /\ TCPSender._consecutive_retrans s' = TCPSender._consecutive_retrans s)
      \/ TCPSender._consecutive_retrans s' = 0).

Lemma acked_refl limit una s : acked limit una una s s.
Proof using. unfold acked. split_and!; lia. Qed.

Lemma acked_trans limit una1 una2 una3 s1 s2 s3 :
  acked limit una1 una2 s1 s2 -> acked limit una2 una3 s2 s3 -> acked limit una1 una3 s1 s3.
Proof using. unfold acked. intros (? & ? & ? & [[? ?]|?]) (? & ? & ? & [[? ?]|?]); split_and!; lia. Qed.

Lemma reply_exchanging W e una m c seg q1 q2 :
  Sending.ready ix W una (_sender c) -> 1 <= una -> TCPSender.ended (_sender c) = e -> closed_in (_receiver c) ->
  _linger_after_streams_finish c = false -> _is_rst c = false -> _send_fin_first c = false ->
  TCPSender.segs_in_flight (_sender c) = q1 ++ q2 -> TCPSender.segs_ok ix W e una q1 m ->
  TCPSender.segs_ok ix W e m q2 (TCPSender._next_seqno (_sender c)) ->
  runs ix iy W e m m (_segments_out c) (TCPSender._next_seqno (_sender c)) ->
  exists c', reply c seg = Ret c' /\ exchanging W e una m c'
    /\ TCPSender._next_seqno (_sender c) <= TCPSender._next_seqno (_sender c')
       <= Z.max (TCPSender._next_seqno (_sender c)) (una + TCPSender._window_size (_sender c))
    /\ TCPSender._window_size (_sender c') = TCPSender._window_size (_sender c)
    /\ TCPSender._consecutive_retrans (_sender c') = TCPSender._consecutive_retrans (_sender c).
Proof using.
  intros Hs Hu He Hr Hli Hrs Hfi Eq Hq1 Hq2 Hruns. unfold reply.
  pose proof (TCPSender.i_syn _ _ _ (Sending.r_inv _ _ _ _ Hs)) as Hsyn.
  unfold TCPSender.is_syn_received. rewrite Hsyn, (proj2 (Z.ltb_lt _ _)) by lia. cbn [orb].
  destruct (exchanging_fill W e una m c (_sender c) q1 q2) as (s' & segs & -> & Eo & Hex & Hn); [done..|].
  cbn [mbind outcome_bind]. unfold TCPSender.segments_out. rewrite Eo.
  destruct segs as [|x segs]; [|by eexists]. cbn [andb]. case_if; [|by eexists].
  destruct (exchanging_empty W e una m c s' Hex Eo) as [H1 H2]. eexists. split; [done|]. split; [exact H1|].
  rewrite H2. exact Hn.
Qed.

(** A segment of the second connection. *)
Lemma exchanging_step limit W e una m c a seg :
  exchanging W e una m c -> y_seg ix iy cap limit a seg -> una <= a <= m -> m < limit ->
  exists c' una', segment_received c seg = Ret c' /\ exchanging W e una' m c' /\ una' <= a
    /\ (a = m -> una' = m) /\ acked limit una una' (_sender c) (_sender c')
    /\ (una = zlen W + 2 -> _segments_out c' = _segments_out c).
Proof using.
  intros [Ht He (q1 & q2 & Eq & Hq1 & Hq2) Hruns] Hy Ha Hm. unfold segment_received.
  rewrite (ys_rst _ _ _ _ _ _ Hy). cbv zeta. pose proof (talking_touched W una c 0 Ht) as Ht0.
  rewrite (talking_active W una _ Ht0).
  pose proof (Sending.next_index_bound _ _ _ _ (t_sender _ _ _ Ht)) as (? & ? & _).
  pose proof (TCPSender.segs_ok_le _ _ _ _ _ _ Hq2).
  destruct (una =? zlen W + 2) eqn:Eend; zbool; cbn [negb].
  { exists (set_last_received_time c 0), una. split; [done|]. split; [by split; [| |exists q1, q2|]|].
    split; [lia|]. split; [lia|]. split; [apply acked_refl|done]. }
  rewrite (t_first _ _ _ Ht0). cbn [andb]. rewrite andb_false_r, (ys_ack _ _ _ _ _ _ Hy), (ys_ackno _ _ _ _ _ _ Hy).
  cbn [_sender set_last_received_time].
  destruct (Sending.ack_ready ix W una (_sender c) a (TCPHeader.win (TCPSegment.header seg)) q1 q2 m)
    as (una' & q1' & Hs' & Hu & Hfull & Eq' & Hq1' & En & Est & Ew & Hcr); rewrite ?He; try done;
    [apply Ht|apply Hy|].
  assert (TCPSender.ended (TCPSender.ack_received (_sender c) (wrap a ix) (TCPHeader.win (TCPSegment.header seg))) = e) as He'
    by (unfold TCPSender.ended; rewrite Est; exact He).
  rewrite He in Hq1'. pose proof (ys_limit _ _ _ _ _ _ Hy). pose proof (ys_cap _ _ _ _ _ _ Hy).
  destruct (closed_in_step (_receiver c) limit a seg (t_receiver _ _ _ Ht) Hy) as (r' & Er & Hr').
  set (s1 := TCPSender.ack_received _ _ _) in *. clearbody s1. pose proof (t_una _ _ _ Ht).
  change (_receiver (set_sender (set_last_received_time c 0) s1)) with (_receiver c). rewrite Er.
  cbn [mbind outcome_bind].
  set (c1 := set_receiver (set_sender (set_last_received_time c 0) s1) r').
  assert (set_send_fin_first c1 false = c1 /\ set_linger c1 false = c1) as [F1 F2].
  { subst c1. pose proof (t_first _ _ _ Ht) as F1. pose proof (t_linger _ _ _ Ht) as F2. destruct c; simpl in *.
    rewrite F1, F2. done. }
  rewrite F1. replace (if negb (bool_decide (TCPReceiver.fsn (_receiver c1) = None)) && _ then c1 else c1) with c1
    by (by case_if). rewrite F2. match goal with |- context [if ?b then c1 else c1] =>
    replace (if b then c1 else c1) with c1 by (by destruct b) end.
  destruct (closed_in_facts r' Hr') as (_ & Ea & _).
  change (_receiver c1) with r'. rewrite Ea, (not_keep_alive limit a seg Hy).
  destruct (reply_exchanging W e una' m c1 seg q1' q2) as (c' & E & Hex & Hn' & Ew' & Ecr'); try done; try lia;
    try apply Ht; try (by rewrite <- En in Hq2); [by rewrite <- En in Hruns|].
  pose proof (runs_le _ _ _ _ _ _ _ _ (e_runs _ _ _ _ _ Hex)) as Hle.
  change (_sender c1) with s1 in *. exists c', una'. split; [done|]. split; [done|]. split; [lia|]. split; [done|].
  split; [|done]. unfold acked. rewrite Ew', Ecr', Ew. pose proof (ys_win _ _ _ _ _ _ Hy) as [? ?].
  pose proof (TCPSender.i_window _ _ _ (Sending.r_inv _ _ _ _ (t_sender _ _ _ Ht))). split_and!; lia.
Qed.

(** All that the second connection has sent. *)
Lemma exchanging_all limit W e una m c lo segs hi :
  exchanging W e una m c -> acks ix iy cap limit lo segs hi -> una <= lo -> hi <= m -> m < limit ->
  exists c' una', Benchmark.receive_all c segs = Ret c' /\ exchanging W e una' m c'
    /\ (hi = m -> una < m -> lo < m -> una' = m) /\ una' <= m /\ acked limit una una' (_sender c) (_sender c')
    /\ (una = zlen W + 2 -> _segments_out c' = _segments_out c).
Proof using.
  intros He Ha Hlo Hhi Hm. revert una lo c He Ha Hlo. induction segs as [|seg segs IH]; intros una lo c He Ha Hlo.
  { simpl in Ha. subst hi. exists c, una. split; [done|]. split; [done|]. split; [lia|].
    split; [lia|]. split; [apply acked_refl|done]. }
  destruct Ha as (a & Hla & Hy & Ha). pose proof (acks_le _ _ _ _ _ _ _ Ha).
  destruct (exchanging_step limit W e una m c a seg He Hy) as (c1 & u1 & E & He1 & Hu1 & Hf1 & Ha1 & Ho1); [lia|done|].
  destruct (IH u1 a c1 He1 Ha) as (c' & u' & E' & He' & Hf' & Hu' & Ha' & Ho'); [lia|].
  exists c', u'. simpl. rewrite E. cbn [mbind outcome_bind]. split; [done|]. split; [done|].
  pose proof Ha1 as [Hle1 _].
  pose proof (Sending.next_index_bound _ _ _ _ (t_sender _ _ _ (e_talking _ _ _ _ _ He1))) as (? & ? & _).
  split; [|split; [done|split; [by eapply acked_trans|]]].
  2: { intros Eu. rewrite Ho' by lia. by apply Ho1. }
  intros Em _ _. destruct Ha' as [Hle _].
  destruct (decide (a = m)) as [Eam|Eam]; [specialize (Hf1 Eam); lia|]. apply Hf'; [done|lia..].
Qed.

End Acking.
End Acking.

(** ** Writing *)

Module Writing.
Import TCPConnection.

Section Writing.
Context (ix : WrappingInt32).

(** The first connection [c0] has become [c] by writes and by the end of its input:
    what its sender made of them is in the queue. *)
Record flushed (una : Z) (W : string) (c0 c : t) : Prop := {
  fl_ready : Sending.ready ix W una (_sender c);
  fl_busy : Sending.busy W una (_sender c);
  fl_receiver : _receiver c = _receiver c0;
  fl_linger : _linger_after_streams_finish c = _linger_after_streams_finish c0;
  fl_rst : _is_rst c = _is_rst c0;
  fl_first : _send_fin_first c = _send_fin_first c0;
  fl_window : TCPSender._window_size (_sender c) = TCPSender._window_size (_sender c0);
  fl_retrans : TCPSender._consecutive_retrans (_sender c) = TCPSender._consecutive_retrans (_sender c0);
  fl_next : TCPSender._next_seqno (_sender c)
    <= Z.max (TCPSender._next_seqno (_sender c0)) (una + TCPSender._window_size (_sender c0));
  fl_segs : exists segs, _segments_out c = _segments_out c0 ++ (fill_ack (_receiver c0) <$> segs)
    /\ TCPSender.segs_ok ix W (TCPSender.ended (_sender c)) (TCPSender._next_seqno (_sender c0)) segs
         (TCPSender._next_seqno (_sender c))
    /\ Forall Sending.quiet segs /\ (una = 0 -> segs = [])
}.

Lemma flushed_refl una W c : Sending.ready ix W una (_sender c) -> Sending.busy W una (_sender c) -> flushed una W c c.
Proof using.
  intros Hs Hb. split; try done; [lia|]. exists []. by rewrite fmap_nil, app_nil_r.
Qed.

(** Another call: the stream grows to [W ++ w], or ends. *)
Lemma flushed_fill una W w c0 c b :
  flushed una W c0 c ->
  let s := TCPSender.set_stream (_sender c) b in
  Sending.ready ix (W ++ w) una s ->
  (TCPSender.ended (_sender c) = true -> w = [] /\ TCPSender.ended s = true) ->
  exists s', TCPSender.fill_window s = Ret s'
    /\ flushed una (W ++ w) c0 (_send_ack_if_need (set_sender c s'))
    /\ TCPSender.ended s' = TCPSender.ended s.
Proof using.
  intros [Hs0 _ Hr Hli Hrs Hfi Hw Hcr Hnx (segs & Eo & Hsegs & Hq & H0)] s Hs He.
  destruct (Sending.fill_ready ix (W ++ w) una s Hs)
    as (s' & segs' & E & Eo' & Hs' & Hsegs' & Hq' & Ee & Ew & Ecr & Hle & Efl & Hz & Hbusy).
  exists s'. split; [done|]. split; [|done].
  change (TCPSender._window_size s) with (TCPSender._window_size (_sender c)) in *.
  change (TCPSender._consecutive_retrans s) with (TCPSender._consecutive_retrans (_sender c)) in *.
  change (TCPSender._next_seqno s) with (TCPSender._next_seqno (_sender c)) in *.
  split; simpl; try done; try congruence.
  - lia.
  - exists (segs ++ segs'). unfold TCPSender.segments_out. rewrite Eo, Eo', Hr, fmap_app, app_assoc.
    split; [done|]. change (TCPSender.ended (TCPSender.set_segments_out s' [])) with (TCPSender.ended s'). rewrite Ee.
    split; [|split; [by apply Forall_app|]].
    + eapply TCPSender.segs_ok_app; [|exact Hsegs']. by apply (TCPSender.segs_ok_extend ix W (TCPSender.ended (_sender c))).
    + intros E0. by rewrite (H0 E0), (Hz E0).
Qed.

(** [write] of as much as fits. *)
Lemma flushed_write una W c0 c data :
  flushed una W c0 c -> TCPSender.ended (_sender c) = false -> zlen W + zlen data < 2 ^ 63 -> data <> [] ->
  zlen data <= remaining_outbound_capacity c ->
  exists c', write c data = Ret (zlen data, c') /\ flushed una (W ++ data) c0 c'
    /\ TCPSender.ended (_sender c') = false.
Proof using.
  intros Hf He Hb Hd Hcap. destruct (Sending.write_ready ix W una (_sender c) data)
    as (b & Ew & Hs & He'); [apply Hf|done..|].
  destruct (flushed_fill una W data c0 c b Hf Hs) as (s' & E & Hf' & Ee); [congruence|].
  exists (_send_ack_if_need (set_sender c s')). unfold write. unfold TCPSender.stream_in. rewrite Ew, E. cbn [mbind outcome_bind].
  split; [done|]. split; [done|]. change (TCPSender.ended s' = false). congruence.
Qed.

Lemma flushed_end una W c0 c :
  flushed una W c0 c ->
  exists c', end_input_stream c = Ret c' /\ flushed una W c0 c' /\ TCPSender.ended (_sender c') = true.
Proof using.
  intros Hf. destruct (flushed_fill una W [] c0 c (ByteStream.end_input (TCPSender._stream (_sender c))) Hf)
    as (s' & E & Hf' & Ee); rewrite ?app_nil_r in *; [by apply Sending.end_ready, Hf|done|].
  exists (_send_ack_if_need (set_sender c s')). unfold end_input_stream, TCPSender.stream_in. rewrite E.
  split; [done|]. split; [done|exact Ee].
Qed.

(** The loop that writes: it ends, and leaves bytes only when the stream is full. *)
Lemma write_input_ok fuel una W c0 c bytes :
  flushed una W c0 c -> (Buffer.str bytes <> [] -> TCPSender.ended (_sender c) = false) -> Buffer.wf bytes ->
  zlen W + zlen (Buffer.str bytes) < 2 ^ 63 -> (length (Buffer.str bytes) < fuel)%nat ->
  exists c' w bytes', Benchmark.write_input fuel c bytes = Ret (c', bytes') /\ flushed una (W ++ w) c0 c'
    /\ w ++ Buffer.str bytes' = Buffer.str bytes /\ Buffer.wf bytes'
    /\ TCPSender.ended (_sender c') = TCPSender.ended (_sender c)
    /\ (Buffer.str bytes' = [] \/ remaining_outbound_capacity c' = 0).
Proof using.
  revert W c bytes. induction fuel as [|fuel IH]; intros W c bytes Hf He Hwf Hb Hfuel; [lia|].
  cbn [Benchmark.write_input]. unfold Buffer.size.
  destruct ((zlen (Buffer.str bytes) =? 0) || (remaining_outbound_capacity c =? 0)) eqn:Estop.
  { exists c, [], bytes. rewrite app_nil_r. split_and!; try done. apply orb_true_iff in Estop as [E|E]; zbool; [left|by right].
    by apply zlen_zero_nil. }
  zbool. pose proof (ByteStream.remaining_capacity_spec _ (TCPSender.i_stream _ _ _ (Sending.r_inv _ _ _ _ (fl_ready _ _ _ _ Hf)))) as Erc.
  pose proof (ByteStream.wf_bound _ (TCPSender.i_stream _ _ _ (Sending.r_inv _ _ _ _ (fl_ready _ _ _ _ Hf)))).
  change (ByteStream.remaining_capacity _) with (remaining_outbound_capacity c) in Erc. zlen_pose.
  set (want := Z.min (remaining_outbound_capacity c) (zlen (Buffer.str bytes))). cbv zeta.
  assert (0 < want <= zlen (Buffer.str bytes)) as Hwant by lia.
  assert (zlen (slice (Buffer.str bytes) 0 want) = want) as Ew by (apply zlen_slice_le; lia).
  assert (Buffer.str bytes <> []) as Hne by (intros E; rewrite E in *; change (zlen (@nil byte)) with 0 in *; lia).
  destruct (flushed_write una W c0 c (slice (Buffer.str bytes) 0 want)) as (c1 & -> & Hf1 & He1);
    rewrite ?Ew; try done; [auto|lia|intros E; rewrite E in Ew; change (zlen (@nil byte)) with 0 in Ew; lia|lia|].
  cbn [mbind outcome_bind]. rewrite Z.eqb_refl. cbn [negb].
  destruct (Buffer.buf_remove_prefix_spec bytes want Hwf) as (bytes1 & -> & Hwf1 & Es1); [lia|]. cbn [mbind outcome_bind].
  assert (slice (Buffer.str bytes) 0 want ++ Buffer.str bytes1 = Buffer.str bytes) as Esplit
    by (rewrite Es1, slice_0_take; apply take_drop).
  destruct (IH (W ++ slice (Buffer.str bytes) 0 want) c1 bytes1) as (c' & w & bytes' & E & Hf' & Ec & Hwf' & Ee & Hdone);
    try done.
  - rewrite zlen_app, Ew, Es1, zlen_drop. lia.
  - rewrite Es1, length_drop. unfold zlen in *. lia.
  - exists c', (slice (Buffer.str bytes) 0 want ++ w), bytes'. rewrite app_assoc.
    split; [done|]. split; [done|]. split; [by rewrite <- app_assoc, Ec|]. split; [done|]. split; [|done].
    rewrite Ee, He1. symmetry. by apply He.
Qed.

End Writing.
End Writing.

(** ** One turn of the loop *)

Module Turn.
Import TCPConnection Wire Receiving Acking Writing.

Lemma tick_plain c ms :
  0 <= TCPSender._consecutive_retrans (_sender c) <= 1 ->
  (_linger_after_streams_finish c = true ->
   uint64 (_last_received_time c + ms) < 10 * TCPConfig.rt_timeout (_cfg c)) ->
  tick c ms = _send_ack_if_need
    (set_last_received_time (set_sender c (TCPSender.tick (_sender c) ms)) (uint64 (_last_received_time c + ms))).
Proof.
  intros Hr Hl. unfold tick, TCPSender.consecutive_retransmissions.
  rewrite uint32_small by (unfold is_u32; lia). rewrite (proj2 (Z.leb_gt _ _)) by (unfold TCPConfig.MAX_RETX_ATTEMPTS; lia).
  cbv zeta. destruct (_linger_after_streams_finish c) eqn:El; [|by rewrite andb_false_r].
  specialize (Hl eq_refl). rewrite (proj2 (Z.leb_gt _ _)) by lia. by case_if.
Qed.

Lemma move_ok a b (reorder : bool) b' :
  Benchmark.receive_all b (if reorder then rev (segments_out a) else segments_out a) = Ret b' ->
  Benchmark.move_segments a b [] reorder = Ret (set_segments_out a [], b', []).
Proof. intros E. unfold Benchmark.move_segments. cbv zeta. cbn [app]. by rewrite E. Qed.

Section Turn.
Context (ix iy : WrappingInt32) (D : string) (cap : Z).
Hypothesis Hcap : 1 <= cap <= 65535.
Hypothesis HD : zlen D < 2 ^ 63.

(** Before a turn, once the connections have exchanged their SYNs: everything in
    flight is in the queue of the first connection, and the second waits for it. *)
Record turning (W : string) (una : Z) (b : Benchmark.t) : Prop := {
  tn_talking : talking ix iy W una (Benchmark.x b);
  tn_split : D = W ++ Buffer.str (Benchmark.bytes_to_send b);
  tn_wf : Buffer.wf (Benchmark.bytes_to_send b);
  tn_closed : TCPSender.ended (_sender (Benchmark.x b)) = Benchmark.x_closed b;
  tn_all : Benchmark.x_closed b = true -> Buffer.str (Benchmark.bytes_to_send b) = [];
  tn_window : TCPSender._window_size (_sender (Benchmark.x b)) <= cap;
  tn_near : TCPSender._next_seqno (_sender (Benchmark.x b)) <= una + cap;
  tn_retrans : 0 <= TCPSender._consecutive_retrans (_sender (Benchmark.x b)) <= 1;
  tn_runs : runs ix iy W (Benchmark.x_closed b) una una (segments_out (Benchmark.x b))
              (TCPSender._next_seqno (_sender (Benchmark.x b)));
  tn_listening : exists u, listening ix iy D cap u (zlen (Benchmark.string_received b)) una (Benchmark.y b)
    /\ (u = 2 \/ segments_out (Benchmark.x b) <> []);
  tn_read : ByteStream.bytes (inbound_stream (Benchmark.y b)) = [];
  tn_acks : acks ix iy cap (2 + zlen (Benchmark.string_received b) + cap) una (segments_out (Benchmark.y b)) una;
  tn_received : Benchmark.string_received b = take (length (Benchmark.string_received b)) D
}.

(** The queue of the first connection after the writes. *)
Lemma flushed_runs una W w e c0 c :
  flushed ix una (W ++ w) c0 c -> closed_in iy (_receiver c0) -> 1 <= una <= TCPSender._next_seqno (_sender c0) ->
  runs ix iy W e una una (_segments_out c0) (TCPSender._next_seqno (_sender c0)) ->
  (e = true -> w = [] /\ TCPSender.ended (_sender c) = true) ->
  runs ix iy (W ++ w) (TCPSender.ended (_sender c)) una una (_segments_out c) (TCPSender._next_seqno (_sender c)).
Proof using.
  intros Hf Hr Hu Hruns He. destruct (closed_in_facts _ _ Hr) as (_ & Ea & _).
  destruct (fl_segs _ _ _ _ _ Hf) as (segs & -> & Hsegs & Hq & _).
  eapply runs_app; [by eapply runs_extend|]. by apply runs_fill.
Qed.

(** The first connection after the writes of a turn. *)
Record written (W : string) (una : Z) (e : bool) (rest : string) (c : t) : Prop := {
  wr_talking : talking ix iy W una c;
  wr_split : D = W ++ rest;
  wr_ended : TCPSender.ended (_sender c) = e;
  wr_all : e = true -> rest = [];
  wr_window : TCPSender._window_size (_sender c) <= cap;
  wr_near : TCPSender._next_seqno (_sender c) <= una + cap;
  wr_retrans : 0 <= TCPSender._consecutive_retrans (_sender c) <= 1;
  wr_runs : runs ix iy W e una una (_segments_out c) (TCPSender._next_seqno (_sender c));
  wr_progress : una < zlen D + 2 -> una < TCPSender._next_seqno (_sender c)
}.

Lemma full_stream c una W :
  Sending.ready ix W una (_sender c) -> TCPSender.buffered (_sender c) = [] -> remaining_outbound_capacity c <> 0.
Proof using.
  intros Hs Eb. pose proof (TCPSender.i_stream _ _ _ (Sending.r_inv _ _ _ _ Hs)) as Hw.
  unfold remaining_outbound_capacity, TCPSender.stream_in. rewrite ByteStream.remaining_capacity_spec by done.
  unfold TCPSender.buffered in Eb. rewrite Eb, zlen_nil. pose proof (Sending.r_capacity _ _ _ _ Hs). lia.
Qed.

(** The writes, and the end of the input once all is written. *)
Lemma write_part W una b :
  turning W una b ->
  exists c1 bytes c2 closed W2,
    Benchmark.write_input (S (length (Buffer.str (Benchmark.bytes_to_send b)))) (Benchmark.x b) (Benchmark.bytes_to_send b)
      = Ret (c1, bytes)
    /\ (if (Buffer.size bytes =? 0) && negb (Benchmark.x_closed b)
        then x ← end_input_stream c1; Ret (x, true) else Ret (c1, Benchmark.x_closed b)) = Ret (c2, closed)
    /\ Buffer.wf bytes /\ written W2 una closed (Buffer.str bytes) c2
    /\ (una = zlen D + 2 -> segments_out c2 = segments_out (Benchmark.x b))
    /\ (segments_out (Benchmark.x b) <> [] -> segments_out c2 <> []).
Proof using Hcap HD.
  intros [Ht ED Hwf Hcl Hall Hwin Hnear Hre Hruns _ _ _ _].
  assert (zlen D = zlen W + zlen (Buffer.str (Benchmark.bytes_to_send b))) as ElD by (rewrite ED at 1; apply zlen_app).
  pose proof (flushed_refl ix una W (Benchmark.x b) (t_sender _ _ _ _ _ Ht) (t_busy _ _ _ _ _ Ht)) as Hf0.
  pose proof (Sending.next_index_bound _ _ _ _ (t_sender _ _ _ _ _ Ht)) as (? & ? & _). pose proof (t_una _ _ _ _ _ Ht).
  destruct (write_input_ok ix (S (length (Buffer.str (Benchmark.bytes_to_send b)))) una W (Benchmark.x b) (Benchmark.x b)
    (Benchmark.bytes_to_send b) Hf0) as (c1 & w & bytes & E1 & Hf1 & Ew & Hwf1 & Ee1 & Hdone); [|done|lia|lia|].
  { intros Hne. rewrite Hcl. destruct (Benchmark.x_closed b); [|done]. by specialize (Hall eq_refl). }
  assert (exists c2, (if (Buffer.size bytes =? 0) && negb (Benchmark.x_closed b)
        then x ← end_input_stream c1; Ret (x, true) else Ret (c1, Benchmark.x_closed b))
      = Ret (c2, TCPSender.ended (_sender c2)) /\ flushed ix una (W ++ w) (Benchmark.x b) c2
      /\ TCPSender.ended (_sender c2) = (Benchmark.x_closed b || (Buffer.size bytes =? 0))
      /\ (Buffer.str bytes = [] \/ remaining_outbound_capacity c2 = 0)) as (c2 & E2 & Hf2 & Ee2 & Hdone2).
  { rewrite Hcl in Ee1. destruct (Benchmark.x_closed b) eqn:Ec; cbn [negb orb]; rewrite ?andb_false_r, ?andb_true_r.
    - exists c1. rewrite Ee1. split; [done|]. split; [done|]. split; [done|exact Hdone].
    - destruct (Buffer.size bytes =? 0) eqn:Es.
      + destruct (flushed_end ix una (W ++ w) (Benchmark.x b) c1 Hf1) as (c2 & -> & Hf2 & Ee2).
        exists c2. rewrite Ee2. split; [done|]. split; [done|]. split; [done|]. left. zbool. by apply zlen_zero_nil.
      + exists c1. rewrite Ee1. split; [done|]. split; [done|]. split; [done|exact Hdone]. }
  assert (Benchmark.x_closed b = true -> w = [] /\ Buffer.str bytes = []) as Hc.
  { intros Ec. rewrite (Hall Ec) in Ew. by apply app_nil in Ew. }
  exists c1, bytes, c2, (TCPSender.ended (_sender c2)), (W ++ w). split; [done|]. split; [done|]. split; [done|].
  assert (D = (W ++ w) ++ Buffer.str bytes) as ED2 by (rewrite <- app_assoc, Ew; done).
  assert (zlen D = zlen (W ++ w) + zlen (Buffer.str bytes)) as ElD2 by (rewrite ED2 at 1; apply zlen_app).
  pose proof (Sending.next_index_bound _ _ _ _ (fl_ready _ _ _ _ _ Hf2)) as (Hun & ? & _). zlen_pose.
  destruct (fl_segs _ _ _ _ _ Hf2) as (segs & Eo & Hsegs & _).
  split; [split; try done|split].
  - destruct Hf2. split; try done; rewrite ?fl_receiver0, ?fl_linger0, ?fl_rst0, ?fl_first0; apply Ht.
  - rewrite Ee2. intros He. apply orb_true_iff in He as [He|He]; [by apply Hc|]. zbool. by apply zlen_zero_nil.
  - by rewrite (fl_window _ _ _ _ _ Hf2).
  - pose proof (fl_next _ _ _ _ _ Hf2). lia.
  - by rewrite (fl_retrans _ _ _ _ _ Hf2).
  - eapply flushed_runs; [done|apply Ht|lia|exact Hruns|]. intros Ec. split; [by apply Hc|]. by rewrite Ee2, Ec.
  - intros Hlt. destruct (decide (una = TCPSender._next_seqno (_sender c2))) as [Eu|]; [exfalso|lia].
    destruct (fl_busy _ _ _ _ _ Hf2 Eu) as [Eb Hend]; [lia|].
    destruct Hdone2 as [Es|Es]; [|by eapply full_stream; [apply Hf2|..]].
    rewrite Hend in Hlt; [rewrite Es, zlen_nil in ElD2; lia|]. rewrite Ee2. unfold Buffer.size. rewrite Es. by rewrite orb_true_r.
  - intros Eu. unfold segments_out. rewrite Eo. assert (segs = []) as ->; [|by rewrite fmap_nil, app_nil_r].
    apply TCPSender.segs_ok_le in Hsegs as Hle.
    assert (TCPSender._next_seqno (_sender c2) = TCPSender._next_seqno (_sender (Benchmark.x b))) as En by lia.
    rewrite En in Hsegs. by eapply Sending.segs_ok_none.
  - unfold segments_out. rewrite Eo. intros Hne E. by apply app_nil in E as [? _].
Qed.

(** The segments of the first connection, then those of the second. *)
Lemma exchange_part W una e rest c u read y :
  written W una e rest c -> listening ix iy D cap u read una y -> (u = 2 \/ segments_out c <> []) ->
  ByteStream.bytes (inbound_stream y) = [] -> acks ix iy cap (2 + read + cap) una (segments_out y) una ->
  let m := TCPSender._next_seqno (_sender c) in
  exists y' c', Benchmark.receive_all y (segments_out c) = Ret y'
    /\ Benchmark.receive_all (set_segments_out c []) (segments_out y') = Ret c'
    /\ listening ix iy D cap 2 read m y' /\ exchanging ix iy W e m m c'
    /\ TCPSender._next_seqno (_sender c') <= m + cap /\ TCPSender._window_size (_sender c') <= cap
    /\ (una < m -> TCPSender._consecutive_retrans (_sender c') = 0)
    /\ 0 <= TCPSender._consecutive_retrans (_sender c') <= 1
    /\ (una = zlen D + 2 -> segments_out c' = [])
    /\ (segments_out c <> [] -> _last_received_time y' = 0)
    /\ (segments_out c = [] -> _last_received_time y' = _last_received_time y).
Proof using Hcap HD.
  intros [Ht ED Hee Hall Hwin Hnear Hre Hruns Hprog] Hl Hu Hread Hacks m.
  pose proof (receiving_bounds _ _ _ _ _ _ (l_receiver _ _ _ _ _ _ _ _ Hl)) as (? & Htop & ? & ? & Hended & ? & ?).
  pose proof (rv_pos _ _ _ _ _ _ (l_receiver _ _ _ _ _ _ _ _ Hl)) as Hp. unfold position in Hp.
  unfold inbound_stream in Hread. rewrite Hread, zlen_nil in Htop.
  assert (zlen D = zlen W + zlen rest) as ElD by (rewrite ED; apply zlen_app).
  pose proof (Sending.next_index_bound _ _ _ _ (t_sender _ _ _ _ _ Ht)) as (? & ? & _). fold m in Hnear, Hruns, Hprog. zlen_pose.
  assert (una = 1 + read \/ (una = 2 + read /\ una = zlen D + 2)) as Hpos
    by (destruct (ByteStream.input_ended _); [specialize (Hended eq_refl)|]; lia).
  destruct (listening_all ix iy D cap (2 + read + cap) W rest e una m (segments_out c) u read una y una)
    as (y' & u' & Ey & Hl' & Ha' & Hgot & Hnone); try done; try lia.
  assert (u' = 2) as ->.
  { destruct (segments_out c) eqn:Eo; [destruct (Hnone eq_refl) as [_ ->]; by destruct Hu|by apply Hgot]. }
  assert (exchanging ix iy W e una m (set_segments_out c [])) as Hex.
  { split; [by destruct Ht|done| |done]. exists (TCPSender.segs_in_flight (_sender c)), [].
    rewrite app_nil_r. split; [done|]. split; [|done]. pose proof (TCPSender.i_queue _ _ _ (Sending.r_inv _ _ _ _ (t_sender _ _ _ _ _ Ht))) as Hq.
    by rewrite (Sending.r_isn _ _ _ _ (t_sender _ _ _ _ _ Ht)), Hee in Hq. }
  destruct (exchanging_all ix iy cap (2 + read + cap) W e una m (set_segments_out c []) una (segments_out y') m Hex)
    as (c' & una' & Ec & Hex' & Hfull & Hle & (Hmono & Hnx & Hw' & Hcr) & Hout); try done; try lia.
  assert (una' = m) as -> by lia. exists y', c'. split; [done|]. split; [done|]. split; [done|]. split; [done|].
  pose proof (Sending.next_index_bound _ _ _ _ (t_sender _ _ _ _ _ (e_talking _ _ _ _ _ _ _ Hex'))) as (? & ? & _).
  simpl in Hnx, Hw', Hcr. fold m in Hnx. split; [lia|]. split; [lia|]. split; [lia|]. split; [lia|]. split; [|split].
  - intros Eu. apply Hout. lia.
  - intros Hne. by apply Hgot.
  - intros Eo. by destruct (Hnone Eo) as [-> _].
Qed.

(** The second connection's reader takes all there is. *)
Lemma read_part u read pos c got :
  listening ix iy D cap u read pos c -> read = zlen got -> got = take (length got) D ->
  exists c' d,
    (if 0 <? ByteStream.buffer_size (inbound_stream c)
     then '(d, stream) ← ByteStream.read (inbound_stream c) (ByteStream.buffer_size (inbound_stream c));
          Ret (set_receiver c (TCPReceiver.set_stream_out (_receiver c) stream), got ++ d)
     else Ret (c, got)) = Ret (c', got ++ d)
    /\ listening ix iy D cap u (zlen (got ++ d)) pos c' /\ ByteStream.bytes (inbound_stream c') = []
    /\ got ++ d = take (length (got ++ d)) D /\ _segments_out c' = _segments_out c
    /\ _last_received_time c' = _last_received_time c.
Proof using.
  intros Hl Eread Egot. pose proof (l_receiver _ _ _ _ _ _ _ _ Hl) as [Hr Hc Hg Hrd Hp].
  pose proof (TCPReceiver.inv_reassembler _ _ _ Hr) as Hra. pose proof (StreamReassembler.inv_output _ _ _ Hra) as Hw.
  unfold TCPReceiver.bytes_read, TCPReceiver.stream_out, StreamReassembler.stream_out in Hrd.
  unfold inbound_stream, TCPReceiver.stream_out, StreamReassembler.stream_out.
  set (o := StreamReassembler._output _) in *. rewrite ByteStream.buffer_size_bytes by done. zlen_pose.
  destruct (Z.ltb_spec 0 (zlen (ByteStream.bytes o))) as [Hpos|Hnil].
  - destruct (ByteStream.read_spec o (zlen (ByteStream.bytes o)) Hw) as (o' & -> & Hpop); [lia|]. cbn [mbind outcome_bind].
    destruct (StreamReassembler.read_inv 1 D _ o' (zlen (ByteStream.bytes o)) Hra) as [Hra' Hrd']; [fold o; lia|done|].
    fold o in Hrd'. pose proof Hpop as (_ & Eb' & _ & _ & _ & Hie & _).
    assert (take (Z.to_nat (zlen (ByteStream.bytes o))) (ByteStream.bytes o) = ByteStream.bytes o) as ->
      by (apply take_ge; unfold zlen; lia).
    assert (got ++ ByteStream.bytes o = take (length (got ++ ByteStream.bytes o)) D) as Eall.
    { pose proof (StreamReassembler.inv_delivered 1 D _ Hra) as Ed. fold o in Ed. rewrite Hrd, Eread in Ed.
      replace (Z.to_nat (zlen got)) with (length got) in Ed by (unfold zlen; lia).
      rewrite <- Egot in Ed. rewrite Ed at 1. pose proof (StreamReassembler.inv_top _ _ _ Hra) as Ht. fold o in Ht.
      f_equal. rewrite length_app. unfold zlen in *. lia. }
    eexists _, _. split; [done|]. split; [|split; [|done]].
    + destruct Hl. split; try done. split; [split; [apply Hr|apply Hr|exact Hra']|done| | |].
      * destruct Hg as [Hg|Hg]; [left|by right]. unfold TCPReceiver.stream_out, StreamReassembler.stream_out in *.
        simpl. unfold ByteStream.input_ended in *. by rewrite Hie.
      * unfold TCPReceiver.bytes_read, TCPReceiver.stream_out, StreamReassembler.stream_out. simpl.
        rewrite Hrd', zlen_app. lia.
      * rewrite <- Hp. unfold position. simpl. unfold TCPReceiver.stream_out, StreamReassembler.stream_out, ByteStream.input_ended.
        simpl. by rewrite Hie.
    + simpl. rewrite Eb'. apply drop_ge. unfold zlen. lia.
  - exists c, []. rewrite app_nil_r. split; [done|]. split; [by rewrite <- Eread|]. split; [|done].
    apply zlen_zero_nil. fold o. lia.
Qed.

(** Time passes for the first connection: the oldest segment may be sent again. *)
Lemma tick_x W e m c ms :
  exchanging ix iy W e m m c -> 0 <= TCPSender._consecutive_retrans (_sender c) <= 1 ->
  (TCPSender._next_seqno (_sender c) <> m -> TCPSender._consecutive_retrans (_sender c) = 0) ->
  let c' := tick c ms in
  talking ix iy W m c' /\ TCPSender.ended (_sender c') = e
  /\ runs ix iy W e m m (_segments_out c') (TCPSender._next_seqno (_sender c'))
  /\ TCPSender._next_seqno (_sender c') = TCPSender._next_seqno (_sender c)
  /\ TCPSender._window_size (_sender c') = TCPSender._window_size (_sender c)
  /\ 0 <= TCPSender._consecutive_retrans (_sender c') <= 1
  /\ (TCPSender._next_seqno (_sender c) = m -> _segments_out c' = _segments_out c)
  /\ (_segments_out c <> [] -> _segments_out c' <> []).
Proof using.
  intros [Ht He (q1 & q2 & Eq & Hq1 & Hq2) Hruns] Hcr Hcr0. cbv zeta. apply Sending.segs_ok_none in Hq1 as ->.
  simpl in Eq. rewrite tick_plain; [|done|by rewrite (t_linger _ _ _ _ _ Ht)].
  destruct (Sending.tick_ready ix W m (_sender c) ms (t_sender _ _ _ _ _ Ht))
    as (Hs' & Hout & En & Est & Ew & Efl & Hc1 & Hc2). set (s' := TCPSender.tick (_sender c) ms) in *.
  assert (TCPSender._next_seqno (_sender c) = m -> q2 = []) as Hq0
    by (intros E; rewrite E in Hq2; by eapply Sending.segs_ok_none).
  destruct (closed_in_facts _ _ (t_receiver _ _ _ _ _ Ht)) as (_ & Ea & _). pose proof (t_una _ _ _ _ _ Ht).
  unfold TCPSender.ended. cbn. rewrite En, Ew, Est. split_and!; try done.
  - destruct Ht as [? ? Hb ? ? ? ?]. split; try done. unfold Sending.busy, TCPSender.buffered, TCPSender.ended in *.
    cbn. by rewrite En, Est.
  - eapply runs_app; [exact Hruns|]. unfold TCPSender.segments_out. destruct Hout as [->|(seg & -> & Hh)]; [done|].
    rewrite Eq in Hh. destruct q2 as [|x q2]; [done|]. injection Hh as ->. destruct Hq2 as (Hok & Hpos & Hle).
    apply TCPSender.segs_ok_le in Hle. simpl. exists m. split; [lia|]. split.
    + apply fill_ack_x; try done. pose proof (Sending.r_quiet _ _ _ _ (t_sender _ _ _ _ _ Ht)) as Hq.
      rewrite Eq in Hq. by inversion Hq.
    + change (TCPSender.seg_length (fill_ack _ seg)) with (TCPSender.seg_length seg). lia.
  - destruct (decide (TCPSender._next_seqno (_sender c) = m)) as [E|E]; [|by apply Hc1, Hcr0].
    rewrite Hc2; [lia|]. by rewrite Eq, Hq0.
  - destruct (decide (TCPSender._next_seqno (_sender c) = m)) as [E|E]; [|by apply Hc1, Hcr0].
    rewrite Hc2; [lia|]. by rewrite Eq, Hq0.
  - intros E. rewrite (Hq0 E) in Eq. unfold TCPSender.segments_out.
    destruct Hout as [->|(seg & _ & Hh)]; [by rewrite app_nil_r|]. by rewrite Eq in Hh.
  - intros Hne E. by apply app_nil in E as [? _].
Qed.

(** And for the second, which has nothing in flight. *)
Lemma tick_y read pos c ms :
  listening ix iy D cap 2 read pos c -> 0 <= ms -> 0 <= _last_received_time c -> _last_received_time c + ms < 10000 ->
  let c' := tick c ms in
  listening ix iy D cap 2 read pos c' /\ _segments_out c' = _segments_out c
  /\ _last_received_time c' = _last_received_time c + ms /\ inbound_stream c' = inbound_stream c.
Proof using.
  intros Hl Hms Ht Hlt. pose proof (l_timeout _ _ _ _ _ _ _ _ Hl) as Eto.
  cbv zeta. rewrite tick_plain; [|apply Hl|intros _; rewrite Eto, uint64_small by (unfold is_u64; lia); lia].
  pose proof (l_sender _ _ _ _ _ _ _ _ Hl) as Hs. pose proof (l_next _ _ _ _ _ _ _ _ Hl) as Hn.
  destruct (Sending.tick_ready iy [] 2 (_sender c) ms Hs) as (Hs' & Hout & En & Est & Ew & Efl & Hc1 & Hc2).
  pose proof (TCPSender.i_queue _ _ _ (Sending.r_inv _ _ _ _ Hs)) as Hq. rewrite Hn in Hq.
  fold (TCPSender.segs_in_flight (_sender c)) in Hq. apply Sending.segs_ok_none in Hq.
  rewrite uint64_small by (unfold is_u64; lia). cbn. unfold TCPSender.segments_out.
  destruct Hout as [->|(seg & _ & Hh)]; [|by rewrite Hq in Hh]. rewrite app_nil_r.
  split; [|done]. destruct Hl. split; try done; cbn; [congruence|]. by rewrite Hc2.
Qed.

(** A turn delivers all that was in flight and more is sent, until all is done. *)
Lemma turn_ok W una b :
  turning W una b -> 0 <= _last_received_time (Benchmark.y b) < 9000 ->
  exists b' W' una', Benchmark.loop false b = Ret b' /\ turning W' una' b' /\ segments_out (Benchmark.y b') = []
    /\ (una < zlen D + 2 -> una < una' /\ _last_received_time (Benchmark.y b') = 1000)
    /\ (una = zlen D + 2 -> una' = una /\ segments_out (Benchmark.x b') = []
        /\ 0 <= _last_received_time (Benchmark.y b') <= _last_received_time (Benchmark.y b) + 1000).
Proof using Hcap HD.
  intros Hb Htime. destruct (write_part W una b Hb) as (c1 & bytes & c2 & closed & W2 & E1 & E2 & Hwf & Hwr & Hkeep & Hne).
  pose proof Hb as [Ht _ _ _ _ _ _ _ _ (u & Hl & Hu) Hread Hacks Hgot]. clear Hb.
  destruct (exchange_part W2 una closed (Buffer.str bytes) c2 u (zlen (Benchmark.string_received b)) (Benchmark.y b))
    as (y1 & c3 & E3 & E4 & Hl1 & Hex & Hnx & Hwin & Hcr0 & Hcr & Hdone & Ht0 & Ht1); try done.
  { destruct Hu as [Hu|Hu]; [by left|right; auto]. }
  set (m := TCPSender._next_seqno (_sender c2)) in *.
  destruct (read_part 2 (zlen (Benchmark.string_received b)) m (set_segments_out y1 []) (Benchmark.string_received b))
    as (y2 & d & E5 & Hl2 & Hb2 & Hgot2 & Ho2 & Hlrt2); [by destruct Hl1|done|done|].
  pose proof (Sending.next_index_bound _ _ _ _ (t_sender _ _ _ _ _ (wr_talking _ _ _ _ _ Hwr))) as (Hum & Hm & _). fold m in Hum, Hm.
  assert (zlen D = zlen W2 + zlen (Buffer.str bytes)) as ElD by (rewrite (wr_split _ _ _ _ _ Hwr) at 1; apply zlen_app).
  zlen_pose. pose proof (runs_le _ _ _ _ _ _ _ _ (e_runs _ _ _ _ _ _ _ Hex)) as Hmn.
  pose proof (Sending.next_index_bound _ _ _ _ (t_sender _ _ _ _ _ (e_talking _ _ _ _ _ _ _ Hex))) as (_ & Hn3 & _).
  destruct (tick_x W2 closed m c3 1000 Hex Hcr) as (Ht4 & Ee4 & Hr4 & En4 & Ew4 & Ecr4 & Eo4 & _).
  { intros Hx. apply Hcr0. destruct (decide (una = zlen D + 2)); [lia|].
    pose proof (wr_progress _ _ _ _ _ Hwr) as Hpr. fold m in Hpr. lia. }
  simpl in Hlrt2. assert (0 <= _last_received_time y2 < 9000) as Hlr.
  { rewrite Hlrt2. destruct (segments_out c2) eqn:Eo; [rewrite Ht1 by done|rewrite Ht0 by done]; lia. }
  destruct (tick_y (zlen (Benchmark.string_received b ++ d)) m y2 1000 Hl2) as (Hl5 & Eo5 & Elr5 & Ein5); [lia..|].
  exists (Benchmark.mk (tick c3 1000) (tick y2 1000) bytes closed (Benchmark.string_received b ++ d)), W2, m.
  split; [|split; [|split; [|split]]].
  - unfold Benchmark.loop. rewrite E1. cbn [mbind outcome_bind]. rewrite E2. cbn [mbind outcome_bind].
    rewrite (move_ok c2 (Benchmark.y b) false y1 E3). cbn [mbind outcome_bind].
    rewrite (move_ok y1 _ false c3 E4). cbn [mbind outcome_bind]. cbv zeta. rewrite E5. done.
  - split; simpl; rewrite ?En4, ?Ew4; try done; try apply Hwr.
    + by rewrite En4 in Hr4.
    + exists 2. split; [done|by left].
    + by rewrite Ein5.
    + unfold segments_out. by rewrite Eo5, Ho2.
  - simpl. unfold segments_out. by rewrite Eo5, Ho2.
  - intros Hlt. pose proof (wr_progress _ _ _ _ _ Hwr Hlt) as Hp. fold m in Hp. split; [done|]. simpl.
    rewrite Elr5, Hlrt2, Ht0; [lia|]. intros E. pose proof (wr_runs _ _ _ _ _ Hwr) as Hr. unfold segments_out in E.
    rewrite E in Hr. simpl in Hr. fold m in Hr. lia.
  - intros Eu. simpl. assert (m = una) as Em by lia. split; [done|]. split.
    + unfold segments_out. rewrite Eo4 by lia. by apply Hdone.
    + rewrite Elr5, Hlrt2. destruct (segments_out c2) eqn:Eo; [rewrite Ht1 by done|rewrite Ht0 by done]; lia.
Qed.

End Turn.
End Turn.

(** ** The first turn *)

Module Handshake.
Import TCPConnection Wire Receiving Acking Writing Turn.

Abbreviation cap := TCPConfig.DEFAULT_CAPACITY.

(** A SYN that carries no data and acknowledges nothing. *)
Record greeting (i : WrappingInt32) (fin : bool) (seg : TCPSegment.t) : Prop := {
  g_ack : TCPHeader.ack (TCPSegment.header seg) = false;
  g_rst : TCPHeader.rst (TCPSegment.header seg) = false;
  g_syn : TCPHeader.syn (TCPSegment.header seg) = true;
  g_fin : TCPHeader.fin (TCPSegment.header seg) = fin;
  g_seqno : TCPHeader.seqno (TCPSegment.header seg) = i;
  g_payload : Buffer.str (TCPSegment.payload seg) = []
}.

Lemma greeting_fill_inv W una s s' : TCPSender.inv W una s -> TCPSender.fill_window s = Ret s' -> TCPSender.inv W una s'.
Proof.
  intros Hs E. destruct (TCPSender.fill_window_ok W una s Hs) as (b & segs & z & f & E' & Hf).
  rewrite E in E'. injection E' as ->. by apply (TCPSender.filled_inv W una s b segs z f).
Qed.

(** A connection that has only sent its SYN. *)
Record greeted (i : WrappingInt32) (next : Z) (c : t) : Prop := {
  gr_timeout : TCPConfig.rt_timeout (_cfg c) = 1000;
  gr_ready : Sending.ready i [] 0 (_sender c);
  gr_next : TCPSender._next_seqno (_sender c) = next;
  gr_window : TCPSender._window_size (_sender c) = 1;
  gr_retrans : TCPSender._consecutive_retrans (_sender c) = 0;
  gr_receiver : _receiver c = TCPReceiver.new cap;
  gr_linger : _linger_after_streams_finish c = true;
  gr_rst : _is_rst c = false;
  gr_first : _send_fin_first c = true;
  gr_flight : exists seg, TCPSender.segs_in_flight (_sender c) = [seg] /\ greeting i (next =? 2) seg;
  gr_out : exists seg, _segments_out c = [seg] /\ greeting i (next =? 2) seg
}.

Lemma started rx ry D :
  is_u32 rx -> is_u32 ry ->
  exists x0 y0, Benchmark.start rx ry D = Ret (Benchmark.mk x0 y0 (Buffer.of_string D) false [])
    /\ greeted (mkWrappingInt32 rx) 1 x0 /\ TCPSender.ended (_sender x0) = false
    /\ greeted (mkWrappingInt32 ry) 2 y0.
Proof.
  intros Hx Hy. pose proof (TCPReceiver.wrap_0 (mkWrappingInt32 rx) Hx) as E0x.
  pose proof (TCPReceiver.wrap_0 (mkWrappingInt32 ry) Hy) as E0y.
  pose proof (TCPSender.sender_new_inv cap 1000 None rx ltac:(done) Hx) as Hix.
  pose proof (TCPSender.end_input_inv _ _ _ (TCPSender.sender_new_inv cap 1000 None ry ltac:(done) Hy)) as Hiy.
  assert (exists sx, TCPSender.fill_window (TCPSender.new cap 1000 None rx) = Ret sx
    /\ exists sy, TCPSender.fill_window (TCPSender.set_stream (TCPSender.new cap 1000 None ry)
                    (ByteStream.end_input (TCPSender._stream (TCPSender.new cap 1000 None ry)))) = Ret sy
    /\ Benchmark.start rx ry D = Ret (Benchmark.mk
         (_send_ack_if_need (set_sender (new TCPConfig.default rx) sx))
         (_send_ack_if_need (set_sender (new TCPConfig.default ry) sy)) (Buffer.of_string D) false [])
    /\ Forall Sending.quiet (TCPSender.segs_in_flight sx) /\ Forall Sending.quiet (TCPSender.segs_in_flight sy)
    /\ (exists seg, TCPSender.segs_in_flight sx = [seg] /\ TCPSender._segments_out sx = [seg]
        /\ greeting (mkWrappingInt32 rx) false seg)
    /\ (exists seg, TCPSender.segs_in_flight sy = [seg] /\ TCPSender._segments_out sy = [seg]
        /\ greeting (mkWrappingInt32 ry) true seg)
    /\ TCPSender._isn sx = mkWrappingInt32 rx /\ TCPSender._isn sy = mkWrappingInt32 ry
    /\ (TCPSender._next_seqno sx, TCPSender._next_seqno sy) = (1, 2)
    /\ (TCPSender._window_size sx, TCPSender._window_size sy) = (1, 1)
    /\ (TCPSender._consecutive_retrans sx, TCPSender._consecutive_retrans sy) = (0, 0)
    /\ TCPSender._stream sx = ByteStream.new cap /\ TCPSender._stream sy = ByteStream.end_input (ByteStream.new cap))
    as (sx & Ex & sy & Ey & Est & Hqx & Hqy & (gx & Fx & Ox & Gx) & (gy & Fy & Oy & Gy) & Ix & Iy & [= Nx Ny] & [= Wx Wy] & [= Cx Cy] & Sx & Sy).
  { eexists. split; [lazy -[wrap]; reflexivity|]. eexists. split; [lazy -[wrap]; reflexivity|].
    split; [lazy -[wrap]; reflexivity|]. split; [by repeat constructor|]. split; [by repeat constructor|].
    split; [eexists; split; [reflexivity|]; split; [reflexivity|]; by split|].
    split; [eexists; split; [reflexivity|]; split; [reflexivity|]; by split|]. done. }
  eexists _, _. split; [exact Est|].
  assert (forall i next s, TCPSender.inv [] 0 s -> TCPSender._isn s = i -> 0 < TCPSender._next_seqno s ->
    ByteStream.no_empty_buffer (TCPSender._stream s) -> 0 < ByteStream._capacity (TCPSender._stream s) ->
    Forall Sending.quiet (TCPSender.segs_in_flight s) -> TCPSender._next_seqno s = next ->
    TCPSender._window_size s = 1 -> TCPSender._consecutive_retrans s = 0 ->
    (exists seg, TCPSender.segs_in_flight s = [seg] /\ TCPSender._segments_out s = [seg] /\ greeting i (next =? 2) seg) ->
    forall r, greeted i next (_send_ack_if_need (set_sender (new TCPConfig.default r) s))) as Hmk.
  { intros i next s H1 H2 H3 H4 H5 H6 H7 H8 H9 (seg & H10 & H11 & H12) r. split; try done.
    - split; try done. by apply Sending.drained_inv.
    - by exists seg.
    - simpl. unfold TCPSender.segments_out. rewrite H11. eexists. split; [done|]. by destruct H12; split. }
  split; [|split].
  - apply Hmk; rewrite ?Nx, ?Sx; try done; [by apply (greeting_fill_inv _ _ _ _ Hix)|apply ByteStream.new_no_empty_buffer|by exists gx].
  - unfold TCPSender.ended. simpl. by rewrite Sx.
  - apply Hmk; rewrite ?Ny, ?Sy; try done; [by apply (greeting_fill_inv _ _ _ _ Hiy)|apply ByteStream.new_no_empty_buffer|by exists gy].
Qed.

Lemma greeted_not_eof i next c : greeted i next c -> ByteStream.eof (inbound_stream c) = false.
Proof. intros Hg. unfold inbound_stream. by rewrite (gr_receiver _ _ _ Hg). Qed.

Section Handshake.
Context (ix iy : WrappingInt32) (D : string).
Hypothesis Hix : wi_ok ix.
Hypothesis Hiy : wi_ok iy.
Hypothesis HD : 0 < zlen D < 2 ^ 63.

Lemma greeting_length i fin seg :
  greeting i fin seg -> TCPSegment.length_in_sequence_space seg = TCPSender.seg_length seg
  /\ TCPSender.seg_length seg = 1 + (if fin then 1 else 0).
Proof using.
  intros [_ _ Hs Hf _ Hp]. unfold TCPSegment.length_in_sequence_space, TCPSender.seg_length.
  unfold TCPSender.payload_bytes, TCPSender.seg_syn, TCPSender.seg_fin. rewrite Hs, Hf, Hp. by destruct fin.
Qed.

(** The second connection gets the SYN and acknowledges it. *)
Lemma y_opens c seg :
  greeted iy 2 c -> greeting ix false seg ->
  exists c' ack, segment_received c seg = Ret c' /\ listening ix iy D cap 0 0 1 c' /\ _last_received_time c' = 0
    /\ _segments_out c' = _segments_out c ++ [ack] /\ y_seg ix iy cap (2 + cap) 1 ack
    /\ TCPSender.segs_in_flight (_sender c') = TCPSender.segs_in_flight (_sender c)
    /\ TCPSender._consecutive_retrans (_sender c') = 0
    /\ ByteStream.bytes (inbound_stream c') = [].
Proof using Hix HD.
  intros Hg Hs. destruct (greeting_length _ _ _ Hs) as [El El']. pose proof Hs as [Ha Hr Hsy Hf Hq Hp].
  pose proof Hg as [Eto Hrd Hn Hw Hcr Hrv Hli Hrs Hfi _ _].
  destruct (listening_sender iy 0 (_sender c) Hrd Hn) as (Heof & Hfin & _).
  destruct (TCPReceiver.syn_received cap D ix seg) as (r & Er & Hinv & Era); [done|done|lia|by split|].
  assert (receiving ix D cap 0 1 r) as Hv.
  { split; [done|by rewrite Era|right; by rewrite Era| |];
      unfold TCPReceiver.bytes_read, position, TCPReceiver.stream_out, StreamReassembler.stream_out; by rewrite Era. }
  unfold segment_received. rewrite Hr, Ha. cbv zeta. unfold active. cbn [_is_rst _sender _receiver _linger_after_streams_finish _send_fin_first set_last_received_time].
  rewrite Hrs, Hli, Hfin, andb_false_r. change (0 =? 2) with false. cbn [negb andb].
  rewrite Hrv, Er. cbn [mbind outcome_bind]. set (c1 := set_receiver (set_last_received_time c 0) r).
  change (_sender c1) with (_sender c). rewrite Heof, andb_false_r. cbn match. change (_sender c1) with (_sender c).
  change (TCPSender.is_syn_received (_sender c)) with (TCPSender._is_syn_received (_sender c)).
  rewrite (TCPSender.i_syn _ _ _ (Sending.r_inv _ _ _ _ Hrd)). change (0 <? 0) with false. cbn [andb]. cbn match.
  rewrite El, El'. change (1 + 0 =? 0) with false. cbn [andb].
  replace (match TCPReceiver.ackno (_receiver c1) with Some _ => false | None => false end) with false
    by (by destruct (TCPReceiver.ackno (_receiver c1))).
  destruct (listening_reply ix iy D cap (2 + cap) 0 0 1 c1 seg) as (c' & E & Hl & Et & Hfl & Hcr' & _ & Hack);
    try done; try lia.
  { split; try done. simpl. rewrite Hcr. lia. }
  { by right. }
  destruct Hack as (ack & Eo & Hy); [lia|]. exists c', ack. split; [done|]. split; [done|]. split; [by rewrite Et|].
  split; [done|]. split; [done|]. split; [done|]. split; [rewrite Hcr'; exact Hcr|].
  pose proof (receiving_bounds _ _ _ _ _ _ (l_receiver _ _ _ _ _ _ _ _ Hl)) as (? & ? & _).
  pose proof (rv_pos _ _ _ _ _ _ (l_receiver _ _ _ _ _ _ _ _ Hl)) as Hpos. unfold position in Hpos.
  apply zlen_zero_nil. unfold inbound_stream. destruct (ByteStream.input_ended _); lia.
Qed.

(** The first connection gets the SYN and the FIN together: its receiver is done. *)
Lemma closed_by_greeting seg :
  greeting iy true seg ->
  exists r, TCPReceiver.segment_received (TCPReceiver.new cap) seg = Ret r /\ closed_in iy r
    /\ TCPReceiver.fsn r <> None.
Proof using Hiy.
  intros [_ _ Hs Hf Hq Hp]. unfold TCPReceiver.segment_received, TCPReceiver.push_back_wrap_string.
  rewrite Hs, Hf, Hq, Hp. cbn [TCPReceiver.new TCPReceiver._isn TCPReceiver._fsn TCPReceiver._reassembler TCPReceiver._capacity].
  rewrite !bool_decide_eq_true_2 by done. cbn [andb negb].
  change (StreamReassembler._top_pointer (StreamReassembler.new cap)) with 0.
  rewrite TCPReceiver.unwrap_isn by (done || lia). change (zlen (@nil byte) =? 0) with true.
  rewrite (bool_decide_eq_false_2 (Some iy = None)) by done.
  assert (StreamReassembler.push_substring (StreamReassembler.new cap) [] 0 true
    = Ret (StreamReassembler.set_stream_out (StreamReassembler.new cap) (ByteStream.end_input (ByteStream.new cap)))) as ->
    by (vm_compute; reflexivity).
  cbn [mbind outcome_bind]. change (uint64 (0 + 1)) with 1. eexists. split; [done|]. split; [|done].
  split; [|done]. split; [done|done|]. pose proof (TCPReceiver.syn_inv cap [] ltac:(done) ltac:(done)) as [].
  split; done.
Qed.


(** The first connection before its SYN is acknowledged. *)
Record waiting (W : string) (e : bool) (c : t) : Prop := {
  w_ready : Sending.ready ix W 0 (_sender c);
  w_next : TCPSender._next_seqno (_sender c) = 1;
  w_ended : TCPSender.ended (_sender c) = e;
  w_linger : _linger_after_streams_finish c = true;
  w_rst : _is_rst c = false
}.

Lemma waiting_sender W e c :
  waiting W e c -> active c = true /\ TCPSender.is_fin_received (_sender c) = false
  /\ TCPSender.is_syn_received (_sender c) = false.
Proof using.
  intros Hw. pose proof (Sending.r_inv _ _ _ _ (w_ready _ _ _ Hw)) as Hi.
  pose proof (TCPSender.inv_numbers _ _ _ Hi) as (? & _). unfold active, TCPSender.is_fin_received, TCPSender.is_syn_received.
  rewrite (w_rst _ _ _ Hw), (w_linger _ _ _ Hw), andb_false_r, (TCPSender.i_fin _ _ _ Hi), (TCPSender.i_syn _ _ _ Hi).
  split; [done|]. split; [apply Z.eqb_neq; lia|done].
Qed.

Lemma x_greeted W e c seg :
  waiting W e c -> TCPSender.buffered (_sender c) <> [] -> _receiver c = TCPReceiver.new cap -> _segments_out c = [] ->
  greeting iy true seg ->
  exists c' ack, segment_received c seg = Ret c' /\ waiting W e c' /\ closed_in iy (_receiver c')
    /\ _send_fin_first c' = false /\ _segments_out c' = [ack] /\ x_seg ix iy W e 1 ack
    /\ TCPSender.seg_length ack = 0.
Proof using Hiy.
  intros Hw Hb Hrv Ho Hg. destruct (greeting_length _ _ _ Hg) as [El El']. pose proof Hg as [Ha Hr Hsy Hf _ Hp].
  assert (waiting W e (set_last_received_time c 0)) as Hw0 by (by destruct Hw).
  destruct (waiting_sender W e _ Hw0) as (Hact & Hnf & Hns).
  destruct (closed_by_greeting seg Hg) as (r & Er & Hcl & Hfsn).
  unfold segment_received. rewrite Hr, Ha. cbv zeta. rewrite Hact, Hnf. cbn [negb andb].
  change (_receiver (set_last_received_time c 0)) with (_receiver c). rewrite Hrv, Er. cbn [mbind outcome_bind].
  set (c1 := set_receiver (set_last_received_time c 0) r).
  assert (ByteStream.eof (TCPSender.stream_in (_sender c1)) = false) as Heof.
  { apply not_true_iff_false. intros E. apply TCPSender.eof_bytes in E as [_ E]. by apply Hb. }
  rewrite Heof. change (_receiver c1) with r. rewrite (bool_decide_eq_false_2 _ Hfsn). cbn [negb andb]. cbn match.
  change (_sender (set_send_fin_first c1 false)) with (_sender c). change (_sender (set_last_received_time c 0)) with (_sender c) in Hns.
  rewrite Hns. cbn [andb]. cbn match. change (_receiver (set_send_fin_first c1 false)) with r.
  rewrite El, El'. change (1 + 1 =? 0) with false. cbn [andb].
  destruct (closed_in_facts _ _ Hcl) as (_ & Ea & _). rewrite Ea.
  unfold reply. change (_sender (set_send_fin_first c1 false)) with (_sender c). rewrite Hns, Hsy, El, El'. cbn [orb].
  destruct (Sending.fill_ready ix W 0 (_sender c) (w_ready _ _ _ Hw))
    as (s' & segs & -> & Eo & Hs' & Hsegs & _ & Ee & _ & _ & _ & _ & H0 & _).
  rewrite (H0 eq_refl), (w_next _ _ _ Hw) in *. simpl in Hsegs. cbn [mbind outcome_bind].
  unfold TCPSender.segments_out. rewrite Eo. unfold Buffer.size. rewrite Hp.
  change (zlen (@nil byte) =? 0) with true. change (1 <=? 1 + 1) with true. cbn [negb andb]. cbn match.
  set (c2 := set_send_fin_first c1 false).
  exists (_send_ack_if_need (set_sender c2 (TCPSender.send_empty_segment s'))),
    (fill_ack r (TCPSegment.mk (TCPSender.set_flags TCPHeader.default false false (TCPSender.next_seqno s')) Buffer.null)).
  split; [done|].
  pose proof (w_ended _ _ _ Hw) as Hwe. split.
  - split; try done; [exact (eq_trans Ee Hwe)|apply Hw|apply Hw].
  - split; [done|]. split; [done|]. split.
    { simpl. unfold TCPSender.segments_out. simpl. by rewrite Ho, Eo. }
    split; [|done]. rewrite Hsegs at 1. apply fill_ack_empty; [done|by apply Hs'|].
    rewrite <- Hsegs. pose proof (zlen_nonneg W). lia.
Qed.

(** The acknowledgment of the SYN: data can be sent. *)
Lemma x_established W e c seg limit :
  waiting W e c -> closed_in iy (_receiver c) -> _send_fin_first c = false ->
  runs ix iy W e 1 1 (_segments_out c) 1 -> y_seg ix iy cap limit 1 seg ->
  exists c', segment_received c seg = Ret c' /\ exchanging ix iy W e 1 1 c'
    /\ TCPSender._next_seqno (_sender c') <= 1 + cap /\ TCPSender._window_size (_sender c') <= cap
    /\ TCPSender._consecutive_retrans (_sender c') = 0
    /\ (W <> [] -> _segments_out c' <> []).
Proof using.
  intros Hw Hcl Hfi Hruns Hy. pose proof (ys_win _ _ _ _ _ _ Hy) as [? _]. pose proof (ys_cap _ _ _ _ _ _ Hy) as Hwc.
  assert (waiting W e (set_last_received_time c 0)) as Hw0 by (by destruct Hw).
  destruct (waiting_sender W e _ Hw0) as (Hact & Hnf & _).
  pose proof (Sending.r_inv _ _ _ _ (w_ready _ _ _ Hw)) as Hi. pose proof (TCPSender.i_queue _ _ _ Hi) as Hq.
  fold (TCPSender.segs_in_flight (_sender c)) in Hq.
  rewrite (Sending.r_isn _ _ _ _ (w_ready _ _ _ Hw)), (w_ended _ _ _ Hw), (w_next _ _ _ Hw) in Hq.
  destruct (Sending.ack_ready ix W 0 (_sender c) 1 (TCPHeader.win (TCPSegment.header seg))
    (TCPSender.segs_in_flight (_sender c)) [] 1)
    as (una & q & Hs & _ & Hu & Efl & Hq' & En & Est & Ew & Hcr); rewrite ?app_nil_r, ?(w_ended _ _ _ Hw);
    try done; [apply Hw|exact (eq_sym (w_next _ _ _ Hw))|apply Hy|].
  rewrite (Hu eq_refl) in *. rewrite (w_ended _ _ _ Hw) in Hq'. apply Sending.segs_ok_none in Hq' as ->.
  rewrite (w_next _ _ _ Hw) in En.
  unfold segment_received. rewrite (ys_rst _ _ _ _ _ _ Hy). cbv zeta. rewrite Hact, Hnf, (ys_ack _ _ _ _ _ _ Hy). cbn [negb andb].
  rewrite (ys_ackno _ _ _ _ _ _ Hy). change (_sender (set_last_received_time c 0)) with (_sender c).
  set (s1 := TCPSender.ack_received _ _ _) in *.
  assert (TCPSender.ended s1 = e) as Ee by (unfold TCPSender.ended; rewrite Est; apply Hw). clearbody s1.
  destruct (closed_in_step ix iy cap (_receiver c) limit 1 seg Hcl Hy) as (r & Er & Hcl').
  change (_receiver (set_sender (set_last_received_time c 0) s1)) with (_receiver c). rewrite Er. cbn [mbind outcome_bind].
  set (c1 := set_receiver (set_sender (set_last_received_time c 0) s1) r).
  assert (set_send_fin_first c1 false = c1) as F1 by (subst c1; destruct c; simpl in *; by rewrite Hfi).
  rewrite F1. replace (if negb (bool_decide (TCPReceiver.fsn (_receiver c1) = None)) && _ then c1 else c1) with c1
    by (by case_if).
  destruct (closed_in_facts _ _ Hcl') as (_ & Ea & Heof).
  assert (TCPSender.is_syn_received (_sender c1) && ByteStream.eof (TCPReceiver.stream_out (_receiver c1))
    && negb (_send_fin_first c1) = true) as ->.
  { change (_receiver c1) with r. rewrite Heof. change (_send_fin_first c1) with (_send_fin_first c). rewrite Hfi.
    change (_sender c1) with s1. unfold TCPSender.is_syn_received.
    by rewrite (TCPSender.i_syn _ _ _ (Sending.r_inv _ _ _ _ Hs)). }
  set (c2 := set_linger c1 false). change (_receiver c2) with r.
  rewrite Ea, (not_keep_alive ix iy cap limit 1 seg Hy).
  destruct (reply_exchanging ix iy W e 1 1 c2 seg [] []) as (c' & E & Hex & Hn & Ew' & Ecr); try done;
    try (exact (w_rst _ _ _ Hw)); change (_sender c2) with s1 in *; rewrite ?En; try done.
  exists c'. split; [done|]. split; [done|]. rewrite Ew', Ecr, Ew, En in *.
  unfold TCPConfig.DEFAULT_CAPACITY in *. split; [lia|]. split; [lia|]. split; [lia|].
  intros HW Eo. pose proof (e_runs _ _ _ _ _ _ _ Hex) as Hr. rewrite Eo in Hr. simpl in Hr.
  pose proof (e_talking _ _ _ _ _ _ _ Hex) as Ht. destruct (t_busy _ _ _ _ _ Ht Hr) as [Eb _]; [lia|].
  pose proof (Sending.r_inv _ _ _ _ (t_sender _ _ _ _ _ Ht)) as Hi'. pose proof (TCPSender.i_read _ _ _ Hi') as Hrd.
  pose proof (TCPSender.inv_numbers _ _ _ Hi') as (? & _).
  rewrite Eb, zlen_nil in Hrd. apply HW, zlen_zero_nil. destruct (TCPSender.i_next _ _ _ Hi') as [?|[?|?]]; lia.
Qed.

(** The SYN of the second connection sent again, now with an acknowledgment. *)
Lemma greeting_again r seg :
  receiving ix D cap 0 1 r -> greeting iy true seg -> y_seg ix iy cap (2 + cap) 1 (fill_ack r seg).
Proof using.
  intros Hv [Ha Hr Hs Hf Hq Hp]. pose proof (receiving_bounds _ _ _ _ _ _ Hv) as (? & ? & ? & ? & ? & ? & ?).
  destruct Hv as [Hi Hc Hg Hrd Hpos]. pose proof (TCPReceiver.ackno_inv ix D r Hi) as Ea.
  fold (position r) in Ea. rewrite Hpos in Ea. pose proof (TCPReceiver.window_inv ix D r Hi) as Ew.
  unfold position in Hpos. zlen_pose. unfold TCPConfig.DEFAULT_CAPACITY in *.
  split; simpl; rewrite ?Ea, ?Ew; try done.
  - unfold is_u16. lia.
  - destruct (ByteStream.input_ended _); lia.
  - lia.
  - by right.
Qed.

Lemma tick_greeting c :
  listening ix iy D cap 0 0 1 c -> TCPSender._consecutive_retrans (_sender c) = 0 -> _last_received_time c = 0 ->
  _segments_out c = [] -> (exists seg, TCPSender.segs_in_flight (_sender c) = [seg] /\ greeting iy true seg) ->
  let c' := tick c 1000 in
  listening ix iy D cap 0 0 1 c' /\ acks ix iy cap (2 + cap) 1 (_segments_out c') 1
  /\ _last_received_time c' = 1000 /\ inbound_stream c' = inbound_stream c.
Proof using.
  intros Hl Hcr Ht Ho (seg & Efl & Hg). pose proof (l_timeout _ _ _ _ _ _ _ _ Hl) as Eto. cbv zeta.
  rewrite tick_plain; [|apply Hl|intros _; by rewrite Eto, Ht]. rewrite Ht. change (uint64 (0 + 1000)) with 1000.
  destruct (Sending.tick_ready iy [] 0 (_sender c) 1000 (l_sender _ _ _ _ _ _ _ _ Hl))
    as (Hs' & Hout & En & Est & Ew & _ & Hc1 & _). specialize (Hc1 Hcr). pose proof (l_receiver _ _ _ _ _ _ _ _ Hl) as Hv.
  split; [|split; [|done]].
  - pose proof (l_next _ _ _ _ _ _ _ _ Hl). destruct Hl. split; try done. cbn. congruence.
  - cbn. rewrite Ho. unfold TCPSender.segments_out. destruct Hout as [->|(seg' & -> & Hh)]; [done|].
    rewrite Efl in Hh. injection Hh as <-. exists 1. split; [done|]. split; [by apply greeting_again|done].
Qed.

(** The writes of the first turn send nothing. *)
Lemma first_writes x0 syn :
  greeted ix 1 x0 -> TCPSender.ended (_sender x0) = false -> _segments_out x0 = [syn] ->
  exists c1 bytes c2 closed W,
    Benchmark.write_input (S (length D)) x0 (Buffer.of_string D) = Ret (c1, bytes)
    /\ (if (Buffer.size bytes =? 0) && negb false
        then x ← end_input_stream c1; Ret (x, true) else Ret (c1, false)) = Ret (c2, closed)
    /\ Buffer.wf bytes /\ D = W ++ Buffer.str bytes /\ (closed = true -> Buffer.str bytes = []) /\ W <> []
    /\ waiting W closed c2 /\ TCPSender.buffered (_sender c2) <> [] /\ _receiver c2 = TCPReceiver.new cap
    /\ _segments_out c2 = [syn].
Proof using HD.
  intros [_ Hr Hn Hw Hcr Hrv Hli Hrs Hfi _ _] Hxe Eo.
  assert (flushed ix 0 [] x0 x0) as Hf0 by (apply flushed_refl; [done|by intros _ ?]).
  destruct (write_input_ok ix (S (length D)) 0 [] x0 x0 (Buffer.of_string D) Hf0)
    as (c1 & W & bytes & E1 & Hf1 & EW & Hwf & Ee1 & Hdone); rewrite ?Buffer.str_of_string; try done;
    [apply Buffer.buf_of_string_wf; lia|rewrite zlen_nil; lia|lia|].
  rewrite Buffer.str_of_string in EW. rewrite app_nil_l in Hf1. rewrite Hxe in Ee1.
  assert (forall c, flushed ix 0 W x0 c -> TCPSender._next_seqno (_sender c) = 1 /\ TCPSender.buffered (_sender c) = W
    /\ _segments_out c = [syn]) as Hflat.
  { intros c Hf. destruct (fl_segs _ _ _ _ _ Hf) as (segs & Eo' & Hsegs & _ & H0).
    rewrite (H0 eq_refl) in *. simpl in Hsegs. rewrite Hn in Hsegs.
    pose proof (Sending.r_inv _ _ _ _ (fl_ready _ _ _ _ _ Hf)) as Hi. pose proof (TCPSender.inv_numbers _ _ _ Hi) as (? & _).
    split; [done|]. split; [|by rewrite Eo', Eo].
    rewrite (TCPSender.i_written _ _ _ Hi). replace (TCPSender.bytes_read (_sender c)) with 0; [done|].
    destruct (TCPSender.i_next _ _ _ Hi) as [?|[?|?]]; lia. }
  assert (W <> []) as HW.
  { intros ->. destruct Hdone as [E|E]; [rewrite E in EW; apply (f_equal zlen) in EW; change (zlen ([] ++ [])) with 0 in EW; lia|].
    revert E. apply (full_stream ix c1 0 []); [apply Hf1|]. by apply Hflat. }
  assert (exists c2 closed, (if (Buffer.size bytes =? 0) && negb false
        then x ← end_input_stream c1; Ret (x, true) else Ret (c1, false)) = Ret (c2, closed)
    /\ flushed ix 0 W x0 c2 /\ TCPSender.ended (_sender c2) = closed /\ (closed = true -> Buffer.str bytes = []))
    as (c2 & closed & E2 & Hf2 & Ee2 & Hall).
  { rewrite andb_true_r. destruct (Buffer.size bytes =? 0) eqn:Es; [|by exists c1, false].
    destruct (flushed_end ix 0 W x0 c1 Hf1) as (c2 & -> & Hf2 & Ee2). exists c2, true. split_and!; try done.
    zbool. intros _. by apply zlen_zero_nil. }
  destruct (Hflat c2 Hf2) as (Hn2 & Hb2 & Ho2). exists c1, bytes, c2, closed, W. split_and!; try done.
  - split; [apply Hf2|done|done|by rewrite (fl_linger _ _ _ _ _ Hf2)|by rewrite (fl_rst _ _ _ _ _ Hf2)].
  - by rewrite Hb2.
  - by rewrite (fl_receiver _ _ _ _ _ Hf2).
Qed.

(** The SYNs are exchanged and acknowledged, and the first data is on its way. *)
Lemma first_turn reorder x0 y0 :
  greeted ix 1 x0 -> TCPSender.ended (_sender x0) = false -> greeted iy 2 y0 ->
  exists b W, Benchmark.loop reorder (Benchmark.mk x0 y0 (Buffer.of_string D) false []) = Ret b
    /\ turning ix iy D cap W 1 b /\ _last_received_time (Benchmark.y b) = 1000.
Proof using Hix Hiy HD.
  intros Hx Hxe Hy. destruct (gr_out _ _ _ Hx) as (syn & Eo & Hsyn). destruct (gr_out _ _ _ Hy) as (sf & Eoy & Hsf).
  destruct (first_writes x0 syn Hx Hxe Eo)
    as (c1 & bytes & c2 & closed & W & E1 & E2 & Hwf & ED & Hall & HW & Hwt & Hbuf & Hrv & Eo2).
  destruct (y_opens y0 syn Hy Hsyn) as (y1 & ack & E3 & Hl1 & Et1 & Eo1 & Hack & Hfl1 & Hcr1 & Hb1).
  destruct (x_greeted W closed (set_segments_out c2 []) sf) as (c3 & ack' & E4 & Hw3 & Hcl3 & Hfi3 & Eo3 & Hx3 & El3); try done;
    [by destruct Hwt|].
  destruct (x_established W closed c3 ack (2 + cap) Hw3 Hcl3 Hfi3) as (c4 & E5 & Hex & Hnx & Hwin & Hcr & Hne); [|done|].
  { rewrite Eo3. exists 1. split; [lia|]. split; [done|]. simpl. rewrite El3. lia. }
  destruct (tick_x ix iy W closed 1 c4 1000 Hex) as (Ht5 & Ee5 & Hr5 & En5 & Ew5 & Ecr5 & _ & Hne5); [lia|done|].
  destruct (tick_greeting (set_segments_out y1 [])) as (Hl6 & Ha6 & Et6 & Ein6); try done; [by destruct Hl1| |].
  { change (TCPSender.segs_in_flight (_sender (set_segments_out y1 []))) with (TCPSender.segs_in_flight (_sender y1)).
    rewrite Hfl1. apply (gr_flight _ _ _ Hy). }
  exists (Benchmark.mk (tick c4 1000) (tick (set_segments_out y1 []) 1000) bytes closed []), W. split; [|split; [|done]].
  - unfold Benchmark.loop. cbn [Benchmark.bytes_to_send Benchmark.x Benchmark.y Benchmark.x_closed Benchmark.string_received].
    rewrite Buffer.str_of_string, E1. cbn [mbind outcome_bind]. rewrite E2. cbn [mbind outcome_bind].
    rewrite (move_ok c2 y0 reorder y1) by (unfold segments_out; rewrite Eo2; destruct reorder; simpl; by rewrite E3).
    cbn [mbind outcome_bind].
    rewrite (move_ok y1 _ false c4) by (unfold segments_out; rewrite Eo1, Eoy; simpl; rewrite E4; simpl; by rewrite E5).
    cbn [mbind outcome_bind]. cbv zeta. change (inbound_stream (set_segments_out y1 [])) with (inbound_stream y1).
    rewrite ByteStream.buffer_size_bytes, Hb1 by apply (TCPReceiver.inv_reassembler _ _ _ (rv_inv _ _ _ _ _ _ (l_receiver _ _ _ _ _ _ _ _ Hl1))).
    done.
  - split; simpl; try done.
    + by rewrite Ew5.
    + rewrite En5. lia.
    + exists 0. split; [done|]. right. by apply Hne5, Hne.
    + by rewrite Ein6.
Qed.

End Handshake.
End Handshake.

(** ** The whole run *)

Module Run.
Import TCPConnection Wire Receiving Acking Writing Turn Handshake.

Section Run.
Context (ix iy : WrappingInt32) (D : string).
Hypothesis HD : 0 < zlen D < 2 ^ 63.

Lemma cap_ok : 1 <= cap <= 65535.
Proof using. unfold TCPConfig.DEFAULT_CAPACITY. lia. Qed.

(** The loop sees the end of the stream when everything has been acknowledged. *)
Lemma turning_eof W una b :
  turning ix iy D cap W una b ->
  una <= zlen D + 2 /\ ByteStream.eof (inbound_stream (Benchmark.y b)) = (una =? zlen D + 2)
  /\ (una = zlen D + 2 -> Benchmark.string_received b = D /\ W = D /\ Benchmark.x_closed b = true
      /\ Buffer.str (Benchmark.bytes_to_send b) = []).
Proof using HD.
  intros Hb. pose proof Hb as [Ht ED _ Hcl _ _ _ _ _ (u & Hl & _) Hread _ Hgot].
  pose proof (receiving_bounds _ _ _ _ _ _ (l_receiver _ _ _ _ _ _ _ _ Hl)) as (? & Htop & ? & ? & Hended & ? & ?).
  pose proof (rv_pos _ _ _ _ _ _ (l_receiver _ _ _ _ _ _ _ _ Hl)) as Hp. unfold position in Hp.
  unfold inbound_stream in *. rewrite Hread, zlen_nil in Htop.
  pose proof (rv_inv _ _ _ _ _ _ (l_receiver _ _ _ _ _ _ _ _ Hl)) as Hr.
  assert (zlen D = zlen W + zlen (Buffer.str (Benchmark.bytes_to_send b))) as ElD by (rewrite ED at 1; apply zlen_app).
  pose proof (Sending.next_index_bound _ _ _ _ (t_sender _ _ _ _ _ Ht)) as (? & ? & _). zlen_pose.
  split; [lia|]. split.
  - destruct (ByteStream.input_ended _) eqn:Ee.
    + specialize (Hended eq_refl). rewrite (proj2 (Z.eqb_eq _ _)) by lia.
      apply TCPSender.eof_intro; [exact Ee|done|]. apply (TCPReceiver.inv_reassembler _ _ _ Hr).
    + rewrite (proj2 (Z.eqb_neq _ _)) by lia. apply not_true_iff_false. intros E. apply TCPSender.eof_bytes in E as [E _].
      unfold ByteStream.input_ended in Ee. congruence.
  - intros Eu. assert (Buffer.str (Benchmark.bytes_to_send b) = []) as Es by (apply zlen_zero_nil; lia).
    split; [|split; [by rewrite ED, Es, app_nil_r|split; [|done]]].
    + rewrite Hgot. apply take_ge. destruct (ByteStream.input_ended _); [specialize (Hended eq_refl)|]; unfold zlen in *; lia.
    + rewrite <- Hcl. pose proof (Sending.r_inv _ _ _ _ (t_sender _ _ _ _ _ Ht)) as Hi.
      pose proof (TCPSender.i_read _ _ _ Hi). pose proof (zlen_nonneg (TCPSender.buffered (_sender (Benchmark.x b)))).
      destruct (TCPSender.i_next _ _ _ Hi) as [?|[?|(_ & ? & _)]]; [lia|lia|done].
Qed.

Lemma until_eof_ok fuel W una b :
  turning ix iy D cap W una b -> _last_received_time (Benchmark.y b) = 1000 -> zlen D + 2 - una <= Z.of_nat fuel ->
  exists b' W', Benchmark.until_eof fuel false b = Ret b' /\ turning ix iy D cap W' (zlen D + 2) b'
    /\ _last_received_time (Benchmark.y b') = 1000.
Proof using HD.
  revert W una b. induction fuel as [|fuel IH]; intros W una b Hb Ht Hf.
  - destruct (turning_eof W una b Hb) as (Hle & Eeof & _). assert (una = zlen D + 2) as -> by lia.
    exists b, W. cbn [Benchmark.until_eof]. rewrite Eeof, Z.eqb_refl. done.
  - destruct (turning_eof W una b Hb) as (Hle & Eeof & _). cbn [Benchmark.until_eof]. rewrite Eeof.
    destruct (Z.eqb_spec una (zlen D + 2)) as [->|Hne]; [by exists b, W|].
    destruct (turn_ok ix iy D cap cap_ok ltac:(lia) W una b Hb) as (b1 & W1 & una1 & -> & Hb1 & _ & Hgo & _); [lia|].
    destruct Hgo as [Hlt Ht1]; [lia|]. cbn [mbind outcome_bind]. apply (IH W1 una1); [done|done|lia].
Qed.

(** After the end, a turn is only the passing of time. *)
Lemma rest_loop reorder W b :
  turning ix iy D cap W (zlen D + 2) b -> segments_out (Benchmark.x b) = [] -> segments_out (Benchmark.y b) = [] ->
  Benchmark.loop reorder b = Ret (Benchmark.mk (tick (Benchmark.x b) 1000) (tick (Benchmark.y b) 1000)
    (Benchmark.bytes_to_send b) (Benchmark.x_closed b) (Benchmark.string_received b)).
Proof using HD.
  intros Hb Ex Ey. destruct (turning_eof W _ b Hb) as (_ & _ & H). destruct (H eq_refl) as (_ & _ & Ec & Es).
  pose proof Hb as [_ _ _ _ _ _ _ _ _ (u & Hl & _) Hread _ _].
  unfold Benchmark.loop. cbn [Benchmark.write_input]. unfold Buffer.size. rewrite Es.
  change (zlen (@nil byte) =? 0) with true. cbn [orb mbind outcome_bind]. rewrite Es, Ec.
  change (zlen (@nil byte) =? 0) with true. cbn [andb negb mbind outcome_bind].
  rewrite (move_ok _ (Benchmark.y b) reorder (Benchmark.y b)) by (rewrite Ex; by destruct reorder). cbn [mbind outcome_bind].
  rewrite (move_ok _ _ false (set_segments_out (Benchmark.x b) [])) by (by rewrite Ey). cbn [mbind outcome_bind]. cbv zeta.
  unfold segments_out in Ex, Ey.
  assert (forall c, _segments_out c = [] -> set_segments_out c [] = c) as Hsame by (intros [] ?; simpl in *; by subst).
  rewrite !Hsame by done. rewrite ByteStream.buffer_size_bytes, Hread
    by apply (TCPReceiver.inv_reassembler _ _ _ (rv_inv _ _ _ _ _ _ (l_receiver _ _ _ _ _ _ _ _ Hl))). done.
Qed.

(** The first connection is closed. *)
Lemma x_inactive W b : turning ix iy D cap W (zlen D + 2) b -> active (Benchmark.x b) = false.
Proof using HD.
  intros Hb. destruct (turning_eof W _ b Hb) as (_ & _ & H). destruct (H eq_refl) as (_ & -> & _).
  rewrite (talking_active ix iy D _ _ (tn_talking _ _ _ _ _ _ _ Hb)). by rewrite Z.eqb_refl.
Qed.

(** The second closes when it has waited long enough. *)
Lemma y_closes W b :
  turning ix iy D cap W (zlen D + 2) b -> segments_out (Benchmark.x b) = [] -> 9000 <= _last_received_time (Benchmark.y b) < 10000 ->
  active (tick (Benchmark.y b) 1000) = false.
Proof using HD.
  intros Hb Ex Ht. destruct (turning_eof W _ b Hb) as (_ & Eeof & _). rewrite Z.eqb_refl in Eeof.
  pose proof Hb as [_ _ _ _ _ _ _ _ _ (u & Hl & Hu) _ _ _]. assert (u = 2) as -> by (by destruct Hu).
  pose proof (l_sender _ _ _ _ _ _ _ _ Hl) as Hs. pose proof (Sending.r_inv _ _ _ _ Hs) as Hi.
  destruct (listening_sender iy 2 _ Hs (l_next _ _ _ _ _ _ _ _ Hl)) as (_ & Hfin & _).
  unfold inbound_stream in Eeof. unfold tick, TCPSender.consecutive_retransmissions.
  pose proof (l_retrans _ _ _ _ _ _ _ _ Hl). rewrite uint32_small by (unfold is_u32; lia).
  rewrite (proj2 (Z.leb_gt _ _)) by (unfold TCPConfig.MAX_RETX_ATTEMPTS; lia). cbv zeta.
  unfold TCPSender.is_syn_received. rewrite (TCPSender.i_syn _ _ _ Hi), Eeof, (l_linger _ _ _ _ _ _ _ _ Hl),
    (l_timeout _ _ _ _ _ _ _ _ Hl), uint64_small by (unfold is_u64; lia).
  rewrite (proj2 (Z.leb_le _ _)) by lia. change (0 <? 2) with true. cbn [andb]. cbn match.
  unfold active. cbn [_is_rst _sender _receiver _linger_after_streams_finish set_linger set_sender set_last_received_time
    _send_ack_if_need set_segments_out].
  rewrite (l_rst _ _ _ _ _ _ _ _ Hl), Eeof. cbn [negb]. rewrite !andb_true_r.
  assert (forall s ms, TCPSender.is_fin_received (TCPSender.set_segments_out (TCPSender.tick s ms) [])
    = TCPSender.is_fin_received s) as Htick.
  { intros s ms. unfold TCPSender.tick, TCPSender.is_fin_received. cbn. destruct (TCPSender._seg_queue s); [done|]. by case_if. }
  by rewrite Htick, Hfin.
Qed.

Lemma x_inactive_tick W b : turning ix iy D cap W (zlen D + 2) b -> active (tick (Benchmark.x b) 1000) = false.
Proof using HD.
  intros Hb. destruct (turning_eof W _ b Hb) as (_ & _ & H). destruct (H eq_refl) as (_ & -> & _).
  pose proof Hb as [Ht _ _ Hcl _ _ _ Hre Hruns _ _ _ _].
  pose proof (Sending.next_index_bound _ _ _ _ (t_sender _ _ _ _ _ Ht)) as (? & ? & _).
  destruct (tick_x ix iy D (Benchmark.x_closed b) (zlen D + 2) (Benchmark.x b) 1000) as (Ht' & _); [|done|lia|].
  - split; [done|done| |done]. exists [], (TCPSender.segs_in_flight (_sender (Benchmark.x b))). split; [done|].
    split; [done|]. pose proof (TCPSender.i_queue _ _ _ (Sending.r_inv _ _ _ _ (t_sender _ _ _ _ _ Ht))) as Hq.
    by rewrite (Sending.r_isn _ _ _ _ (t_sender _ _ _ _ _ Ht)), Hcl in Hq.
  - rewrite (talking_active ix iy D _ _ Ht'). by rewrite Z.eqb_refl.
Qed.

Lemma until_inactive_rest reorder fuel W b :
  turning ix iy D cap W (zlen D + 2) b -> segments_out (Benchmark.x b) = [] -> segments_out (Benchmark.y b) = [] ->
  0 <= _last_received_time (Benchmark.y b) < 10000 ->
  10000 <= 1000 * Z.of_nat fuel + _last_received_time (Benchmark.y b) ->
  exists b', Benchmark.until_inactive fuel reorder b = Ret b' /\ Benchmark.string_received b' = D
    /\ active (Benchmark.x b') = false /\ active (Benchmark.y b') = false.
Proof using HD.
  revert W b. induction fuel as [|fuel IH]; intros W b Hb Ex Ey Ht Hf; [lia|].
  cbn [Benchmark.until_inactive]. pose proof (tn_listening _ _ _ _ _ _ _ Hb) as (u & Hl & Hu).
  rewrite (active_listening _ _ _ _ _ _ _ _ Hl), orb_true_r. cbn [negb].
  rewrite (rest_loop reorder W b Hb Ex Ey). cbn [mbind outcome_bind].
  destruct (decide (_last_received_time (Benchmark.y b) < 9000)) as [Hlt|Hge].
  - destruct (turn_ok ix iy D cap cap_ok ltac:(lia) W _ b Hb) as (b1 & W1 & una1 & E & Hb1 & Ey1 & _ & Hrest); [lia|].
    destruct (Hrest eq_refl) as (-> & Ex1 & Ht1). rewrite (rest_loop false W b Hb Ex Ey) in E. injection E as <-.
    assert (u = 2) as -> by (by destruct Hu).
    destruct (tick_y ix iy D cap _ _ _ 1000 Hl) as (_ & _ & Et & _); [lia..|].
    apply (IH W1); try done; cbn [Benchmark.y]; rewrite Et; lia.
  - pose proof (y_closes W b Hb Ex ltac:(lia)) as Hy.
    destruct (turning_eof W _ b Hb) as (_ & _ & H). destruct (H eq_refl) as (Hgot & _).
    pose proof (x_inactive_tick W b Hb) as Hx.
    eexists (Benchmark.mk _ _ _ _ (Benchmark.string_received b)). split; [|split; [exact Hgot|split; [exact Hx|exact Hy]]].
    destruct fuel; cbn [Benchmark.until_inactive Benchmark.x Benchmark.y]; by rewrite Hx, Hy.
Qed.

Lemma until_inactive_ok fuel W b :
  turning ix iy D cap W (zlen D + 2) b -> _last_received_time (Benchmark.y b) = 1000 -> 11 <= Z.of_nat fuel ->
  exists b', Benchmark.until_inactive fuel false b = Ret b' /\ Benchmark.string_received b' = D
    /\ active (Benchmark.x b') = false /\ active (Benchmark.y b') = false.
Proof using HD.
  intros Hb Ht Hf. destruct fuel as [|fuel]; [lia|]. cbn [Benchmark.until_inactive].
  pose proof (tn_listening _ _ _ _ _ _ _ Hb) as (u & Hl & _).
  rewrite (active_listening _ _ _ _ _ _ _ _ Hl), orb_true_r. cbn [negb].
  destruct (turn_ok ix iy D cap cap_ok ltac:(lia) W _ b Hb) as (b1 & W1 & una1 & -> & Hb1 & Ey1 & _ & Hrest); [lia|].
  destruct (Hrest eq_refl) as (-> & Ex1 & Ht1). cbn [mbind outcome_bind].
  apply (until_inactive_rest false fuel W1); (done || lia).
Qed.

End Run.
End Run.

(** ** Properties *)

(** C2: the benchmark completes.  For every string of 1 to [2^63 - 1] bytes and all
    initial sequence numbers, the program without reordering never throws: the
    loops end within a number of turns that only depends on the length of the
    string, the string received is the string sent, and both connections have shut
    down. *)
Theorem benchmark_completes (fuel : nat) (random_x random_y : Z) (string_to_send : string) :
  is_u32 random_x -> is_u32 random_y -> 0 < zlen string_to_send < 2 ^ 63 ->
  zlen string_to_send + 11 <= Z.of_nat fuel ->
  exists b, Benchmark.main_loop fuel random_x random_y string_to_send false = Ret b
    /\ Benchmark.string_received b = string_to_send
    /\ TCPConnection.active (Benchmark.x b) = false /\ TCPConnection.active (Benchmark.y b) = false.
Proof.
  intros Hx Hy HD Hf. set (ix := mkWrappingInt32 random_x). set (iy := mkWrappingInt32 random_y).
  destruct (Handshake.started random_x random_y string_to_send Hx Hy) as (x0 & y0 & E0 & Gx & Ex & Gy).
  destruct (Handshake.first_turn ix iy string_to_send Hx Hy HD false x0 y0 Gx Ex Gy) as (b1 & W1 & E1 & Hb1 & Ht1).
  destruct fuel as [|fuel]; [lia|].
  destruct (Run.until_eof_ok ix iy string_to_send HD fuel W1 1 b1 Hb1 Ht1) as (b2 & W2 & E2 & Hb2 & Ht2); [lia|].
  destruct (Run.until_inactive_ok ix iy string_to_send HD (S fuel) W2 b2 Hb2 Ht2) as (b3 & E3 & Hgot & Ax & Ay); [lia|].
  destruct (Run.turning_eof ix iy string_to_send HD W2 _ b2 Hb2) as (_ & _ & H). destruct (H eq_refl) as (Eg & _).
  exists b3. split; [|done]. unfold Benchmark.main_loop. rewrite E0. cbn [mbind outcome_bind Benchmark.until_eof Benchmark.y].
  rewrite (Handshake.greeted_not_eof iy 2 y0 Gy), E1. cbn [mbind outcome_bind]. rewrite E2. cbn [mbind outcome_bind].
  rewrite Eg, bool_decide_eq_true_2 by done. exact E3.
Qed.

Lemma benchmark_completes_witness :
  let data := replicate 3 Byte.x61 in
  exists b, Benchmark.main_loop 14 4294967290 7 data false = Ret b
    /\ Benchmark.string_received b = data
    /\ TCPConnection.active (Benchmark.x b) = false /\ TCPConnection.active (Benchmark.y b) = false.
Proof. apply (benchmark_completes 14 4294967290 7 (replicate 3 Byte.x61)); done. Defined.
