(* ===== verification/Text.v ===== *)
(** * Printed forms (hexdump of util/util.cc; to_string and summary of
      tcp_helpers/tcp_header.cc, ipv4_header.cc, ethernet_header.cc, arp_message.cc;
      name of tcp_helpers/tcp_state.cc)

    What the headers and the dump print is a string here.  The numbers of a stream
    are in the base its flags say; [hexdump] is a loop over the bytes that keeps
    the characters of a row in a string stream, and is shown to print row after
    row.  The printed form of a TCP header determines its fields. *)

From S2P Require Import Prelude WrappingIntegers UtilBuffer Parser Codec TCPSegment IPv4Datagram EthernetFrame Address.
From S2P Require Import TCPReceiver TCPSender TCPConnection.

(** ** Numbers in a stream *)

(** [os << hex << n]; 16 digits are enough for 64 bits. *)
Fixpoint hex_digits (fuel : nat) (n : Z) : string :=
  match fuel with
  | O => []
  | S fuel => if n <? 16 then [hex_digit n] else hex_digits fuel (n / 16) ++ [hex_digit (n mod 16)]
  end.
Definition to_hex (n : Z) : string := hex_digits 16 n.

(** [setw(width)] under [setfill('0')] *)
Definition zero_filled (width : nat) (s : string) : string := replicate (width - length s) Byte.x30 ++ s.

(** [boolalpha] *)
Definition alpha (b : bool) : string := if b then chars "true" else chars "false".

(** The line feed. *)
Definition newline : byte := Byte.x0a.
Definition space : byte := Byte.x20.

(** ** A string stream

    Characters overwrite the contents from the put position, which is the start
    for a stream made from a string. *)
Module StringStream.

Record t := mk { contents : string; position : nat }.

Definition new (s : string) : t := mk s 0.
Definition put (ss : t) (c : byte) : t :=
  mk (take (position ss) (contents ss) ++ [c] ++ drop (S (position ss)) (contents ss)) (S (position ss)).

End StringStream.

(** ** [hexdump] *)

Definition isprint (c : byte) : bool := (32 <=? byte_to_Z c) && (byte_to_Z c <=? 126).

Definition printable (c : byte) : byte := if isprint c then c else Byte.x2e.

Section Hexdump.
Context (indent : nat).

Fixpoint hexdump_loop (data : string) (printed : Z) (pchars : StringStream.t) (out : string)
    : string * Z * StringStream.t :=
  match data with
  | [] => (out, printed, pchars)
  | c :: data =>
      let '(out, pchars) :=
        if Z.land printed 0xf =? 0 then
          let '(out, pchars) :=
            if negb (printed =? 0)
            then (out ++ chars "    " ++ StringStream.contents pchars ++ [newline], StringStream.new [space])
            else (out, pchars) in
          (out ++ replicate indent space ++ zero_filled 8 (to_hex printed) ++ chars ":    ", pchars)
        else if Z.land printed 1 =? 0 then (out ++ [space], pchars)
        else (out, pchars) in
      let out := out ++ zero_filled 2 (to_hex (byte_to_Z c)) in
      let pchars := StringStream.put pchars (printable c) in
      hexdump_loop data (printed + 1) pchars out
  end.

Definition hexdump (data : string) : string :=
  let '(out, printed, pchars) := hexdump_loop data 0 (StringStream.new [space]) [] in
  let print_rem := (16 - Z.land printed 0xf) mod 16 in
  out ++ replicate (Z.to_nat (2 * print_rem + print_rem / 2 + 4)) space
      ++ StringStream.contents pchars ++ [newline; newline].

End Hexdump.

(** ** Headers *)

Definition tcp_header_to_string (h : TCPHeader.t) : string :=
  chars "TCP source port: " ++ to_hex (TCPHeader.sport h) ++ [newline]
  ++ chars "TCP dest port: " ++ to_hex (TCPHeader.dport h) ++ [newline]
  ++ chars "TCP seqno: " ++ to_hex (raw_value (TCPHeader.seqno h)) ++ [newline]
  ++ chars "TCP ackno: " ++ to_hex (raw_value (TCPHeader.ackno h)) ++ [newline]
  ++ chars "TCP doff: " ++ to_hex (TCPHeader.doff h) ++ [newline]
  ++ chars "Flags: urg: " ++ alpha (TCPHeader.urg h) ++ chars " ack: " ++ alpha (TCPHeader.ack h)
  ++ chars " psh: " ++ alpha (TCPHeader.psh h) ++ chars " rst: " ++ alpha (TCPHeader.rst h)
  ++ chars " syn: " ++ alpha (TCPHeader.syn h) ++ chars " fin: " ++ alpha (TCPHeader.fin h) ++ [newline]
  ++ chars "TCP winsize: " ++ to_hex (TCPHeader.win h) ++ [newline]
  ++ chars "TCP cksum: " ++ to_hex (TCPHeader.cksum h) ++ [newline]
  ++ chars "TCP uptr: " ++ to_hex (TCPHeader.uptr h) ++ [newline].

(** [(b ? letter : "")] *)
Definition letter (b : bool) (s : string) : string := if b then s else [].

Definition tcp_header_summary (h : TCPHeader.t) : string :=
  chars "Header(flags=" ++ letter (TCPHeader.syn h) (chars "S") ++ letter (TCPHeader.ack h) (chars "A")
  ++ letter (TCPHeader.rst h) (chars "R") ++ letter (TCPHeader.fin h) (chars "F")
  ++ chars ",seqno=" ++ std_to_string (raw_value (TCPHeader.seqno h))
  ++ chars ",ack=" ++ std_to_string (raw_value (TCPHeader.ackno h))
  ++ chars ",win=" ++ std_to_string (TCPHeader.win h) ++ chars ")".

Definition ipv4_header_to_string (h : IPv4Header.t) : string :=
  chars "IP version: " ++ to_hex (IPv4Header.ver h) ++ [newline]
  ++ chars "IP hdr len: " ++ to_hex (IPv4Header.hlen h) ++ [newline]
  ++ chars "IP tos: " ++ to_hex (IPv4Header.tos h) ++ [newline]
  ++ chars "IP dgram len: " ++ to_hex (IPv4Header.len h) ++ [newline]
  ++ chars "IP id: " ++ to_hex (IPv4Header.id h) ++ [newline]
  ++ chars "Flags: df: " ++ alpha (IPv4Header.df h) ++ chars " mf: " ++ alpha (IPv4Header.mf h) ++ [newline]
  ++ chars "Offset: " ++ to_hex (IPv4Header.offset h) ++ [newline]
  ++ chars "TTL: " ++ to_hex (IPv4Header.ttl h) ++ [newline]
  ++ chars "Protocol: " ++ to_hex (IPv4Header.proto h) ++ [newline]
  ++ chars "Checksum: " ++ to_hex (IPv4Header.cksum h) ++ [newline]
  ++ chars "Src addr: " ++ to_hex (IPv4Header.src h) ++ [newline]
  ++ chars "Dst addr: " ++ to_hex (IPv4Header.dst h) ++ [newline].

Definition ipv4_header_summary `{NetDb} (h : IPv4Header.t) : string :=
  chars "IPv" ++ to_hex (IPv4Header.ver h) ++ chars ", " ++ chars "len=" ++ to_hex (IPv4Header.len h) ++ chars ", "
  ++ chars "protocol=" ++ to_hex (IPv4Header.proto h) ++ chars ", "
  ++ (if 10 <=? IPv4Header.ttl h then [] else chars "ttl=" ++ std_to_string (IPv4Header.ttl h) ++ chars ", ")
  ++ chars "src=" ++ inet_ntoa (IPv4Header.src h) ++ chars ", "
  ++ chars "dst=" ++ inet_ntoa (IPv4Header.dst h).

Definition ethernet_header_to_string (h : EthernetHeader.t) : string :=
  chars "dst=" ++ to_string (EthernetHeader.dst h)
  ++ chars ", src=" ++ to_string (EthernetHeader.src h)
  ++ chars ", type="
  ++ (if EthernetHeader.type h =? EthernetHeader.TYPE_IPv4 then chars "IPv4"
      else if EthernetHeader.type h =? EthernetHeader.TYPE_ARP then chars "ARP"
      else chars "[unknown type " ++ to_hex (EthernetHeader.type h) ++ chars "!]").

Definition arp_message_to_string `{NetDb} (m : ARPMessage.t) : string :=
  let opcode_str := chars "(unknown type)" in
  let opcode_str := if ARPMessage.opcode m =? ARPMessage.OPCODE_REQUEST then chars "REQUEST" else opcode_str in
  let opcode_str := if ARPMessage.opcode m =? ARPMessage.OPCODE_REPLY then chars "REPLY" else opcode_str in
  chars "opcode=" ++ opcode_str ++ chars ", sender=" ++ to_string (ARPMessage.sender_ethernet_address m) ++ chars "/"
  ++ inet_ntoa (ARPMessage.sender_ip_address m) ++ chars ", target="
  ++ to_string (ARPMessage.target_ethernet_address m) ++ chars "/" ++ inet_ntoa (ARPMessage.target_ip_address m).

(** ** The frames of the simulator (apps/network_simulator.cc)

    The payload is taken as one buffer. *)

Definition quote : byte := Byte.x22.

Definition frame_summary `{NetDb} (frame : EthernetFrame.t) : outcome string :=
  let ret := ethernet_header_to_string (EthernetFrame.header frame) in
  let type := EthernetHeader.type (EthernetFrame.header frame) in
  if type =? EthernetHeader.TYPE_IPv4 then
    payload ← BufferList.to_Buffer (EthernetFrame.payload frame);
    '(r, dgram) ← IPv4Datagram.parse IPv4Datagram.default payload;
    Ret (if bool_decide (r = NoError)
         then ret ++ [space] ++ ipv4_header_summary (IPv4Datagram.header dgram)
              ++ chars " payload=" ++ [quote] ++ BufferList.concatenate (IPv4Datagram.payload dgram) ++ [quote]
         else ret ++ chars " (bad IPv4)")
  else if type =? EthernetHeader.TYPE_ARP then
    payload ← BufferList.to_Buffer (EthernetFrame.payload frame);
    '(r, arp) ← ARPMessage.parse ARPMessage.default payload;
    Ret (if bool_decide (r = NoError) then ret ++ [space] ++ arp_message_to_string arp else ret ++ chars " (bad ARP)")
  else Ret ret.

(** It throws nothing for a frame whose payload is one string, as those of the
    interfaces are. *)
Lemma frame_summary_total `{NetDb} h s :
  zlen s < 2 ^ 64 -> exists text, frame_summary (EthernetFrame.mk h (BufferList.of_string s)) = Ret text.
Proof.
  intros Hs. unfold frame_summary, BufferList.of_string, EthernetFrame.header, EthernetFrame.payload.
  cbn [EthernetFrame._header EthernetFrame._payload BufferList.to_Buffer mbind outcome_bind].
  destruct (_ =? EthernetHeader.TYPE_IPv4); [|destruct (_ =? EthernetHeader.TYPE_ARP); [|by eexists]].
  - unfold IPv4Datagram.parse.
    destruct (parse_packet_total (IPv4Datagram._header IPv4Datagram.default) s Hs) as (r & hd & b & -> & _).
    cbn [mbind outcome_bind]. destruct (negb _); by eexists.
  - destruct (ARPMessage.parse_spec ARPMessage.default s Hs) as (m & -> & _). by eexists.
Qed.

(** ** Summaries of a connection *)

Definition receiver_summary_text (s : TCPState.receiver_summary) : string :=
  match s with
  | TCPState.R_ERROR => chars "error (connection was reset)"
  | TCPState.R_LISTEN => chars "waiting for SYN: ackno is empty"
  | TCPState.R_SYN_RECV => chars "SYN received (ackno exists), and input to stream hasn't ended"
  | TCPState.R_FIN_RECV => chars "input to stream has ended"
  end.

Definition sender_summary_text (s : TCPState.sender_summary) : string :=
  match s with
  | TCPState.S_ERROR => chars "error (connection was reset)"
  | TCPState.S_CLOSED => chars "waiting for stream to begin (no SYN sent)"
  | TCPState.S_SYN_SENT => chars "stream started but nothing acknowledged"
  | TCPState.S_SYN_ACKED => chars "stream ongoing"
  | TCPState.S_FIN_SENT => chars "stream finished (FIN sent) but not fully acknowledged"
  | TCPState.S_FIN_ACKED => chars "stream finished and fully acknowledged"
  end.

Definition state_name (s : TCPState.t) : string :=
  chars "sender=`" ++ sender_summary_text (TCPState._sender s) ++ chars "`, receiver=`"
  ++ receiver_summary_text (TCPState._receiver s) ++ chars "`, active="
  ++ std_to_string (Z.b2z (TCPState._active s)) ++ chars ", linger_after_streams_finish="
  ++ std_to_string (Z.b2z (TCPState._linger_after_streams_finish s)).

(** ** The numbers are readable *)

Definition is_hex_digit (c : byte) : bool :=
  is_digit c || ((97 <=? byte_to_Z c) && (byte_to_Z c <=? 102)).
Definition hex_digit_value (c : byte) : Z := if is_digit c then byte_to_Z c - 48 else byte_to_Z c - 87.
Definition hex_value (s : string) : Z := fold_left (fun acc c => acc * 16 + hex_digit_value c) s 0.

Lemma hex_digit_spec n : 0 <= n < 16 -> is_hex_digit (hex_digit n) = true /\ hex_digit_value (hex_digit n) = n.
Proof.
  intros Hn. assert (n ∈ seqZ 0 16) as Hin by (apply elem_of_seqZ; lia). clear Hn. revert n Hin.
  apply Forall_forall. repeat constructor.
Qed.

Lemma hex_digits_spec fuel n :
  0 <= n < 16 ^ Z.of_nat fuel ->
  Forall (fun c => is_hex_digit c = true) (hex_digits fuel n) /\ hex_value (hex_digits fuel n) = n.
Proof.
  revert n. induction fuel as [|fuel IH]; intros n Hn; cbn [hex_digits].
  { change (16 ^ Z.of_nat 0) with 1 in Hn. assert (n = 0) as -> by lia. by split. }
  case_if; zbool.
  - destruct (hex_digit_spec n) as [H1 H2]; [lia|]. cbn. rewrite H2. split; [by repeat constructor|lia].
  - destruct (IH (n / 16)) as (H1 & H2).
    { rewrite Nat2Z.inj_succ, Z.pow_succ_r in Hn by lia. Z.to_euclidean_division_equations. lia. }
    destruct (hex_digit_spec (n mod 16)) as [H3 H4]; [Z.to_euclidean_division_equations; lia|].
    unfold hex_value in *. rewrite fold_left_app, H2. cbn. rewrite H4.
    split; [apply Forall_app; split; [done|by constructor]|Z.to_euclidean_division_equations; lia].
Qed.

Lemma to_hex_spec n :
  is_u64 n -> Forall (fun c => is_hex_digit c = true) (to_hex n) /\ hex_value (to_hex n) = n.
Proof. intros Hn. apply hex_digits_spec. unfold is_u64 in Hn. change (16 ^ Z.of_nat 16) with (2 ^ 64). lia. Qed.

(** A run of digits ends where the text goes on with something else. *)
Lemma digits_end {A} (P : A -> Prop) (a b : list A) (c : A) (ra rb : list A) :
  Forall P a -> Forall P b -> ~ P c -> a ++ c :: ra = b ++ c :: rb -> a = b /\ ra = rb.
Proof.
  intros Ha. revert b. induction Ha as [|x a Hx Ha IH]; intros [|y b] Hb Hc E; simplify_eq/=.
  - done.
  - by inversion Hb.
  - done.
  - inversion_clear Hb. destruct (IH b) as [-> ->]; done.
Qed.

(** Distinct states have distinct names: comparing the summaries, as
    [operator==] does with their texts, is comparing the enumerations. *)
Lemma state_name_inj a b : state_name a = state_name b -> a = b.
Proof.
  destruct a as [sa ra aa la], b as [sb rb ab lb]. intros E. apply app_inv_head in E. simpl in E.
  destruct (digits_end (fun c => c <> Byte.x60) (sender_summary_text sa) (sender_summary_text sb) Byte.x60 _ _
    ltac:(destruct sa; repeat constructor; discriminate) ltac:(destruct sb; repeat constructor; discriminate)
    ltac:(tauto) E) as [Es E1]. clear E. apply (app_inv_head (chars ", receiver=`")) in E1.
  destruct (digits_end (fun c => c <> Byte.x60) (receiver_summary_text ra) (receiver_summary_text rb) Byte.x60 _ _
    ltac:(destruct ra; repeat constructor; discriminate) ltac:(destruct rb; repeat constructor; discriminate)
    ltac:(tauto) E1) as [Er E2].
  f_equal; [by destruct sa, sb|by destruct ra, rb|destruct aa, la, ab, lb; (done || discriminate E2)..].
Qed.

(** A hexadecimal number and the line feed after it can be read back. *)
Lemma hex_line a b ra rb :
  is_u64 a -> is_u64 b -> to_hex a ++ newline :: ra = to_hex b ++ newline :: rb -> a = b /\ ra = rb.
Proof.
  intros Ha Hb E. destruct (to_hex_spec a Ha) as [Fa Va]. destruct (to_hex_spec b Hb) as [Fb Vb].
  assert (~ is_hex_digit newline = true) as Hn by done.
  destruct (digits_end (fun c => is_hex_digit c = true) _ _ newline ra rb Fa Fb Hn E) as [Eh ->].
  by rewrite <- Va, Eh, Vb.
Qed.

Lemma alpha_inj a b ra rb : alpha a ++ ra = alpha b ++ rb -> a = b /\ ra = rb.
Proof. destruct a, b; intros E; try discriminate E; by injection E as ->. Qed.

(** Reads both texts of an equation [E] from the front: labels, numbers and flags. *)
Ltac read_lines E :=
  repeat first
    [ apply app_inv_head in E
    | let V := fresh "V" in
      match type of E with
      | to_hex ?a ++ _ = to_hex ?b ++ _ => apply (hex_line a b) in E as [V E]; [|unfold is_u8, is_u16, is_u32, is_u64 in *; lia..]
      | alpha ?a ++ _ = alpha ?b ++ _ => apply (alpha_inj a b) in E as [V E]
      end ].

(** The printed header determines every field. *)
Theorem tcp_header_text_inj (h h' : TCPHeader.t) :
  TCPHeader.valid h -> TCPHeader.valid h' -> tcp_header_to_string h = tcp_header_to_string h' -> h = h'.
Proof.
  intros [] [] E. unfold tcp_header_to_string in E. read_lines E. clear E. destruct h, h'. simpl in *.
  subst. f_equal; by apply wi_ext.
Qed.

(** So does that of an IPv4 header. *)
Theorem ipv4_header_text_inj (h h' : IPv4Header.t) :
  IPv4Header.valid h -> IPv4Header.valid h' -> ipv4_header_to_string h = ipv4_header_to_string h' -> h = h'.
Proof.
  intros [] [] E. unfold ipv4_header_to_string in E. read_lines E. clear E. destruct h, h'. simpl in *. by subst.
Qed.

(** ** The dump, row by row

    A row shows sixteen bytes: its offset, the bytes in groups of two, and their
    printable characters after padding up to the width of a full row. *)
Module Rows.

(** The bytes of a row from column [i] on. *)
Fixpoint columns (i : nat) (data : string) : string :=
  match data with
  | [] => []
  | c :: data =>
      (if (0 <? i)%nat && Nat.even i then [space] else []) ++ zero_filled 2 (to_hex (byte_to_Z c)) ++ columns (S i) data
  end.

Definition head (indent : nat) (offset : Z) : string :=
  replicate indent space ++ zero_filled 8 (to_hex offset) ++ chars ":    ".

Fixpoint rows (fuel : nat) (indent : nat) (offset : Z) (data : string) : string :=
  match fuel with
  | O => []
  | S fuel =>
      if zlen data <=? 16 then
        head indent offset ++ columns 0 data
        ++ replicate (Z.to_nat (2 * (16 - zlen data) + (16 - zlen data) / 2 + 4)) space
        ++ (printable <$> data) ++ [newline; newline]
      else
        head indent offset ++ columns 0 (slice data 0 16) ++ chars "    " ++ (printable <$> slice data 0 16) ++ [newline]
        ++ rows fuel indent (offset + 16) (drop 16 data)
  end.

Lemma low_bits k i : 0 <= i < 16 -> Z.land (16 * k + i) 0xf = i /\ Z.land (16 * k + i) 1 = i mod 2.
Proof.
  intros Hi. change 0xf with (Z.ones 4). change 1 with (Z.ones 1). rewrite !Z.land_ones by lia.
  change (2 ^ 4) with 16. change (2 ^ 1) with 2. Z.to_euclidean_division_equations. lia.
Qed.

Lemma even_mod i : (Z.of_nat i mod 2 =? 0) = Nat.even i.
Proof.
  apply Bool.eq_iff_eq_true. rewrite Z.eqb_eq, Nat.even_spec. split.
  - intros E. exists (Z.to_nat (Z.of_nat i / 2)). Z.to_euclidean_division_equations. lia.
  - intros [j ->]. Z.to_euclidean_division_equations. lia.
Qed.

(** The characters written so far are the contents of the stream. *)
Lemma put_end s c :
  StringStream.put (StringStream.mk s (length s)) c = StringStream.mk (s ++ [c]) (length (s ++ [c])).
Proof.
  unfold StringStream.put. cbn [StringStream.position StringStream.contents].
  rewrite take_ge, drop_ge, length_app by lia. cbn. f_equal. lia.
Qed.

(** Inside a row, the loop appends columns and collects characters. *)
Lemma loop_columns indent k (row data rest out : string) :
  0 <= k -> row <> [] -> (length row + length data <= 16)%nat ->
  hexdump_loop indent (data ++ rest) (16 * k + zlen row) (StringStream.mk row (length row)) out
  = hexdump_loop indent rest (16 * k + zlen (row ++ data))
      (StringStream.mk (row ++ (printable <$> data)) (length (row ++ data))) (out ++ columns (length row) data).
Proof.
  intros Hk. revert row out. induction data as [|c data IH]; intros row out Hr Hl.
  { simpl. by rewrite !app_nil_r. }
  simpl in Hl. destruct (low_bits k (zlen row)) as [E1 E2]; [unfold zlen; lia|].
  assert (0 < zlen row) by (destruct row; [done|]; unfold zlen; simpl; lia).
  cbn [app hexdump_loop]. rewrite E1, E2, (proj2 (Z.eqb_neq (zlen row) 0)) by lia.
  unfold zlen at 1. rewrite even_mod. cbn [columns].
  rewrite (proj2 (Nat.ltb_lt 0 (length row))) by (unfold zlen in *; lia). cbn [andb].
  replace (16 * k + zlen row + 1) with (16 * k + zlen (row ++ [printable c])) by (rewrite zlen_app; unfold zlen; simpl; lia).
  destruct (Nat.even (length row)); cbv beta iota zeta; (rewrite put_end, IH;
    [|by destruct row|rewrite length_app; simpl; lia]);
    rewrite !zlen_app, !length_app, <- !app_assoc; cbn [app length fmap list_fmap];
    rewrite ?Nat.add_1_r; f_equal; first [unfold zlen; simpl; lia|f_equal; lia].
Qed.

(** The first byte of a row starts it with the offset. *)
Lemma loop_row indent k (row data rest out : string) c :
  0 <= k -> (length data < 16)%nat -> (k = 0 -> row = [space]) ->
  hexdump_loop indent (c :: data ++ rest) (16 * k) (StringStream.mk row (if k =? 0 then 0 else length row)) out
  = hexdump_loop indent rest (16 * k + zlen (c :: data))
      (StringStream.mk (printable <$> c :: data) (length (c :: data)))
      (out ++ (if k =? 0 then [] else chars "    " ++ row ++ [newline]) ++ head indent (16 * k) ++ columns 0 (c :: data)).
Proof.
  intros Hk Hl H0. destruct (low_bits k 0) as [E1 E2]; [lia|]. rewrite Z.add_0_r in E1, E2.
  cbn [hexdump_loop]. rewrite E1. cbn [Z.eqb]. assert ((16 * k =? 0) = (k =? 0)) as -> by lia.
  pose proof (loop_columns indent k [printable c] data rest) as Hc.
  replace (16 * k + 1) with (16 * k + zlen [printable c]) by (unfold zlen; simpl; lia).
  destruct (Z.eqb_spec k 0) as [->|Hn]; cbn [negb]; cbv beta iota zeta.
  - rewrite H0 by done. change (StringStream.put _ _) with (StringStream.mk [printable c] (length [printable c])).
    rewrite Hc by (first [done|simpl; lia]). unfold head. cbn [columns app andb Nat.ltb Nat.leb]. by rewrite <- !app_assoc.
  - change (StringStream.put _ _) with (StringStream.mk [printable c] (length [printable c])).
    rewrite Hc by (first [done|simpl; lia]). unfold head. cbn [columns app andb Nat.ltb Nat.leb StringStream.contents].
    by rewrite <- !app_assoc.
Qed.

(** What [hexdump] prints after its loop. *)
Definition finish (r : string * Z * StringStream.t) : string :=
  let '(out, printed, pchars) := r in
  let print_rem := (16 - Z.land printed 0xf) mod 16 in
  out ++ replicate (Z.to_nat (2 * print_rem + print_rem / 2 + 4)) space
      ++ StringStream.contents pchars ++ [newline; newline].

Lemma land_15 k n : 0 <= k -> 0 <= n <= 16 -> (16 - Z.land (16 * k + n) 0xf) mod 16 = (16 - n) mod 16.
Proof.
  intros. change 0xf with (Z.ones 4). rewrite Z.land_ones by lia. change (2 ^ 4) with 16.
  Z.to_euclidean_division_equations. lia.
Qed.

Lemma loop_rows fuel indent k (row data out : string) :
  0 <= k -> data <> [] -> zlen data <= 16 * Z.of_nat fuel -> (k = 0 -> row = [space]) ->
  finish (hexdump_loop indent data (16 * k) (StringStream.mk row (if k =? 0 then 0 else length row)) out)
  = out ++ (if k =? 0 then [] else chars "    " ++ row ++ [newline]) ++ rows fuel indent (16 * k) data.
Proof.
  revert k row data out. induction fuel as [|fuel IH]; intros k row data out Hk Hd Hl Hr.
  { destruct data; [done|]. unfold zlen in Hl. simpl in Hl. lia. }
  destruct data as [|c data]; [done|]. cbn [rows]. destruct (Z.leb_spec (zlen (c :: data)) 16) as [Hs|Hs].
  - rewrite <- (app_nil_r data) at 1. rewrite loop_row by (done || unfold zlen in Hs; simpl in Hs; lia).
    cbn [hexdump_loop finish StringStream.contents]. rewrite land_15, Z.mod_small by (unfold zlen in *; simpl in *; lia).
    by rewrite <- !app_assoc.
  - assert (slice (c :: data) 0 16 = c :: take 15 data) as -> by done.
    rewrite <- (take_drop 15 data) at 1.
    assert (15 < length data)%nat by (unfold zlen in Hs; simpl in Hs; lia).
    rewrite loop_row by (done || rewrite length_take; lia).
    set (first := c :: take 15 data). assert (length first = 16%nat) as E by (unfold first; simpl; rewrite length_take; lia).
    replace (16 * k + zlen first) with (16 * (k + 1)) by (unfold zlen; lia).
    specialize (IH (k + 1) (printable <$> first) (drop 15 data)).
    rewrite length_fmap, (proj2 (Z.eqb_neq (k + 1) 0)) in IH by lia.
    rewrite IH; [|lia|..|lia].
    + change (drop 16 (c :: data)) with (drop 15 data). replace (16 * (k + 1)) with (16 * k + 16) by lia.
      by rewrite <- !app_assoc.
    + intros Ed%(f_equal length). rewrite length_drop in Ed. simpl in Ed. lia.
    + unfold zlen in *. rewrite length_drop. simpl in Hl. lia.
Qed.

End Rows.

(** [hexdump] shows its bytes row after row, sixteen to a row. *)
Theorem hexdump_rows (indent : nat) (data : string) :
  data <> [] -> hexdump indent data = Rows.rows (length data) indent 0 data.
Proof.
  intros Hd. exact (Rows.loop_rows (length data) indent 0 [space] data [] ltac:(lia) Hd ltac:(unfold zlen; lia)
    ltac:(done)).
Qed.

Lemma hexdump_rows_witness :
  hexdump 2 (chars "Hello, world! 12345") = Rows.rows 19 2 0 (chars "Hello, world! 12345").
Proof. apply (hexdump_rows 2 (chars "Hello, world! 12345")). discriminate. Defined.

Lemma hexdump_example :
  hexdump 2 (chars "Hello, world! 12345")
  = chars "  00000000:    4865 6c6c 6f2c 2077 6f72 6c64 2120 3132    Hello, world! 12" ++ [newline]
    ++ chars "  00000010:    3334 35                                    345" ++ [newline; newline].
Proof. vm_compute. reflexivity. Qed.

