(* ===== verification/UdpTcpdump.v ===== *)
(** * The packet dump (apps/udp_tcpdump.cc)

    The program captures packets, finds the UDP payload in each and prints it as a
    TCP segment.  A captured packet is the string of its [caplen] bytes; reading
    any other byte is undefined behaviour.  The capture library and [inet_ntop] are
    parameters: the first is the sequence of results of [pcap_next_ex], the second
    a function from an address family and the bytes of an address.

    Shown: for packets whose headers are whole, what is printed is the payload behind
    the UDP header that the packet's own fields lead to, and no byte outside the
    packet is read; and a TCP segment sent in UDP over IPv4 is recognised and
    printed with its own fields.  Two packets show where the code
    reads outside the packet. *)

From S2P Require Import Prelude WrappingIntegers UtilBuffer Parser Checksum Codec TCPSegment IPv4Datagram EthernetFrame Address Text.

(** ** Command line *)

(** [strncmp(s, t, n) == 0] on strings without a null byte: the first [n]
    characters, the final null included, agree. *)
Definition strncmp_eq (s t : string) (n : nat) : bool :=
  bool_decide (take n (s ++ [Byte.x00]) = take n (t ++ [Byte.x00])).

(** A program that has read its arguments goes on, or has called [exit]. *)
Inductive parsed (A : Type) := Go (a : A) | Exit (code : Z).
Arguments Go {_} _.
Arguments Exit {_} _.

Definition EXIT_SUCCESS : Z := 0.
Definition EXIT_FAILURE : Z := 1.

Module UdpTcpdump.

(** The arguments from [argv[curr]] on; the device and the arguments left. *)
Fixpoint parse_arguments (argv : list string) (dev : option string) : parsed (option string * list string) :=
  match argv with
  | [] => Go (dev, [])
  | arg :: rest =>
      if strncmp_eq (chars "-i") arg 3 then
        match rest with
        | [] => Exit 1
        | name :: rest => parse_arguments rest (Some name)
        end
      else if strncmp_eq (chars "-h") arg 3 || strncmp_eq (chars "--help") arg 7 then Exit 0
      else Go (dev, argv)
  end.

(** The expression given to the capture library. *)
Definition filter_expression (args : list string) : string := concat ((fun a => a ++ [space]) <$> args).

(** ** Finding the payload *)

(** [data[i]] and [n] bytes from [data + i]. *)
Definition byte_at (data : string) (i : Z) : outcome Z :=
  match data !! Z.to_nat i with
  | Some c => if 0 <=? i then Ret (byte_to_Z c) else Throw undefined_behaviour
  | None => Throw undefined_behaviour
  end.
Definition bytes_at (data : string) (i n : Z) : outcome string :=
  if (0 <=? i) && (i + n <=? zlen data) then Ret (slice data i n) else Throw undefined_behaviour.

Definition AF_INET6 : Z := 10.

Section Dump.
Context (inet_ntop : Z -> string -> option string).

Definition inet4_addr (addr : string) : string := from_option id (chars "unknown") (inet_ntop AF_INET addr).
Definition inet6_addr (addr : string) : string := from_option id (chars "unknown") (inet_ntop AF_INET6 addr).

(** [while (nxt != 0x11)]: the offset after the extension headers, if they lead to UDP. *)
Fixpoint skip_extensions (fuel : nat) (len : Z) (data : string) (nxt data_offset : Z) : outcome (option Z) :=
  if nxt =? 0x11 then Ret (Some data_offset) else
  if negb (nxt =? 0) && negb (nxt =? 43) && negb (nxt =? 60) then Ret None else
  match fuel with
  | O => Throw out_of_fuel
  | S fuel =>
      nxt ← byte_at data data_offset;
      length ← byte_at data (data_offset + 1);
      let data_offset := data_offset + 8 * (1 + length) in
      if len <? data_offset + 2 then Ret None else
      skip_extensions fuel len data nxt data_offset
  end.

(** The offset of the UDP payload (or -1) and the two addresses. *)
Definition process_ipv4_ipv6 (len : Z) (data : string) (src_addr dst_addr : string) : outcome (Z * string * string) :=
  if len <? 1 then Ret (-1, src_addr, dst_addr) else
  first ← byte_at data 0;
  let pt := Z.land first 0xf0 in
  if pt =? 0x40 then
    let data_offset := Z.land first 0x0f * 4 in
    if len <? data_offset then Ret (-1, src_addr, dst_addr) else
    proto ← byte_at data 9;
    if negb (proto =? 0x11) then Ret (-1, src_addr, dst_addr) else
    src ← bytes_at data 12 4;
    dst ← bytes_at data 16 4;
    Ret (data_offset + 8, inet4_addr src, inet4_addr dst)
  else if pt =? 0x60 then
    if len <? 42 then Ret (-1, src_addr, dst_addr) else
    nxt ← byte_at data 6;
    found ← skip_extensions (length data) len data nxt 40;
    match found with
    | None => Ret (-1, src_addr, dst_addr)
    | Some data_offset =>
        src ← bytes_at data 8 16;
        dst ← bytes_at data 24 16;
        Ret (data_offset + 8, inet6_addr src, inet6_addr dst)
    end
  else Ret (-1, src_addr, dst_addr).

(** The link types that the program handles. *)
Inductive datalink := DLT_NULL | DLT_EN10MB | DLT_LINUX_SLL | DLT_LINUX_SLL2 | DLT_RAW.

(** [(data[i] << 8) | data[i + 1]] *)
Definition word_at (data : string) (i : Z) : outcome Z :=
  hi ← byte_at data i;
  lo ← byte_at data (i + 1);
  Ret (Z.lor (Z.shiftl hi 8) lo).

Definition not_ip (pt : Z) : bool := negb (pt =? 0x0800) && negb (pt =? 0x86dd).

(** Where the datagram starts behind the link header; none when the packet is skipped. *)
Definition link_header (dl_type : datalink) (pkt_data : string) : outcome (option Z) :=
  match dl_type with
  | DLT_NULL =>
      if zlen pkt_data <? 4 then Ret None else
      pt ← byte_at pkt_data 3;
      if negb (pt =? 2) && negb (pt =? 24) && negb (pt =? 28) && negb (pt =? 30) then Ret None else Ret (Some 4)
  | DLT_EN10MB =>
      if zlen pkt_data <? 14 then Ret None else
      pt ← word_at pkt_data 12;
      if not_ip pt then Ret None else Ret (Some 14)
  | DLT_LINUX_SLL =>
      if zlen pkt_data <? 16 then Ret None else
      pt ← word_at pkt_data 14;
      if not_ip pt then Ret None else Ret (Some 16)
  | DLT_LINUX_SLL2 =>
      if zlen pkt_data <? 20 then Ret None else
      pt ← word_at pkt_data 0;
      if not_ip pt then Ret None else Ret (Some 20)
  | DLT_RAW => Ret (Some 0)
  end.

(** ** Printing the segment *)

(** What is printed for a payload that is parsed as a segment. *)
Definition describe (res : ParseResult) (seg : TCPSegment.t) (src dst : string) (payload_len : Z) : string :=
  if (parse_result_index BadChecksum <? parse_result_index res)%nat then
    chars "(did not recognize TCP header) src: " ++ src ++ chars " dst: " ++ dst ++ [newline]
  else
    let tcp_hdr := TCPSegment.header seg in
    let seqlen := uint32 (TCPSegment.length_in_sequence_space seg) in
    src ++ chars ":" ++ std_to_string (TCPHeader.sport tcp_hdr) ++ chars " > " ++ dst ++ chars ":"
    ++ std_to_string (TCPHeader.dport tcp_hdr) ++ [newline] ++ chars "    Flags ["
    ++ letter (TCPHeader.urg tcp_hdr) (chars "U") ++ letter (TCPHeader.psh tcp_hdr) (chars "P")
    ++ letter (TCPHeader.rst tcp_hdr) (chars "R") ++ letter (TCPHeader.syn tcp_hdr) (chars "S")
    ++ letter (TCPHeader.fin tcp_hdr) (chars "F") ++ letter (TCPHeader.ack tcp_hdr) (chars ".")
    ++ chars "] cksum 0x" ++ zero_filled 4 (to_hex (TCPHeader.cksum tcp_hdr))
    ++ (if bool_decide (res = NoError) then chars " (correct)" else chars " (incorrect!)")
    ++ chars " seq " ++ std_to_string (raw_value (TCPHeader.seqno tcp_hdr))
    ++ (if 0 <? seqlen then chars ":" ++ std_to_string (raw_value (wi_add (TCPHeader.seqno tcp_hdr) seqlen)) else [])
    ++ chars " ack " ++ std_to_string (raw_value (TCPHeader.ackno tcp_hdr))
    ++ chars " win " ++ std_to_string (TCPHeader.win tcp_hdr)
    ++ chars " length " ++ std_to_string payload_len ++ [newline].

(** One captured packet: what is printed for it. *)
Definition handle_packet (dl_type : datalink) (pkt_data : string) : outcome string :=
  hdr ← link_header dl_type pkt_data;
  match hdr with
  | None => Ret []
  | Some hdr_off =>
      '(start_off, src, dst) ←
        process_ipv4_ipv6 (zlen pkt_data - hdr_off) (drop (Z.to_nat hdr_off) pkt_data) [] [];
      if start_off <? 0 then Ret [] else
      let payload_off := hdr_off + start_off in
      let payload_len := uint64 (zlen pkt_data - payload_off) in
      payload ← bytes_at pkt_data payload_off payload_len;
      '(res, seg) ← TCPSegment.parse TCPSegment.default (Buffer.of_string payload) 0;
      Ret (describe res seg src dst payload_len ++ hexdump 8 payload)
  end.

(** The results of [pcap_next_ex]: a packet, a time-out, or the code that ends the loop. *)
Inductive capture := Packet (pkt_data : string) | Timeout | Stop (next_ret : Z).

(** The capture loop: what is printed and the exit code; the captures that are
    left when it stops are not looked at. *)
Fixpoint capture_loop (dl_type : datalink) (captures : list capture) : outcome (string * option Z) :=
  match captures with
  | [] => Ret ([], None)
  | Timeout :: captures => capture_loop dl_type captures
  | Stop next_ret :: _ => Ret ([], Some (if next_ret =? -1 then EXIT_FAILURE else EXIT_SUCCESS))
  | Packet pkt_data :: captures =>
      line ← handle_packet dl_type pkt_data;
      '(out, code) ← capture_loop dl_type captures;
      Ret (line ++ out, code)
  end.

End Dump.

(** ** What a packet holds

    The packet's own fields, independently of how the program looks for them. *)

(** The byte at [i], zero outside. *)
Definition field (data : string) (i : Z) : Z := from_option byte_to_Z 0 (data !! Z.to_nat i).

(** The length of the link header, and whether it announces IP. *)
Definition link_length (dl : datalink) : Z :=
  match dl with DLT_NULL => 4 | DLT_EN10MB => 14 | DLT_LINUX_SLL => 16 | DLT_LINUX_SLL2 => 20 | DLT_RAW => 0 end.
Definition ip_type (pkt : string) (i : Z) : Prop :=
  256 * field pkt i + field pkt (i + 1) = 0x0800 \/ 256 * field pkt i + field pkt (i + 1) = 0x86dd.
Definition announces_ip (dl : datalink) (pkt : string) : Prop :=
  link_length dl <= zlen pkt /\
  match dl with
  | DLT_NULL => field pkt 3 = 2 \/ field pkt 3 = 24 \/ field pkt 3 = 28 \/ field pkt 3 = 30
  | DLT_EN10MB => ip_type pkt 12
  | DLT_LINUX_SLL => ip_type pkt 14
  | DLT_LINUX_SLL2 => ip_type pkt 0
  | DLT_RAW => True
  end.

(** From the header of type [nxt] at [off] the extension headers of IPv6 (hop-by-hop,
    routing, destination options) lead to a UDP header at [o]. *)
Inductive reaches_udp (data : string) : Z -> Z -> Z -> Prop :=
  | reaches_here off : reaches_udp data 17 off off
  | reaches_next nxt off o :
      nxt = 0 \/ nxt = 43 \/ nxt = 60 ->
      reaches_udp data (field data off) (off + 8 * (1 + field data (off + 1))) o ->
      reaches_udp data nxt off o.

(** A datagram has its UDP header at [o]: behind the IPv4 header, whose length is in
    its first byte, or behind the headers of IPv6. *)
Definition udp_header (data : string) (o : Z) : Prop :=
  (field data 0 / 16 = 4 /\ field data 9 = 17 /\ o = 4 * (field data 0 mod 16))
  \/ (field data 0 / 16 = 6 /\ reaches_udp data (field data 6) 40 o).

(** The datagram in a packet. *)
Definition datagram (dl : datalink) (pkt : string) : string := drop (Z.to_nat (link_length dl)) pkt.

(** The packets that are dumped without reading outside them: an IPv4 header is
    there as a whole, and so is a UDP header that starts in the packet. *)
Definition complete (dl : datalink) (pkt : string) : Prop :=
  announces_ip dl pkt ->
  let data := datagram dl pkt in
  (field data 0 / 16 = 4 -> 20 <= zlen data)
  /\ forall o, udp_header data o -> o <= zlen data -> o + 8 <= zlen data.

(** The captures that the loop looks at. *)
Fixpoint packets (captures : list capture) : list string :=
  match captures with
  | [] => []
  | Packet pkt :: captures => pkt :: packets captures
  | Timeout :: captures => packets captures
  | Stop _ :: _ => []
  end.

(** ** Reading inside the packet *)

Lemma field_range data i : is_u8 (field data i).
Proof. unfold field. destruct (data !! Z.to_nat i); simpl; [apply byte_to_Z_range|done]. Qed.

Lemma byte_at_in data i : 0 <= i < zlen data -> byte_at data i = Ret (field data i).
Proof.
  intros Hi. destruct (lookup_lt_is_Some_2 data (Z.to_nat i)) as [c Ec]; [unfold zlen in Hi; lia|].
  unfold byte_at, field. by rewrite Ec, (proj2 (Z.leb_le _ _)) by lia.
Qed.

Lemma bytes_at_in data i n : 0 <= i -> i + n <= zlen data -> bytes_at data i n = Ret (slice data i n).
Proof. intros. unfold bytes_at. by rewrite !(proj2 (Z.leb_le _ _)) by lia. Qed.

Lemma word_at_in data i :
  0 <= i -> i + 2 <= zlen data -> word_at data i = Ret (256 * field data i + field data (i + 1)).
Proof.
  intros. unfold word_at. rewrite !byte_at_in by lia. cbn [mbind outcome_bind]. f_equal.
  pose proof (field_range data (i + 1)) as Hl. unfold is_u8 in Hl. rewrite Z.shiftl_mul_pow2 by lia.
  rewrite (IPv4Header.lor_disjoint_add _ _ 8) by (lia || apply Z_mod_mult). lia.
Qed.

(** The two halves of a byte. *)
Lemma nibbles v : is_u8 v -> Z.land v 0xf0 = 16 * (v / 16) /\ Z.land v 0x0f = v mod 16.
Proof.
  intros Hv. assert (v ∈ seqZ 0 256) as Hin by (apply elem_of_seqZ; unfold is_u8 in Hv; lia).
  clear Hv. revert v Hin. apply Forall_forall. repeat constructor.
Qed.

(** The link header is read without error, and is skipped exactly when it announces IP. *)
Lemma link_header_spec dl pkt :
  (announces_ip dl pkt /\ link_header dl pkt = Ret (Some (link_length dl)))
  \/ (~ announces_ip dl pkt /\ link_header dl pkt = Ret None).
Proof.
  pose proof (zlen_nonneg pkt). unfold announces_ip, ip_type.
  destruct dl; cbn [link_header link_length]; unfold not_ip;
    try (case_if; [right; split; [intros []; lia|done]|]);
    rewrite ?word_at_in, ?byte_at_in by lia; cbn [mbind outcome_bind]; [case_if..|].
  1,3,5,7: right; split; [intros []; lia|done].
  all: left; split; [split; [done || lia|first [done|lia]]|done].
Qed.

(** A header that is reached lies behind the headers before it. *)
Lemma reaches_behind data nxt off o : reaches_udp data nxt off o -> off <= o.
Proof.
  induction 1 as [off|nxt off o _ _ IH]; [lia|]. pose proof (field_range data (off + 1)) as Hf. unfold is_u8 in Hf. lia.
Qed.

(** Every extension header takes at least eight bytes, and the two bytes that are
    read of it lie in the packet: the loop stops, at the UDP header if there is one. *)
Lemma skip_extensions_spec fuel data nxt off :
  0 <= off -> off + 2 <= zlen data -> zlen data - off < 8 * Z.of_nat fuel + 2 ->
  exists found, skip_extensions fuel (zlen data) data nxt off = Ret found
    /\ match found with
       | Some o => reaches_udp data nxt off o /\ off <= o /\ o + 2 <= zlen data
       | None => forall o, reaches_udp data nxt off o -> zlen data < o + 8
       end.
Proof.
  revert nxt off. induction fuel as [|fuel IH]; intros nxt off Ho Hl Hf; cbn [skip_extensions]; [lia|].
  case_if; [subst; exists (Some off); split; [done|]; split; [constructor|lia]|].
  case_if; [exists None; split; [done|]; by inversion 1; subst; lia|].
  rewrite !byte_at_in by lia. cbn [mbind outcome_bind].
  pose proof (field_range data (off + 1)) as Hn. unfold is_u8 in Hn.
  set (next := off + 8 * (1 + field data (off + 1))). assert (nxt = 0 \/ nxt = 43 \/ nxt = 60) as Hext by lia.
  case_if.
  - exists None. split; [done|]. intros o Hr. inversion Hr as [|? ? ? _ Hr']; subst; [lia|].
    apply reaches_behind in Hr'. subst next. lia.
  - destruct (IH (field data off) next) as (found & -> & Hfound); [subst next; lia..|].
    exists found. split; [done|]. destruct found as [o|].
    + destruct Hfound as (Hr & ? & ?). split; [by apply reaches_next|subst next; lia].
    + intros o Hr. apply Hfound. by inversion Hr; subst; [lia|].
Qed.

Section Bounds.
Context (inet_ntop : Z -> string -> option string).

(** The addresses of a datagram, as they are printed. *)
Definition addresses (data : string) : string * string :=
  if field data 0 / 16 =? 4
  then (inet4_addr inet_ntop (slice data 12 4), inet4_addr inet_ntop (slice data 16 4))
  else (inet6_addr inet_ntop (slice data 8 16), inet6_addr inet_ntop (slice data 24 16)).

(** What is printed for a packet: nothing when it announces no IP datagram or has no
    room for a UDP header where the headers before it lead; otherwise the bytes
    behind the UDP header, as a segment and as they are. *)
Inductive shown (dl : datalink) (pkt : string) : string -> Prop :=
  | shown_nothing :
      (announces_ip dl pkt -> forall o, udp_header (datagram dl pkt) o -> zlen (datagram dl pkt) < o + 8) ->
      shown dl pkt []
  | shown_payload o payload res seg :
      announces_ip dl pkt -> udp_header (datagram dl pkt) o -> o + 8 <= zlen (datagram dl pkt) ->
      payload = drop (Z.to_nat (o + 8)) (datagram dl pkt) ->
      TCPSegment.parse TCPSegment.default (Buffer.of_string payload) 0 = Ret (res, seg) ->
      shown dl pkt (describe res seg (addresses (datagram dl pkt)).1 (addresses (datagram dl pkt)).2 (zlen payload)
                    ++ hexdump 8 payload).

(** [process_ipv4_ipv6] finds the UDP header. *)
Lemma process_spec data :
  (field data 0 / 16 = 4 -> 20 <= zlen data) ->
  (exists o, process_ipv4_ipv6 inet_ntop (zlen data) data [] [] = Ret (o + 8, (addresses data).1, (addresses data).2)
     /\ udp_header data o /\ 0 <= o <= zlen data)
  \/ (process_ipv4_ipv6 inet_ntop (zlen data) data [] [] = Ret (-1, [], [])
      /\ forall o, udp_header data o -> zlen data < o + 8).
Proof.
  intros H4. unfold process_ipv4_ipv6, udp_header. pose proof (zlen_nonneg data) as Hz.
  case_if; [right; split; [done|]; destruct data; [|unfold zlen in *; simpl in *; lia]; intros o [[Hd _]|[Hd _]]; discriminate Hd|].
  rewrite (byte_at_in data 0) by lia. cbn [mbind outcome_bind].
  pose proof (field_range data 0) as H0. destruct (nibbles _ H0) as [-> ->]. unfold is_u8 in H0.
  pose proof (Z.mod_pos_bound (field data 0) 16 ltac:(lia)) as Hm.
  case_if; [|case_if].
  - assert (field data 0 / 16 = 4) as E by lia. specialize (H4 E).
    case_if; [right; split; [done|]; intros o [(_ & _ & ->)|[E' _]]; lia|].
    rewrite (byte_at_in data 9) by lia. cbn [mbind outcome_bind].
    case_if; [right; split; [done|]; intros o [(_ & ? & _)|[E' _]]; lia|].
    rewrite !bytes_at_in by lia. left. exists (field data 0 mod 16 * 4). unfold addresses. rewrite E. split; [done|]. split; [left|]; lia.
  - assert (field data 0 / 16 = 6) as E by lia.
    case_if; [right; split; [done|]; intros o [(? & _)|[_ Hr]]; [lia|]; apply reaches_behind in Hr; lia|].
    rewrite (byte_at_in data 6) by lia. cbn [mbind outcome_bind].
    destruct (skip_extensions_spec (length data) data (field data 6) 40) as ([o|] & -> & Ho); [unfold zlen in *; lia..| |];
      cbn [mbind outcome_bind].
    + rewrite !bytes_at_in by lia. left. exists o. destruct Ho as (? & ? & ?). unfold addresses. rewrite E. split; [done|]. split; [by right|lia].
    + right. split; [done|]. intros o [(? & _)|[_ Hr]]; [lia|by apply Ho].
  - right. split; [done|]. intros o [(? & _)|[? _]]; lia.
Qed.

Lemma default_parses s : zlen s < 2 ^ 64 ->
  exists res seg, TCPSegment.parse TCPSegment.default (Buffer.of_string s) 0 = Ret (res, seg).
Proof.
  intros Hs. unfold TCPSegment.parse. case_if; [by eexists _, _|].
  destruct (parse_packet_total (TCPSegment._header TCPSegment.default) s Hs) as (r & h & b & -> & _). by eexists _, _.
Qed.

Lemma handle_shown dl pkt :
  zlen pkt < 2 ^ 31 -> complete dl pkt -> exists out, handle_packet inet_ntop dl pkt = Ret out /\ shown dl pkt out.
Proof.
  intros Hl Hc. unfold handle_packet.
  destruct (link_header_spec dl pkt) as [[Ha ->]|[Ha ->]]; cbn [mbind outcome_bind];
    [|exists []; split; [done|]; by constructor].
  destruct (Hc Ha) as [H4 Hu]. assert (0 <= link_length dl <= zlen pkt) as Hd by (destruct Ha; destruct dl; simpl in *; lia).
  change (drop (Z.to_nat (link_length dl)) pkt) with (datagram dl pkt).
  assert (zlen pkt - link_length dl = zlen (datagram dl pkt)) as Ed by (unfold datagram, zlen in *; rewrite length_drop; lia).
  rewrite Ed. destruct (process_spec _ H4) as [(o & -> & Ho & Hb)|[-> Hn]]; cbn [mbind outcome_bind];
    [|exists []; split; [done|]; by constructor].
  specialize (Hu o Ho ltac:(lia)). rewrite (proj2 (Z.ltb_ge _ _)) by lia.
  replace (zlen pkt - (link_length dl + (o + 8))) with (zlen (datagram dl pkt) - (o + 8)) by lia.
  rewrite uint64_small by (unfold is_u64; lia). rewrite bytes_at_in by lia. cbn [mbind outcome_bind].
  set (payload := drop (Z.to_nat (o + 8)) (datagram dl pkt)).
  assert (zlen payload = zlen (datagram dl pkt) - (o + 8)) as Hp by (unfold payload, zlen in *; rewrite length_drop; lia).
  assert (slice pkt (link_length dl + (o + 8)) (zlen (datagram dl pkt) - (o + 8)) = payload) as ->.
  { unfold slice, payload, datagram. rewrite drop_drop, <- Z2Nat.inj_add, firstn_all2 by (unfold zlen in *; rewrite ?length_drop; lia). done. }
  destruct (default_parses payload) as (res & seg & E); [lia|]. rewrite E. cbn [mbind outcome_bind]. rewrite <- Hp.
  eexists. split; [done|]. by eapply shown_payload.
Qed.

Lemma capture_shown dl captures :
  (forall pkt, pkt ∈ packets captures -> zlen pkt < 2 ^ 31 /\ complete dl pkt) ->
  exists lines code, capture_loop inet_ntop dl captures = Ret (concat lines, code)
    /\ Forall2 (shown dl) (packets captures) lines.
Proof.
  induction captures as [|[pkt| |r] captures IH]; intros Hc; cbn [capture_loop packets] in *.
  - exists [], None. by split; [|constructor].
  - destruct (Hc pkt) as [Hl Hp]; [by left|]. destruct (handle_shown dl pkt Hl Hp) as (line & -> & Hline).
    destruct IH as (lines & code & -> & Hlines); [by intros pkt' Hin; apply Hc; right|].
    exists (line :: lines), code. split; [done|by constructor].
  - by apply IH.
  - exists []. eexists. by split; [|constructor].
Qed.

(** ** Segments in UDP over IPv4 *)

Lemma byte_at_middle a c b : byte_at (a ++ c :: b) (zlen a) = Ret (byte_to_Z c).
Proof.
  unfold byte_at, zlen. rewrite Nat2Z.id, (list_lookup_middle a b c) by done.
  by rewrite (proj2 (Z.leb_le _ _)) by lia.
Qed.

Lemma byte_at_unparse a v b : is_u8 v -> byte_at (a ++ NetUnparser._unparse_int 1 v ++ b) (zlen a) = Ret v.
Proof.
  intros Hv. rewrite NetUnparser.unparse_S. change (byte_at (a ++ byte_of_Z v :: b) (zlen a) = Ret v).
  rewrite byte_at_middle, byte_to_of_Z. f_equal. by apply uint8_small.
Qed.

Lemma bytes_at_middle a m b : bytes_at (a ++ m ++ b) (zlen a) (zlen m) = Ret m.
Proof.
  rewrite bytes_at_in by (rewrite ?zlen_app; zlen_pose; lia). f_equal.
  by rewrite slice_app_r, Z.sub_diag, slice_front by lia.
Qed.

Lemma version_4 v : Z.shiftr v 4 = 4 -> Z.land v 0xf0 = 0x40.
Proof.
  rewrite Z.shiftr_div_pow2 by lia. intros Hv.
  assert (v ∈ seqZ 64 16) as Hin by (apply elem_of_seqZ; Z.to_euclidean_division_equations; lia).
  clear Hv. revert v Hin. apply Forall_forall. repeat constructor.
Qed.

Lemma process_ipv4 h rest s d :
  IPv4Header.valid h -> IPv4Header.proto h = 0x11 ->
  let data := IPv4Header.bytes h ++ rest in
  process_ipv4_ipv6 inet_ntop (zlen data) data s d
  = Ret (4 * IPv4Header.hlen h + 8, inet4_addr inet_ntop (NetUnparser._unparse_int 4 (IPv4Header.src h)),
         inet4_addr inet_ntop (NetUnparser._unparse_int 4 (IPv4Header.dst h))).
Proof.
  intros Hv Hp data. destruct (IPv4Header.first_byte_roundtrip h (IPv4Header.v_ver _ Hv) (IPv4Header.v_hlen _ Hv)) as (Hf & F1 & F2).
  pose proof (IPv4Header.v_hlen _ Hv) as Hh. rewrite (IPv4Header.v_ver _ Hv) in F1.
  pose proof (IPv4Header.zlen_bytes h ltac:(lia)) as Hz.
  set (src := NetUnparser._unparse_int 4 (IPv4Header.src h)). set (dst := NetUnparser._unparse_int 4 (IPv4Header.dst h)).
  set (before := NetUnparser._unparse_int 1 (IPv4Header.first_byte h) ++ NetUnparser._unparse_int 1 (IPv4Header.tos h)
    ++ NetUnparser._unparse_int 2 (IPv4Header.len h) ++ NetUnparser._unparse_int 2 (IPv4Header.id h)
    ++ NetUnparser._unparse_int 2 (IPv4Header.fo_val h) ++ NetUnparser._unparse_int 1 (IPv4Header.ttl h)).
  set (to_src := before ++ NetUnparser._unparse_int 1 0x11 ++ NetUnparser._unparse_int 2 (IPv4Header.cksum h)).
  set (options := replicate (Z.to_nat (4 * IPv4Header.hlen h - 20)) Byte.x00 ++ rest).
  assert (data = to_src ++ src ++ dst ++ options) as Ed.
  { unfold data, IPv4Header.bytes, IPv4Header.bytes_before, IPv4Header.bytes_after, to_src, before, options.
    rewrite Hp, <- !app_assoc. reflexivity. }
  assert (zlen before = 9 /\ zlen to_src = 12 /\ zlen src = 4 /\ zlen dst = 4) as (Z9 & Z12 & Zs & Zd).
  { unfold to_src, before, src, dst. rewrite !zlen_app, !NetUnparser.zlen_unparse. lia. }
  assert (byte_at data 0 = Ret (IPv4Header.first_byte h) /\ byte_at data 9 = Ret 0x11) as [E0 E9].
  { rewrite Ed. unfold to_src at 2. rewrite <- !app_assoc, <- Z9. split; [|by apply byte_at_unparse].
    unfold to_src, before. rewrite <- !app_assoc. by apply (byte_at_unparse []). }
  assert (zlen data = 4 * IPv4Header.hlen h + zlen rest) as Hl by (unfold data; rewrite zlen_app, Hz; done).
  zlen_pose. unfold process_ipv4_ipv6. rewrite (proj2 (Z.ltb_ge _ _)), E0 by lia. cbn [mbind outcome_bind].
  rewrite version_4, F2, (proj2 (Z.ltb_ge _ _)), E9 by (done || lia). cbn [Z.eqb Pos.eqb mbind outcome_bind negb].
  rewrite Ed. pose proof (bytes_at_middle to_src src (dst ++ options)) as Es. rewrite Z12, Zs in Es. rewrite Es.
  pose proof (bytes_at_middle (to_src ++ src) dst options) as Edst. rewrite zlen_app, Z12, Zs, Zd, <- app_assoc in Edst.
  cbn [mbind outcome_bind]. change (12 + 4) with 16 in Edst. rewrite Edst. cbn [mbind outcome_bind]. do 3 f_equal. lia.
Qed.

End Bounds.

Lemma link_header_ipv4 eh :
  EthernetHeader.valid eh -> EthernetHeader.type eh = EthernetHeader.TYPE_IPv4 ->
  forall data,
  let link := EthernetHeader.dst eh ++ EthernetHeader.src eh ++ NetUnparser._unparse_int 2 (EthernetHeader.type eh) in
  zlen link = 14 /\ link_header DLT_EN10MB (link ++ data) = Ret (Some 14).
Proof.
  intros [Hd Hs _] -> data link. unfold is_address in *.
  assert (zlen link = 14) as Zl by (unfold link; rewrite !zlen_app, NetUnparser.zlen_unparse; unfold zlen; lia).
  split; [done|]. cbn [link_header]. zlen_pose. rewrite (proj2 (Z.ltb_ge _ _)) by (rewrite zlen_app; zlen_pose; lia).
  set (addresses := EthernetHeader.dst eh ++ EthernetHeader.src eh).
  assert (zlen addresses = 12) as Za by (unfold addresses; rewrite zlen_app; unfold zlen; lia).
  assert (link ++ data = addresses ++ Byte.x08 :: Byte.x00 :: data) as -> by (unfold link, addresses; by rewrite <- !app_assoc).
  pose proof (byte_at_middle addresses Byte.x08 (Byte.x00 :: data)) as E1.
  pose proof (byte_at_middle (addresses ++ [Byte.x08]) Byte.x00 data) as E2.
  rewrite zlen_app, <- app_assoc in E2. rewrite Za in E1, E2. unfold word_at. rewrite E1. cbn [mbind outcome_bind].
  change (12 + 1) with (12 + zlen [Byte.x08]). change ([Byte.x08] ++ Byte.x00 :: data) with (Byte.x08 :: Byte.x00 :: data) in E2. rewrite E2. reflexivity.
Qed.

End UdpTcpdump.

(** C31: The dump of packets that are shorter than 2^31 bytes and complete: when the
    link header announces IP, an IPv4 header has its 20 bytes, and a UDP header that
    starts in the packet (at 4 times the IPv4 header length, or where the IPv6
    extension headers lead) lies in it.  The capture loop then returns, without a
    read outside a packet, having printed for each packet captured before the loop
    is stopped, in order: nothing when no IP is announced or no UDP header fits,
    and otherwise the datagram's addresses with the bytes behind the UDP header,
    read as a TCP segment and dumped as they are. *)
Theorem dump_in_bounds (inet_ntop : Z -> string -> option string) (dl : UdpTcpdump.datalink)
    (captures : list UdpTcpdump.capture) :
  (forall pkt, pkt ∈ UdpTcpdump.packets captures -> zlen pkt < 2 ^ 31 /\ UdpTcpdump.complete dl pkt) ->
  exists lines code, UdpTcpdump.capture_loop inet_ntop dl captures = Ret (concat lines, code)
    /\ Forall2 (UdpTcpdump.shown inet_ntop dl) (UdpTcpdump.packets captures) lines.
Proof. apply UdpTcpdump.capture_shown. Qed.

(** The checks of the code do not make sure of it: a packet of one byte has its
    protocol field read outside it, and an IPv4 header without a UDP header behind
    it gives a payload that starts outside the packet. *)
Theorem dump_reads_outside (inet_ntop : Z -> string -> option string) :
  UdpTcpdump.handle_packet inet_ntop UdpTcpdump.DLT_RAW [Byte.x40] = Throw undefined_behaviour
  /\ UdpTcpdump.handle_packet inet_ntop UdpTcpdump.DLT_RAW
       ([Byte.x45] ++ replicate 8 Byte.x00 ++ [Byte.x11] ++ replicate 10 Byte.x00) = Throw undefined_behaviour.
Proof. split; vm_compute; reflexivity. Qed.

(** A TCP segment that is sent in UDP over IPv4 and Ethernet is printed with its own
    fields, as correct, with the addresses of the IPv4 header. *)
Theorem dump_shows_segment (inet_ntop : Z -> string -> option string) (eh : EthernetHeader.t) (ih : IPv4Header.t)
    (udp : string) (seg : TCPSegment.t) :
  EthernetHeader.valid eh -> EthernetHeader.type eh = EthernetHeader.TYPE_IPv4 ->
  IPv4Header.valid ih -> IPv4Header.proto ih = 0x11 -> zlen udp = 8 ->
  TCPHeader.valid (TCPSegment.header seg) -> zlen (Buffer.str (TCPSegment.payload seg)) <= 64000 ->
  exists frame header wire ck b,
    EthernetHeader.serialize eh = Ret frame /\ IPv4Header.serialize ih = Ret header
    /\ TCPSegment.serialize seg 0 = Ret wire
    /\ Buffer.str b = Buffer.str (TCPSegment.payload seg)
    /\ UdpTcpdump.handle_packet inet_ntop UdpTcpdump.DLT_EN10MB (frame ++ header ++ udp ++ BufferList.bytes wire)
       = Ret (UdpTcpdump.describe NoError (TCPSegment.mk (TCPHeader.set_cksum (TCPSegment.header seg) ck) b)
                (UdpTcpdump.inet4_addr inet_ntop (NetUnparser._unparse_int 4 (IPv4Header.src ih)))
                (UdpTcpdump.inet4_addr inet_ntop (NetUnparser._unparse_int 4 (IPv4Header.dst ih)))
                (zlen (BufferList.bytes wire)) ++ hexdump 8 (BufferList.bytes wire)).
Proof.
  intros He Ht Hi Hp Hu Hs Hl.
  destruct (segment_wire_buffer seg TCPSegment.default 0 Hs Hl ltac:(lia)) as (wire & ck & Ew & Hw & Hparse).
  set (payload := BufferList.bytes wire) in *. pose proof (TCPHeader.v_doff _ Hs) as Hd.
  assert (zlen payload < 2 ^ 17) as Hpl by lia.
  destruct (Hparse (Buffer.of_string payload)) as (b & Eb & Hb);
    [apply Buffer.buf_of_string_wf; lia|apply Buffer.str_of_string; lia|].
  eexists _, (IPv4Header.bytes ih), wire, ck, b. split; [apply ethernet_serialize|].
  pose proof (IPv4Header.v_hlen _ Hi) as Hh.
  split; [apply IPv4Header.ipv4_header_serialize_bytes; [apply Hi|lia]|]. split; [done|]. split; [done|]. fold payload.
  set (link := EthernetHeader.dst eh ++ _). pose proof (UdpTcpdump.link_header_ipv4 eh He Ht) as Elink. fold link in Elink.
  destruct (Elink (IPv4Header.bytes ih ++ udp ++ payload)) as [Zl El]. unfold UdpTcpdump.handle_packet. rewrite El. cbn [mbind outcome_bind].
  set (data := IPv4Header.bytes ih ++ udp ++ payload). pose proof (IPv4Header.zlen_bytes ih ltac:(lia)) as Hz.
  assert (zlen data = 4 * IPv4Header.hlen ih + 8 + zlen payload) as Hda by (unfold data; rewrite !zlen_app; lia).
  replace (drop (Z.to_nat 14) (link ++ data)) with data by (symmetry; apply drop_app_length'; unfold zlen in Zl; lia).
  replace (zlen (link ++ data) - 14) with (zlen data) by (rewrite zlen_app; lia).
  pose proof (UdpTcpdump.process_ipv4 inet_ntop ih (udp ++ payload) [] [] Hi Hp) as Epr. cbv zeta in Epr. fold data in Epr.
  rewrite Epr. cbn [mbind outcome_bind].
  rewrite (proj2 (Z.ltb_ge _ _)) by lia. zlen_pose.
  replace (zlen (link ++ data) - (14 + (4 * IPv4Header.hlen ih + 8))) with (zlen payload) by (rewrite zlen_app; lia).
  rewrite uint64_small by (unfold is_u64; lia).
  pose proof (UdpTcpdump.bytes_at_middle (link ++ IPv4Header.bytes ih ++ udp) payload []) as Ep.
  rewrite app_nil_r, !zlen_app, Zl, Hz, Hu, <- !app_assoc in Ep. fold data in Ep. rewrite Ep. cbn [mbind outcome_bind].
  by rewrite Eb.
Qed.

Definition dump_example_header : IPv4Header.t :=
  IPv4Header.mk 4 5 0 51 0 true false 0 64 0x11 0 0x0a000001 0x0a000002.
Definition dump_example_frame : EthernetHeader.t :=
  EthernetHeader.mk zero_address zero_address EthernetHeader.TYPE_IPv4.

Lemma dump_shows_segment_witness :
  exists frame header wire ck b,
    EthernetHeader.serialize dump_example_frame = Ret frame /\ IPv4Header.serialize dump_example_header = Ret header
    /\ TCPSegment.serialize tcp_segment_example 0 = Ret wire
    /\ Buffer.str b = Buffer.str (TCPSegment.payload tcp_segment_example)
    /\ UdpTcpdump.handle_packet (fun _ addr => Some (to_string addr)) UdpTcpdump.DLT_EN10MB
         (frame ++ header ++ replicate 8 Byte.x00 ++ BufferList.bytes wire)
       = Ret (UdpTcpdump.describe NoError (TCPSegment.mk (TCPHeader.set_cksum (TCPSegment.header tcp_segment_example) ck) b)
                (chars "0a:00:00:01") (chars "0a:00:00:02")
                (zlen (BufferList.bytes wire)) ++ hexdump 8 (BufferList.bytes wire)).
Proof.
  apply (dump_shows_segment (fun _ addr => Some (to_string addr)) dump_example_frame dump_example_header
    (replicate 8 Byte.x00) tcp_segment_example); try done; split; done.
Defined.

(** A UDP datagram of three bytes over IPv6, behind a destination-options header of 16
    bytes, and one over IPv4 with a header of 24 bytes. *)
Definition dump_example_ipv6 : string :=
  [Byte.x60; Byte.x00; Byte.x00; Byte.x00; Byte.x00; Byte.x1b; Byte.x3c; Byte.x40]
  ++ replicate 32 Byte.x01 ++ [Byte.x11; Byte.x01] ++ replicate 14 Byte.x00 ++ replicate 8 Byte.x02 ++ chars "abc".
Definition dump_example_ipv4 : string :=
  [Byte.x46] ++ replicate 8 Byte.x00 ++ [Byte.x11] ++ replicate 14 Byte.x01 ++ replicate 8 Byte.x02 ++ chars "abcd".

Lemma dump_in_bounds_witness :
  exists lines code, UdpTcpdump.capture_loop (fun _ addr => Some (to_string addr)) UdpTcpdump.DLT_RAW
    [UdpTcpdump.Packet dump_example_ipv6; UdpTcpdump.Timeout; UdpTcpdump.Packet dump_example_ipv4; UdpTcpdump.Stop (-2)]
    = Ret (concat lines, code)
  /\ Forall2 (UdpTcpdump.shown (fun _ addr => Some (to_string addr)) UdpTcpdump.DLT_RAW)
       [dump_example_ipv6; dump_example_ipv4] lines.
Proof.
  apply (dump_in_bounds (fun _ addr => Some (to_string addr)) UdpTcpdump.DLT_RAW
    [UdpTcpdump.Packet dump_example_ipv6; UdpTcpdump.Timeout; UdpTcpdump.Packet dump_example_ipv4; UdpTcpdump.Stop (-2)]).
  intros pkt Hin. apply elem_of_cons in Hin as [->|Hin]; [|apply elem_of_cons in Hin as [->|Hin]; [|by apply elem_of_nil in Hin]];
    (split; [done|]); intros _; (split; [done|]); intros o [(E & _ & ->)|[E Hr]] Ho; try discriminate E; [|done].
  change (UdpTcpdump.field (UdpTcpdump.datagram UdpTcpdump.DLT_RAW dump_example_ipv6) 6) with 60 in Hr.
  inversion Hr as [|? ? ? _ Hr2]; subst. vm_compute in Hr2. inversion Hr2; subst; [done|lia].
Defined.

(** A payload with a wrong checksum is printed with the fields of an empty header,
    not with its own: the parser returns before it reads the header. *)
Theorem dump_incorrect_shows_nothing (s src dst : string) :
  InternetChecksum.value (InternetChecksum.add (InternetChecksum.new 0) s) <> 0 -> zlen s < 2 ^ 64 ->
  exists seg, TCPSegment.parse TCPSegment.default (Buffer.of_string s) 0 = Ret (BadChecksum, seg)
    /\ UdpTcpdump.describe BadChecksum seg src dst (zlen s)
       = src ++ chars ":0 > " ++ dst ++ chars ":0" ++ [newline]
         ++ chars "    Flags [] cksum 0x0000 (incorrect!) seq 0 ack 0 win 0 length " ++ std_to_string (zlen s) ++ [newline].
Proof.
  intros Hck Hs. exists TCPSegment.default. split; [|reflexivity].
  unfold TCPSegment.parse. rewrite Buffer.str_of_string by done. by rewrite (proj2 (Z.eqb_neq _ _)).
Qed.

Lemma dump_incorrect_shows_nothing_witness :
  exists seg, TCPSegment.parse TCPSegment.default (Buffer.of_string (chars "some bytes of no segment")) 0 = Ret (BadChecksum, seg)
    /\ UdpTcpdump.describe BadChecksum seg (chars "a") (chars "b") 24
       = chars "a:0 > b:0" ++ [newline]
         ++ chars "    Flags [] cksum 0x0000 (incorrect!) seq 0 ack 0 win 0 length 24" ++ [newline].
Proof.
  apply (dump_incorrect_shows_nothing (chars "some bytes of no segment") (chars "a") (chars "b")); [|done].
  vm_compute. discriminate.
Defined.
