(* ===== verification/CommandLine.v ===== *)
(** * Command lines (get_config of apps/tcp_udp.cc, apps/tcp_ipv4.cc and
      apps/tcp_ip_ethernet.cc)

    The three programs read options and two positional arguments into the
    configurations of the connection and of the adapter.  The numbers are read by
    [strtol] and [strtof] of the C library, which are written out here, the second
    over the binary32 numbers of the Standard Library's SpecFloat; the conversions
    to the fields' types are those of the language, undefined when a float does not
    fit.

    Shown: every command line is in one way a list of settings and an ending, and
    get_config does what it says, without reading an argument outside [argv]; and a
    configuration written as options is read back. *)

From Stdlib Require Import Floats.SpecFloat.
From S2P Require Import Prelude WrappingIntegers UtilBuffer Parser Codec TCPSegment EthernetFrame Address NetworkInterface FdAdapter.
From S2P Require Import TCPSender FileDescriptor Socket EventLoop TCPSpongeSocket FullStackSocket Text UdpTcpdump.

(** ** [strtol] *)

Definition lower (c : byte) : byte :=
  if (65 <=? byte_to_Z c) && (byte_to_Z c <=? 90) then byte_of_Z (byte_to_Z c + 32) else c.

(** The value of a digit or letter, 36 when it is neither. *)
Definition digit_of (c : byte) : Z :=
  let v := byte_to_Z (lower c) in
  if (48 <=? v) && (v <=? 57) then v - 48 else if (97 <=? v) && (v <=? 122) then v - 87 else 36.

Fixpoint span_base (base : Z) (s : string) : string * string :=
  match s with
  | [] => ([], [])
  | c :: s' => if digit_of c <? base then let '(d, r) := span_base base s' in (c :: d, r) else ([], s)
  end.
Definition base_value (base : Z) (s : string) : Z := fold_left (fun acc c => acc * base + digit_of c) s 0.

Definition read_sign (s : string) : bool * string :=
  match s with
  | Byte.x2d :: s' => (true, s')
  | Byte.x2b :: s' => (false, s')
  | _ => (false, s)
  end.

(** The prefix [0x] counts only before a digit. *)
Definition hex_prefix (s : string) : option string :=
  match s with
  | Byte.x30 :: x :: c :: _ =>
      if bool_decide (lower x = Byte.x78) && (digit_of c <? 16) then Some (drop 2 s) else None
  | _ => None
  end.

Definition LONG_MAX : Z := 2 ^ 63 - 1.
Definition LONG_MIN : Z := - 2 ^ 63.

(** [strtol(s, nullptr, 0)]: the base is that of the prefix; out of range the
    result is the nearest [long], without digits it is zero. *)
Definition strtol (s : string) : Z :=
  let '(neg, s) := read_sign (skip_spaces s) in
  let '(base, s) := match hex_prefix s with
                    | Some s' => (16, s')
                    | None => (match s with Byte.x30 :: _ => 8 | _ => 10 end, s)
                    end in
  let v := base_value base (fst (span_base base s)) in
  Z.max LONG_MIN (Z.min LONG_MAX (if neg : bool then - v else v)).

(** ** [strtof] *)

Definition prec : Z := 24.
Definition emax : Z := 128.

(** The float nearest to a fraction. *)
Definition float_ratio (neg : bool) (num : Z) (den : positive) : spec_float :=
  match num with
  | Zpos n => SFdiv prec emax (S754_finite neg n 0) (S754_finite false den 0)
  | _ => S754_zero neg
  end.

(** [m * b^e] *)
Definition float_power (neg : bool) (m : Z) (b e : Z) : spec_float :=
  if 0 <=? e then float_ratio neg (m * b ^ e) 1 else float_ratio neg m (Z.to_pos (b ^ (- e))).

(** Digits with at most one point among them: the digits, how many follow the
    point, and the rest; none when there is no digit. *)
Definition scan_digits (base : Z) (s : string) : option (string * Z * string) :=
  let '(i, s1) := span_base base s in
  let '(f, s2) := match s1 with Byte.x2e :: s' => span_base base s' | _ => ([], s1) end in
  if zlen (i ++ f) =? 0 then None else Some (i ++ f, zlen f, s2).

(** The exponent behind [mark], zero when there is none. *)
Definition scan_exponent (mark : byte) (s : string) : Z :=
  match s with
  | c :: s' =>
      if bool_decide (lower c = mark) then
        let '(neg, s') := read_sign s' in
        let e := base_value 10 (fst (span_base 10 s')) in
        if neg then - e else e
      else 0
  | [] => 0
  end.

Definition starts_with (prefix s : string) : bool := bool_decide (take (length prefix) (lower <$> s) = prefix).

Definition strtof (s : string) : spec_float :=
  let '(neg, s) := read_sign (skip_spaces s) in
  if starts_with (chars "inf") s then S754_infinity neg
  else if starts_with (chars "nan") s then S754_nan
  else
    let hex :=
      match s with
      | Byte.x30 :: x :: s' =>
          if bool_decide (lower x = Byte.x78) then scan_digits 16 s' else None
      | _ => None
      end in
    match hex with
    | Some (d, f, rest) => float_power neg (base_value 16 d) 2 (scan_exponent Byte.x70 rest - 4 * f)
    | None =>
        match scan_digits 10 s with
        | Some (d, f, rest) => float_power neg (base_value 10 d) 10 (scan_exponent Byte.x65 rest - f)
        | None => S754_zero false
        end
    end.

(** [static_cast<uint16_t>] of a float: cut towards zero, undefined out of range. *)
Definition float_to_uint16 (f : spec_float) : outcome Z :=
  match f with
  | S754_zero _ => Ret 0
  | S754_finite neg m e =>
      let t := if 0 <=? e then Zpos m * 2 ^ e else Zpos m / 2 ^ (- e) in
      let v := if neg then - t else t in
      if (0 <=? v) && (v <? 2 ^ 16) then Ret v else Throw undefined_behaviour
  | _ => Throw undefined_behaviour
  end.

(** The numerator that a rate in 0..1 stands for. *)
Definition loss_rate (arg : string) : outcome Z :=
  float_to_uint16 (SFmul prec emax (float_ratio false 0xffff 1) (strtof arg)).

Example strtol_examples :
  strtol (chars "1452") = 1452 /\ strtol (chars " -0x1F!") = -31 /\ strtol (chars "017") = 15
  /\ strtol (chars "0x") = 0 /\ strtol (chars "99999999999999999999") = LONG_MAX.
Proof. vm_compute. repeat split. Qed.

Example loss_rate_examples :
  loss_rate (chars "0.5") = Ret 32767 /\ loss_rate (chars "1") = Ret 65535 /\ loss_rate (chars "1e-1") = Ret 6553
  /\ loss_rate (chars "0x.8p0") = Ret 32767 /\ loss_rate (chars "-0.0") = Ret 0 /\ loss_rate (chars "none") = Ret 0.
Proof. vm_compute. repeat split. Qed.

(** ** Options *)

(** The local variables that the options of the three programs assign. *)
Record options := mk_options {
  c_fsm : TCPConfig.t;
  opt_loss_rate_up : Z;
  opt_loss_rate_dn : Z;
  listen : bool;
  source_address : string;
  source_port : string;
  next_hop_address : string;
  device_name : option string
}.

Definition set_listen (o : options) : options :=
  mk_options (c_fsm o) (opt_loss_rate_up o) (opt_loss_rate_dn o) true (source_address o) (source_port o)
    (next_hop_address o) (device_name o).
Definition set_fsm (o : options) (c : TCPConfig.t) : options :=
  mk_options c (opt_loss_rate_up o) (opt_loss_rate_dn o) (listen o) (source_address o) (source_port o)
    (next_hop_address o) (device_name o).
Definition set_source_address (o : options) (a : string) : options :=
  mk_options (c_fsm o) (opt_loss_rate_up o) (opt_loss_rate_dn o) (listen o) a (source_port o)
    (next_hop_address o) (device_name o).
Definition set_source_port (o : options) (p : string) : options :=
  mk_options (c_fsm o) (opt_loss_rate_up o) (opt_loss_rate_dn o) (listen o) (source_address o) p
    (next_hop_address o) (device_name o).
Definition set_next_hop (o : options) (a : string) : options :=
  mk_options (c_fsm o) (opt_loss_rate_up o) (opt_loss_rate_dn o) (listen o) (source_address o) (source_port o)
    a (device_name o).
Definition set_device (o : options) (d : string) : options :=
  mk_options (c_fsm o) (opt_loss_rate_up o) (opt_loss_rate_dn o) (listen o) (source_address o) (source_port o)
    (next_hop_address o) (Some d).

(** [c_fsm.recv_capacity = strtol(...)] and [c_fsm.rt_timeout = strtol(...)] *)
Definition set_window (o : options) (arg : string) : options :=
  set_fsm o (TCPConfig.mk (TCPConfig.rt_timeout (c_fsm o)) (uint64 (strtol arg))
    (TCPConfig.send_capacity (c_fsm o)) (TCPConfig.fixed_isn (c_fsm o))).
Definition set_timeout (o : options) (arg : string) : options :=
  set_fsm o (TCPConfig.mk (uint16 (strtol arg)) (TCPConfig.recv_capacity (c_fsm o))
    (TCPConfig.send_capacity (c_fsm o)) (TCPConfig.fixed_isn (c_fsm o))).
Definition set_loss_up (o : options) (arg : string) : outcome options :=
  r ← loss_rate arg;
  Ret (mk_options (c_fsm o) r (opt_loss_rate_dn o) (listen o) (source_address o) (source_port o)
         (next_hop_address o) (device_name o)).
Definition set_loss_down (o : options) (arg : string) : outcome options :=
  r ← loss_rate arg;
  Ret (mk_options (c_fsm o) (opt_loss_rate_up o) r (listen o) (source_address o) (source_port o)
         (next_hop_address o) (device_name o)).

(** What an argument is to a program: an option without or with a value, the
    request for help, or something unknown. *)
Inductive option_kind :=
  | Flag (f : options -> options)
  | Valued (f : options -> string -> outcome options)
  | Help
  | Unknown.

(** The loop over the options: an option with a value needs that value and the two
    positional arguments behind it. *)
Fixpoint read_options (kind_of : string -> option_kind) (argv : list string) (o : options)
    : outcome (parsed (options * list string)) :=
  match argv with
  | [] => Ret (Go (o, []))
  | arg :: rest =>
      if zlen argv <=? 2 then Ret (Go (o, argv)) else
      match kind_of arg with
      | Flag f => read_options kind_of rest (f o)
      | Valued f =>
          if zlen argv <=? 3 then Ret (Exit 1) else
          match rest with
          | [] => Throw undefined_behaviour
          | value :: rest => o ← f o value; read_options kind_of rest o
          end
      | Help => Ret (Exit 0)
      | Unknown => Ret (Exit 1)
      end
  end.

Definition pure_option (f : options -> string -> options) : options -> string -> outcome options :=
  fun o arg => Ret (f o arg).

(** ** apps/tcp_udp.cc *)

Module TcpUdp.

Definition option_of (arg : string) : option_kind :=
  if strncmp_eq (chars "-l") arg 3 then Flag set_listen
  else if strncmp_eq (chars "-w") arg 3 then Valued (pure_option set_window)
  else if strncmp_eq (chars "-t") arg 3 then Valued (pure_option set_timeout)
  else if strncmp_eq (chars "-Lu") arg 3 then Valued set_loss_up
  else if strncmp_eq (chars "-Ld") arg 3 then Valued set_loss_down
  else if strncmp_eq (chars "-h") arg 3 then Help
  else Unknown.

Definition initial : options := mk_options TCPConfig.default 0 0 false [] [] [] None.

(** [argv[argc - 2]] and [argv[argc - 1]] are the last two arguments. *)
Definition get_config `{NetDb} (argv : list string) : outcome (parsed (TCPConfig.t * FdAdapterConfig * bool)) :=
  c_filt ← default_config;
  r ← read_options option_of argv initial;
  match r with
  | Exit code => Ret (Exit code)
  | Go (o, _) =>
      match rev argv with
      | port :: host :: _ =>
          if listen o then
            source ← Address.of_host (chars "0") port;
            Ret (Go (c_fsm o, mk_config source (destination c_filt) (opt_loss_rate_dn o) (opt_loss_rate_up o), true))
          else
            destination ← Address.of_host host port;
            Ret (Go (c_fsm o, mk_config (source c_filt) destination (opt_loss_rate_dn o) (opt_loss_rate_up o), false))
      | _ => Throw undefined_behaviour
      end
  end.

End TcpUdp.

(** ** apps/tcp_ipv4.cc *)

Module TcpIPv4.

Definition TUN_DFLT : string := chars "tun144".
Definition LOCAL_ADDRESS_DFLT : string := chars "169.254.144.9".

Definition option_of (arg : string) : option_kind :=
  if strncmp_eq (chars "-l") arg 3 then Flag set_listen
  else if strncmp_eq (chars "-a") arg 3 then Valued (pure_option set_source_address)
  else if strncmp_eq (chars "-s") arg 3 then Valued (pure_option set_source_port)
  else if strncmp_eq (chars "-w") arg 3 then Valued (pure_option set_window)
  else if strncmp_eq (chars "-t") arg 3 then Valued (pure_option set_timeout)
  else if strncmp_eq (chars "-d") arg 3 then Valued (pure_option set_device)
  else if strncmp_eq (chars "-Lu") arg 3 then Valued set_loss_up
  else if strncmp_eq (chars "-Ld") arg 3 then Valued set_loss_down
  else if strncmp_eq (chars "-h") arg 3 then Help
  else Unknown.

(** [random] is the number drawn for the source port. *)
Definition initial (random : Z) : options :=
  mk_options TCPConfig.default 0 0 false LOCAL_ADDRESS_DFLT (std_to_string (uint16 random)) [] None.

Definition get_config `{NetDb} (random : Z) (argv : list string)
    : outcome (parsed (TCPConfig.t * FdAdapterConfig * bool * option string)) :=
  c_filt ← default_config;
  r ← read_options option_of argv (initial random);
  match r with
  | Exit code => Ret (Exit code)
  | Go (o, host :: port :: _) =>
      if listen o then
        source ← Address.of_host (chars "0") port;
        p ← Address.port source;
        if p =? 0 then Ret (Exit 1) else
        Ret (Go (c_fsm o, mk_config source (destination c_filt) (opt_loss_rate_dn o) (opt_loss_rate_up o), true, device_name o))
      else
        destination ← Address.of_host host port;
        source ← Address.of_host (source_address o) (source_port o);
        Ret (Go (c_fsm o, mk_config source destination (opt_loss_rate_dn o) (opt_loss_rate_up o), false, device_name o))
  | Go _ => Throw undefined_behaviour
  end.

End TcpIPv4.

(** ** apps/tcp_ip_ethernet.cc *)

Module TcpIPEthernet.

Definition TAP_DFLT : string := chars "tap10".
Definition LOCAL_ADDRESS_DFLT : string := chars "169.254.10.9".
Definition GATEWAY_DFLT : string := chars "169.254.10.1".

Definition option_of (arg : string) : option_kind :=
  if strncmp_eq (chars "-a") arg 3 then Valued (pure_option set_source_address)
  else if strncmp_eq (chars "-s") arg 3 then Valued (pure_option set_source_port)
  else if strncmp_eq (chars "-n") arg 3 then Valued (pure_option set_next_hop)
  else if strncmp_eq (chars "-w") arg 3 then Valued (pure_option set_window)
  else if strncmp_eq (chars "-t") arg 3 then Valued (pure_option set_timeout)
  else if strncmp_eq (chars "-d") arg 3 then Valued (pure_option set_device)
  else if strncmp_eq (chars "-h") arg 3 then Help
  else Unknown.

Definition initial (random : Z) : options :=
  mk_options TCPConfig.default 0 0 false LOCAL_ADDRESS_DFLT (std_to_string (uint16 random)) GATEWAY_DFLT (Some TAP_DFLT).

Definition get_config `{NetDb} (random : Z) (argv : list string)
    : outcome (parsed (TCPConfig.t * FdAdapterConfig * Address.t * string)) :=
  c_filt ← default_config;
  r ← read_options option_of argv (initial random);
  match r with
  | Exit code => Ret (Exit code)
  | Go (o, host :: port :: _) =>
      destination ← Address.of_host host port;
      source ← Address.of_host (source_address o) (source_port o);
      next_hop ← Address.of_host (next_hop_address o) (chars "0");
      Ret (Go (c_fsm o, mk_config source destination (loss_rate_dn c_filt) (loss_rate_up c_filt), next_hop,
               from_option id TAP_DFLT (device_name o)))
  | Go _ => Throw undefined_behaviour
  end.

End TcpIPEthernet.

(** ** Numbers that are printed are read back *)

Lemma digit_of_digit c : is_digit c = true -> digit_of c = digit_value c /\ digit_of c < 10.
Proof.
  unfold is_digit, digit_of, digit_value, lower. intros H. zbool.
  rewrite (proj2 (Z.leb_gt 65 (byte_to_Z c))) by lia. cbn [andb].
  rewrite (proj2 (Z.leb_le 48 (byte_to_Z c))), (proj2 (Z.leb_le (byte_to_Z c) 57)) by lia. cbn [andb]. lia.
Qed.

Lemma span_base_digits d : forallb is_digit d = true -> span_base 10 d = (d, []).
Proof.
  induction d as [|c d IH]; [done|]. simpl. intros [Hc Hd]%andb_true_iff. rewrite IH by done.
  by rewrite (proj2 (Z.ltb_lt _ _)) by apply (digit_of_digit c Hc).
Qed.

Lemma base_value_digits d : forallb is_digit d = true -> base_value 10 d = dec_value d.
Proof.
  unfold base_value, dec_value. generalize 0. induction d as [|c d IH]; intros acc; [done|].
  cbn [forallb fold_left]. intros [Hc Hd]%andb_true_iff. rewrite IH by done. by rewrite (proj1 (digit_of_digit c Hc)).
Qed.

(** A positive number does not start with a zero. *)
Lemma dec_digits_head fuel n :
  0 < n < 10 ^ Z.of_nat fuel -> exists c s, dec_digits fuel n = c :: s /\ is_digit c = true /\ c <> Byte.x30.
Proof.
  revert n. induction fuel as [|fuel IH]; intros n Hn; cbn [dec_digits].
  { change (10 ^ Z.of_nat 0) with 1 in Hn. lia. }
  case_if.
  - exists (digit n), []. destruct (digit_spec n) as [H1 H2]; [lia|]. split; [done|]. split; [done|].
    intros E. rewrite E in H2. change (0 = n) in H2. lia.
  - destruct (IH (n / 10)) as (c & s & -> & Hc).
    { rewrite Nat2Z.inj_succ, Z.pow_succ_r in Hn by lia. Z.to_euclidean_division_equations. lia. }
    by exists c, (s ++ [digit (n mod 10)]).
Qed.

Lemma digit_not_space c : is_digit c = true -> is_space c = false.
Proof.
  unfold is_digit, is_space. intros H. zbool. rewrite (proj2 (Z.eqb_neq _ 32)) by lia.
  by rewrite (proj2 (Z.leb_gt (byte_to_Z c) 13)), andb_false_r by lia.
Qed.

Lemma read_sign_digit c s : is_digit c = true -> read_sign (c :: s) = (false, c :: s).
Proof. intros Hc. destruct c; first [reflexivity|discriminate Hc]. Qed.

Lemma plain_decimal c s : c <> Byte.x30 ->
  hex_prefix (c :: s) = None /\ match c :: s with Byte.x30 :: _ => 8 | _ => 10 end = 10.
Proof. intros Hc. destruct c; first [done|by destruct Hc]. Qed.

Lemma strtol_to_string n : 0 <= n <= LONG_MAX -> strtol (std_to_string n) = n.
Proof.
  intros Hn. destruct (Z.eq_dec n 0) as [->|Hz]; [reflexivity|].
  assert (0 < n < 10 ^ Z.of_nat 20) as Hd by (unfold LONG_MAX in Hn; change (10 ^ Z.of_nat 20) with (10 ^ 20); lia).
  destruct (std_to_string_spec n) as (H1 & H2 & _); [unfold is_u64, LONG_MAX in *; lia|].
  destruct (dec_digits_head 20 n Hd) as (c & s & E & Hc & H0). unfold strtol. change (std_to_string n) with (dec_digits 20 n) in *.
  rewrite E in *. cbn [skip_spaces]. rewrite digit_not_space, read_sign_digit by done.
  destruct (plain_decimal c s H0) as [-> ->]. cbv beta iota zeta.
  rewrite span_base_digits by done. cbn [fst]. rewrite base_value_digits, H2 by done. unfold LONG_MIN, LONG_MAX in *. lia.
Qed.

(** ** What a command line says

    The words of a command line, independently of how the programs go through
    them: settings, then how they end. *)

Inductive setting :=
  | Listen
  | SourceAddress (v : string)
  | SourcePort (v : string)
  | NextHop (v : string)
  | Window (v : string)
  | RtTimeout (v : string)
  | Device (v : string)
  | LossUp (v : string)
  | LossDown (v : string).

(** How a setting is written: any word that starts with [-Lu] or [-Ld] stands for the
    loss rates. *)
Inductive spelled : setting -> list string -> Prop :=
  | sp_listen : spelled Listen [chars "-l"]
  | sp_address v : spelled (SourceAddress v) [chars "-a"; v]
  | sp_port v : spelled (SourcePort v) [chars "-s"; v]
  | sp_next_hop v : spelled (NextHop v) [chars "-n"; v]
  | sp_window v : spelled (Window v) [chars "-w"; v]
  | sp_timeout v : spelled (RtTimeout v) [chars "-t"; v]
  | sp_device v : spelled (Device v) [chars "-d"; v]
  | sp_loss_up w v : spelled (LossUp v) ((chars "-Lu" ++ w) :: [v])
  | sp_loss_down w v : spelled (LossDown v) ((chars "-Ld" ++ w) :: [v]).

(** The two positional arguments, the request for help, or a mistake. *)
Inductive ending := Arguments (host port : string) | HelpAsked | Mistake.

(** The command lines of a program that takes some of the settings.  It is a mistake
    when a word before the last two is no setting, or when a setting lacks its value. *)
Inductive command (takes : setting -> Prop) : list string -> list setting -> ending -> Prop :=
  | cmd_end host port : command takes [host; port] [] (Arguments host port)
  | cmd_setting s ws argv ss e :
      takes s -> spelled s ws -> 2 <= zlen argv -> command takes argv ss e -> command takes (ws ++ argv) (s :: ss) e
  | cmd_help argv : 2 <= zlen argv -> command takes (chars "-h" :: argv) [] HelpAsked
  | cmd_unknown w argv :
      2 <= zlen argv -> w <> chars "-h" -> (forall s ws, takes s -> ~ spelled s (w :: ws)) ->
      command takes (w :: argv) [] Mistake
  | cmd_no_value w argv s v :
      zlen argv = 2 -> takes s -> spelled s [w; v] -> command takes (w :: argv) [] Mistake.

(** The value that the settings give a variable: the last one, or what it was. *)
Definition chosen {A} (pick : setting -> option A) (ss : list setting) (d : A) : A := from_option id d (last (omap pick ss)).

Definition is_listen (s : setting) : bool := match s with Listen => true | _ => false end.
Definition pick_address (s : setting) := match s with SourceAddress v => Some v | _ => None end.
Definition pick_port (s : setting) := match s with SourcePort v => Some v | _ => None end.
Definition pick_next_hop (s : setting) := match s with NextHop v => Some v | _ => None end.
Definition pick_window (s : setting) := match s with Window v => Some (strtol v mod 2 ^ 64) | _ => None end.
Definition pick_timeout (s : setting) := match s with RtTimeout v => Some (strtol v mod 2 ^ 16) | _ => None end.
Definition pick_device (s : setting) := match s with Device v => Some (Some v) | _ => None end.
Definition rate_of (v : string) : option Z := match loss_rate v with Ret r => Some r | Throw _ => None end.
Definition pick_up (s : setting) := match s with LossUp v => rate_of v | _ => None end.
Definition pick_down (s : setting) := match s with LossDown v => rate_of v | _ => None end.

(** A loss rate that does not fit the 16 bits of its variable. *)
Definition no_rate (s : setting) : bool :=
  match s with LossUp v | LossDown v => match rate_of v with None => true | Some _ => false end | _ => false end.

(** The variables that the settings leave. *)
Definition settled (ss : list setting) (o : options) : options :=
  mk_options
    (TCPConfig.mk (chosen pick_timeout ss (TCPConfig.rt_timeout (c_fsm o))) (chosen pick_window ss (TCPConfig.recv_capacity (c_fsm o)))
       (TCPConfig.send_capacity (c_fsm o)) (TCPConfig.fixed_isn (c_fsm o)))
    (chosen pick_up ss (opt_loss_rate_up o)) (chosen pick_down ss (opt_loss_rate_dn o)) (existsb is_listen ss || listen o)
    (chosen pick_address ss (source_address o)) (chosen pick_port ss (source_port o)) (chosen pick_next_hop ss (next_hop_address o))
    (chosen pick_device ss (device_name o)).

(** What a program does with a command line, given what it does with the variables and
    the two arguments: undefined behaviour only when a loss rate does not fit. *)
Definition meant {A} (ss : list setting) (e : ending) (o : options) (go : options -> string -> string -> outcome (parsed A))
    : outcome (parsed A) :=
  if existsb no_rate ss then Throw undefined_behaviour else
  match e with
  | Arguments host port => go (settled ss o) host port
  | HelpAsked => Ret (Exit 0)
  | Mistake => Ret (Exit 1)
  end.

(** The settings of the three programs. *)
Definition udp_takes (s : setting) : Prop :=
  match s with Listen | Window _ | RtTimeout _ | LossUp _ | LossDown _ => True | _ => False end.
Definition ipv4_takes (s : setting) : Prop := match s with NextHop _ => False | _ => True end.
Definition ethernet_takes (s : setting) : Prop :=
  match s with SourceAddress _ | SourcePort _ | NextHop _ | Window _ | RtTimeout _ | Device _ => True | _ => False end.

(** ** Every command line is understood in one way *)

Lemma spelled_head s s' w ws ws' :
  spelled s (w :: ws) -> spelled s' (w :: ws') -> length ws = length ws' /\ (ws = ws' -> s = s').
Proof. intros H H'. inversion H; subst; inversion H'; subst; split; (done || (intros [= ->]; done) || done). Qed.

Lemma spelled_not_help s ws : ~ spelled s (chars "-h" :: ws).
Proof. by inversion 1. Qed.

Lemma spelled_words s ws : spelled s ws -> exists w vs, ws = w :: vs /\ zlen vs <= 1.
Proof. destruct 1; eexists _, _; (split; [reflexivity|]); unfold zlen; simpl; lia. Qed.

Lemma command_unique takes argv ss e :
  command takes argv ss e -> forall ss' e', command takes argv ss' e' -> ss = ss' /\ e = e'.
Proof.
  induction 1 as [host port|s ws argv ss e Ht Hs Hl Hc IH|argv Hl|w argv Hl Hh Hu|w argv s v Hl Ht Hs]; intros ss' e' H'.
  - remember [host; port] as whole eqn:E. destruct H' as [host' port'|s' ws' argv' ss'' e'' _ Hs' Hl' _|argv' Hl'|w' argv' Hl' _ _|w' argv' ? ? Hl' _ _];
      [by simplify_eq| |apply (f_equal zlen) in E; rewrite !zlen_cons, zlen_nil in E; lia..].
    destruct (spelled_words _ _ Hs') as (w' & vs' & -> & _). apply (f_equal zlen) in E. rewrite zlen_app, !zlen_cons, zlen_nil in E. zlen_pose. lia.
  - destruct (spelled_words _ _ Hs) as (w & vs & -> & Hv). remember ((w :: vs) ++ argv) as whole eqn:E.
    destruct H' as [host' port'|s' ws' argv' ss'' e'' Ht' Hs' Hl' Hc'|argv' Hl'|w' argv' Hl' Hh' Hu'|w' argv' s' v' Hl' Ht' Hs'].
    + apply (f_equal zlen) in E. rewrite zlen_app, !zlen_cons, zlen_nil in E. zlen_pose. lia.
    + destruct (spelled_words _ _ Hs') as (w' & vs' & -> & _). injection E as -> E.
      destruct (spelled_head _ _ _ _ _ Hs Hs') as [Hlen Heq]. apply app_inj_1 in E as [-> ->]; [|done].
      rewrite (Heq eq_refl). destruct (IH _ _ Hc') as [-> ->]. done.
    + injection E as <- E. by apply spelled_not_help in Hs.
    + injection E as -> E. by destruct (Hu' s vs Ht).
    + injection E as -> ->. destruct (spelled_head _ _ _ _ _ Hs Hs') as [Hlen _]. rewrite zlen_app in Hl'. unfold zlen in *. simpl in *. lia.
  - remember (chars "-h" :: argv) as whole eqn:E. destruct H' as [host' port'|s' ws' argv' ss'' e'' _ Hs' _ _|argv' Hl'|w' argv' Hl' Hh' _|w' argv' s' v' Hl' _ Hs'].
    + injection E as -> <-. done.
    + destruct (spelled_words _ _ Hs') as (w' & vs' & -> & _). injection E as -> E. by apply spelled_not_help in Hs'.
    + done.
    + by injection E as ->.
    + injection E as -> E. by apply spelled_not_help in Hs'.
  - remember (w :: argv) as whole eqn:E. destruct H' as [host' port'|s' ws' argv' ss'' e'' Ht' Hs' _ _|argv' Hl'|w' argv' Hl' Hh' _|w' argv' s' v' Hl' Ht' Hs'];
      [by injection E as <- <-| |by injection E as <- _|done..].
    destruct (spelled_words _ _ Hs') as (w' & vs' & -> & _). injection E as -> E. by destruct (Hu s' vs' Ht').
  - remember (w :: argv) as whole eqn:E. destruct H' as [host' port'|s' ws' argv' ss'' e'' Ht' Hs' Hl' _|argv' Hl'|w' argv' Hl' Hh' _|w' argv' s' v' Hl' Ht' Hs'];
      [by injection E as <- <-| |injection E as <- _; by apply spelled_not_help in Hs|done..].
    destruct (spelled_words _ _ Hs') as (w' & vs' & -> & _). injection E as -> <-.
    destruct (spelled_head _ _ _ _ _ Hs Hs') as [Hlen _]. rewrite zlen_app in Hl. unfold zlen in *. simpl in *. lia.
Qed.

(** ** What the loop over the options does *)

(** One setting, and all of them in order. *)
Definition settle1 (s : setting) (o : options) : outcome options :=
  match s with
  | Listen => Ret (set_listen o)
  | SourceAddress v => Ret (set_source_address o v)
  | SourcePort v => Ret (set_source_port o v)
  | NextHop v => Ret (set_next_hop o v)
  | Window v => Ret (set_window o v)
  | RtTimeout v => Ret (set_timeout o v)
  | Device v => Ret (set_device o v)
  | LossUp v => set_loss_up o v
  | LossDown v => set_loss_down o v
  end.
Fixpoint settle (ss : list setting) (o : options) : outcome options :=
  match ss with [] => Ret o | s :: ss => o ← settle1 s o; settle ss o end.

Lemma chosen_cons {A} (pick : setting -> option A) s ss d :
  chosen pick (s :: ss) d = chosen pick ss (from_option id d (pick s)).
Proof.
  unfold chosen. change (omap pick (s :: ss)) with (match pick s with Some a => a :: omap pick ss | None => omap pick ss end).
  destruct (pick s) as [a|]; [|done]. cbn [from_option id].
  rewrite last_cons. clear. by destruct (last (omap pick ss)).
Qed.

Lemma loss_rate_throws v e : loss_rate v = Throw e -> e = undefined_behaviour.
Proof.
  unfold loss_rate, float_to_uint16. destruct (SFmul _ _ _ _); cbv zeta; try case_if; by intros [= <-].
Qed.

(** A setting changes its own variable, to the value it gives. *)
Lemma settle1_spec s o :
  if no_rate s then settle1 s o = Throw undefined_behaviour
  else exists o', settle1 s o = Ret o' /\ forall ss, settled (s :: ss) o = settled ss o'.
Proof.
  destruct s as [|v|v|v|v|v|v|v|v]; cbn [no_rate settle1].
  8,9: unfold rate_of, set_loss_up, set_loss_down; destruct (loss_rate v) as [r|e] eqn:E;
    [|by rewrite (loss_rate_throws v e E)].
  all: eexists; (split; [reflexivity|]); intros ss; unfold settled; rewrite !chosen_cons;
    cbn [pick_address pick_port pick_next_hop pick_window pick_timeout pick_device pick_up pick_down from_option id];
    unfold rate_of; rewrite ?E; cbn [existsb is_listen orb listen set_listen from_option id]; rewrite ?orb_true_r; reflexivity.
Qed.

Lemma settle_spec ss o : settle ss o = if existsb no_rate ss then Throw undefined_behaviour else Ret (settled ss o).
Proof.
  revert o. induction ss as [|s ss IH]; intros o; [by destruct o as [[]]|]. cbn [settle existsb].
  pose proof (settle1_spec s o) as Hs. destruct (no_rate s); cbn [orb].
  - by rewrite Hs.
  - destruct Hs as (o' & -> & ->). apply IH.
Qed.

(** A program knows the words of the settings that it takes, and no others. *)
Definition understands (kind_of : string -> option_kind) (takes : setting -> Prop) : Prop :=
  forall w, Byte.x00 ∉ w ->
  match kind_of w with
  | Flag f => exists s, takes s /\ spelled s [w] /\ forall o, settle1 s o = Ret (f o)
  | Valued f => exists s, (forall v, takes (s v)) /\ (forall v, spelled (s v) [w; v]) /\ forall v o, settle1 (s v) o = f o v
  | Help => w = chars "-h"
  | Unknown => w <> chars "-h" /\ forall s ws, takes s -> ~ spelled s (w :: ws)
  end.

(** [strncmp] over three characters compares with a word of two letters as a whole, and
    with a word of three letters up to there. *)
Lemma strncmp_2 a b w : a <> Byte.x00 -> b <> Byte.x00 -> Byte.x00 ∉ w -> strncmp_eq [a; b] w 3 = bool_decide (w = [a; b]).
Proof.
  intros Ha Hb Hw. unfold strncmp_eq. apply bool_decide_ext. destruct w as [|c [|d [|e w]]]; simpl; split; intros E; try done;
    simplify_eq; try done. by destruct Hw; right; right; left.
Qed.

Lemma strncmp_3 a b c w : c <> Byte.x00 -> a <> Byte.x00 -> b <> Byte.x00 ->
  strncmp_eq [a; b; c] w 3 = true <-> exists w', w = [a; b; c] ++ w'.
Proof.
  intros Hc Ha Hb. unfold strncmp_eq. rewrite bool_decide_eq_true. split.
  - destruct w as [|c' [|d [|e w]]]; simpl; intros E; simplify_eq; try done. by exists w.
  - by intros [w' ->].
Qed.

Lemma read_options_spec kind_of takes argv o :
  understands kind_of takes -> Forall (fun w => Byte.x00 ∉ w) argv -> 2 <= zlen argv ->
  exists ss e, command takes argv ss e
    /\ read_options kind_of argv o
       = (o' ← settle ss o;
          Ret match e with Arguments host port => Go (o', [host; port]) | HelpAsked => Exit 0 | Mistake => Exit 1 end).
Proof.
  intros Hk. remember (length argv) as n eqn:En. revert argv o En. induction (lt_wf n) as [n _ IH].
  intros argv o En Hw Hl. destruct argv as [|w argv]; [done|]. cbn [read_options]. rewrite zlen_cons in *.
  apply Forall_cons in Hw as [Hw Hws]. case_if.
  { destruct argv as [|port [|]]; [done| |unfold zlen in *; simpl in *; lia]. exists [], (Arguments w port). split; [constructor|done]. }
  specialize (Hk w Hw). destruct (kind_of w) as [f|f| |].
  - destruct Hk as (s & Ht & Hs & Hf). destruct (IH (length argv) ltac:(simpl in *; lia) argv (f o) eq_refl Hws ltac:(lia)) as (ss & e & Hc & ->).
    exists (s :: ss), e. split; [by apply (cmd_setting _ s [w] argv); [..|lia|]|]. cbn [settle]. by rewrite Hf.
  - destruct Hk as (s & Ht & Hs & Hf). case_if.
    { exists [], Mistake. split; [|done]. apply (cmd_no_value _ w argv (s []) []); [lia|done..]. }
    destruct argv as [|v argv]; [done|]. rewrite zlen_cons in *. apply Forall_cons in Hws as [Hv Hws].
    assert (forall o', exists ss e, command takes argv ss e /\ read_options kind_of argv o' = (o'' ← settle ss o';
      Ret match e with Arguments host port => Go (o'', [host; port]) | HelpAsked => Exit 0 | Mistake => Exit 1 end)) as IH'.
    { intros o'. apply (IH (length argv)); [simpl in *; lia|done..|lia]. }
    destruct (f o v) as [o'|e'] eqn:Ef; cbn [mbind outcome_bind].
    + destruct (IH' o') as (ss & e & Hc & ->). exists (s v :: ss), e.
      split; [by apply (cmd_setting _ (s v) [w; v] argv); [..|lia|]|]. cbn [settle]. by rewrite Hf, Ef.
    + destruct (IH' o) as (ss & e & Hc & _). exists (s v :: ss), e.
      split; [by apply (cmd_setting _ (s v) [w; v] argv); [..|lia|]|]. cbn [settle]. by rewrite Hf, Ef.
  - subst w. exists [], HelpAsked. split; [constructor; lia|done].
  - exists [], Mistake. destruct Hk. split; [apply cmd_unknown; (done || lia)|done].
Qed.

(** The word of an option decides what it is. *)
Local Ltac letters :=
  repeat match goal with |- context [chars ?x] => let y := eval vm_compute in (chars x) in change (chars x) with y end.
Local Ltac known s :=
  first [ exists s; split; [exact I|split; [constructor|done]]
        | exists s; split; [intros v; exact I|split; [intros v; constructor|done]] ].
Local Ltac word s :=
  rewrite strncmp_2 by done; case_bool_decide; [subst; known s|].
Local Ltac prefix s :=
  match goal with |- context [strncmp_eq [?a; ?b; ?c] ?w 3] =>
    let E := fresh "E" in pose proof (strncmp_3 a b c w ltac:(done) ltac:(done) ltac:(done)) as E;
    destruct (strncmp_eq [a; b; c] w 3); [destruct (proj1 E eq_refl) as [? ->]; known s|]
  end.
Local Ltac no_word :=
  rewrite strncmp_2 by done; case_bool_decide; [done|]; split; [done|]; intros s ws Ht Hs;
  inversion Hs; subst; try done;
  match goal with E : false = true <-> _ |- _ => discriminate (proj2 E (ex_intro _ _ eq_refl)) end.

Lemma udp_understands : understands TcpUdp.option_of udp_takes.
Proof.
  intros w Hw. unfold TcpUdp.option_of. letters. word Listen. word Window. word RtTimeout. prefix LossUp. prefix LossDown. no_word.
Qed.
Lemma ipv4_understands : understands TcpIPv4.option_of ipv4_takes.
Proof.
  intros w Hw. unfold TcpIPv4.option_of. letters. word Listen. word SourceAddress. word SourcePort. word Window. word RtTimeout.
  word Device. prefix LossUp. prefix LossDown. no_word.
Qed.
Lemma ethernet_understands : understands TcpIPEthernet.option_of ethernet_takes.
Proof.
  intros w Hw. unfold TcpIPEthernet.option_of. letters. word SourceAddress. word SourcePort. word NextHop. word Window. word RtTimeout.
  word Device. no_word.
Qed.

(** ** The theorems *)

(** A program that reads the options and goes on with the variables and what is left. *)
Lemma options_meant {A} kind_of takes argv ss e o (k : options -> list string -> outcome (parsed A)) :
  understands kind_of takes -> Forall (fun w => Byte.x00 ∉ w) argv -> 2 <= zlen argv -> command takes argv ss e ->
  (r ← read_options kind_of argv o; match r with Exit code => Ret (Exit code) | Go (o', rest) => k o' rest end)
  = meant ss e o (fun o' host port => k o' [host; port]).
Proof.
  intros Hk Hw Hl Hc. destruct (read_options_spec kind_of takes argv o Hk Hw Hl) as (ss' & e' & Hc' & ->).
  destruct (command_unique _ _ _ _ Hc _ _ Hc') as [<- <-]. rewrite settle_spec. unfold meant.
  destruct (existsb no_rate ss); [done|]. by destruct e.
Qed.

Lemma command_last takes argv ss host port : command takes argv ss (Arguments host port) -> exists pre, argv = pre ++ [host; port].
Proof.
  remember (Arguments host port) as e eqn:E. induction 1 as [host' port'|s ws argv ss e _ _ _ _ IH| | |]; simplify_eq.
  - by exists [].
  - destruct IH as [pre ->]; [done|]. exists (ws ++ pre). by rewrite app_assoc.
Qed.

(** ** Options that are written are read *)

Lemma read_flag kind_of arg f a b rest o :
  kind_of arg = Flag f -> read_options kind_of (arg :: a :: b :: rest) o = read_options kind_of (a :: b :: rest) (f o).
Proof.
  intros E. cbn [read_options]. rewrite (proj2 (Z.leb_gt _ _)) by (unfold zlen; simpl; lia). by rewrite E.
Qed.

Lemma read_valued kind_of arg f v o' a b rest o :
  kind_of arg = Valued f -> f o v = Ret o' ->
  read_options kind_of (arg :: v :: a :: b :: rest) o = read_options kind_of (a :: b :: rest) o'.
Proof.
  intros E Ef. set (tail := a :: b :: rest). assert (2 <= zlen tail) by (unfold tail, zlen; simpl; lia).
  cbn [read_options]. rewrite E, Ef, !zlen_cons.
  by rewrite (proj2 (Z.leb_gt _ 2)), (proj2 (Z.leb_gt _ 3)) by lia.
Qed.

(** The options that set a window and a timeout, and ask to listen. *)
Definition written_options (window timeout : Z) (listening : bool) : list string :=
  (if listening then [chars "-l"] else [])
  ++ [chars "-w"; std_to_string window; chars "-t"; std_to_string timeout].

(** A window and a time-out that are written as options of tcp_udp, with or
    without listening, are in the configuration that get_config returns, and the
    address to bind or to connect to is that of the last two arguments. *)
Theorem config_roundtrip `{NetDb} (window timeout : Z) (listening : bool) (host port : string)
    (d : FdAdapterConfig) (a : Address.t) :
  0 <= window <= LONG_MAX -> is_u16 timeout -> default_config = Ret d ->
  Address.of_host (if listening then chars "0" else host) port = Ret a ->
  TcpUdp.get_config (written_options window timeout listening ++ [host; port])
  = Ret (Go (TCPConfig.mk timeout window TCPConfig.DEFAULT_CAPACITY None,
             (if listening then mk_config a (destination d) 0 0 else mk_config (source d) a 0 0), listening)).
Proof.
  intros Hw Ht Ed Ea. unfold TcpUdp.get_config. rewrite Ed. cbn [mbind outcome_bind].
  set (o := if listening then set_listen TcpUdp.initial else TcpUdp.initial).
  set (rest := [chars "-w"; std_to_string window; chars "-t"; std_to_string timeout; host; port]).
  assert (read_options TcpUdp.option_of (written_options window timeout listening ++ [host; port]) TcpUdp.initial
    = read_options TcpUdp.option_of rest o) as ->.
  { unfold o, rest. destruct listening; [by apply (read_flag _ _ set_listen)|done]. }
  assert (rev (written_options window timeout listening ++ [host; port])
    = port :: host :: rev (written_options window timeout listening)) as -> by apply rev_app_distr.
  unfold rest. rewrite (read_valued _ _ (pure_option set_window) _ (set_window o (std_to_string window))) by done.
  rewrite (read_valued _ _ (pure_option set_timeout) _ (set_timeout (set_window o (std_to_string window)) (std_to_string timeout))) by done.
  unfold set_timeout, set_window. rewrite !strtol_to_string by (unfold LONG_MAX, is_u16 in *; lia).
  rewrite uint64_small, uint16_small by (unfold LONG_MAX, is_u64, is_u16 in *; lia).
  unfold o in *. destruct listening; cbn [read_options zlen mbind outcome_bind]; rewrite Ea; reflexivity.
Qed.

(** What the three programs go on with: the configurations made of the variables and
    the two positional arguments. *)
Definition udp_configuration `{NetDb} (c_filt : FdAdapterConfig) (o : options) (host port : string)
    : outcome (parsed (TCPConfig.t * FdAdapterConfig * bool)) :=
  a ← Address.of_host (if listen o then chars "0" else host) port;
  Ret (Go (c_fsm o, mk_config (if listen o then a else source c_filt) (if listen o then destination c_filt else a)
                      (opt_loss_rate_dn o) (opt_loss_rate_up o), listen o)).
Definition ipv4_configuration `{NetDb} (c_filt : FdAdapterConfig) (o : options) (host port : string)
    : outcome (parsed (TCPConfig.t * FdAdapterConfig * bool * option string)) :=
  if listen o then
    source ← Address.of_host (chars "0") port;
    p ← Address.port source;
    if p =? 0 then Ret (Exit 1) else
    Ret (Go (c_fsm o, mk_config source (destination c_filt) (opt_loss_rate_dn o) (opt_loss_rate_up o), true, device_name o))
  else
    destination ← Address.of_host host port;
    source ← Address.of_host (source_address o) (source_port o);
    Ret (Go (c_fsm o, mk_config source destination (opt_loss_rate_dn o) (opt_loss_rate_up o), false, device_name o)).
Definition ethernet_configuration `{NetDb} (c_filt : FdAdapterConfig) (o : options) (host port : string)
    : outcome (parsed (TCPConfig.t * FdAdapterConfig * Address.t * string)) :=
  destination ← Address.of_host host port;
  source ← Address.of_host (source_address o) (source_port o);
  next_hop ← Address.of_host (next_hop_address o) (chars "0");
  Ret (Go (c_fsm o, mk_config source destination (loss_rate_dn c_filt) (loss_rate_up c_filt), next_hop,
           from_option id TcpIPEthernet.TAP_DFLT (device_name o))).

Lemma udp_meant `{NetDb} argv c_filt ss e :
  Forall (fun w => Byte.x00 ∉ w) argv -> 2 <= zlen argv -> default_config = Ret c_filt -> command udp_takes argv ss e ->
  TcpUdp.get_config argv = meant ss e TcpUdp.initial (udp_configuration c_filt).
Proof.
  intros Hw Hl Ed Hc. unfold TcpUdp.get_config. rewrite Ed. cbn [mbind outcome_bind].
  pose proof (options_meant _ _ argv ss e TcpUdp.initial (fun o (_ : list string) => match rev argv with
    | port :: host :: _ => udp_configuration c_filt o host port | _ => Throw undefined_behaviour end) udp_understands Hw Hl Hc) as E.
  transitivity (meant ss e TcpUdp.initial (fun o (_ _ : string) => match rev argv with
    | port :: host :: _ => udp_configuration c_filt o host port | _ => Throw undefined_behaviour end)).
  - rewrite <- E. destruct (read_options _ _ _) as [[[o rest]|]|]; try done. cbn [mbind outcome_bind].
    destruct (rev argv) as [|? [|]]; try done. unfold udp_configuration. by destruct (listen o).
  - unfold meant. destruct (existsb no_rate ss); [done|]. destruct e; try done.
    destruct (command_last _ _ _ _ _ Hc) as [pre ->]. by rewrite rev_app_distr.
Qed.
Lemma ipv4_meant `{NetDb} random argv c_filt ss e :
  Forall (fun w => Byte.x00 ∉ w) argv -> 2 <= zlen argv -> default_config = Ret c_filt -> command ipv4_takes argv ss e ->
  TcpIPv4.get_config random argv = meant ss e (TcpIPv4.initial random) (ipv4_configuration c_filt).
Proof.
  intros Hw Hl Ed Hc. unfold TcpIPv4.get_config. rewrite Ed. cbn [mbind outcome_bind].
  rewrite <- (options_meant _ _ argv ss e (TcpIPv4.initial random) (fun o rest => match rest with
    | host :: port :: _ => ipv4_configuration c_filt o host port | _ => Throw undefined_behaviour end) ipv4_understands Hw Hl Hc).
  reflexivity.
Qed.
Lemma ethernet_meant `{NetDb} random argv c_filt ss e :
  Forall (fun w => Byte.x00 ∉ w) argv -> 2 <= zlen argv -> default_config = Ret c_filt -> command ethernet_takes argv ss e ->
  TcpIPEthernet.get_config random argv = meant ss e (TcpIPEthernet.initial random) (ethernet_configuration c_filt).
Proof.
  intros Hw Hl Ed Hc. unfold TcpIPEthernet.get_config. rewrite Ed. cbn [mbind outcome_bind].
  rewrite <- (options_meant _ _ argv ss e (TcpIPEthernet.initial random) (fun o rest => match rest with
    | host :: port :: _ => ethernet_configuration c_filt o host port | _ => Throw undefined_behaviour end) ethernet_understands Hw Hl Hc).
  reflexivity.
Qed.


(** A loss rate above one, or a negative one, is undefined behaviour; a time-out
    above 16 bits is cut, to zero in the worst case; and any word that starts with
    [-Lu] is that option. *)
Theorem config_unchecked :
  loss_rate (chars "2") = Throw undefined_behaviour /\ loss_rate (chars "-0.5") = Throw undefined_behaviour
  /\ TCPConfig.rt_timeout (c_fsm (set_timeout TcpUdp.initial (chars "65536"))) = 0
  /\ TCPConfig.recv_capacity (c_fsm (set_window TcpUdp.initial (chars "-1"))) = 2 ^ 64 - 1
  /\ TcpUdp.option_of (chars "-Lunar") = Valued set_loss_up.
Proof. repeat split; vm_compute; reflexivity. Qed.

(** A resolver that knows dotted quads and the address [0]. *)
#[local] Instance host_db : NetDb := {|
  getaddrinfo node service hints :=
    match (if bool_decide (node = chars "0") then Some 0 else read_quad 3 node 0) with
    | Some addr => inr (Some (sockaddr_in AF_INET (dec_value service) addr, sizeof_sockaddr_in))
    | None => inl (-2)
    end;
  getnameinfo addr size flags :=
    inr (dotted_quad (be_value (slice addr 4 4)), std_to_string (be_value (slice addr 2 2)));
  inet_ntoa := dotted_quad
|}.

Lemma config_roundtrip_witness :
  exists d a, TcpUdp.get_config [chars "-l"; chars "-w"; chars "5000"; chars "-t"; chars "20"; chars "ignored"; chars "7"]
    = Ret (Go (TCPConfig.mk 20 5000 TCPConfig.DEFAULT_CAPACITY None, mk_config a d 0 0, true)).
Proof.
  eexists _, _. apply (config_roundtrip 5000 20 true (chars "ignored") (chars "7")); [by vm_compute|done|reflexivity|reflexivity].
Defined.

