(* ===== verification/Apps.v ===== *)
(** * Command-line programs (apps/tcp_udp.cc, tcp_ipv4.cc, tcp_ip_ethernet.cc, tcp_native.cc,
      webget.cc, tun.cc)

    The bodies of the programs over the sockets of the library.  Those that run a
    [TCPSpongeSocket] are modelled up to the point where its thread starts, which
    runs [TCPSpongeSocket._tcp_main] while the main thread runs
    [StreamCopy.bidirectional_stream_copy]; webget and tcp_native to their end.

    Shown: webget sends its request and nothing else, and prints what the server
    sends; tun describes the segment that an IPv4 packet carries. *)

From S2P Require Import Prelude WrappingIntegers SpongeBuffer ByteStream UtilBuffer Parser Checksum Codec TCPSegment IPv4Datagram EthernetFrame Address NetworkInterface.
From S2P Require Import FdAdapter TCPSender TCPConnection FileDescriptor Socket EventLoop StreamCopy TCPSpongeSocket FullStackSocket Text UdpTcpdump CommandLine.

(** The exit code of [main]: an exception that reaches it is a failure. *)
Definition exit_code {A} (r : outcome (parsed A)) : Z :=
  match r with
  | Ret (Go _) => EXIT_SUCCESS
  | Ret (Exit code) => code
  | Throw _ => EXIT_FAILURE
  end.

(** ** The programs that copy the standard streams to a TCP connection *)

Module TcpUdpMain.
Section Main.
Context {K R : Type} `{Kernel K} `{NetDb} (draw : R -> Z * R).
Abbreviation A := (LossyFdAdapter.t FdAdapterBase.t R).
Abbreviation W := (world K (TCPSpongeSocket.vars A)).

#[local] Instance lossy_udp : Adapter A TCPOverUDPSocketAdapter.received_datagram (Address.t * BufferList.t) :=
  lossy_adapter draw.

(** [argv] without the name of the program. *)
Definition open (fuel : nat) (generator : R) (argv : list string)
    : prog W (parsed (TCPSpongeSocket.handles * (list (EventLoop.Rule K (TCPSpongeSocket.vars A)) * bool))) :=
  if zlen argv <? 2 then mret (Exit 1) else
  config ← lift (TcpUdp.get_config argv);
  match config with
  | Exit code => mret (Exit code)
  | Go (c_fsm, c_filt, listen) =>
      udp_sock ← UDPSocket.new;
      (if listen : bool then Socket.bind udp_sock (source c_filt) else mret tt) ;;
      cfg ← lift default_config;
      h ← TCPSpongeSocket.new (LossyFdAdapter.mk generator (FdAdapterBase.mk cfg false)) udp_sock;
      r ← (if listen : bool then TCPSpongeSocket.listen_and_accept h fuel c_fsm c_filt
           else TCPSpongeSocket.connect h fuel c_fsm c_filt);
      mret (Go (h, r))
  end.

End Main.
End TcpUdpMain.

Module TcpIPv4Main.
Section Main.
Context {K R : Type} `{Kernel K} `{NetDb} (draw : R -> Z * R).
Abbreviation A := (LossyFdAdapter.t FdAdapterBase.t R).
Abbreviation W := (world K (TCPSpongeSocket.vars A)).

#[local] Instance lossy_tun : Adapter A string BufferList.t := lossy_adapter draw.

Definition open (fuel : nat) (generator : R) (argv : list string)
    : prog W (parsed (TCPSpongeSocket.handles * (list (EventLoop.Rule K (TCPSpongeSocket.vars A)) * bool))) :=
  if zlen argv <? 2 then mret (Exit EXIT_FAILURE) else
  random ← SystemCall Random;
  config ← lift (TcpIPv4.get_config random argv);
  match config with
  | Exit code => mret (Exit code)
  | Go (c_fsm, c_filt, listen, tun_dev_name) =>
      device ← TunTapFD.TunFD (from_option id TcpIPv4.TUN_DFLT tun_dev_name);
      cfg ← lift default_config;
      h ← TCPSpongeSocket.new (LossyFdAdapter.mk generator (FdAdapterBase.mk cfg false)) device;
      r ← (if listen : bool then TCPSpongeSocket.listen_and_accept h fuel c_fsm c_filt
           else TCPSpongeSocket.connect h fuel c_fsm c_filt);
      mret (Go (h, r))
  end.

End Main.
End TcpIPv4Main.

Module TcpIPEthernetMain.
Section Main.
Context {K : Type} `{Kernel K} `{NetDb}.
Abbreviation A := TCPOverIPv4OverEthernetAdapter.t.
Abbreviation W := (world K (TCPSpongeSocket.vars A)).

(** The random Ethernet address is made as in [FullStackSocket]. *)
Definition open (fuel : nat) (argv : list string)
    : prog W (parsed (TCPSpongeSocket.handles * (list (EventLoop.Rule K (TCPSpongeSocket.vars A)) * bool))) :=
  if zlen argv <? 2 then mret (Exit EXIT_FAILURE) else
  local_ethernet_address ← FullStackSocket.random_private_ethernet_address;
  random ← SystemCall Random;
  config ← lift (TcpIPEthernet.get_config random argv);
  match config with
  | Exit code => mret (Exit code)
  | Go (c_fsm, c_filt, next_hop, tap_dev_name) =>
      device ← TunTapFD.TapFD tap_dev_name;
      cfg ← lift default_config;
      '(adapter, outs) ← lift (TCPOverIPv4OverEthernetAdapter.new (FdAdapterBase.mk cfg false) local_ethernet_address
                                 (source c_filt) next_hop);
      TCPSpongeSocket.write_outputs device outs ;;
      h ← TCPSpongeSocket.new adapter device;
      r ← TCPSpongeSocket.connect (I := string) (O := BufferList.t) h fuel c_fsm c_filt;
      mret (Go (h, r))
  end.

End Main.
End TcpIPEthernetMain.

Module TcpNative.
Section Main.
Context {K : Type} `{Kernel K} `{NetDb}.
Abbreviation W := (world K StreamCopy.vars).

(** The default argument of [TCPSocket::listen]. *)
Definition default_backlog : Z := 16.

(** One connection; the listening socket is destroyed when it is made. *)
Definition open_socket (server_mode : bool) (host port : string) : prog W Socket.t :=
  if server_mode then
    listening_socket ← TCPSocket.new;
    Socket.set_reuseaddr listening_socket ;;
    address ← lift (Address.of_host host port);
    Socket.bind listening_socket address ;;
    TCPSocket.listen listening_socket default_backlog ;;
    socket ← TCPSocket.accept listening_socket;
    FileDescriptor.release listening_socket ;;
    mret socket
  else
    connecting_socket ← TCPSocket.new;
    address ← lift (Address.of_host host port);
    Socket.connect connecting_socket address ;;
    mret connecting_socket.

Definition main (fuel : nat) (argv : list string) : prog W (parsed bool) :=
  match argv with
  | first :: second :: rest =>
      let server_mode := strncmp_eq (chars "-l") first 3 in
      match server_mode, rest with
      | true, [] => mret (Exit EXIT_FAILURE)
      | true, third :: _ =>
          socket ← open_socket true second third; over ← StreamCopy.bidirectional_stream_copy fuel socket; mret (Go over)
      | false, _ =>
          socket ← open_socket false first second; over ← StreamCopy.bidirectional_stream_copy fuel socket; mret (Go over)
      end
  | _ => mret (Exit EXIT_FAILURE)
  end.

End Main.
End TcpNative.

(** ** webget *)

Module Webget.

Definition crlf : string := [Byte.x0d; Byte.x0a].

(** The three strings that are written to the socket. *)
Definition request_lines (host path : string) : list string :=
  [chars "GET " ++ path ++ chars " HTTP/1.1" ++ crlf;
   chars "Host: " ++ host ++ crlf;
   chars "Connection: close" ++ crlf ++ crlf].

Section Transfer.
Context {K C : Type} `{Kernel K}.
Abbreviation W := (world K C).

Fixpoint write_lines (p : FileDescriptor.t) (lines : list string) : prog W unit :=
  match lines with
  | [] => mret tt
  | line :: lines => FileDescriptor.write p (BufferViewList.of_string line) true ;; write_lines p lines
  end.

(** [while (!socket.eof())]: what is printed, and whether the loop is over within
    [fuel] rounds. *)
Fixpoint print_all (fuel : nat) (p : FileDescriptor.t) : prog W (string * bool) :=
  at_eof ← FileDescriptor.eof p;
  if at_eof : bool then mret ([], true) else
  match fuel with
  | O => mret ([], false)
  | S fuel =>
      tmpString ← FileDescriptor.read p FileDescriptor.size_max;
      '(out, over) ← print_all fuel p;
      mret (tmpString ++ out, over)
  end.

Definition exchange (fuel : nat) (p : FileDescriptor.t) (host path : string) : prog W (string * bool) :=
  write_lines p (request_lines host path) ;;
  print_all fuel p.

End Transfer.

Section Main.
Context {K : Type} `{Kernel K} `{NetDb}.
Abbreviation W := (world K (TCPSpongeSocket.vars TCPOverIPv4OverEthernetAdapter.t)).

(** What is written to standard output, and whether the server has finished. *)
Definition get_URL (fuel fuel' : nat) (host path : string) : prog W (string * bool) :=
  h ← FullStackSocket.new;
  address ← lift (Address.of_host host (chars "http"));
  _ ← FullStackSocket.connect h fuel address;
  '(out, over) ← exchange fuel' (TCPSpongeSocket.self h) host path;
  TCPSpongeSocket.wait_until_closed h ;;
  mret (chars "Connnect to Address " ++ host ++ chars " success!" ++ [newline] ++ out, over).

Definition main (fuel fuel' : nat) (argv : list string) : prog W (parsed (string * bool)) :=
  match argv with
  | [host; path] => r ← get_URL fuel fuel' host path; mret (Go r)
  | _ => mret (Exit EXIT_FAILURE)
  end.

End Main.

(** *** What is exchanged *)

Section Exchange.
Context {K C : Type} `{KernelLaws K}.
Abbreviation W := (world K C).
Context (p : FileDescriptor.t) (n : Z).

(** The descriptor is there, under its number. *)
Definition open_at (w : W) : Prop := exists c, heap w !! p = Some c /\ FDWrapper._fd (wrapper c) = n.

(** From [w] to [w'] the bytes [out] went out and [inp] came in, and the descriptor
    is still there. *)
Definition moved (w w' : W) (out inp : string) : Prop :=
  open_at w' /\ exists evs rs, trace w' = trace w ++ evs /\ Descriptors.moves n out rs evs /\ concat rs = inp.

Lemma moved_refl w : open_at w -> moved w w [] [].
Proof.
  intros Ho. split; [done|]. exists [], []. rewrite app_nil_r. split; [done|]. split; [by apply Descriptors.moves_silent|done].
Qed.

Lemma moved_trans w w1 w2 o i o' i' : moved w w1 o i -> moved w1 w2 o' i' -> moved w w2 (o ++ o') (i ++ i').
Proof.
  intros (_ & e & rs & E & M & Er) (Ho & e' & rs' & E' & M' & Er'). split; [done|]. exists (e ++ e'), (rs ++ rs').
  split; [by rewrite E', E, app_assoc|]. split; [by apply Descriptors.moves_app|]. by rewrite concat_app, Er, Er'.
Qed.

Lemma touched_moved w w' nr nw evs out rs :
  open_at w -> Descriptors.touched p nr nw w w' evs -> Descriptors.moves n out rs evs -> moved w w' out (concat rs).
Proof.
  intros (c0 & E0 & F0) [T _ (c & c' & E & Eh & F & _)] M. split; [|by exists evs, rs]. exists c'.
  rewrite Eh, lookup_insert_eq. split; [done|]. congruence.
Qed.

Lemma write_lines_spec lines w :
  open_at w -> Forall (fun l => zlen l < 2 ^ 64) lines ->
  match write_lines p lines w with
  | Ret (_, w') => moved w w' (concat lines) []
  | Throw e => is_unix_error e
  end.
Proof.
  intros Ho Hl. revert w Ho. induction Hl as [|line lines Hz Hl IH]; intros w Ho; cbn [write_lines].
  { by apply moved_refl. }
  destruct Ho as (c & Ec & En). pose proof (Descriptors.write_touches w p c (BufferViewList.of_string line) true Ec) as Hw.
  assert (concat (BufferViewList.of_string line) = line) as El by apply app_nil_r. rewrite El in Hw. specialize (Hw Hz).
  destruct (FileDescriptor.write _ _ _ w) as [[k w1]|e] eqn:E; [|by rewrite (Descriptors.bind_throw _ _ _ _ E)].
  rewrite (Descriptors.bind_eq _ _ _ _ _ E). destruct Hw as (_ & Hk & _ & _ & evs & rounds & _ & _ & T & M).
  specialize (Hk eq_refl). rewrite En in M. assert (take (Z.to_nat k) line = line) as Et
    by (apply take_ge; unfold zlen in Hk; lia). rewrite Et in M.
  assert (moved w w1 line []) as M1 by (apply (touched_moved w w1 0 rounds evs line []); [by exists c|done|done]).
  specialize (IH w1 (proj1 M1)). destruct (write_lines p lines w1) as [[[] w2]|e]; [|done].
  cbn [concat]. by apply (moved_trans w w1 w2 line [] (concat lines) []).
Qed.

Lemma print_all_spec fuel w :
  open_at w ->
  match print_all fuel p w with
  | Ret (out, over, w') => moved w w' [] out /\ (over = true -> FileDescriptor.eof p w' = Ret (true, w'))
  | Throw e => is_unix_error e
  end.
Proof.
  revert w. induction fuel as [|fuel IH]; intros w Ho; cbn [print_all];
    pose proof Ho as (c & Ec & En); pose proof (Descriptors.eof_eq w p c Ec) as Ee;
    rewrite (Descriptors.bind_eq _ _ _ _ _ Ee); destruct (FDWrapper._eof (wrapper c));
    try (split; [by apply moved_refl|done]).
  pose proof (Descriptors.read_touches w p c FileDescriptor.size_max Ec ltac:(done)) as Hr.
  destruct (FileDescriptor.read _ _ w) as [[s w1]|e] eqn:E; [|by rewrite (Descriptors.bind_throw _ _ _ _ E)].
  rewrite (Descriptors.bind_eq _ _ _ _ _ E). destruct Hr as (_ & _ & evs & T & M). rewrite En in M.
  assert (moved w w1 [] s) as M1 by (rewrite <- (app_nil_r s); by apply (touched_moved w w1 1 0 evs [] [s])).
  specialize (IH w1 (proj1 M1)). destruct (print_all fuel p w1) as [[[out over] w2]|e] eqn:E2;
    [|by rewrite (Descriptors.bind_throw _ _ _ _ E2)].
  rewrite (Descriptors.bind_eq _ _ _ _ _ E2). destruct IH as [M2 Hov]. split; [|done].
  by apply (moved_trans w w1 w2 [] s [] out).
Qed.

End Exchange.
End Webget.

(** webget writes its request to the socket, all of it and nothing else, and prints
    exactly what it reads, up to the end of the stream when it finishes; an
    exception is an error of a system call. *)
Theorem webget_faithful {K C} `{KernelLaws K} (w : world K C) (p : FileDescriptor.t) (c : cell) (fuel : nat)
    (host path : string) :
  heap w !! p = Some c -> zlen host < 2 ^ 63 -> zlen path < 2 ^ 63 ->
  match Webget.exchange fuel p host path w with
  | Ret (out, over, w') =>
      (exists evs, trace w' = trace w ++ evs
         /\ sent (FDWrapper._fd (wrapper c)) evs
            = chars "GET " ++ path ++ chars " HTTP/1.1" ++ Webget.crlf ++ chars "Host: " ++ host ++ Webget.crlf
              ++ chars "Connection: close" ++ Webget.crlf ++ Webget.crlf
         /\ taken (FDWrapper._fd (wrapper c)) evs = out)
      /\ (over = true -> FileDescriptor.eof p w' = Ret (true, w'))
  | Throw e => is_unix_error e
  end.
Proof.
  intros Ec Hh Hp. set (n := FDWrapper._fd (wrapper c)). unfold Webget.exchange.
  assert (Webget.open_at p n w) as Ho by (by exists c).
  pose proof (Webget.write_lines_spec p n (Webget.request_lines host path) w Ho) as Hw.
  assert (Forall (fun l => zlen l < 2 ^ 64) (Webget.request_lines host path)) as Hl.
  { unfold Webget.request_lines. rewrite !Forall_cons. split_and!; [rewrite !zlen_app; unfold zlen in *; simpl; lia..|constructor]. }
  specialize (Hw Hl). destruct (Webget.write_lines p _ w) as [[[] w1]|e] eqn:E; [|by rewrite (Descriptors.bind_throw _ _ _ _ E)].
  rewrite (Descriptors.bind_eq _ _ _ _ _ E). pose proof (Webget.print_all_spec p n fuel w1 (proj1 Hw)) as Hr.
  destruct (Webget.print_all fuel p w1) as [[[out over] w2]|e]; [|done]. destruct Hr as [M Hov]. split; [|done].
  destruct (Webget.moved_trans p n w w1 w2 _ _ _ _ Hw M) as (_ & evs & rs & Et & Hm & Hrs). exists evs. split; [done|].
  destruct (Descriptors.moves_taken _ _ _ _ Hm n) as [Hs Ht]. rewrite Z.eqb_refl in Hs, Ht. split; [|by rewrite Ht]. rewrite Hs.
  unfold Webget.request_lines. cbn [concat]. by rewrite !app_nil_r, <- !app_assoc.
Qed.

Definition webget_world : world pipes unit :=
  World (mk_pipes [(5, chars "HTTP/1.1 200 OK")] 0) [] {[0%nat := mk_cell (FDWrapper.mk 5 false false 0 0) 1]} 1 tt.

Lemma webget_faithful_witness :
  exists w', Webget.exchange 2 0%nat (chars "host") (chars "/") webget_world = Ret (chars "HTTP/1.1 200 OK", true, w')
    /\ taken 5 (trace w') = chars "HTTP/1.1 200 OK".
Proof.
  pose proof (webget_faithful webget_world 0%nat (mk_cell (FDWrapper.mk 5 false false 0 0) 1) 2 (chars "host") (chars "/")
    eq_refl eq_refl eq_refl) as Hw.
  destruct (Webget.exchange 2 0%nat (chars "host") (chars "/") webget_world) as [[[out over] w']|e] eqn:E.
  2: { vm_compute in E. discriminate. }
  destruct Hw as [(evs & Ht & _ & Hi) _]. simpl in Ht. exists w'.
  assert (out = chars "HTTP/1.1 200 OK" /\ over = true) as [-> ->] by (vm_compute in E; by injection E as <- <- _).
  split; [reflexivity|]. rewrite Ht. exact Hi.
Defined.

(** ** tun *)

Module Tun.

(** One packet: what is printed for it. *)
Definition handle_packet (buffer : string) : outcome string :=
  let out := [newline; newline] ++ chars "***" ++ [newline] ++ chars "*** Got packet:" ++ [newline] ++ chars "***" ++ [newline]
             ++ hexdump 0 buffer ++ chars "attempting to parse as ipv4 datagram... " in
  '(r, ip_dgram) ← IPv4Datagram.parse IPv4Datagram.default (Buffer.of_string buffer);
  if negb (bool_decide (r = NoError)) then Ret (out ++ chars "failed." ++ [newline]) else
  let header := IPv4Datagram.header ip_dgram in
  let out := out ++ chars "success! totlen=" ++ std_to_string (IPv4Header.len header) ++ chars ", IPv4 header contents:"
             ++ [newline] ++ ipv4_header_to_string header in
  if negb (IPv4Header.proto header =? IPv4Header.PROTO_TCP) then Ret (out ++ [newline] ++ chars "Not TCP, skipping." ++ [newline]) else
  let out := out ++ [newline] ++ chars "Attempting to parse as a TCP segment... " in
  payload ← BufferList.to_Buffer (IPv4Datagram.payload ip_dgram);
  '(r, tcp_seg) ← TCPSegment.parse TCPSegment.default payload (IPv4Header.pseudo_cksum header);
  if negb (bool_decide (r = NoError)) then Ret (out ++ chars "failed." ++ [newline]) else
  Ret (out ++ chars "success! payload len=" ++ std_to_string (Buffer.size (TCPSegment.payload tcp_seg))
       ++ chars ", TCP header contents:" ++ [newline] ++ tcp_header_to_string (TCPSegment.header tcp_seg) ++ [newline]).

(** [while (true)], for at most [fuel] packets: what is printed. *)
Fixpoint packets {K C} `{Kernel K} (fuel : nat) (tun : FileDescriptor.t) : prog (world K C) string :=
  match fuel with
  | O => mret []
  | S fuel =>
      buffer ← FileDescriptor.read tun FileDescriptor.size_max;
      out ← lift (handle_packet buffer);
      rest ← packets fuel tun;
      mret (out ++ rest)
  end.

Definition main {K C} `{Kernel K} (fuel : nat) : prog (world K C) string :=
  tun ← TunTapFD.TunFD (chars "tun144"); packets fuel tun.

End Tun.

(** A segment is parsed without an exception, whatever the buffer holds. *)
Lemma segment_parses b ck : Buffer.wf b -> exists r seg, TCPSegment.parse TCPSegment.default b ck = Ret (r, seg).
Proof.
  intros Hw. unfold TCPSegment.parse. case_if; [by eexists _, _|]. unfold parse_packet.
  destruct (hc_total (TCPSegment._header TCPSegment.default) _ _ (NetParser.new_at_front_buffer b Hw)) as (r & h & p & n & -> & _).
  by eexists _, _.
Qed.

(** Whatever arrives on the device, tun prints something for it and goes on. *)
Theorem tun_total (buffer : string) : zlen buffer < 2 ^ 64 -> exists out, Tun.handle_packet buffer = Ret out.
Proof.
  intros Hb. unfold Tun.handle_packet, IPv4Datagram.parse.
  destruct (parse_packet_total (IPv4Datagram._header IPv4Datagram.default) buffer Hb) as (r & h & b & -> & Hw & _).
  cbn [mbind outcome_bind IPv4Datagram._payload IPv4Datagram._header IPv4Datagram.header IPv4Datagram.payload].
  destruct (segment_parses b (IPv4Header.pseudo_cksum h) Hw) as (r' & seg & Es).
  repeat (case_if; [by eexists|]);
    cbn [mbind outcome_bind IPv4Datagram._payload IPv4Datagram._header IPv4Datagram.header IPv4Datagram.payload BufferList.of_buffer BufferList.to_Buffer];
    repeat (case_if; [by eexists|]); unfold IPv4Datagram.payload; cbn [IPv4Datagram._payload BufferList.of_buffer BufferList.to_Buffer mbind outcome_bind].
  rewrite Es. cbn [mbind outcome_bind]. case_if; by eexists.
Qed.

Lemma tun_total_witness : exists out, Tun.handle_packet (chars "no datagram") = Ret out.
Proof. apply (tun_total (chars "no datagram")). done. Defined.
