(* ===== verification/Bouncer.v ===== *)
(** * The bouncer (apps/bouncer.cc)

    A relay for UDP: sockets come in pairs, a datagram that arrives on one socket
    is sent from the other to the address last heard from there.  The program's own
    variables are the addresses, [peers], one per socket.

    Shown: whatever the operating system does, the datagrams that the program
    receives and sends are those of the abstract relay of module [Relay]. *)

From S2P Require Import Prelude UtilBuffer Parser Address FdAdapter FileDescriptor Socket EventLoop.

Module Bouncer.

(** The addresses of the other ends, where they are known. *)
Definition peers : Type := list (option Address.t).

Section Bouncer.
Context {K : Type} `{Kernel K} `{NetDb}.
Abbreviation W := (world K peers).
Abbreviation Rule := (EventLoop.Rule K peers).

(** [peers.at(i)]; the sockets and the peers grow together. *)
Definition peer (ps : peers) (i : nat) : option Address.t := mjoin (ps !! i).

(** The callback of a socket [x], the [ix]th, whose partner is [y], the [iy]th.  The
    message about a new address asks for the local address and prints both. *)
Definition bounce (x y : Socket.t) (ix iy : nat) : prog W unit :=
  rec ← UDPSocket.recv x UDPSocket.default_mtu;
  let source_address := TCPOverUDPSocketAdapter.source_address rec in
  let payload := TCPOverUDPSocketAdapter.payload rec in
  ps ← read_user;
  (if match peer ps ix with Some a => negb (Address.eqb a source_address) | None => true end
   then write_user (<[ix := Some source_address]> ps) ;;
        local ← Socket.local_address x;
        _ ← lift (Address.to_string local);
        _ ← lift (Address.to_string source_address);
        mret tt
   else mret tt) ;;
  ps ← read_user;
  match peer ps iy with
  | Some a => if 0 <? zlen payload then UDPSocket.sendto y a (BufferViewList.of_string payload) else mret tt
  | None => mret tt
  end.

Definition rule (x y : Socket.t) (ix iy : nat) : Rule :=
  EventLoop.mk_rule x EventLoop.In (bounce x y ix iy) (mret true) (mret tt).

Definition add_rule (rules : list Rule) (r : Rule) : prog W (list Rule) :=
  EventLoop.add_rule rules (EventLoop.fd r) (EventLoop.direction r)
    (EventLoop.callback r) (EventLoop.interest r) (EventLoop.cancel r).

(** One round of the [for] loop: a pair of sockets on neighbouring ports. *)
Definition open_pair (lower_port : Z) (sockets : list Socket.t) (rules : list Rule)
    : prog W (list Socket.t * list Rule) :=
  x ← UDPSocket.new;
  y ← UDPSocket.new;
  ps ← read_user;
  write_user (ps ++ [None; None]) ;;
  let n := length sockets in
  x_address ← lift (Address.of_ip (chars "0") lower_port);
  Socket.bind x x_address ;;
  y_address ← lift (Address.of_ip (chars "0") (uint16 (lower_port + 1)));
  Socket.bind y y_address ;;
  rules ← add_rule rules (rule x y n (S n));
  rules ← add_rule rules (rule y x (S n) n);
  mret (sockets ++ [x; y], rules).

Definition first_port : Z := 1024.
Definition last_port : Z := 64000.

Fixpoint open_pairs (fuel : nat) (lower_port : Z) (sockets : list Socket.t) (rules : list Rule)
    : prog W (list Socket.t * list Rule) :=
  if last_port <? lower_port then mret (sockets, rules) else
  match fuel with
  | O => throw out_of_fuel
  | S fuel =>
      '(sockets, rules) ← open_pair lower_port sockets rules;
      open_pairs fuel (uint16 (lower_port + 2)) sockets rules
  end.

(** The number of pairs: the ports [lower_port], [lower_port + 2], ... up to the last. *)
Definition pairs (lower_port : Z) : nat := Z.to_nat ((last_port - lower_port) / 2 + 1).

(** The event loop, for at most [fuel] rounds: the rules left, and whether the loop
    is over. *)
Fixpoint rounds (fuel : nat) (rules : list Rule) : prog W (list Rule * bool) :=
  match fuel with
  | O => mret (rules, false)
  | S fuel =>
      '(rules, result) ← EventLoop.wait_next_event rules (-1);
      if bool_decide (result = EventLoop.Exit) then mret (rules, true) else rounds fuel rules
  end.

(** The program, for the first port at which its [for] loop starts. *)
Definition body_from (lower_port : Z) (fuel : nat) : prog W bool :=
  write_user [] ;;
  '(sockets, rules) ← open_pairs (pairs lower_port) lower_port [] [];
  '(rules, over) ← rounds fuel rules;
  mret over.
Definition program_body (fuel : nat) : prog W bool := body_from first_port fuel.

End Bouncer.
End Bouncer.

(** ** The abstract relay *)

(** The datagrams that pass through a program. *)
Inductive datagram_io :=
  | Got (fd : Z) (source : Address.t) (payload : string)
  | Put (fd : Z) (destination : Address.t) (payload : string).

(** The datagrams in a trace: what was received and what was sent. *)
Definition event_io (e : event) : list datagram_io :=
  match e with
  | Event _ r answer =>
      match r in request A return (positive + A) -> list datagram_io with
      | Recvfrom fd size => fun answer =>
          match answer with
          | inr (payload, (address, fromlen)) =>
              match Address.of_sockaddr address fromlen with
              | Ret source => [Got fd source payload]
              | Throw _ => []
              end
          | inl _ => []
          end
      | Sendmsg fd (Some name) iovecs => fun answer =>
          match answer with inr _ => [Put fd name (concat (iovecs.*1))] | inl _ => [] end
      | _ => fun _ => []
      end answer
  end.
Definition ios (trace : list event) : list datagram_io := concat (event_io <$> trace).

(** The descriptors of the sockets that a program opened, in order. *)
Definition event_opened (e : event) : list Z :=
  match e with
  | Event _ r answer =>
      match r in request A return (positive + A) -> list Z with
      | Socket_ _ _ => fun answer => match answer with inr fd => [fd] | inl _ => [] end
      | _ => fun _ => []
      end answer
  end.
Definition opened (trace : list event) : list Z := concat (event_opened <$> trace).

Module Relay.

(** The partner of a socket: they are paired by their numbers. *)
Definition partner (i : nat) : nat := if Nat.even i then S i else pred i.

Section Relay.
Context (fd_of : nat -> Z).

(** What the relay remembers when a datagram from [source] arrives at socket [i]. *)
Definition heard (ps : list (option Address.t)) (i : nat) (source : Address.t) : list (option Address.t) :=
  if match Bouncer.peer ps i with Some a => negb (Address.eqb a source) | None => true end
  then <[i := Some source]> ps else ps.

(** What it sends: the payload, from the partner, to the address heard there. *)
Definition forwarded (ps : list (option Address.t)) (i : nat) (payload : string) : list datagram_io :=
  match Bouncer.peer ps (partner i) with
  | Some a => if 0 <? zlen payload then [Put (fd_of (partner i)) a payload] else []
  | None => []
  end.

(** The states and the traffic that the relay can come to, from [n] sockets. *)
Inductive relayed (n : nat) : list (option Address.t) -> list datagram_io -> Prop :=
  | relayed_start : relayed n (replicate n None) []
  | relayed_step ps io i source payload :
      relayed n ps io -> (i < n)%nat ->
      relayed n (heard ps i source) (io ++ Got (fd_of i) source payload :: forwarded (heard ps i source) i payload).

End Relay.
End Relay.

(** ** The program is a relay *)

Module Relaying.
Import Bouncer Relay Descriptors Owners.

(** The resolver or the operating system can announce an address longer than the one
    it gives; copying it reads past its end. *)
Definition short_address (K : Type) `{Kernel K} `{NetDb} : Prop :=
  exists address len, zlen address < len /\
    ((exists node service hints, getaddrinfo node service hints = inr (Some (address, len)))
     \/ (exists k fd size k' payload, syscall _ k (Recvfrom fd size) = (k', inr (payload, (address, len))))
     \/ (exists k peer fd k', syscall _ k (Getname peer fd) = (k', inr (address, len)))).

(** The operating system can send less of a datagram than it was given. *)
Definition short_send (K : Type) `{Kernel K} : Prop :=
  exists k fd name payload k' n, syscall N k (Sendmsg fd name (BufferViewList.as_iovecs payload)) = (k', inr n)
    /\ Z.of_N n <> BufferViewList.size payload.

(** The exceptions of the program's own calls: an error of a system call, one of
    the exceptions that addresses and sockets throw, or such a read past the end. *)
Definition ordinary (K : Type) `{Kernel K} `{NetDb} (e : exn) : Prop :=
  is_unix_error e \/ e = runtime_error \/ e = invalid_argument \/ e = out_of_range
  \/ (e = undefined_behaviour /\ short_address K).

Section Ordinary.
Context {K : Type} `{Kernel K} `{NetDb}.

Lemma unix_ordinary code : ordinary K (unix_error code).
Proof. left. by exists code. Qed.
Lemma runtime_ordinary : ordinary K runtime_error.
Proof. right. by left. Qed.
#[local] Hint Resolve runtime_ordinary : core.

Lemma of_sockaddr_ordinary address len e :
  (zlen address < len -> short_address K) -> Address.of_sockaddr address len = Throw e -> ordinary K e.
Proof.
  intros Hs. unfold Address.of_sockaddr. case_if; [intros [= <-]; auto|]. case_if; [|done]. intros [= <-].
  do 4 right. split; [done|]. apply Hs. lia.
Qed.

Lemma to_string_ordinary a e : Address.to_string a = Throw e -> ordinary K e.
Proof.
  unfold Address.to_string, Address.ip_port. destruct (getnameinfo _ _ _) as [|[ip port]]; [intros [= <-]; auto|].
  unfold stoi. destruct (match skip_spaces port with Byte.x2d :: _ => _ | _ => _ end) as [neg s].
  destruct (span_digits s) as [d r]. unfold ordinary. repeat case_if; intros [= <-]; tauto.
Qed.
End Ordinary.
#[local] Hint Resolve unix_ordinary runtime_ordinary : core.

Section Steps.
Context {K C : Type} `{Kernel K} `{NetDb}.
Abbreviation W := (world K C).
Implicit Types (w : W).

(** Receiving a datagram: one read of the descriptor, one event. *)
Lemma recv_cases w p c mtu :
  heap w !! p = Some c ->
  match UDPSocket.recv p mtu w with
  | Ret (rec, w') =>
      user w' = user w /\ exists evs, touched p 1 0 w w' evs
        /\ ios evs = [Got (FDWrapper._fd (wrapper c)) (TCPOverUDPSocketAdapter.source_address rec)
                        (TCPOverUDPSocketAdapter.payload rec)]
        /\ opened evs = []
  | Throw e => ordinary K e
  end.
Proof.
  intros E. unfold UDPSocket.recv. erewrite bind_eq by (apply fd_num_eq; exact E).
  set (r := Recvfrom _ _). destruct (syscall _ (kernel w) r) as [k [code|[payload [address len]]]] eqn:Es.
  { erewrite bind_throw by (eapply SystemCall_throws; exact Es). apply unix_ordinary. }
  erewrite bind_eq by (eapply SystemCall_eq; exact Es). cbv beta iota. case_if; [exact runtime_ordinary|].
  erewrite bind_eq by (apply (register_read_eq _ p c); exact E). unfold lift.
  destruct (Address.of_sockaddr address len) as [src|e] eqn:Ea.
  - split; [done|]. eexists. split; [split; [done|done|]; by eexists c, _|]. unfold ios, opened. simpl. by rewrite Ea.
  - apply (of_sockaddr_ordinary address len); [|done]. intros Hl. exists address, len. split; [done|].
    right. left. by eexists (kernel w), _, _, k, payload.
Qed.

(** Sending one. *)
Lemma sendto_cases w p c a payload :
  heap w !! p = Some c ->
  match UDPSocket.sendto p a payload w with
  | Ret (_, w') =>
      user w' = user w /\ exists evs, touched p 0 1 w w' evs
        /\ ios evs = [Put (FDWrapper._fd (wrapper c)) a (concat payload)] /\ opened evs = [] /\ silent evs
  | Throw e => is_unix_error e \/ (e = runtime_error /\ short_send K)
  end.
Proof.
  intros E. unfold UDPSocket.sendto, UDPSocket.sendmsg_helper. erewrite bind_eq by (apply fd_num_eq; exact E).
  set (r := Sendmsg _ _ _). destruct (syscall _ (kernel w) r) as [k [code|n]] eqn:Ek.
  { unfold mbind, prog_bind. rewrite (SystemCall_throws _ _ _ _ Ek). left. by exists code. }
  pose proof (SystemCall_eq _ _ _ _ Ek) as Es. unfold mbind at 1, prog_bind at 1. rewrite (bind_eq _ _ _ _ _ Es).
  destruct (Z.eqb_spec (Z.of_N n) (BufferViewList.size payload)) as [En|En]; cbn [negb].
  2: { right. split; [done|]. by eexists (kernel w), _, _, payload, k, n. }
  cbn [mret prog_ret].
  rewrite (register_write_eq _ p c) by exact E.
  split; [done|]. eexists. split; [split; [done|done|]; by eexists c, _|].
  split; [|done]. unfold ios. cbn. by rewrite BufferViewList.iovecs_bytes.
Qed.

(** Asking for the local address passes no datagram. *)
Lemma local_address_cases w p c :
  heap w !! p = Some c ->
  match Socket.local_address p w with
  | Ret (_, w') => user w' = user w /\ exists evs, touched p 0 0 w w' evs /\ ios evs = [] /\ opened evs = []
  | Throw e => ordinary K e
  end.
Proof.
  intros E. unfold Socket.local_address, Socket.get_address. erewrite bind_eq by (apply fd_num_eq; exact E).
  set (r := Getname _ _). destruct (syscall _ (kernel w) r) as [k [code|[address len]]] eqn:Es.
  { erewrite bind_throw by (eapply SystemCall_throws; exact Es). apply unix_ordinary. }
  erewrite bind_eq by (eapply SystemCall_eq; exact Es). unfold lift.
  destruct (Address.of_sockaddr address len) as [a|e] eqn:Ea.
  2: { apply (of_sockaddr_ordinary address len); [|done]. intros Hl. exists address, len. split; [done|].
       right. right. by eexists (kernel w), _, _, k. }
  split; [done|]. eexists. split; [split; [done|done|]|done]. exists c, c. split; [done|]. split; [|done].
  symmetry. by apply insert_id.
Qed.

End Steps.

Lemma partner_partner i : partner (partner i) = i.
Proof.
  unfold partner. destruct (Nat.even i) eqn:E.
  - by rewrite Nat.even_succ, <- Nat.negb_even, E.
  - destruct i as [|i]; [done|]. simpl. by rewrite Nat.even_succ, <- Nat.negb_even in E; apply negb_false_iff in E as ->.
Qed.

Lemma partner_lt i n : Nat.Even n -> (i < n)%nat -> (partner i < n)%nat.
Proof.
  intros [m ->] Hi. unfold partner. destruct (Nat.even i) eqn:E; [|lia].
  apply Nat.even_spec in E as [j ->]. lia.
Qed.

Section Relaying.
Context {K : Type} `{Kernel K} `{NetDb}.
Abbreviation W := (world K peers).
Abbreviation Rule := (EventLoop.Rule K peers).
Implicit Types (w : W) (rules : list Rule).

(** The sockets, their descriptors, and the calls made before. *)
Context (socks : list Socket.t) (fds : list Z) (t0 : list event).

Definition fd_of (i : nat) : Z := nth i fds 0.

Definition a_rule (r : Rule) : Prop :=
  exists i x y, socks !! i = Some x /\ socks !! partner i = Some y /\ r = rule x y i (partner i).

Record sockets_ok rules w : Prop := {
  so_even : Nat.Even (length socks);
  so_live : forall i p, socks !! i = Some p -> live rules w p (fd_of i);
  so_distinct : NoDup socks;
  so_rules : forall r, r ∈ rules -> a_rule r
}.

Record inv rules w : Prop := {
  inv_sockets : sockets_ok rules w;
  inv_peers : length (user w) = length socks;
  inv_trace : exists evs, trace w = t0 ++ evs /\ opened evs = fds /\ relayed fd_of (length socks) (user w) (ios evs)
}.

Lemma ios_app e e' : ios (e ++ e') = ios e ++ ios e'.
Proof. unfold ios. by rewrite fmap_app, concat_app. Qed.
Lemma opened_app e e' : opened (e ++ e') = opened e ++ opened e'.
Proof. unfold opened. by rewrite fmap_app, concat_app. Qed.

Lemma heard_length ps i a : length (heard ps i a) = length ps.
Proof. unfold heard. case_if; [apply length_insert|done]. Qed.

(** A step on one descriptor leaves the sockets as they are. *)
Lemma sockets_touched rules w w' p nr nw evs :
  touched p nr nw w w' evs -> sockets_ok rules w -> sockets_ok rules w'.
Proof.
  intros T [He Hl Hd Hr]. split; [done| |done|done]. intros i q Eq. eapply live_touched; [exact T|by apply Hl].
Qed.

Lemma sockets_user rules w u : sockets_ok rules w -> sockets_ok rules (set_user w u).
Proof. intros [He Hl Hd Hr]. by split. Qed.

(** The part of the callback that remembers the address. *)
Lemma remember_cases rules w x ix c source :
  heap w !! x = Some c ->
  match (if match peer (user w) ix with Some a => negb (Address.eqb a source) | None => true end
         then write_user (<[ix := Some source]> (user w)) ;;
              local ← Socket.local_address x;
              _ ← lift (Address.to_string local);
              _ ← lift (Address.to_string source);
              mret tt
         else mret tt) w with
  | Ret (_, w') => user w' = heard (user w) ix source /\ exists evs, touched x 0 0 w w' evs /\ ios evs = [] /\ opened evs = []
  | Throw e => ordinary K e
  end.
Proof.
  intros E. unfold heard. case_if.
  2: { split; [done|]. exists []. split; [|done]. by apply (touched_refl x w c). }
  set (w1 := set_user w (<[ix := Some source]> (user w))). erewrite bind_eq by reflexivity. fold w1.
  pose proof (local_address_cases w1 x c E) as Hl.
  destruct (Socket.local_address x w1) as [[local w2]|e] eqn:El; [|by rewrite (bind_throw _ _ _ _ El)].
  rewrite (bind_eq _ _ _ _ _ El). destruct Hl as (Hu & evs & T & Hio).
  unfold lift. destruct (Address.to_string local) as [s|e] eqn:E1; [|by apply (to_string_ordinary local)].
  unfold mbind at 1, prog_bind at 1. cbn. destruct (Address.to_string source) as [s'|e] eqn:E2; cbn;
    [|by apply (to_string_ordinary source)].
  split; [done|]. exists evs. split; [|done].
  by apply (touched_trans x 0 0 0 0 w w1 w2 [] evs); [by eapply touched_user|].
Qed.

(** The part that forwards the payload. *)
Lemma forward_cases rules w i y payload :
  sockets_ok rules w -> socks !! partner i = Some y ->
  match (match peer (user w) (partner i) with
         | Some a => if 0 <? zlen payload then UDPSocket.sendto y a (BufferViewList.of_string payload) else mret tt
         | None => mret tt
         end) w with
  | Ret (_, w') =>
      user w' = user w /\ exists nw evs, touched y 0 nw w w' evs /\ ios evs = forwarded fd_of (user w) i payload
        /\ opened evs = []
  | Throw e => ordinary K e
  end.
Proof.
  intros Hs Ey. destruct (so_live _ _ Hs _ _ Ey) as (c & Ec & Ef & _). unfold forwarded.
  assert (touched y 0 0 w w []) as T0 by (by apply (touched_refl y w c)).
  destruct (peer (user w) (partner i)) as [a|]; [|by split; [done|]; exists 0%nat, []].
  destruct (0 <? zlen payload); [|by split; [done|]; exists 0%nat, []].
  pose proof (sendto_cases w y c a (BufferViewList.of_string payload) Ec) as Hc.
  destruct (UDPSocket.sendto y a _ w) as [[[] w']|e]; [|destruct Hc as [[code ->]|[-> _]]; auto].
  destruct Hc as (Hu & evs & T & Hio & Hop & _). split; [done|]. exists 1%nat, evs. split; [done|].
  rewrite Hio, Ef. cbn [BufferViewList.of_string concat]. by rewrite app_nil_r.
Qed.

Lemma bounce_inv rules i x y w :
  inv rules w -> socks !! i = Some x -> socks !! partner i = Some y ->
  match bounce x y i (partner i) w with
  | Ret (_, w') => inv rules w' /\ Loop.progress (rule x y i (partner i)) w w'
  | Throw e => ordinary K e
  end.
Proof.
  intros Hi Ex Ey. pose proof (inv_sockets _ _ Hi) as Hs. destruct (so_live _ _ Hs _ _ Ex) as (c & Ec & Ef & _).
  unfold bounce. pose proof (recv_cases w x c UDPSocket.default_mtu Ec) as Hr.
  destruct (UDPSocket.recv x _ w) as [[rec w1]|e] eqn:Er; [|by rewrite (bind_throw _ _ _ _ Er)].
  rewrite (bind_eq _ _ _ _ _ Er). destruct Hr as (Hu1 & evs1 & T1 & Hio1 & Hop1).
  set (source := TCPOverUDPSocketAdapter.source_address rec) in *. set (payload := TCPOverUDPSocketAdapter.payload rec) in *.
  erewrite bind_eq by reflexivity. destruct (touched_live _ _ _ _ _ _ _ T1 Ec) as (c1 & Ec1 & _).
  pose proof (remember_cases rules w1 x i c1 source Ec1) as Hm.
  match goal with |- match (?m ≫= _) w1 with _ => _ end =>
    change (match m w1 with Ret (_, w') => user w' = heard (user w1) i source /\ exists evs, touched x 0 0 w1 w' evs /\ ios evs = [] /\ opened evs = []
            | Throw e => ordinary K e end) in Hm; destruct (m w1) as [[[] w2]|e] eqn:Em end;
    [|by rewrite (bind_throw _ _ _ _ Em)].
  rewrite (bind_eq _ _ _ _ _ Em). destruct Hm as (Hu2 & evs2 & T2 & Hio2 & Hop2). rewrite Hu1 in Hu2.
  pose proof (touched_trans _ _ _ _ _ _ _ _ _ _ T1 T2) as T12. simpl in T12.
  erewrite bind_eq by reflexivity. pose proof (sockets_touched _ _ _ _ _ _ _ T12 Hs) as Hs2.
  pose proof (forward_cases rules w2 i y payload Hs2 Ey) as Hf.
  match goal with |- match ?m w2 with _ => _ end => destruct (m w2) as [[[] w3]|e] eqn:Ef2 end; [|done].
  destruct Hf as (Hu3 & nw & evs3 & T3 & Hio3 & Hop3). split.
  - split; [by eapply sockets_touched|by rewrite Hu3, Hu2, heard_length; apply Hi|].
    destruct (inv_trace _ _ Hi) as (evs & Et & Hop & Hrel). exists (evs ++ (evs1 ++ evs2) ++ evs3).
    split; [by rewrite (tc_trace _ _ _ _ _ _ T3), (tc_trace _ _ _ _ _ _ T12), Et, !app_assoc|].
    split; [by rewrite !opened_app, Hop1, Hop2, Hop3, Hop, app_nil_r|].
    rewrite !ios_app, Hio1, Hio2, Hio3, Hu3, Hu2, Ef. cbn [app]. apply relayed_step; [done|].
    apply lookup_lt_is_Some_1. by exists x.
  - left. destruct T12 as [_ _ (d & d' & Ld & Ud & _ & _ & Rd & _)]. destruct T3 as [_ _ (f & f' & Lf & Uf & _)].
    assert (x <> y) as Hxy.
    { intros <-. pose proof (NoDup_lookup _ _ _ _ (so_distinct _ _ Hs) Ex Ey) as Hp. unfold partner in Hp.
      destruct (Nat.even i) eqn:Ei; [lia|]. destruct i; [done|simpl in Hp; lia]. }
    exists (FDWrapper._read_count (wrapper d)), (FDWrapper._read_count (wrapper d')).
    unfold EventLoop.service_count, FileDescriptor.read_count. cbn [rule EventLoop.direction EventLoop.fd]. split_and!.
    + by erewrite bind_eq by (apply internal_fd_eq; exact Ld).
    + erewrite bind_eq; [done|]. apply internal_fd_eq. by rewrite Uf, lookup_insert_ne, Ud, lookup_insert_eq.
    + rewrite Rd. intros E. symmetry in E. revert E. apply bumps_neq; lia.
Qed.

Lemma bouncer_client : Loop.client inv (ordinary K).
Proof.
  split.
  - intros rules w k fds' timeout answer [[He Hl Hd Hr] Hp (evs & Et & Hop & Hrel)].
    split; [by split|done|]. simpl. exists (evs ++ [Event (list Z) (Poll fds' timeout) answer]).
    rewrite Et, app_assoc. split; [done|]. by rewrite ios_app, opened_app, !app_nil_r.
  - intros rules r w Hi Hr. destruct (so_rules _ _ (inv_sockets _ _ Hi) r Hr) as (i & x & y & Ex & _ & ->).
    destruct (so_live _ _ (inv_sockets _ _ Hi) _ _ Ex) as (c & E & _). by exists c.
  - intros rules r Hr w Hi. destruct (so_rules _ _ (inv_sockets _ _ Hi) r Hr) as (i & x & y & _ & _ & ->). exact Hi.
  - intros rules r w Hr Hi. destruct (so_rules _ _ (inv_sockets _ _ Hi) r Hr) as (i & x & y & Ex & Ey & ->).
    pose proof (bounce_inv rules i x y w Hi Ex Ey) as Hb. cbn [rule EventLoop.callback].
    destruct (bounce x y i (partner i) w) as [[[] w']|e]; [|done]. destruct Hb. by split; [|left].
  - intros pre r post w Hi. pose proof (inv_sockets _ _ Hi) as Hs.
    destruct (so_rules _ _ Hs r (in_middle r pre post)) as (i & x & y & Ex & Ey & ->).
    destruct (release_rule pre (rule x y i (partner i)) post w (fd_of i)) as (c & E & Er); [by apply (so_live _ _ Hs)|].
    unfold EventLoop.drop_rule. erewrite bind_eq by reflexivity. rewrite Er.
    destruct Hi as [[He Hl Hd Hr] Hp Ht]. split; [split; [done| |done|]|done|done].
    + intros j p Ej. apply (live_release pre (rule x y i (partner i)) post w p (fd_of j) c); [by apply Hl|done].
    + intros r' Hin. apply Hr. revert Hin. rewrite !elem_of_app, elem_of_cons. tauto.
Qed.

Lemma rounds_inv fuel rules :
  spec (inv rules) (rounds fuel rules) (fun '(rules', _) w => inv rules' w) (fun e => ordinary K e \/ polled_error K e).
Proof.
  revert rules. induction fuel as [|fuel IH]; intros rules; simpl; [by apply spec_ret|].
  eapply spec_bind; [apply (Loop.wait_next_event_spec _ _ bouncer_client)|].
  intros [rules' result].
  eapply (spec_weaken (inv rules') _ _ (fun '(rules'', _) w => inv rules'' w)
    _ (fun e => ordinary K e \/ polled_error K e)); [|by intros w [? ?]|by intros []|done].
  apply spec_if; intros _; [by apply spec_ret|apply IH].
Qed.

End Relaying.

(** ** Opening the sockets *)

Section Opening.
Context {K : Type} `{Kernel K} `{NetDb}.
Abbreviation W := (world K peers).
Abbreviation Rule := (EventLoop.Rule K peers).
Implicit Types (w : W) (rules : list Rule).
Context (t0 : list event).

(** While the sockets are opened nothing is heard and nothing passes. *)
Record opening (socks : list Socket.t) (fds : list Z) rules w : Prop := {
  op_sockets : sockets_ok socks fds rules w;
  op_fds : length fds = length socks;
  op_user : user w = replicate (length socks) None;
  op_trace : exists evs, trace w = t0 ++ evs /\ ios evs = [] /\ opened evs = fds;
  op_fresh : forall p, is_Some (heap w !! p) -> (p < next_pointer w)%nat
}.

Lemma opening_call socks fds rules w k evs :
  ios evs = [] -> opened evs = [] -> opening socks fds rules w ->
  opening socks fds rules (World k (trace w ++ evs) (heap w) (next_pointer w) (user w)).
Proof.
  intros Hio Hop [[He Hl Hd Hr] Hf Hu (evs0 & Et & Hio0 & Hop0) Hfr]. split; [by split|done|done| |done].
  exists (evs0 ++ evs). simpl. by rewrite Et, app_assoc, ios_app, opened_app, Hio0, Hio, Hop0, Hop, !app_nil_r.
Qed.

Lemma udp_new_cases w :
  match UDPSocket.new w with
  | Ret (p, w') =>
      p = next_pointer w /\ exists k n evs, (ios evs = [] /\ opened evs = [n])
        /\ w' = World k (trace w ++ evs) (<[p := mk_cell (FDWrapper.mk n false false 0 0) 1]> (heap w))
                  (S (next_pointer w)) (user w)
  | Throw e => ordinary K e
  end.
Proof.
  unfold UDPSocket.new, Socket.new. destruct (SystemCall_cases (Socket_ AF_INET SOCK_DGRAM) w) as [[code E]|(k & n & E)].
  { rewrite (bind_throw _ _ _ _ E). auto. }
  rewrite (bind_eq _ _ _ _ _ E). destruct (Z.lt_ge_cases n 0) as [Hn|Hn].
  - unfold FileDescriptor.new, FDWrapper.new. rewrite (proj2 (Z.ltb_lt _ _)) by done. exact runtime_ordinary.
  - rewrite new_eq by done. split; [done|]. by exists k, n, [Event Z (Socket_ AF_INET SOCK_DGRAM) (inr n)].
Qed.

Lemma fd_of_app fds fds' i : (i < length fds)%nat -> fd_of (fds ++ fds') i = fd_of fds i.
Proof. intros Hi. unfold fd_of. by apply app_nth1. Qed.

(** Two new descriptors make a pair. *)
Lemma opening_pair socks fds rules w k evs nx ny :
  opening socks fds rules w -> ios evs = [] -> opened evs = [nx; ny] ->
  let x := next_pointer w in
  opening (socks ++ [x; S x]) (fds ++ [nx; ny]) rules
    (World k (trace w ++ evs)
       (<[S x := mk_cell (FDWrapper.mk ny false false 0 0) 1]> (<[x := mk_cell (FDWrapper.mk nx false false 0 0) 1]> (heap w)))
       (S (S x)) (user w ++ [None; None])).
Proof.
  intros [[He Hl Hd Hr] Hf Hu (evs0 & Et & Hio0 & Hop0) Hfr] Hio Hop x.
  assert (forall i p, socks !! i = Some p -> (p < x)%nat) as Hlt.
  { intros i p Ep. destruct (Hl i p Ep) as (c & Ec & _). apply Hfr. by exists c. }
  assert (forall p, (x <= p)%nat -> rule_handles p rules = 0) as Hno.
  { intros p Hp. unfold rule_handles. rewrite zlen_zero_nil.
    destruct (filter _ rules) as [|r l] eqn:Efl; [done|]. exfalso.
    assert (r ∈ filter (fun r => EventLoop.fd r = p) rules) as Hin by (rewrite Efl; left).
    apply list_elem_of_filter in Hin as [Er Hin]. destruct (Hr r Hin) as (i & a & b & Ea & _ & ->).
    simpl in Er. specialize (Hlt i a Ea). lia. }
  assert (length (socks ++ [x; S x]) = S (S (length socks))) as Elen by (rewrite length_app; simpl; lia).
  split; [split| | | |].
  - rewrite Elen. destruct He as [m ->]. exists (S m). lia.
  - intros i p Ep. apply lookup_app_Some in Ep as [Ep|[Hi Ep]].
    + pose proof (lookup_lt_Some _ _ _ Ep). rewrite fd_of_app by lia. specialize (Hlt i p Ep).
      destruct (Hl i p Ep) as (c & Ec & Hc). exists c. simpl. by rewrite !lookup_insert_ne by lia.
    + unfold fd_of. rewrite app_nth2, Hf by lia.
      destruct (i - length socks)%nat as [|[|]]; simplify_eq/=; eexists; cbn [heap].
      * rewrite lookup_insert_ne, lookup_insert_eq by lia. split_and!; [done|done|simpl; rewrite Hno; lia].
      * rewrite lookup_insert_eq. split_and!; [done|done|simpl; rewrite Hno; lia].
  - apply NoDup_app. split; [done|]. split.
    + intros p Hp Hin. apply list_elem_of_lookup in Hp as (i & Ep). specialize (Hlt i p Ep).
      apply elem_of_cons in Hin as [->|Hin]; [lia|]. apply list_elem_of_singleton in Hin. lia.
    + apply NoDup_cons. split; [|apply NoDup_singleton]. rewrite list_elem_of_singleton. lia.
  - intros r Hin. destruct (Hr r Hin) as (i & a & b & Ea & Eb & ->). exists i, a, b.
    split; [by apply lookup_app_l_Some|]. split; [by apply lookup_app_l_Some|done].
  - rewrite !length_app. simpl. lia.
  - cbn [user]. rewrite Elen, Hu. replace (S (S (length socks))) with (length socks + 2)%nat by lia. by rewrite replicate_add.
  - exists (evs0 ++ evs). simpl. by rewrite Et, app_assoc, ios_app, opened_app, Hio0, Hio, Hop0, Hop.
  - simpl. intros p Hp. destruct (decide (p = S x)) as [->|H1]; [lia|]. rewrite lookup_insert_ne in Hp by done.
    destruct (decide (p = x)) as [->|H2]; [lia|]. rewrite lookup_insert_ne in Hp by done. specialize (Hfr p Hp). lia.
Qed.

(** Adding the rule of a socket. *)
Lemma opening_rule socks fds rules w r :
  opening socks fds rules w -> a_rule socks r ->
  exists w', add_rule rules r w = Ret (rules ++ [r], w') /\ opening socks fds (rules ++ [r]) w'.
Proof.
  intros [[He Hl Hd Hr] Hf Hu Ht Hfr] Ha. pose proof Ha as (i & x & y & Ex & _ & Er).
  assert (live rules w (EventLoop.fd r) (fd_of fds i)) as Hlr by (rewrite Er; by apply Hl).
  destruct (add_rule_eq rules r w _ Hlr) as (w' & E & Et & Eu & En & Hlive).
  exists w'. split; [exact E|]. split; [split; [done| |done|]|done|by rewrite Eu|by rewrite Et|].
  - intros j p Ej. apply Hlive. by apply Hl.
  - intros r' [Hin|Hin]%elem_of_app; [by apply Hr|]. apply list_elem_of_singleton in Hin. by subst.
  - intros p Hp. rewrite En. apply Hfr. revert Hp. unfold add_rule, EventLoop.add_rule in E.
    destruct Hlr as (c & Ec & _). rewrite (bind_eq _ _ _ _ _ (duplicate_eq _ _ _ Ec)) in E. injection E as _ <-.
    simpl. destruct (decide (p = EventLoop.fd r)) as [->|Hne]; [by rewrite Ec|by rewrite lookup_insert_ne].
Qed.

Lemma of_ip_ordinary host port e : Address.of_ip host port = Throw e -> ordinary K e.
Proof.
  unfold Address.of_ip, Address.of_node. destruct (getaddrinfo _ _ _) as [|[[s n]|]] eqn:E; [intros [= <-]; auto| |intros [= <-]; auto].
  apply of_sockaddr_ordinary. intros Hl. exists s, n. split; [done|]. left. by eexists _, _, _.
Qed.

(** Binding passes nothing. *)
Lemma opening_bind socks fds rules p a :
  p ∈ socks -> spec (opening socks fds rules) (Socket.bind p a) (fun _ w => opening socks fds rules w) (ordinary K).
Proof.
  intros (i & Ep)%list_elem_of_lookup w Hw. destruct (so_live _ _ _ _ (op_sockets _ _ _ _ Hw) _ _ Ep) as (c & Ec & _).
  unfold Socket.bind. rewrite (bind_eq _ _ _ _ _ (fd_num_eq _ _ _ Ec)).
  destruct (SystemCall_cases (Bind (FDWrapper._fd (wrapper c)) a) w) as [[code ->]|(k & [] & ->)]; [auto|].
  by apply opening_call.
Qed.

Lemma opening_address socks fds rules host port :
  spec (opening socks fds rules) (lift (Address.of_ip host port)) (fun _ w => opening socks fds rules w) (ordinary K).
Proof.
  intros w Hw. unfold lift. destruct (Address.of_ip host port) eqn:E; [done|]. by apply (of_ip_ordinary host port).
Qed.

Lemma open_pair_spec port socks fds rules w :
  opening socks fds rules w ->
  match open_pair port socks rules w with
  | Ret ((socks', rules'), w') => length socks' = S (S (length socks)) /\ exists fds', opening socks' fds' rules' w'
  | Throw e => ordinary K e
  end.
Proof.
  intros Hw. unfold open_pair. pose proof (udp_new_cases w) as Hx.
  destruct (UDPSocket.new w) as [[x w1]|e] eqn:Ex; [|by rewrite (bind_throw _ _ _ _ Ex)].
  rewrite (bind_eq _ _ _ _ _ Ex). pose proof (udp_new_cases w1) as Hy.
  destruct (UDPSocket.new w1) as [[y w2]|e] eqn:Ey; [|by rewrite (bind_throw _ _ _ _ Ey)].
  rewrite (bind_eq _ _ _ _ _ Ey). clear Ex Ey. destruct Hx as (-> & k1 & nx & evs1 & [Hio1 Hop1] & ->).
  destruct Hy as (-> & k2 & ny & evs2 & [Hio2 Hop2] & ->). cbn [next_pointer trace heap user] in *.
  do 2 (erewrite bind_eq by reflexivity). unfold set_user. cbn [kernel trace heap next_pointer user].
  pose proof (opening_pair socks fds rules w k2 (evs1 ++ evs2) nx ny Hw ltac:(by rewrite ios_app, Hio1, Hio2)
    ltac:(by rewrite opened_app, Hop1, Hop2)) as Ho.
  cbn zeta in Ho. rewrite app_assoc in Ho. set (x := next_pointer w) in *. set (socks' := socks ++ [x; S x]) in *.
  set (fds' := fds ++ [nx; ny]) in *. set (w3 := World k2 _ _ _ _) in *. clearbody w3.
  assert (socks' !! length socks = Some x /\ socks' !! S (length socks) = Some (S x)) as [Lx Ly].
  { unfold socks'. rewrite !lookup_app_r by lia. rewrite Nat.sub_diag, Nat.sub_succ_l, Nat.sub_diag by lia. done. }
  assert (partner (length socks) = S (length socks)) as Ep.
  { unfold partner. destruct (so_even _ _ _ _ (op_sockets _ _ _ _ Hw)) as [m ->]. by rewrite Nat.even_even. }
  assert (a_rule socks' (rule (K := K) x (S x) (length socks) (S (length socks)))) as R1.
  { exists (length socks), x, (S x). by rewrite Ep. }
  assert (a_rule socks' (rule (K := K) (S x) x (S (length socks)) (length socks))) as R2.
  { exists (S (length socks)), (S x), x. assert (partner (S (length socks)) = length socks) as -> by (rewrite <- Ep; apply partner_partner). done. }
  match goal with |- match ?m w3 with _ => _ end =>
    assert (spec (opening socks' fds' rules) m (fun r w' => fst r = socks' /\ opening socks' fds' (snd r) w') (ordinary K)) as Hm end.
  { eapply spec_bind; [apply opening_address|]. intros ax.
    eapply spec_bind; [apply opening_bind; by apply (list_elem_of_lookup_2 _ _ _ Lx)|]. intros [].
    eapply spec_bind; [apply opening_address|]. intros ay.
    eapply spec_bind; [apply opening_bind; by apply (list_elem_of_lookup_2 _ _ _ Ly)|]. intros [].
    intros w4 H4. destruct (opening_rule _ _ _ _ _ H4 R1) as (w5 & E5 & H5). rewrite (bind_eq _ _ _ _ _ E5).
    destruct (opening_rule _ _ _ _ _ H5 R2) as (w6 & E6 & H6). by rewrite (bind_eq _ _ _ _ _ E6). }
  specialize (Hm w3 Ho). match goal with |- match ?m w3 with _ => _ end => destruct (m w3) as [[[s' r'] w']|e] end; [|done].
  destruct Hm as [Es Hm]. simpl in Es, Hm. subst s'. split; [unfold socks'; rewrite length_app; simpl; lia|by exists fds'].
Qed.

(** The [for] loop opens all its pairs within its fuel. *)
Lemma open_pairs_spec fuel port socks fds rules w :
  opening socks fds rules w -> 0 <= port -> last_port - port < 2 * Z.of_nat fuel ->
  match open_pairs fuel port socks rules w with
  | Ret ((socks', rules'), w') =>
      (exists fds', opening socks' fds' rules' w')
      /\ Z.of_nat (length socks') = Z.of_nat (length socks) + 2 * Z.max 0 ((last_port - port) / 2 + 1)
  | Throw e => ordinary K e
  end.
Proof.
  revert port socks fds rules w. induction fuel as [|fuel IH]; intros port socks fds rules w Hw Hp Hf; cbn [open_pairs].
  { rewrite (proj2 (Z.ltb_lt _ _)) by lia. split; [by exists fds|]. Z.to_euclidean_division_equations. lia. }
  unfold last_port in *. case_if; [split; [by exists fds|]; Z.to_euclidean_division_equations; lia|].
  pose proof (open_pair_spec port socks fds rules w Hw) as Hs.
  destruct (open_pair port socks rules w) as [[[socks1 rules1] w1]|e] eqn:E; [|by rewrite (bind_throw _ _ _ _ E)].
  rewrite (bind_eq _ _ _ _ _ E). destruct Hs as (Hl & fds1 & H1).
  rewrite uint16_small by (unfold is_u16; lia). specialize (IH (port + 2) socks1 fds1 rules1 w1 H1 ltac:(lia) ltac:(lia)).
  destruct (open_pairs fuel (port + 2) socks1 rules1 w1) as [[[socks' rules'] w']|e]; [|done].
  destruct IH as [Ho Hn]. split; [done|]. rewrite Hn, Hl. Z.to_euclidean_division_equations. lia.
Qed.

End Opening.
End Relaying.

(** C15: the bouncer is a relay. From a program that has no descriptor yet, whatever
    the operating system and the resolver answer and after any number of rounds, the
    program has opened a pair of sockets for every second port from the first to
    64000 (62978 sockets from 1024, where the program starts), and the datagrams
    that were received and sent through those descriptors, in the order in which
    they were opened, are those of the abstract relay: each goes out once, at once,
    from the partner of the socket it came in at, to the address last heard from
    there, and empty ones only teach an address. An exception is the error of a
    system call, an error that [poll] reports on a descriptor, or one of the
    exceptions of addresses and sockets; an access out of bounds is only possible
    where the system or the resolver announces more bytes of an address than it
    gives. So the loop never reports a busy wait and the opening loop ends within
    its count. *)
Theorem bouncer_relays {K} `{Kernel K} `{NetDb} (k : K) (port : Z) (fuel : nat) :
  0 <= port <= Bouncer.last_port ->
  match Bouncer.body_from port fuel (World k [] ∅ 0 []) with
  | Ret (_, w') =>
      let fds := opened (trace w') in
      Z.of_nat (length fds) = 2 * ((Bouncer.last_port - port) / 2 + 1)
      /\ Relay.relayed (fun i => nth i fds 0) (length fds) (user w') (ios (trace w'))
  | Throw e => Relaying.ordinary K e \/ polled_error K e
  end.
Proof.
  intros Hport. unfold Bouncer.body_from. set (w0 := World k [] ∅ 0%nat []).
  erewrite Descriptors.bind_eq by reflexivity. change (set_user w0 []) with w0.
  assert (Relaying.opening [] [] [] [] w0) as Hw0.
  { split; [split|done|done|by exists []|].
    - by exists 0%nat.
    - by intros i p Ep.
    - constructor.
    - intros r Hr. by apply elem_of_nil in Hr.
    - intros p [c Hc]. simpl in Hc. by rewrite lookup_empty in Hc. }
  assert (Bouncer.last_port - port < 2 * Z.of_nat (Bouncer.pairs port)) as Hfuel.
  { unfold Bouncer.pairs. Z.to_euclidean_division_equations. lia. }
  pose proof (Relaying.open_pairs_spec [] (Bouncer.pairs port) port [] [] [] w0 Hw0 ltac:(lia) Hfuel) as Ho.
  destruct (Bouncer.open_pairs _ _ _ _ w0) as [[[socks rules] w1]|e] eqn:Eo;
    [|rewrite (Descriptors.bind_throw _ _ _ _ Eo); by left].
  rewrite (Descriptors.bind_eq _ _ _ _ _ Eo). destruct Ho as [(fds & [Hs Hf Hu (evs & Et & Hio & Hop) _]) Hn].
  assert (Relaying.inv socks fds [] rules w1) as Hi.
  { split; [done|by rewrite Hu, length_replicate|]. exists evs. rewrite Hio, Hu. split_and!; [done|done|constructor]. }
  pose proof (Relaying.rounds_inv socks fds [] fuel rules w1 Hi) as Hr.
  destruct (Bouncer.rounds fuel rules w1) as [[[rules' over] w2]|e] eqn:Er; [|by rewrite (Descriptors.bind_throw _ _ _ _ Er)].
  rewrite (Descriptors.bind_eq _ _ _ _ _ Er).
  destruct (Relaying.inv_trace _ _ _ _ _ Hr) as (evs' & Et' & Hop' & Hrel).
  change ([] ++ evs') with evs' in Et'. cbn [mret prog_ret]. cbv zeta. rewrite Et', Hop', Hf. split; [|exact Hrel].
  rewrite Hn. simpl. Z.to_euclidean_division_equations. lia.
Qed.

(** ** An example

    A kernel with a queue of datagrams that arrive one after the other. *)

Record post_office := mk_post { next_fd : Z; queue : list (Z * string * Address.t) }.

#[local] Instance post_kernel : Kernel post_office := fun A k r =>
  match r in request A return post_office * (positive + A) with
  | Socket_ domain type => (mk_post (next_fd k + 1) (queue k), inr (next_fd k))
  | Bind fd address => (k, inr tt)
  | Poll fds timeout_ms =>
      (k, match queue k with
          | (fd, _, _) :: _ => inr ((fun x => if pfd_fd x =? fd then 1 else 0) <$> fds)
          | [] => inl EventLoop.EINTR
          end)
  | Recvfrom fd size =>
      match queue k with
      | (_, payload, a) :: rest => (mk_post (next_fd k) rest, inr (payload, (Address.storage a, Address._size a)))
      | [] => (k, inl 11%positive)
      end
  | Getname peer fd => (k, inr (Address.storage (Address.ipv4 0 0), 16))
  | Sendmsg fd name iovecs => (k, inr (N.of_nat (length (concat (iovecs.*1)))))
  | _ => (k, inl 38%positive)
  end.

#[local] Instance any_db : NetDb := {|
  getaddrinfo node service hints := inr (Some (sockaddr_in AF_INET (dec_value service) 0, sizeof_sockaddr_in));
  getnameinfo addr size flags := inr (dotted_quad (be_value (slice addr 4 4)), std_to_string (be_value (slice addr 2 2)));
  inet_ntoa := dotted_quad
|}.

Definition post_example : post_office :=
  let a := Address.ipv4 0x0a000001 1000 in
  let b := Address.ipv4 0x0a000002 2000 in
  mk_post 3 [(3, [], a); (4, chars "hello", b); (3, chars "hi", a)].

(** The last pair: the first end says where it is, then each sends to the other. *)
Definition bouncer_start : world post_office Bouncer.peers := World post_example [] ∅ 0%nat [].
Definition bouncer_end : world post_office Bouncer.peers :=
  match Bouncer.body_from Bouncer.last_port 4 bouncer_start with Ret (_, w) => w | Throw _ => bouncer_start end.

Example bouncer_example :
  Bouncer.body_from Bouncer.last_port 4 bouncer_start = Ret (true, bouncer_end)
  /\ opened (trace bouncer_end) = [3; 4]
  /\ ios (trace bouncer_end)
     = [Got 3 (Address.ipv4 0x0a000001 1000) [];
        Got 4 (Address.ipv4 0x0a000002 2000) (chars "hello"); Put 3 (Address.ipv4 0x0a000001 1000) (chars "hello");
        Got 3 (Address.ipv4 0x0a000001 1000) (chars "hi"); Put 4 (Address.ipv4 0x0a000002 2000) (chars "hi")].
Proof. vm_compute. done. Qed.

Lemma bouncer_relays_witness :
  Bouncer.body_from Bouncer.last_port 4 bouncer_start = Ret (true, bouncer_end)
  /\ opened (trace bouncer_end) = [3; 4] /\ length (ios (trace bouncer_end)) = 5%nat
  /\ Relay.relayed (fun i => nth i [3; 4] 0) 2 (user bouncer_end) (ios (trace bouncer_end)).
Proof.
  destruct bouncer_example as (E & Ho & Hio).
  pose proof (bouncer_relays post_example Bouncer.last_port 4 ltac:(unfold Bouncer.last_port; lia)) as Hw.
  fold bouncer_start in Hw. rewrite E in Hw. cbv zeta in Hw. rewrite Ho in Hw.
  split; [exact E|]. split; [exact Ho|]. split; [by rewrite Hio|]. exact (proj2 Hw).
Defined.
