(* ===== verification/Lab7.v ===== *)
(** * The end-to-end program (apps/lab7.cc)

    A client or a server on a private network: a TCP socket whose segments travel in
    Ethernet frames over a pipe ([NetworkInterfaceAdapter]) to a router in the same
    process, which is connected to the other program's router by a UDP relay.  One
    thread runs the socket (TCPSpongeSocket.v), one the network: its variables are
    the router, and it shares with the socket only the pipe.

    Shown: the network thread is its router.  Every frame that it takes from the
    pipe or from the relay is given to the interface of that side, the router then
    routes, and what leaves on each side are the frames of that side's interface,
    in order, each once. *)

From S2P Require Import Prelude WrappingIntegers UtilBuffer Parser Checksum Codec TCPSegment IPv4Datagram EthernetFrame Address NetworkInterface.
From S2P Require Import Router FdAdapter TCPReceiver TCPSender TCPConnection Exceptions FileDescriptor Socket EventLoop TCPSpongeSocket FullStackSocket Text UdpTcpdump CommandLine Apps Bouncer.

(** ** Random Ethernet addresses *)

(** The six bytes that the generator gave, made private. *)
Definition random_host_ethernet_address (random : list byte) : EthernetAddress :=
  match random with
  | b :: rest => FullStackSocket.private_byte b :: rest
  | [] => []
  end.
Definition random_router_ethernet_address (random : list byte) : EthernetAddress :=
  [Byte.x02; Byte.x00; Byte.x00] ++ drop 3 random.

(** ** The text of a frame *)

Definition summary `{NetDb} (frame : EthernetFrame.t) : outcome string :=
  let ret := ethernet_header_to_string (EthernetFrame.header frame) in
  let type := EthernetHeader.type (EthernetFrame.header frame) in
  if type =? EthernetHeader.TYPE_IPv4 then
    '(r, dgram) ← IPv4Datagram.parse IPv4Datagram.default
                    (Buffer.of_string (BufferList.concatenate (EthernetFrame.payload frame)));
    if bool_decide (r = NoError) then
      let ret := ret ++ [space] ++ ipv4_header_summary (IPv4Datagram.header dgram) in
      if IPv4Header.proto (IPv4Datagram.header dgram) =? IPv4Header.PROTO_TCP then
        '(r, tcp_seg) ← TCPSegment.parse TCPSegment.default
                          (Buffer.of_string (BufferList.concatenate (IPv4Datagram.payload dgram)))
                          (IPv4Header.pseudo_cksum (IPv4Datagram.header dgram));
        Ret (if bool_decide (r = NoError) then ret ++ [space] ++ tcp_header_summary (TCPSegment.header tcp_seg) else ret)
      else Ret ret
    else Ret (ret ++ chars " (bad IPv4)")
  else if type =? EthernetHeader.TYPE_ARP then
    payload ← BufferList.to_Buffer (EthernetFrame.payload frame);
    '(r, arp) ← ARPMessage.parse ARPMessage.default payload;
    Ret (if bool_decide (r = NoError) then ret ++ [space] ++ arp_message_to_string arp else ret ++ chars " (bad ARP)")
  else Ret ret.

(** ** The adapter: an interface on a pipe *)

Module NetworkInterfaceAdapter.
Section WithNetDb.
Context `{NetDb}.

Record t := mk { base : FdAdapterBase.t; _interface : NetworkInterface.t; _next_hop : Address.t }.

(** [send_pending]: the frames of the queue are written to the pipe. *)
Definition send_pending (a : t) : outcome (t * list BufferList.t) :=
  out ← TCPOverIPv4OverEthernetAdapter.serialize_frames (NetworkInterface.frames_out (_interface a));
  Ret (mk (base a) (NetworkInterface.take_frames (_interface a)) (_next_hop a), out).

Definition new (base : FdAdapterBase.t) (random : list byte) (ip_address next_hop : Address.t) : outcome t :=
  interface ← NetworkInterface.construct (random_host_ethernet_address random) ip_address;
  Ret (mk base interface next_hop).

Definition read (a : t) (data : string) : outcome (t * option TCPSegment.t * list BufferList.t) :=
  '(r, frame) ← EthernetFrame.parse EthernetFrame.default (Buffer.of_string data);
  if negb (bool_decide (r = NoError)) then Ret (a, None, []) else
  '(n, ip_dgram) ← NetworkInterface.recv_frame (_interface a) frame;
  '(a, out) ← send_pending (mk (base a) n (_next_hop a));
  match ip_dgram with
  | Some d => '(b, seg) ← TCPOverIPv4Adapter.unwrap_tcp_in_ip (base a) d;
              Ret (mk b (_interface a) (_next_hop a), seg, out)
  | None => Ret (a, None, out)
  end.

Definition write (a : t) (seg : TCPSegment.t) : outcome (t * TCPSegment.t * list BufferList.t) :=
  '(seg, d) ← TCPOverIPv4Adapter.wrap_tcp_in_ip (base a) seg;
  n ← NetworkInterface.send_datagram (_interface a) d (_next_hop a);
  '(a, out) ← send_pending (mk (base a) n (_next_hop a));
  Ret (a, seg, out).

Definition tick (a : t) (ms_since_last_tick : Z) : outcome (t * list BufferList.t) :=
  send_pending (mk (base a) (NetworkInterface.tick (_interface a) ms_since_last_tick) (_next_hop a)).

Definition config (a : t) : FdAdapterConfig := FdAdapterBase.config (base a).
Definition set_config (a : t) (cfg : FdAdapterConfig) : t :=
  mk (FdAdapterBase.set_config (base a) cfg) (_interface a) (_next_hop a).
Definition set_listening (a : t) (l : bool) : t :=
  mk (FdAdapterBase.set_listening (base a) l) (_interface a) (_next_hop a).

End WithNetDb.
End NetworkInterfaceAdapter.

#[export] Instance pipe_adapter `{NetDb} : Adapter NetworkInterfaceAdapter.t string BufferList.t := {|
  adapter_read := NetworkInterfaceAdapter.read;
  adapter_write := NetworkInterfaceAdapter.write;
  adapter_tick := NetworkInterfaceAdapter.tick;
  adapter_config := NetworkInterfaceAdapter.config;
  adapter_set_config := NetworkInterfaceAdapter.set_config;
  adapter_set_listening := NetworkInterfaceAdapter.set_listening
|}.

#[export] Instance pipe_adapter_calm `{NetDb} : CalmAdapter NetworkInterfaceAdapter.t string BufferList.t.
Proof.
  split; intros; unfold adapter_read, adapter_write, adapter_tick, pipe_adapter, NetworkInterfaceAdapter.read,
    NetworkInterfaceAdapter.write, NetworkInterfaceAdapter.tick, NetworkInterfaceAdapter.send_pending; solve_calm.
Qed.

(** ** The socket *)

Module TCPSocketLab7.
Section TCPSocketLab7.
Context {K : Type} `{Kernel K} `{NetDb}.
Abbreviation A := NetworkInterfaceAdapter.t.
Abbreviation W := (world K (TCPSpongeSocket.vars A)).
Abbreviation rules := (list (EventLoop.Rule K (TCPSpongeSocket.vars A))).

(** The socket, its address, and the end of the pipe that the router gets. *)
Record t := mk { handles : TCPSpongeSocket.handles; _local_address : Address.t; frame_fd : FileDescriptor.t }.

Definition new (random : list byte) (ip_address next_hop : Address.t) : prog W t :=
  cfg ← lift default_config;
  '(first, second) ← LocalStreamSocket.socket_pair_helper SOCK_DGRAM;
  adapter ← lift (NetworkInterfaceAdapter.new (FdAdapterBase.mk cfg false) random ip_address next_hop);
  h ← TCPSpongeSocket.new adapter first;
  mret (mk h ip_address second).

(** [Address{address.ip(), port}] *)
Definition with_port (address : Address.t) (port : Z) : outcome Address.t :=
  ip ← Address.ip address; Address.of_ip ip port.

Definition connect (s : t) (fuel : nat) (address : Address.t) : prog W (t * (rules * bool)) :=
  cfg ← lift default_config;
  random ← SystemCall Random;
  local ← lift (with_port (_local_address s) (uint16 random));
  _ ← lift (Address.to_string local);
  r ← TCPSpongeSocket.connect (I := string) (O := BufferList.t) (handles s) fuel TCPConfig.default
        (mk_config local address (loss_rate_dn cfg) (loss_rate_up cfg));
  mret (mk (handles s) local (frame_fd s), r).

Definition bind (s : t) (address : Address.t) : outcome t :=
  ip ← Address.ip address;
  local_ip ← Address.ip (_local_address s);
  if negb (bool_decide (ip = local_ip)) then _ ← Address.to_string address; Throw runtime_error else
  port ← Address.port address;
  local ← Address.of_ip local_ip port;
  Ret (mk (handles s) local (frame_fd s)).

Definition listen_and_accept (s : t) (fuel : nat) : prog W (rules * bool) :=
  cfg ← lift default_config;
  TCPSpongeSocket.listen_and_accept (I := string) (O := BufferList.t) (handles s) fuel TCPConfig.default
    (mk_config (_local_address s) (destination cfg) (loss_rate_dn cfg) (loss_rate_up cfg)).

End TCPSocketLab7.
End TCPSocketLab7.

(** ** The network *)

Module Lab7.

(** An interface from an Ethernet address and the text of an IP address. *)
Definition make_interface `{NetDb} (eth : EthernetAddress) (ip : string) : outcome AsyncNetworkInterface.t :=
  address ← Address.of_ip ip 0;
  interface ← NetworkInterface.construct eth address;
  Ret (AsyncNetworkInterface.of_interface interface).

Definition add_route `{NetDb} (r : Router.t) (prefix : string) (length : Z) (next_hop : option string) (n : Z)
    : outcome Router.t :=
  address ← Address.of_ip prefix 0;
  number ← Address.ipv4_numeric address;
  match next_hop with
  | None => Router.add_route r number length None n
  | Some hop => hop ← Address.of_ip hop 0; Router.add_route r number length (Some hop) n
  end.

(** The router of the client or of the server; its interfaces are the host's side
    and the side of the Internet. *)
Definition set_up_router `{NetDb} (is_client : bool) (random_host random_internet : list byte)
    : outcome (Router.t * Z * Z) :=
  if is_client then
    i ← make_interface (random_router_ethernet_address random_host) (chars "192.168.0.1");
    let '(router, host_side) := Router.add_interface Router.new i in
    i ← make_interface (random_router_ethernet_address random_internet) (chars "10.0.0.192");
    let '(router, internet_side) := Router.add_interface router i in
    router ← add_route router (chars "192.168.0.0") 16 None host_side;
    router ← add_route router (chars "10.0.0.0") 8 None internet_side;
    router ← add_route router (chars "172.16.0.0") 12 (Some (chars "10.0.0.172")) internet_side;
    Ret (router, host_side, internet_side)
  else
    i ← make_interface (random_router_ethernet_address random_host) (chars "172.16.0.1");
    let '(router, host_side) := Router.add_interface Router.new i in
    i ← make_interface (random_router_ethernet_address random_internet) (chars "10.0.0.172");
    let '(router, internet_side) := Router.add_interface router i in
    router ← add_route router (chars "172.16.0.0") 12 None host_side;
    router ← add_route router (chars "10.0.0.0") 8 None internet_side;
    router ← add_route router (chars "192.168.0.0") 16 (Some (chars "10.0.0.192")) internet_side;
    Ret (router, host_side, internet_side).

(** The socket's address and its router's. *)
Definition socket_addresses `{NetDb} (is_client : bool) : outcome (Address.t * Address.t) :=
  ip_address ← Address.of_ip (if is_client then chars "192.168.0.50" else chars "172.16.0.100") 0;
  next_hop ← Address.of_ip (if is_client then chars "192.168.0.1" else chars "172.16.0.1") 0;
  Ret (ip_address, next_hop).

(** *** What a callback does to the router *)

(** A frame that arrives on a side; one that cannot be parsed is ignored. *)
Definition take_frame `{NetDb} (debug : bool) (r : Router.t) (side : Z) (data : string) : outcome Router.t :=
  '(res, frame) ← EthernetFrame.parse EthernetFrame.default (Buffer.of_string data);
  if negb (bool_decide (res = NoError)) then Ret r else
  _ ← (if debug then summary frame else Ret []);
  i ← Router.interface r side;
  i ← AsyncNetworkInterface.recv_frame i frame;
  Router.route (Router.set_interface r side i).

Definition frames_out (r : Router.t) (side : Z) : outcome (list EthernetFrame.t) :=
  i ← Router.interface r side; Ret (NetworkInterface.frames_out (AsyncNetworkInterface.base i)).

(** [f.front().serialize()]: the front of an empty queue is undefined. *)
Definition front_frame `{NetDb} (debug : bool) (r : Router.t) (side : Z) : outcome BufferList.t :=
  f ← frames_out r side;
  match f with
  | [] => Throw undefined_behaviour
  | frame :: _ => _ ← (if debug then summary frame else Ret []); EthernetFrame.serialize frame
  end.

(** [f.pop()] *)
Definition pop_frame (r : Router.t) (side : Z) : outcome Router.t :=
  i ← Router.interface r side;
  let n := AsyncNetworkInterface.base i in
  Ret (Router.set_interface r side
         (AsyncNetworkInterface.mk
            (NetworkInterface.mk (NetworkInterface._ethernet_address n) (NetworkInterface._ip_address n)
               (tail (NetworkInterface._frames_out n)) (NetworkInterface._arp_ip_queue n)
               (NetworkInterface._ip_mac_map n) (NetworkInterface._ms_since_last_tick n) (NetworkInterface._expire_time n))
            (AsyncNetworkInterface._datagrams_out i))).

Definition tick_side (r : Router.t) (side ms : Z) : outcome Router.t :=
  i ← Router.interface r side; Ret (Router.set_interface r side (AsyncNetworkInterface.tick i ms)).

(** *** The thread *)

Section Thread.
Context {K : Type} `{Kernel K} `{NetDb}.
Abbreviation W := (world K Router.t).
Abbreviation Rule := (EventLoop.Rule K Router.t).
Context (debug : bool) (frame_fd : FileDescriptor.t) (internet_socket : Socket.t) (bounce_address : Address.t).
Context (host_side internet_side : Z).

Definition from_host : prog W unit :=
  data ← FileDescriptor.read frame_fd FileDescriptor.size_max;
  modify_user (fun r => take_frame debug r host_side data).

Definition to_host : prog W unit :=
  r ← read_user;
  frame ← lift (front_frame debug r host_side);
  _ ← FileDescriptor.write frame_fd (BufferViewList.of_BufferList frame) true;
  modify_user (fun r => pop_frame r host_side).

Definition to_internet : prog W unit :=
  r ← read_user;
  frame ← lift (front_frame debug r internet_side);
  UDPSocket.sendto internet_socket bounce_address (BufferViewList.of_BufferList frame) ;;
  modify_user (fun r => pop_frame r internet_side).

Definition from_internet : prog W unit :=
  data ← FileDescriptor.read internet_socket FileDescriptor.size_max;
  modify_user (fun r => take_frame debug r internet_side data).

Definition waiting (side : Z) : prog W bool :=
  r ← read_user; f ← lift (frames_out r side); mret (negb (zlen f =? 0)).

Definition rule1 : Rule := EventLoop.mk_rule frame_fd EventLoop.In from_host (mret true) (mret tt).
Definition rule2 : Rule := EventLoop.mk_rule frame_fd EventLoop.Out to_host (waiting host_side) (mret tt).
Definition rule3 : Rule := EventLoop.mk_rule internet_socket EventLoop.Out to_internet (waiting internet_side) (mret tt).
Definition rule4 : Rule := EventLoop.mk_rule internet_socket EventLoop.In from_internet (mret true) (mret tt).

Definition add_rule (rules : list Rule) (r : Rule) : prog W (list Rule) :=
  EventLoop.add_rule rules (EventLoop.fd r) (EventLoop.direction r)
    (EventLoop.callback r) (EventLoop.interest r) (EventLoop.cancel r).

(** [while (true)], for at most [fuel] rounds: the rules left, and whether the thread
    is over; [Load_abort] reads the flag of the main thread. *)
Fixpoint network_loop (fuel : nat) (rules : list Rule) : prog W (list Rule * bool) :=
  match fuel with
  | O => mret (rules, false)
  | S fuel =>
      '(rules, result) ← EventLoop.wait_next_event rules 50;
      if bool_decide (result = EventLoop.Exit) then mret (rules, true) else
      modify_user (fun r => tick_side r host_side 50) ;;
      modify_user (fun r => tick_side r internet_side 50) ;;
      exit_flag ← SystemCall Load_abort;
      if exit_flag : bool then mret (rules, true) else network_loop fuel rules
  end.

Definition network_thread (fuel : nat) : prog W (list Rule * bool) :=
  rules ← add_rule [] rule1;
  rules ← add_rule rules rule2;
  rules ← add_rule rules rule3;
  rules ← add_rule rules rule4;
  network_loop fuel rules.

End Thread.

(** *** The main thread *)

(** The three empty datagrams that tell the relay where the program is. *)
Definition say_hello {K C} `{Kernel K} (internet_socket : Socket.t) (bounce_address : Address.t) : prog (world K C) unit :=
  UDPSocket.sendto internet_socket bounce_address (BufferViewList.of_string []) ;;
  UDPSocket.sendto internet_socket bounce_address (BufferViewList.of_string []) ;;
  UDPSocket.sendto internet_socket bounce_address (BufferViewList.of_string []).

(** The socket is opened; the copying of the standard streams follows. *)
Definition open_socket {K} `{Kernel K} `{NetDb} (is_client : bool) (fuel : nat) (s : TCPSocketLab7.t)
    : prog (world K (TCPSpongeSocket.vars NetworkInterfaceAdapter.t))
        (list (EventLoop.Rule K (TCPSpongeSocket.vars NetworkInterfaceAdapter.t)) * bool) :=
  server ← lift (Address.of_ip (chars "172.16.0.100") 1234);
  if is_client then '(_, r) ← TCPSocketLab7.connect s fuel server; mret r
  else s ← lift (TCPSocketLab7.bind s server); TCPSocketLab7.listen_and_accept s fuel.

(** The arguments: [client] or [server], the address of the relay, and an optional
    word that asks for debugging output. *)
Definition read_arguments (argv : list string) : parsed (bool * string * string * bool) :=
  match argv with
  | mode :: host :: port :: rest =>
      if bool_decide (zlen rest <= 1) && (bool_decide (mode = chars "client") || bool_decide (mode = chars "server"))
      then Go (bool_decide (mode = chars "client"), host, port, zlen rest =? 1)
      else Exit EXIT_FAILURE
  | _ => Exit EXIT_FAILURE
  end.

End Lab7.

(** ** The thread is its router *)

Module Network.

Inductive side := Host | Internet.

(** A frame, as bytes, that came in at a side of the router or left it there. *)
Inductive frame_io :=
  | Came (s : side) (data : string)
  | Left (s : side) (data : string).

#[export] Instance side_eq_dec : EqDecision side.
Proof. solve_decision. Defined.

Definition came (s : side) (io : list frame_io) : list string :=
  omap (fun x => match x with Came s' data => if decide (s = s') then Some data else None | Left _ _ => None end) io.
Definition left_ (s : side) (io : list frame_io) : list string :=
  omap (fun x => match x with Left s' data => if decide (s = s') then Some data else None | Came _ _ => None end) io.

Section Network.
Context (K : Type) `{Kernel K} `{NetDb} (debug : bool) (num : side -> Z) (r0 : Router.t).

(** What the router can come to, and the frames that passed it: a frame that comes
    in is taken by the interface of its side and routed on; the oldest frame that
    waits at a side leaves; time passes at a side.  (A frame of [2^64] bytes or more
    may leave in part.) *)
Inductive routed : Router.t -> list frame_io -> Prop :=
  | routed_start : routed r0 []
  | routed_in s r r' io data :
      routed r io -> Lab7.take_frame debug r (num s) data = Ret r' -> routed r' (io ++ [Came s data])
  | routed_out s r r' io frame data :
      routed r io -> Lab7.front_frame debug r (num s) = Ret frame -> Lab7.pop_frame r (num s) = Ret r' ->
      (zlen (concat (BufferViewList.of_BufferList frame)) < 2 ^ 64 -> data = concat (BufferViewList.of_BufferList frame)) ->
      routed r' (io ++ [Left s data])
  | routed_tick s r r' io :
      routed r io -> Lab7.tick_side r (num s) 50 = Ret r' -> routed r' io.

(** Data that the operating system can return from a read. *)
Definition readable (data : string) : Prop :=
  exists k fd count k', syscall string k (Read fd count) = (k', inr data).

(** An operation of the router throws: a side has no interface, a frame that was read
    is refused, the front of a queue that is not empty cannot be written out, or it
    is too large for the address space. *)
Definition refuses (r : Router.t) (e : exn) : Prop :=
  exists s,
    Router.interface r (num s) = Throw e
    \/ (exists data, readable data /\ Lab7.take_frame debug r (num s) data = Throw e)
    \/ (exists f fs, Lab7.frames_out r (num s) = Ret (f :: fs) /\ Lab7.front_frame debug r (num s) = Throw e)
    \/ exists frame, Lab7.front_frame debug r (num s) = Ret frame
         /\ 2 ^ 64 <= zlen (concat (BufferViewList.of_BufferList frame)).

(** How the thread can end by an exception: a system call fails, [poll] reports an
    error on a descriptor, a datagram is not sent whole, the router refuses in a state
    that it came to, or a frame of [2^32] bytes or more makes the count of its writes
    wrap around. *)
Inductive stops : exn -> Prop :=
  | stops_call code : stops (unix_error code)
  | stops_poll e : polled_error K e -> stops e
  | stops_short : Relaying.short_send K -> stops runtime_error
  | stops_router r io e : routed r io -> refuses r e -> stops e
  | stops_long r io frame :
      routed r io -> Lab7.front_frame debug r (num Host) = Ret frame ->
      2 ^ 32 <= zlen (concat (BufferViewList.of_BufferList frame)) -> stops busy_wait.

End Network.

Lemma came_app s io io' : came s (io ++ io') = came s io ++ came s io'.
Proof. apply omap_app. Qed.
Lemma left_app s io io' : left_ s (io ++ io') = left_ s io ++ left_ s io'.
Proof. apply omap_app. Qed.

End Network.

Module Networking.
Import Lab7 Network Descriptors Owners Relaying.

(** ** The queues of frames only grow while frames come in *)

Section Growth.
Context `{NetDb}.

Definition longer (n n' : NetworkInterface.t) : Prop :=
  NetworkInterface.frames_out n `prefix_of` NetworkInterface.frames_out n'.
Definition longer_async (i i' : AsyncNetworkInterface.t) : Prop :=
  longer (AsyncNetworkInterface.base i) (AsyncNetworkInterface.base i').
Definition longer_all (r r' : Router.t) : Prop :=
  Forall2 longer_async (Router._interfaces r) (Router._interfaces r').

#[local] Instance longer_preorder : PreOrder longer.
Proof. split; [intros n; unfold longer; done|intros n1 n2 n3; unfold longer; apply transitivity]. Qed.
#[local] Instance longer_async_preorder : PreOrder longer_async.
Proof. split; [intros i; unfold longer_async; done|intros i1 i2 i3; unfold longer_async; apply transitivity]. Qed.
#[local] Instance longer_all_preorder : PreOrder longer_all.
Proof. split; [intros r; unfold longer_all; done|intros r1 r2 r3; unfold longer_all; apply transitivity]. Qed.

Lemma push_longer n f : longer n (NetworkInterface.push_frame n f).
Proof. by apply prefix_app_r. Qed.

Lemma cache_longer n ip mac : longer n (NetworkInterface._try_set_cache_if_need n ip mac).
Proof. unfold NetworkInterface._try_set_cache_if_need, longer. case_match; apply (reflexivity (R := prefix)). Qed.

Lemma send_datagram_longer n d hop n' : NetworkInterface.send_datagram n d hop = Ret n' -> longer n n'.
Proof.
  unfold NetworkInterface.send_datagram. intros (ip & _ & E)%bind_Ret. revert E.
  destruct (IP2EthernetCache.get_cache _ _).
  - intros (bl & _ & [= <-])%bind_Ret. apply push_longer.
  - intros (own & _ & E)%bind_Ret. revert E. case_match; [by intros [= <-]|].
    intros (m & _ & [= <-])%bind_Ret. by apply prefix_app_r.
Qed.

Lemma recv_frame_longer n f n' o : NetworkInterface.recv_frame n f = Ret (n', o) -> longer n n'.
Proof.
  unfold NetworkInterface.recv_frame. case_if.
  { case_if; [by intros [= <- <-]|]. intros ([r d] & _ & E)%bind_Ret. revert E. case_if; by intros [= <- <-]. }
  case_if; [|by intros [= <- <-]]. intros ([r m] & _ & E)%bind_Ret. revert E. case_if; [done|].
  intros (n1 & E1 & [= <- <-])%bind_Ret. revert E1. case_if; [|case_if; [|by intros [= <-]]].
  - unfold NetworkInterface.recv_request. intros (mac & _ & (n2 & E2 & [= <-])%bind_Ret)%bind_Ret.
    etransitivity; [|apply cache_longer]. etransitivity; [|apply cache_longer].
    destruct mac; [|by injection E2 as <-]. apply bind_Ret in E2 as (p & _ & [= <-]). apply push_longer.
  - unfold NetworkInterface.recv_reply. intros (n2 & E2 & [= <-])%bind_Ret.
    etransitivity; [|apply cache_longer]. etransitivity; [|apply cache_longer]. revert E2.
    destruct (_ !! _) as [[u d]|]; [|by intros [= <-]]. intros (bl & _ & [= <-])%bind_Ret. by apply prefix_app_r.
Qed.

Lemma set_interface_longer r N i i' :
  Router.interface r N = Ret i -> longer (AsyncNetworkInterface.base i) (AsyncNetworkInterface.base i') ->
  longer_all r (Router.set_interface r N i').
Proof.
  unfold Router.interface. destruct (_ !! _) as [j|] eqn:Ej; [|done]. intros [= ->] Hl.
  unfold longer_all, Router.set_interface. cbn [Router._interfaces].
  rewrite <- (list_insert_id _ _ _ Ej) at 1. apply Forall2_insert; [|done]. apply (reflexivity (R := longer_all) r).
Qed.

Lemma route_one_longer r d r' : Router.route_one_datagram r d = Ret r' -> longer_all r r'.
Proof.
  unfold Router.route_one_datagram. case_if; [by intros [= <-]|]. intros (info & _ & E)%bind_Ret. revert E.
  destruct info as [info|]; [|by intros [= <-]].
  intros (a & _ & (i & Ei & (i' & E' & [= <-])%bind_Ret)%bind_Ret)%bind_Ret.
  eapply set_interface_longer; [exact Ei|]. unfold AsyncNetworkInterface.send_datagram in E'.
  apply bind_Ret in E' as (n & En & [= <-]). by eapply send_datagram_longer.
Qed.

Lemma route_queue_longer fuel r N r' : Router.route_queue fuel r N = Ret r' -> longer_all r r'.
Proof.
  revert r. induction fuel as [|fuel IH]; intros r; cbn [Router.route_queue]; intros (i & Ei & E)%bind_Ret; revert E.
  { destruct (AsyncNetworkInterface.datagrams_out i); by intros [= <-]. }
  destruct (AsyncNetworkInterface.datagrams_out i) as [|d ds]; [by intros [= <-]|].
  intros (r1 & E1 & (i1 & Ei1 & E2)%bind_Ret)%bind_Ret. etransitivity; [by eapply route_one_longer|].
  etransitivity; [|by apply IH]. eapply set_interface_longer; [exact Ei1|]. unfold longer. done.
Qed.

Lemma route_longer r r' : Router.route r = Ret r' -> longer_all r r'.
Proof.
  unfold Router.route. generalize (length (Router._interfaces r)) as n, 0 as N. intros n. revert r.
  induction n as [|n IH]; intros r N; cbn [Router.route_from]; [by intros [= <-]|].
  intros (i & _ & (r1 & E1 & E2)%bind_Ret)%bind_Ret. etransitivity; [by eapply route_queue_longer|by eapply IH].
Qed.

Lemma take_frame_longer debug r side data r' : take_frame debug r side data = Ret r' -> longer_all r r'.
Proof.
  unfold take_frame. intros ([res f] & _ & E)%bind_Ret. revert E. case_if; [by intros [= <-]|].
  intros (str & _ & (i & Ei & (i' & E' & Er)%bind_Ret)%bind_Ret)%bind_Ret.
  etransitivity; [|by apply route_longer]. eapply set_interface_longer; [exact Ei|].
  unfold AsyncNetworkInterface.recv_frame in E'. apply bind_Ret in E' as ([n o] & En & [= <-]).
  by eapply recv_frame_longer.
Qed.

(** A frame waits at a side. *)
Definition has_frame (r : Router.t) (side : Z) : Prop := exists f fs, frames_out r side = Ret (f :: fs).

Lemma longer_has_frame r r' side : longer_all r r' -> has_frame r side -> has_frame r' side.
Proof.
  intros Hl (f & fs & E). unfold frames_out, Router.interface in E.
  destruct (Router._interfaces r !! Z.to_nat side) as [i|] eqn:Ei; [|done]. injection E as E.
  destruct (Forall2_lookup_l _ _ _ _ _ Hl Ei) as (i' & Ei' & [l El]).
  exists f, (fs ++ l). unfold frames_out, Router.interface. rewrite Ei'. cbn. by rewrite El, E.
Qed.

(** Taking a frame from one queue leaves the others. *)
Lemma pop_has_frame r side r' side' :
  Z.to_nat side <> Z.to_nat side' -> pop_frame r side = Ret r' -> has_frame r side' -> has_frame r' side'.
Proof.
  intros Hs E (f & fs & E'). unfold pop_frame in E. apply bind_Ret in E as (i & _ & [= <-]).
  exists f, fs. rewrite <- E'. unfold frames_out, Router.interface, Router.set_interface. cbn [Router._interfaces].
  by rewrite list_lookup_insert_ne.
Qed.

End Growth.

(** Reading and writing pass no datagram. *)
Section Steps.
Context {K C : Type} `{Kernel K}.
Abbreviation W := (world K C).
Implicit Types (w : W).

Definition no_datagrams (t : list event) w : Prop := exists evs, trace w = t ++ evs /\ ios evs = [].

Lemma no_datagrams_call {A} t (r : request A) :
  (forall a, ios [Event A r (inr a)] = []) ->
  spec (no_datagrams t) (SystemCall r) (fun _ w => no_datagrams t w) (fun _ => True).
Proof.
  intros Hio w (evs & Et & He). destruct (SystemCall_cases r w) as [[code ->]|(k & a & ->)]; [done|].
  exists (evs ++ [Event A r (inr a)]). simpl. by rewrite Et, app_assoc, ios_app, He, Hio.
Qed.

Lemma no_datagrams_get t p :
  spec (no_datagrams t) (FileDescriptor.internal_fd p) (fun _ w => no_datagrams t w) (fun _ => True).
Proof. intros w Hw. unfold FileDescriptor.internal_fd, mbind, prog_bind, get. by destruct (heap w !! p). Qed.

Lemma no_datagrams_set t p f :
  spec (no_datagrams t) (FileDescriptor.set_internal_fd p f) (fun _ w => no_datagrams t w) (fun _ => True).
Proof. intros w Hw. unfold FileDescriptor.set_internal_fd, mbind, prog_bind, get. by destruct (heap w !! p). Qed.

Lemma no_datagrams_num t p :
  spec (no_datagrams t) (FileDescriptor.fd_num p) (fun _ w => no_datagrams t w) (fun _ => True).
Proof. eapply spec_bind; [apply no_datagrams_get|]. intros f. by apply spec_ret. Qed.

Lemma no_datagrams_update t p g :
  spec (no_datagrams t) (f ← FileDescriptor.internal_fd p; FileDescriptor.set_internal_fd p (g f))
    (fun _ w => no_datagrams t w) (fun _ => True).
Proof. eapply spec_bind; [apply no_datagrams_get|]. intros f. apply no_datagrams_set. Qed.

Lemma no_datagrams_write_loop t fuel p buffer write_all total :
  spec (no_datagrams t) (FileDescriptor.write_loop fuel p buffer write_all total) (fun _ w => no_datagrams t w) (fun _ => True).
Proof.
  revert buffer total. induction fuel as [|fuel IH]; intros buffer total; [done|]. cbn [FileDescriptor.write_loop].
  eapply spec_bind; [apply no_datagrams_num|]. intros fd.
  eapply spec_bind; [by apply no_datagrams_call|]. intros n. cbv zeta.
  apply spec_if; intros _; [by apply spec_throw|]. apply spec_if; intros _; [by apply spec_throw|].
  eapply spec_bind; [apply no_datagrams_update|]. intros [].
  eapply (spec_bind _ _ _ (fun _ w => no_datagrams t w)); [apply spec_lift; by destruct (BufferViewList.remove_prefix _ _)|].
  intros buffer'. apply spec_if; intros _; [apply IH|by apply spec_ret].
Qed.

Lemma no_datagrams_read t p limit :
  spec (no_datagrams t) (FileDescriptor.read p limit) (fun _ w => no_datagrams t w) (fun _ => True).
Proof.
  unfold FileDescriptor.read. eapply spec_bind; [apply no_datagrams_num|].
  intros fd. eapply spec_bind; [by apply no_datagrams_call|]. intros str.
  eapply (spec_bind _ _ _ (fun _ w => no_datagrams t w)).
  { apply spec_if; intros _; [apply no_datagrams_update|by apply spec_ret]. }
  intros []. apply spec_if; intros _; [by apply spec_throw|].
  eapply spec_bind; [apply no_datagrams_update|]. intros []. by apply spec_ret.
Qed.

Lemma read_readable p limit w str w' : FileDescriptor.read p limit w = Ret (str, w') -> readable K str.
Proof.
  intros E. destruct (heap w !! p) as [c|] eqn:Ec.
  2: { revert E. unfold FileDescriptor.read, FileDescriptor.fd_num, FileDescriptor.internal_fd, mbind, prog_bind, get.
       by rewrite Ec. }
  unfold FileDescriptor.read in E. erewrite bind_eq in E by (apply fd_num_eq; exact Ec). set (r := Read _ _) in E.
  destruct (syscall string (kernel w) r) as [k [code|s]] eqn:Es.
  { by erewrite bind_throw in E by (eapply SystemCall_throws; exact Es). }
  erewrite bind_eq in E by (eapply SystemCall_eq; exact Es).
  enough (s = str) as <- by (by eexists _, _, _, _). revert E. unfold mbind, prog_bind, mret, prog_ret, throw. repeat case_match; simplify_eq/=; congruence.
Qed.

(** So the events of such a step hold no datagram. *)
Lemma step_no_datagrams {A} (m : prog W A) w a w' evs :
  (forall t, spec (no_datagrams t) m (fun _ w => no_datagrams t w) (fun _ => True)) ->
  m w = Ret (a, w') -> trace w' = trace w ++ evs -> ios evs = [].
Proof.
  intros Hm E Et. specialize (Hm (trace w) w). rewrite E in Hm.
  destruct Hm as (evs' & Et' & Hio); [exists []; by rewrite app_nil_r|].
  rewrite Et in Et'. by apply app_inv_head in Et' as ->.
Qed.

End Steps.

Section Networking.
Context {K : Type} `{KernelLaws K} `{NetDb}.
Abbreviation W := (world K Router.t).
Abbreviation Rule := (EventLoop.Rule K Router.t).
Implicit Types (w : W) (rules : list Rule).

(** The pipe and the socket, their numbers, and the router's two sides; the calls
    made before, and the router at the start. *)
Context (debug : bool) (pf : FileDescriptor.t) (ps : Socket.t) (nf ni : Z) (bounce : Address.t).
Context (num : side -> Z) (t0 : list event) (r0 : Router.t) (Hn : nf <> ni) (Hp : pf <> ps).
Context (Hnum : Z.to_nat (num Host) <> Z.to_nat (num Internet)).

Definition desc (s : side) : FileDescriptor.t := match s with Host => pf | Internet => ps end.
Definition fd_no (s : side) : Z := match s with Host => nf | Internet => ni end.

Definition all_rules : list Rule :=
  [rule1 debug pf (num Host); rule2 debug pf (num Host); rule3 debug ps bounce (num Internet);
   rule4 debug ps (num Internet)].

(** The bytes and the datagrams of the calls are those of the frames. *)
Record passed (evs : list event) (io : list frame_io) : Prop := {
  ps_came s : reads (fd_no s) evs = came s io;
  ps_host : sent nf evs = concat (left_ Host io);
  ps_internet : ios evs = Put ni bounce <$> left_ Internet io
}.

(** The direction and the descriptor tell the rules apart. *)
Definition key (r : Rule) : EventLoop.Direction * FileDescriptor.t := (EventLoop.direction r, EventLoop.fd r).

Record inv rules w : Prop := {
  nv_live s : live rules w (desc s) (fd_no s);
  nv_rules r : r ∈ rules -> r ∈ all_rules;
  nv_keys : NoDup (key <$> rules);
  nv_trace : exists evs io, trace w = t0 ++ evs /\ routed debug num r0 (user w) io /\ passed evs io
}.
Abbreviation stops := (stops K debug num r0).

(** What the interest of the rules that write tells: a frame waits. *)
Definition ready (r : Rule) w : Prop :=
  EventLoop.direction r = EventLoop.Out -> forall s, EventLoop.fd r = desc s -> has_frame (user w) (num s).

Lemma desc_inj s s' : desc s = desc s' -> s = s'.
Proof. destruct s, s'; simpl; congruence. Qed.

Lemma passed_nil evs : silent evs -> ios evs = [] -> passed evs [].
Proof. intros Hs Hio. split; [intros s; apply Hs|apply Hs|done]. Qed.

Lemma passed_app evs evs' io io' : passed evs io -> passed evs' io' -> passed (evs ++ evs') (io ++ io').
Proof.
  intros [C1 L1 I1] [C2 L2 I2]. split.
  - intros s. by rewrite reads_app, came_app, C1, C2.
  - by rewrite sent_app, left_app, concat_app, L1, L2.
  - by rewrite ios_app, left_app, fmap_app, I1, I2.
Qed.

Lemma passed_came evs s data : moves (fd_no s) [] [data] evs -> ios evs = [] -> passed evs [Came s data].
Proof.
  intros M Hio. split; [|by rewrite (proj1 (M nf)); case_if|done].
  intros s'. rewrite (proj2 (M _)). unfold came. cbn [omap list_omap].
  destruct s', s; cbn [fd_no]; case_decide; try done;
    rewrite ?Z.eqb_refl, ?(proj2 (Z.eqb_neq nf ni)), ?(proj2 (Z.eqb_neq ni nf)) by done; cbn; by rewrite ?app_nil_r.
Qed.

Lemma passed_host evs data : moves nf data [] evs -> ios evs = [] -> passed evs [Left Host data].
Proof.
  intros M Hio. split; [intros s; rewrite (proj2 (M _)); by case_if| |done].
  rewrite (proj1 (M nf)), Z.eqb_refl. unfold left_. cbn [omap list_omap]. case_decide; [|done]. cbn. by rewrite app_nil_r.
Qed.

Lemma passed_internet evs data : silent evs -> ios evs = [Put ni bounce data] -> passed evs [Left Internet data].
Proof. intros S Hio. split; [intros s; apply S|apply S|done]. Qed.

(** A step on one descriptor, after which the router has changed. *)
Lemma network_step rules w p nr nw w1 evs r' io' :
  inv rules w -> touched p nr nw w w1 evs ->
  (forall io, routed debug num r0 (user w) io -> routed debug num r0 r' (io ++ io')) -> passed evs io' ->
  inv rules (set_user w1 r').
Proof.
  intros [Hl Hr Hk (evs0 & io & Et & Hio & Hpa)] T Hs Hp'. split; [|done|done|].
  - intros s. apply (live_touched rules w w1 p nr nw evs (desc s) (fd_no s) T (Hl s)).
  - exists (evs0 ++ evs), (io ++ io'). simpl. rewrite (tc_trace _ _ _ _ _ _ T), Et, app_assoc.
    split; [done|]. split; [by apply Hs|by apply passed_app].
Qed.

Lemma inv_routed rules w : inv rules w -> exists io, routed debug num r0 (user w) io.
Proof. intros [_ _ _ (evs & io & _ & Hio & _)]. by exists io. Qed.

Lemma inv_refuses rules w e : inv rules w -> refuses K debug num (user w) e -> stops e.
Proof. intros Hi He. destruct (inv_routed _ _ Hi) as [io Hio]. by eapply stops_router. Qed.

(** A frame comes in. *)
Lemma come_inv rules s w :
  inv rules w ->
  match (data ← FileDescriptor.read (desc s) FileDescriptor.size_max;
         modify_user (fun r => take_frame debug r (num s) data)) w with
  | Ret (_, w') => inv rules w' /\ (exists evs, touched (desc s) 1 0 w w' evs) /\ longer_all (user w) (user w')
  | Throw e => stops e
  end.
Proof.
  intros Hi. destruct (nv_live _ _ Hi s) as (c & Ec & Ef & _).
  pose proof (read_touches w (desc s) c FileDescriptor.size_max Ec ltac:(done)) as Hr.
  destruct (FileDescriptor.read _ _ w) as [[data w1]|e] eqn:Er.
  2: { rewrite (bind_throw _ _ _ _ Er). destruct Hr as [code ->]. constructor. }
  rewrite (bind_eq _ _ _ _ _ Er). destruct Hr as (_ & Hu & evs & T & M).
  assert (ios evs = []) as Hio.
  { apply (step_no_datagrams _ w data w1 evs (fun t => no_datagrams_read t (desc s) FileDescriptor.size_max) Er), T. }
  unfold modify_user. erewrite bind_eq by reflexivity. unfold lift. rewrite Hu.
  destruct (take_frame debug (user w) (num s) data) as [r'|e] eqn:Et.
  - erewrite bind_eq by reflexivity. cbn [put]. split.
    + apply (network_step rules w (desc s) 1 0 w1 evs r' [Came s data]); [done|done| |].
      * intros io Hr. by eapply routed_in.
      * apply passed_came; [by rewrite <- Ef|done].
    + split; [exists evs; destruct T as [T1 T2 T3]; by split|]. by eapply take_frame_longer.
  - erewrite bind_throw by reflexivity. apply (inv_refuses rules w); [done|]. exists s. right. left. exists data.
    split; [by eapply read_readable|done].
Qed.

(** The frame that has left is taken from its queue. *)
Lemma pop_inv rules s w p nr nw w1 evs frame data :
  inv rules w -> front_frame debug (user w) (num s) = Ret frame ->
  touched p nr nw w w1 evs -> user w1 = user w -> passed evs [Left s data] ->
  (zlen (concat (BufferViewList.of_BufferList frame)) < 2 ^ 64 -> data = concat (BufferViewList.of_BufferList frame)) ->
  match modify_user (fun r => pop_frame r (num s)) w1 with
  | Ret (_, w') => inv rules w' /\ touched p nr nw w w' evs /\ pop_frame (user w) (num s) = Ret (user w')
  | Throw e => stops e
  end.
Proof.
  intros Hi Ef T Hu Hpd Hd. unfold modify_user. erewrite bind_eq by reflexivity. unfold lift. rewrite Hu.
  destruct (pop_frame (user w) (num s)) as [r'|e] eqn:Ep.
  - erewrite bind_eq by reflexivity. cbn [put]. split.
    + apply (network_step rules w p nr nw w1 evs r' [Left s data]); [done|done| |done].
      intros io Hr. by eapply routed_out.
    + split; [|done]. destruct T as [T1 T2 T3]. by split.
  - erewrite bind_throw by reflexivity. apply (inv_refuses rules w); [done|]. exists s. left.
    unfold pop_frame in Ep. destruct (Router.interface (user w) (num s)); [discriminate|]. by injection Ep as ->.
Qed.

Lemma front_refuses rules s w e :
  inv rules w -> has_frame (user w) (num s) -> front_frame debug (user w) (num s) = Throw e -> stops e.
Proof. intros Hi (f & fs & Hf) Ef. apply (inv_refuses rules w); [done|]. exists s. do 2 right. left. by exists f, fs. Qed.

(** What a write of a frame does, however long the frame. *)
Lemma write_frame rules w frame :
  inv rules w -> front_frame debug (user w) (num Host) = Ret frame ->
  match FileDescriptor.write pf (BufferViewList.of_BufferList frame) true w with
  | Ret (_, w1) =>
      user w1 = user w /\ exists evs nw data, touched pf 0 nw w w1 evs /\ passed evs [Left Host data]
        /\ (zlen (concat (BufferViewList.of_BufferList frame)) < 2 ^ 64 ->
            data = concat (BufferViewList.of_BufferList frame))
        /\ (0 < Z.of_nat nw < 2 ^ 32 \/ stops busy_wait)
  | Throw e => stops e
  end.
Proof.
  intros Hi Ef. destruct (nv_live _ _ Hi Host) as (c & Ec & En & _). simpl in Ec, En.
  set (b := BufferViewList.of_BufferList frame). destruct (inv_routed _ _ Hi) as [io Hro].
  assert (forall a w1 evs, FileDescriptor.write pf b true w = Ret (a, w1) -> trace w1 = trace w ++ evs -> ios evs = []) as Hio.
  { intros a w1 evs E Et. eapply step_no_datagrams; [|exact E|exact Et]. intros t. apply no_datagrams_write_loop. }
  destruct (Z.lt_ge_cases (zlen (concat b)) (2 ^ 64)) as [Hb|Hb].
  - pose proof (write_touches w pf c b true Ec Hb) as Hw.
    destruct (FileDescriptor.write pf b true w) as [[n w1]|e] eqn:Ew; [|destruct Hw as [code ->]; constructor].
    destruct Hw as (_ & Hall & _ & Hu & evs & rounds & Hrd & _ & T & M). split; [done|].
    exists evs, rounds, (concat b). split; [done|]. split.
    2: { split; [done|]. destruct (Z.lt_ge_cases (zlen (concat b)) (2 ^ 32)); [left; lia|].
         right. by eapply stops_long. }
    apply passed_host.
    + rewrite <- En. rewrite Hall in M by done. unfold zlen in M. by rewrite Nat2Z.id, firstn_all in M.
    + eapply Hio; [done|apply T].
  - pose proof (write_any w pf c b true Ec) as Hw.
    destruct (FileDescriptor.write pf b true w) as [[n w1]|e] eqn:Ew.
    + destruct Hw as (Hu & evs & rounds & out & T & M & _). split; [done|].
      exists evs, rounds, out. split; [done|]. split.
      2: { split; [lia|]. right. eapply stops_long; [done|done|]. subst b. lia. }
      apply passed_host; [by rewrite <- En|]. eapply Hio; [done|apply T].
    + apply (inv_refuses rules w); [done|]. exists Host. eauto 10.
Qed.

Lemma to_host_inv rules w :
  inv rules w -> has_frame (user w) (num Host) ->
  match to_host debug pf (num Host) w with
  | Ret (_, w') => inv rules w' /\ pop_frame (user w) (num Host) = Ret (user w')
      /\ exists evs nw, touched pf 0 nw w w' evs /\ (0 < Z.of_nat nw < 2 ^ 32 \/ stops busy_wait)
  | Throw e => stops e
  end.
Proof.
  intros Hi Hf. unfold to_host. erewrite bind_eq by reflexivity. unfold lift at 1.
  destruct (front_frame debug (user w) (num Host)) as [frame|e] eqn:Ef.
  2: { erewrite bind_throw by reflexivity. by eapply front_refuses. }
  erewrite bind_eq by reflexivity. pose proof (write_frame rules w frame Hi Ef) as Hw.
  destruct (FileDescriptor.write pf (BufferViewList.of_BufferList frame) true w) as [[n w1]|e] eqn:Ew;
    [|by rewrite (bind_throw _ _ _ _ Ew)].
  rewrite (bind_eq _ _ _ _ _ Ew). destruct Hw as (Hu & evs & nw & data & T & P & Hd & Hc).
  pose proof (pop_inv rules Host w pf 0 nw w1 evs frame data Hi Ef T Hu P Hd) as Hpo.
  destruct (modify_user _ w1) as [[[] w']|e]; [|done]. destruct Hpo as (Hi' & T' & Hpop).
  split; [done|]. split; [done|]. by exists evs, nw.
Qed.

Lemma to_internet_inv rules w :
  inv rules w -> has_frame (user w) (num Internet) ->
  match to_internet debug ps bounce (num Internet) w with
  | Ret (_, w') => inv rules w' /\ pop_frame (user w) (num Internet) = Ret (user w')
      /\ exists evs, touched ps 0 1 w w' evs
  | Throw e => stops e
  end.
Proof.
  intros Hi Hf. unfold to_internet. erewrite bind_eq by reflexivity. unfold lift at 1.
  destruct (front_frame debug (user w) (num Internet)) as [frame|e] eqn:Ef.
  2: { erewrite bind_throw by reflexivity. by eapply front_refuses. }
  erewrite bind_eq by reflexivity. destruct (nv_live _ _ Hi Internet) as (c & Ec & En & _). simpl in Ec, En.
  pose proof (sendto_cases w ps c bounce (BufferViewList.of_BufferList frame) Ec) as Hw.
  destruct (UDPSocket.sendto ps bounce _ w) as [[[] w1]|e] eqn:Ew.
  2: { rewrite (bind_throw _ _ _ _ Ew). destruct Hw as [[code ->]|[-> ?]]; by constructor. }
  rewrite (bind_eq _ _ _ _ _ Ew). destruct Hw as (Hu & evs & T & Hio & _ & S). rewrite En in Hio.
  pose proof (pop_inv rules Internet w ps 0 1 w1 evs frame _ Hi Ef T Hu (passed_internet evs _ S Hio) (fun _ => eq_refl)) as Hpo.
  destruct (modify_user _ w1) as [[[] w']|e]; [|done]. destruct Hpo as (Hi' & T' & Hpop).
  split; [done|]. split; [done|]. by exists evs.
Qed.

(** A side of the router is asked whether a frame waits. *)
Lemma waiting_inv rules s w :
  inv rules w ->
  match waiting (num s) w with
  | Ret (b, w') => w' = w /\ (b = true -> has_frame (user w) (num s))
  | Throw e => stops e
  end.
Proof.
  intros Hi. unfold waiting. erewrite bind_eq by reflexivity. unfold lift.
  destruct (frames_out (user w) (num s)) as [fs|e] eqn:Ef.
  - erewrite bind_eq by reflexivity. split; [done|]. destruct fs as [|f fs]; [done|]. intros _. by exists f, fs.
  - erewrite bind_throw by reflexivity. apply (inv_refuses rules w); [done|]. exists s. left.
    unfold frames_out in Ef. destruct (Router.interface (user w) (num s)); [discriminate|]. by injection Ef as ->.
Qed.

Lemma network_rules_cases (r : Rule) : r ∈ all_rules -> exists s, EventLoop.fd r = desc s.
Proof.
  unfold all_rules. rewrite !elem_of_cons, elem_of_nil.
  intros [->|[->|[->|[->|[]]]]]; [by exists Host|by exists Host|by exists Internet|by exists Internet].
Qed.

Lemma network_silent rules w k evs :
  silent evs -> ios evs = [] -> inv rules w ->
  inv rules (World k (trace w ++ evs) (heap w) (next_pointer w) (user w)).
Proof.
  intros S Hio [Hl Hr Hk (evs0 & io & Et & Hro & Hpa)]. split; [done|done|done|].
  exists (evs0 ++ evs), (io ++ []). simpl. rewrite Et, app_assoc. split; [done|]. rewrite app_nil_r at 1.
  split; [done|]. by apply passed_app, passed_nil.
Qed.

Lemma network_drop pre (r : Rule) post w :
  inv (pre ++ r :: post) w ->
  match EventLoop.drop_rule r w with
  | Ret (_, w') => inv (pre ++ post) w' /\ forall r', ready r' w -> ready r' w'
  | Throw e => stops e
  end.
Proof.
  intros Hi. destruct (network_rules_cases r (nv_rules _ _ Hi r (in_middle r pre post))) as [s Es].
  assert (live (pre ++ r :: post) w (EventLoop.fd r) (fd_no s)) as Hl by (rewrite Es; apply Hi).
  destruct (release_rule pre r post w _ Hl) as (c & Ec & Er).
  unfold EventLoop.drop_rule. assert (EventLoop.cancel r w = Ret (tt, w)) as Ecan.
  { pose proof (nv_rules _ _ Hi r (in_middle r pre post)) as Hin. unfold all_rules in Hin.
    rewrite !elem_of_cons, elem_of_nil in Hin. by destruct Hin as [->|[->|[->|[->|[]]]]]. }
  rewrite (bind_eq _ _ _ _ _ Ecan), Er. destruct Hi as [Hl' Hr Hk Ht]. split; [|done].
  split; [intros s'; by apply live_release| | |done].
  - intros r' Hin. apply Hr. revert Hin. rewrite !elem_of_app, elem_of_cons. tauto.
  - rewrite fmap_app in *. cbn [fmap list_fmap] in Hk. apply NoDup_app in Hk as (K1 & K2 & K3).
    apply NoDup_cons in K3 as [_ K3]. apply NoDup_app. split_and!; [done| |done]. intros x Hx Hx'. by eapply K2; [|right].
Qed.

(** A later rule that writes has another descriptor than this one that writes. *)
Lemma later_rule pre (r : Rule) post w s :
  inv (pre ++ r :: post) w -> EventLoop.direction r = EventLoop.Out -> EventLoop.fd r = desc s ->
  forall r', r' ∈ post -> EventLoop.direction r' = EventLoop.Out -> forall s', EventLoop.fd r' = desc s' -> s' <> s.
Proof.
  intros Hi Hd Hf r' Hin Hd' s' Hf' ->. pose proof (nv_keys _ _ Hi) as Hk. rewrite fmap_app in Hk.
  apply NoDup_app in Hk as (_ & _ & Hk). cbn [fmap list_fmap] in Hk. apply NoDup_cons in Hk as [Hk _].
  apply Hk. unfold key at 1. rewrite Hd, Hf, <- Hd', <- Hf'. by apply (list_elem_of_fmap_2 key).
Qed.

(** What the callbacks do to the readiness of the rules. *)
Lemma ready_longer w w' : longer_all (user w) (user w') -> forall r, ready r w -> ready r w'.
Proof. intros Hl r Hr Hd s Hs. eapply longer_has_frame; [exact Hl|by apply Hr]. Qed.

Lemma ready_pop pre (r : Rule) post w w' s :
  inv (pre ++ r :: post) w -> EventLoop.direction r = EventLoop.Out -> EventLoop.fd r = desc s ->
  pop_frame (user w) (num s) = Ret (user w') -> forall r', r' ∈ post -> ready r' w -> ready r' w'.
Proof.
  intros Hi Hd Hf Hpop r' Hin Hr Hd' s' Hf'. pose proof (later_rule pre r post w s Hi Hd Hf r' Hin Hd' s' Hf') as Hs.
  eapply pop_has_frame; [|exact Hpop|by apply Hr]. destruct s, s'; congruence.
Qed.

(** A callback that takes a frame in. *)
Lemma come_guarded pre r post w s :
  inv (pre ++ r :: post) w -> EventLoop.direction r = EventLoop.In -> EventLoop.fd r = desc s ->
  match (data ← FileDescriptor.read (desc s) FileDescriptor.size_max;
         modify_user (fun r => take_frame debug r (num s) data)) w with
  | Ret (_, w') => inv (pre ++ r :: post) w' /\ (Loop.progress r w w' \/ stops busy_wait)
                   /\ forall r', r' ∈ post -> ready r' w -> ready r' w'
  | Throw e => stops e
  end.
Proof.
  intros Hi Hd Hf. pose proof (come_inv _ s w Hi) as Hc.
  match goal with |- match ?m w with _ => _ end => destruct (m w) as [[[] w']|e] end; [|done].
  destruct Hc as (Hi' & (evs & T) & Hl). split; [done|]. split.
  - left. eapply touched_progress; [rewrite Hf; exact T|]. by rewrite Hd.
  - intros r' _. by apply ready_longer.
Qed.

Lemma network_callback pre r post w :
  inv (pre ++ r :: post) w -> ready r w ->
  match EventLoop.callback r w with
  | Ret (_, w') => inv (pre ++ r :: post) w' /\ (Loop.progress r w w' \/ stops busy_wait)
                   /\ forall r', r' ∈ post -> ready r' w -> ready r' w'
  | Throw e => stops e
  end.
Proof.
  intros Hi Hr. pose proof (nv_rules _ _ Hi r (in_middle r pre post)) as Hin. unfold all_rules in Hin.
  rewrite !elem_of_cons, elem_of_nil in Hin. destruct Hin as [->|[->|[->|[->|[]]]]].
  - by apply (come_guarded pre _ post w Host).
  - pose proof (to_host_inv _ w Hi (Hr eq_refl Host eq_refl)) as Hc. cbn [rule2 EventLoop.callback].
    destruct (to_host _ _ _ w) as [[[] w']|e]; [|done]. destruct Hc as (Hi' & Hpop & evs & nw & T & Hc). split; [done|].
    split; [|by apply (ready_pop pre (rule2 debug pf (num Host)) post w w' Host)]. destruct Hc as [Hc|Hc]; [left|by right].
    by apply (touched_progress (rule2 debug pf (num Host)) 0 nw w w' evs).
  - pose proof (to_internet_inv _ w Hi (Hr eq_refl Internet eq_refl)) as Hc. cbn [rule3 EventLoop.callback].
    destruct (to_internet _ _ _ _ w) as [[[] w']|e]; [|done]. destruct Hc as (Hi' & Hpop & evs & T). split; [done|].
    split; [|by apply (ready_pop pre (rule3 debug ps bounce (num Internet)) post w w' Internet)]. left. by apply (touched_progress (rule3 debug ps bounce (num Internet)) 0 1 w w' evs).
  - by apply (come_guarded pre _ post w Internet).
Qed.

Lemma network_client : Loop.guarded ready inv stops.
Proof.
  split.
  - intros rules w k fds timeout answer Hi. split; [|done]. apply network_silent; [apply Loop.poll_silent|done|done].
  - intros rules r w Hi Hr. destruct (network_rules_cases r (nv_rules _ _ Hi r Hr)) as [s ->].
    destruct (nv_live _ _ Hi s) as (c & Ec & _). by exists c.
  - intros rules r w Hr Hi. pose proof (nv_rules _ _ Hi r Hr) as Hin. unfold all_rules in Hin.
    rewrite !elem_of_cons, elem_of_nil in Hin. destruct Hin as [->|[->|[->|[->|[]]]]]; [by split| | |by split].
    + pose proof (waiting_inv rules Host w Hi) as Hw. cbn [rule2 EventLoop.interest].
      destruct (waiting _ w) as [[b w']|e]; [|done]. destruct Hw as [-> Hw]. split; [done|]. split; [|done].
      intros Hb _ s Hs. assert (s = Host) as -> by by apply desc_inj. auto.
    + pose proof (waiting_inv rules Internet w Hi) as Hw. cbn [rule3 EventLoop.interest].
      destruct (waiting _ w) as [[b w']|e]; [|done]. destruct Hw as [-> Hw]. split; [done|]. split; [|done].
      intros Hb _ s Hs. assert (s = Internet) as -> by by apply desc_inj. auto.
  - apply network_callback.
  - apply network_drop.
Qed.

Lemma tick_inv rules s :
  spec (inv rules) (modify_user (fun r => tick_side r (num s) 50)) (fun _ w => inv rules w) stops.
Proof.
  intros w Hi. unfold modify_user. erewrite bind_eq by reflexivity. unfold lift.
  destruct (tick_side (user w) (num s) 50) as [r'|e] eqn:Et.
  - erewrite bind_eq by reflexivity. destruct Hi as [Hl Hr Hk (evs & io & Etr & Hro & Hpa)]. split; [done|done|done|].
    exists evs, io. split; [done|]. split; [|done]. by eapply routed_tick.
  - erewrite bind_throw by reflexivity. apply (inv_refuses rules w); [done|]. exists s. left.
    unfold tick_side in Et. destruct (Router.interface (user w) (num s)); [discriminate|]. by injection Et as ->.
Qed.

Lemma flag_inv rules : spec (inv rules) (SystemCall Load_abort) (fun _ w => inv rules w) stops.
Proof.
  intros w Hi. destruct (SystemCall_cases Load_abort w) as [[code ->]|(k & b & ->)]; [constructor|].
  by apply network_silent.
Qed.

Lemma network_loop_inv fuel rules :
  spec (inv rules) (network_loop (num Host) (num Internet) fuel rules) (fun '(rules', _) w => inv rules' w) stops.
Proof.
  revert rules. induction fuel as [|fuel IH]; intros rules; cbn [network_loop]; [by apply spec_ret|].
  eapply spec_bind.
  { eapply spec_weaken; [apply (Loop.guarded_round _ _ _ network_client)|done|intros r w Hw; exact Hw|].
    intros e [He|He]; [done|by apply stops_poll]. }
  intros [rules' result].
  eapply (spec_weaken (inv rules') _ _ (fun '(rules'', _) w => inv rules'' w) _ stops); [|by intros w [? ?]|by intros []|done].
  apply spec_if; intros _; [by apply spec_ret|].
  eapply spec_bind; [apply tick_inv|]. intros []. eapply spec_bind; [apply tick_inv|]. intros [].
  eapply spec_bind; [apply flag_inv|]. intros b. apply spec_if; intros _; [by apply spec_ret|apply IH].
Qed.

Lemma network_add_rule rules (r : Rule) :
  r ∈ all_rules -> Forall (fun r' => key r' <> key r) rules ->
  spec (inv rules) (add_rule rules r) (fun rules' w => rules' = rules ++ [r] /\ inv rules' w) stops.
Proof.
  intros Hr Hnew w Hi. destruct (network_rules_cases r Hr) as [s Es].
  assert (live rules w (EventLoop.fd r) (fd_no s)) as Hl by (rewrite Es; apply Hi).
  destruct (add_rule_eq rules r w _ Hl) as (w' & E & Et & Eu & _ & Hlive). unfold add_rule. rewrite E.
  destruct Hi as [Hl' Hrs Hk Ht]. split; [done|]. split; [intros s'; by apply Hlive| | |by rewrite Et, Eu].
  - intros r' [Hin|Hin]%elem_of_app; [by apply Hrs|]. apply list_elem_of_singleton in Hin. by subst.
  - rewrite fmap_app. apply NoDup_app. split_and!; [done| |apply NoDup_singleton].
    intros x Hx Hx'. apply list_elem_of_singleton in Hx' as ->. apply list_elem_of_fmap in Hx as (r' & E' & Hin).
    by apply (proj1 (Forall_forall _ _) Hnew r' Hin).
Qed.

Lemma network_thread_inv fuel :
  spec (inv []) (network_thread debug pf ps bounce (num Host) (num Internet) fuel) (fun '(rules', _) w => inv rules' w) stops.
Proof.
  unfold network_thread.
  do 4 (eapply spec_bind;
    [apply network_add_rule;
       [unfold all_rules; rewrite !elem_of_cons; tauto|unfold key; cbn; repeat (apply Forall_nil_2 || (apply Forall_cons_2; [cbn; congruence|]))]
    |intros ?rules; apply spec_pure; intros ->]).
  apply network_loop_inv.
Qed.

End Networking.
End Networking.

(** C14: the network thread of lab7 is its router. Whatever the operating system
    does (within the documented bounds of read and writev), for any number of
    rounds: the strings that it read from the pipe and from the socket, one by one,
    are the frames that came in at the two sides of the router, and what it wrote to
    the pipe, and sent to the relay as one datagram each, are the frames that left
    there, in order and each once. The thread asks for the front of a queue only
    where a frame waits. It ends by an exception only if a system call fails, [poll]
    reports an error on a descriptor, a datagram is not sent whole, the router
    refuses a frame that can be read in a state that it came to, or the front frame
    cannot be written out (its text for the debugging output throws, it is larger
    than the address space, or it has 2^32 bytes or more, so that the count of its
    writes can wrap around and look like a busy wait). The pipe and the socket are
    open under different numbers, and the two sides are different interfaces. *)
Theorem lab7_network_routes {K} `{KernelLaws K} `{NetDb} (debug : bool) (frame_fd internet_socket : FileDescriptor.t)
    (cf ci : cell) (bounce : Address.t) (num : Network.side -> Z) (fuel : nat) (w : world K Router.t) :
  heap w !! frame_fd = Some cf -> heap w !! internet_socket = Some ci -> 1 <= owners cf -> 1 <= owners ci ->
  FDWrapper._fd (wrapper cf) <> FDWrapper._fd (wrapper ci) ->
  Z.to_nat (num Network.Host) <> Z.to_nat (num Network.Internet) ->
  match Lab7.network_thread debug frame_fd internet_socket bounce (num Network.Host) (num Network.Internet) fuel w with
  | Ret (_, w') =>
      exists evs io, trace w' = trace w ++ evs
        /\ Network.routed debug num (user w) (user w') io
        /\ reads (FDWrapper._fd (wrapper cf)) evs = Network.came Network.Host io
        /\ reads (FDWrapper._fd (wrapper ci)) evs = Network.came Network.Internet io
        /\ sent (FDWrapper._fd (wrapper cf)) evs = concat (Network.left_ Network.Host io)
        /\ ios evs = Put (FDWrapper._fd (wrapper ci)) bounce <$> Network.left_ Network.Internet io
  | Throw e => Network.stops K debug num (user w) e
  end.
Proof.
  intros Ef Ei Of Oi Hne Hnum. assert (frame_fd <> internet_socket) as Hp by congruence.
  assert (Networking.inv debug frame_fd internet_socket (FDWrapper._fd (wrapper cf)) (FDWrapper._fd (wrapper ci)) bounce num
            (trace w) (user w) [] w) as Hi.
  { split.
    - intros []; [exists cf|exists ci]; (split; [done|]; split; [done|]; by apply Z.lt_le_trans with 1).
    - intros r Hr. by apply elem_of_nil in Hr.
    - constructor.
    - exists [], []. rewrite app_nil_r. split; [done|]. split; [constructor|by apply Networking.passed_nil]. }
  pose proof (Networking.network_thread_inv debug frame_fd internet_socket _ _ bounce num (trace w) (user w) Hne Hp Hnum fuel w Hi) as Hw.
  destruct (Lab7.network_thread _ _ _ _ _ _ fuel w) as [[[rules b] w']|e]; [|done].
  destruct Hw as [_ _ _ (evs & io & Et & Hr & [Hc Hh Hin])]. exists evs, io.
  split_and!; [done|done|apply (Hc Network.Host)|apply (Hc Network.Internet)|done|done].
Qed.

(** ** The routes *)

(** The three networks of the set-up. *)
Inductive network := Client | Server | Backbone.
Definition member (n : network) (dst : Z) : bool :=
  match n with
  | Client => (0xc0a80000 <=? dst) && (dst <? 0xc0a90000)
  | Server => (0xac100000 <=? dst) && (dst <? 0xac200000)
  | Backbone => (0x0a000000 <=? dst) && (dst <? 0x0b000000)
  end.
Definition route_to (n : network) (next_hop : option Address.t) (side : Z) : RouterInfo :=
  match n with
  | Client => mk_info 0xc0a80000 16 next_hop side
  | Server => mk_info 0xac100000 12 next_hop side
  | Backbone => mk_info 0x0a000000 8 next_hop side
  end.

Definition own (is_client : bool) : network := if is_client then Client else Server.
Definition other_router (is_client : bool) : Address.t :=
  if is_client then Address.ipv4 0x0a0000ac 0 else Address.ipv4 0x0a0000c0 0.

(** What each router should do with a destination: deliver it to its host's network
    or to the backbone, or hand it to the other router. *)
Definition intended_route (is_client : bool) (dst : Z) : option RouterInfo :=
  if member (own is_client) dst then Some (route_to (own is_client) None 0)
  else if member Backbone dst then Some (route_to Backbone None 1)
  else if member (own (negb is_client)) dst then Some (route_to (own (negb is_client)) (Some (other_router is_client)) 1)
  else None.

Definition intended_routes (is_client : bool) : list RouterInfo :=
  [route_to (own is_client) None 0; route_to Backbone None 1;
   route_to (own (negb is_client)) (Some (other_router is_client)) 1].

Definition new_interface (random : list byte) (addr : Z) : AsyncNetworkInterface.t :=
  AsyncNetworkInterface.of_interface (NetworkInterface.new (random_router_ethernet_address random) (Address.ipv4 addr 0)).

Lemma route_to_match n hop side dst :
  Router.prefix_match dst (route_to n hop side) = Ret (member n dst).
Proof.
  unfold Router.prefix_match. destruct n; cbn [route_to prefix_length router_prefix member].
  all: change (32 <? _) with false; cbv iota; f_equal; rewrite Z.shiftr_div_pow2 by lia.
  all: match goal with |- (?a =? Z.shiftr ?b ?c) = _ => let v := eval vm_compute in (Z.shiftr b c) in change (Z.shiftr b c) with v end.
  all: apply eq_true_iff_eq; rewrite andb_true_iff, Z.eqb_eq, Z.leb_le, Z.ltb_lt; simpl (2 ^ _);
    Z.to_euclidean_division_equations; lia.
Qed.

Section Routes.
Context `{NetDbLaws} (Hntoa : forall addr, is_u32 addr -> inet_ntoa addr = dotted_quad addr).

Lemma of_text text addr :
  dotted_quad addr = text -> is_u32 addr -> Address.of_ip text 0 = Ret (Address.ipv4 addr 0).
Proof. intros <- Ha. rewrite <- Hntoa by done. by apply of_ip_ipv4. Qed.

Lemma make_interface_text eth text addr :
  dotted_quad addr = text -> is_u32 addr ->
  Lab7.make_interface eth text = Ret (AsyncNetworkInterface.of_interface (NetworkInterface.new eth (Address.ipv4 addr 0))).
Proof. intros Ht Ha. unfold Lab7.make_interface, NetworkInterface.construct. rewrite (of_text text addr) by done. cbn [mbind outcome_bind]. by rewrite ip_ipv4. Qed.

Lemma add_route_text r text addr len n :
  dotted_quad addr = text -> is_u32 addr ->
  Lab7.add_route r text len None n = Ret (Router.push_route r addr len None n).
Proof.
  intros Ht Ha. unfold Lab7.add_route. rewrite (of_text text addr) by done. cbn [mbind outcome_bind].
  rewrite ipv4_numeric_ipv4 by done. cbn [mbind outcome_bind]. by apply (Router.add_route_ret _ _ _ _ _ (inet_ntoa addr)); [apply ip_ipv4|].
Qed.

Lemma add_route_hop r text addr len text' addr' n :
  dotted_quad addr = text -> is_u32 addr -> dotted_quad addr' = text' -> is_u32 addr' ->
  Lab7.add_route r text len (Some text') n = Ret (Router.push_route r addr len (Some (Address.ipv4 addr' 0)) n).
Proof.
  intros Ht Ha Ht' Ha'. unfold Lab7.add_route. rewrite (of_text text addr) by done. cbn [mbind outcome_bind].
  rewrite ipv4_numeric_ipv4 by done. cbn [mbind outcome_bind]. rewrite (of_text text' addr') by done.
  cbn [mbind outcome_bind]. apply (Router.add_route_ret _ _ _ _ _ (inet_ntoa addr)); [by apply ip_ipv4|].
  intros hop [= <-]. exists (inet_ntoa addr'). by apply ip_ipv4.
Qed.

(** The set-up gives these interfaces and routes. *)
Lemma set_up_router_eq (is_client : bool) random_host random_internet :
  Lab7.set_up_router is_client random_host random_internet
  = Ret (Router.mk
           [new_interface random_host (if is_client then 0xc0a80001 else 0xac100001);
            new_interface random_internet (if is_client then 0x0a0000c0 else 0x0a0000ac)]
           (intended_routes is_client), 0, 1).
Proof.
  unfold Lab7.set_up_router. destruct is_client.
  - rewrite (make_interface_text _ (chars "192.168.0.1") 0xc0a80001) by (vm_compute; try split; done).
    cbn [mbind outcome_bind Router.add_interface].
    rewrite (make_interface_text _ (chars "10.0.0.192") 0x0a0000c0) by (vm_compute; try split; done).
    cbn [mbind outcome_bind Router.add_interface].
    rewrite (add_route_text _ (chars "192.168.0.0") 0xc0a80000) by (vm_compute; try split; done). cbn [mbind outcome_bind].
    rewrite (add_route_text _ (chars "10.0.0.0") 0x0a000000) by (vm_compute; try split; done). cbn [mbind outcome_bind].
    by rewrite (add_route_hop _ (chars "172.16.0.0") 0xac100000 _ (chars "10.0.0.172") 0x0a0000ac) by (vm_compute; try split; done).
  - rewrite (make_interface_text _ (chars "172.16.0.1") 0xac100001) by (vm_compute; try split; done).
    cbn [mbind outcome_bind Router.add_interface].
    rewrite (make_interface_text _ (chars "10.0.0.172") 0x0a0000ac) by (vm_compute; try split; done).
    cbn [mbind outcome_bind Router.add_interface].
    rewrite (add_route_text _ (chars "172.16.0.0") 0xac100000) by (vm_compute; try split; done). cbn [mbind outcome_bind].
    rewrite (add_route_text _ (chars "10.0.0.0") 0x0a000000) by (vm_compute; try split; done). cbn [mbind outcome_bind].
    by rewrite (add_route_hop _ (chars "192.168.0.0") 0xc0a80000 _ (chars "10.0.0.192") 0x0a0000c0) by (vm_compute; try split; done).
Qed.

End Routes.

Lemma member_disjoint n n' dst : member n dst = true -> member n' dst = true -> n = n'.
Proof. destruct n, n'; cbn [member]; intros; try done; zbool; lia. Qed.

Lemma find_intended is_client dst :
  Router.find_route dst (intended_routes is_client) 0 None = Ret (intended_route is_client dst).
Proof.
  unfold intended_routes, intended_route. cbn [Router.find_route]. rewrite !route_to_match. cbn [mbind outcome_bind].
  pose proof (member_disjoint Client Server dst) as D1. pose proof (member_disjoint Client Backbone dst) as D2.
  pose proof (member_disjoint Server Backbone dst) as D3.
  destruct is_client; cbn [own negb]; destruct (member Client dst), (member Server dst), (member Backbone dst);
    first [discriminate (D1 eq_refl eq_refl)|discriminate (D2 eq_refl eq_refl)|discriminate (D3 eq_refl eq_refl)|done].
Qed.

Lemma new_interface_ok random addr : length random = 6%nat -> is_u32 addr -> interface_ok (new_interface random addr).
Proof.
  intros Hl Ha. split; [|constructor]. exists addr. apply iface_new_inv; [|done|by apply ipv4_numeric_ipv4].
  unfold random_router_ethernet_address, is_address. by rewrite length_app, length_drop, Hl.
Qed.

Lemma route_to_ok r n hop side :
  (forall a, hop = Some a -> hop_ok a) -> 0 <= side < zlen (Router._interfaces r) -> entry_ok r (route_to n hop side).
Proof. intros Hh Hs. by destruct n; split. Qed.

Lemma intended_routes_ok r is_client : zlen (Router._interfaces r) = 2 -> Forall (entry_ok r) (intended_routes is_client).
Proof.
  intros Hl. unfold intended_routes.
  assert (hop_ok (other_router is_client)) as Ho.
  { destruct is_client; eexists; (split; [|apply ipv4_numeric_ipv4]); by split. }
  apply Forall_cons_2; [apply route_to_ok; [done|lia]|]. apply Forall_cons_2; [apply route_to_ok; [done|lia]|].
  apply Forall_singleton, route_to_ok; [by intros a [= <-]|lia].
Qed.

(** C21: the routers of lab7 are set up as intended: given the documented behaviour of
    the address functions, the set-up throws nothing, the host is on interface 0
    and the relay on interface 1, the invariant of the router holds, and the route
    chosen for every destination is the intended one: the host's own network and the
    backbone directly, the other program's network through its router, and no other. *)
Theorem lab7_routes `{NetDbLaws} (is_client : bool) (random_host random_internet : list byte) :
  (forall addr, is_u32 addr -> inet_ntoa addr = dotted_quad addr) ->
  length random_host = 6%nat -> length random_internet = 6%nat ->
  exists r, Lab7.set_up_router is_client random_host random_internet = Ret (r, 0, 1) /\ router_inv r
    /\ forall dst, is_u32 dst -> Router.find_route dst (Router._router_list r) 0 None = Ret (intended_route is_client dst).
Proof.
  intros Hn L1 L2. rewrite (set_up_router_eq Hn). eexists. split; [reflexivity|]. split; [|intros dst _; apply find_intended].
  split; cbn [Router._interfaces Router._router_list].
  - apply Forall_cons_2; [|apply Forall_singleton]; (apply new_interface_ok; [done|by destruct is_client]).
  - by apply intended_routes_ok.
Qed.

(** ** What a bad frame does *)

(** One malformed frame ends the network of lab7.  When the payload of a frame that
    claims to hold an ARP message, or a datagram for this interface, cannot be
    parsed, the interface throws; nothing catches it before the end of the
    thread. *)
Theorem lab7_malformed_frame `{NetDb} (r : Router.t) (side : Z) (i : AsyncNetworkInterface.t) (data : string)
    (frame : EthernetFrame.t) :
  EthernetFrame.parse EthernetFrame.default (Buffer.of_string data) = Ret (NoError, frame) ->
  Router.interface r side = Ret i ->
  let type := EthernetHeader.type (EthernetFrame.header frame) in
  let payload := BufferList.concatenate (EthernetFrame.payload frame) in
  (type = EthernetHeader.TYPE_ARP
     /\ exists e m, ARPMessage.parse ARPMessage.default (Buffer.of_string payload) = Ret (e, m) /\ e <> NoError)
  \/ (type = EthernetHeader.TYPE_IPv4
      /\ same_address (EthernetHeader.dst (EthernetFrame.header frame))
           (NetworkInterface._ethernet_address (AsyncNetworkInterface.base i)) = true
      /\ exists e d, IPv4Datagram.parse IPv4Datagram.default (Buffer.of_string payload) = Ret (e, d) /\ e <> NoError) ->
  Lab7.take_frame false r side data = Throw runtime_error.
Proof.
  intros Ep Ei type payload Hbad. unfold Lab7.take_frame. rewrite Ep. cbn [mbind outcome_bind].
  rewrite bool_decide_true by done. cbn [negb]. rewrite Ei. cbn [mbind outcome_bind].
  unfold AsyncNetworkInterface.recv_frame, NetworkInterface.recv_frame. fold type payload.
  destruct Hbad as [[-> (e & m & E & He)]|(-> & -> & e & d & E & He)]; cbn [Z.eqb negb].
  - change (EthernetHeader.TYPE_ARP =? EthernetHeader.TYPE_IPv4) with false.
    change (EthernetHeader.TYPE_ARP =? EthernetHeader.TYPE_ARP) with true. cbv iota. rewrite E. cbn [mbind outcome_bind].
    by rewrite bool_decide_false.
  - change (EthernetHeader.TYPE_IPv4 =? EthernetHeader.TYPE_IPv4) with true. cbv iota. cbn [negb]. rewrite E. cbn [mbind outcome_bind].
    by rewrite bool_decide_false.
Qed.

(** ** An example: the host asks for the address of its router *)

#[local] Existing Instance quad_db.
#[local] Existing Instance quad_db_laws.

Definition host_address : EthernetAddress := [Byte.x02; Byte.x11; Byte.x22; Byte.x33; Byte.x44; Byte.x55].
Definition router_random : list byte := [Byte.xff; Byte.xff; Byte.xff; Byte.x01; Byte.x02; Byte.x03].
Definition router_address : EthernetAddress := [Byte.x02; Byte.x00; Byte.x00; Byte.x01; Byte.x02; Byte.x03].

Definition frame_bytes (f : EthernetFrame.t) : string :=
  match EthernetFrame.serialize f with Ret b => BufferList.bytes b | Throw _ => [] end.
Definition arp_bytes (m : ARPMessage.t) : string := match ARPMessage.serialize m with Ret s => s | Throw _ => [] end.

Definition question : string :=
  frame_bytes (NetworkInterface.make_frame ETHERNET_BROADCAST host_address EthernetHeader.TYPE_ARP
    (arp_bytes (NetworkInterface.make_arp ARPMessage.OPCODE_REQUEST host_address 0xc0a80032 zero_address 0xc0a80001))).
Definition answer : string :=
  frame_bytes (NetworkInterface.make_frame host_address router_address EthernetHeader.TYPE_ARP
    (arp_bytes (NetworkInterface.make_arp ARPMessage.OPCODE_REPLY router_address 0xc0a80001 host_address 0xc0a80032))).

Definition client_router : Router.t :=
  match Lab7.set_up_router true router_random router_random with Ret (r, _, _) => r | Throw _ => Router.new end.

Definition pipe_cell (n : Z) : cell := mk_cell (FDWrapper.mk n false false 0 0) 1.
Definition lab7_world (data : string) : world pipes Router.t :=
  World (mk_pipes [(5, data)] 0) [] {[0%nat := pipe_cell 5; 1%nat := pipe_cell 6]} 2 client_router.
Definition side_num (s : Network.side) : Z := match s with Network.Host => 0 | Network.Internet => 1 end.

Example lab7_example :
  match Lab7.network_thread false 0%nat 1%nat (Address.ipv4 0x7f000001 5000) 0 1 3 (lab7_world question) with
  | Ret (_, w') => reads 5 (trace w') = [question; []] /\ sent 5 (trace w') = answer /\ ios (trace w') = []
  | Throw _ => False
  end.
Proof. vm_compute. done. Qed.

Lemma lab7_pipe data : heap (lab7_world data) !! 0%nat = Some (pipe_cell 5).
Proof. apply lookup_insert_eq. Qed.
Lemma lab7_socket data : heap (lab7_world data) !! 1%nat = Some (pipe_cell 6).
Proof. cbn [heap lab7_world]. by rewrite lookup_insert_ne, lookup_singleton_eq. Qed.

Lemma lab7_network_routes_witness :
  exists r io, Network.routed false side_num client_router r io
    /\ Network.came Network.Host io = [question; []] /\ concat (Network.left_ Network.Host io) = answer.
Proof.
  pose proof (lab7_network_routes false 0%nat 1%nat (pipe_cell 5) (pipe_cell 6) (Address.ipv4 0x7f000001 5000) side_num 3
    (lab7_world question) (lab7_pipe question) (lab7_socket question) (Z.le_refl 1) (Z.le_refl 1)
    ltac:(discriminate) ltac:(discriminate)) as Hw.
  pose proof lab7_example as Hr.
  cbn [side_num] in Hw. destruct (Lab7.network_thread _ _ _ _ _ _ _ _) as [[x w']|e]; [|done].
  destruct Hw as (evs & io & Et & Hro & Hc & _ & Hl & _). destruct Hr as (E2 & E1 & _). exists (user w'), io.
  cbn [trace lab7_world app] in Et. rewrite Et in E1, E2. split; [exact Hro|].
  split; [rewrite <- Hc; exact E2|rewrite <- Hl; exact E1].
Defined.

Lemma lab7_routes_witness :
  exists r, Lab7.set_up_router true router_random router_random = Ret (r, 0, 1)
    /\ Router.find_route 0xac100064 (Router._router_list r) 0 None
       = Ret (Some (mk_info 0xac100000 12 (Some (Address.ipv4 0x0a0000ac 0)) 1)).
Proof.
  destruct (@lab7_routes quad_db quad_db_laws true router_random router_random (fun _ _ => eq_refl) eq_refl eq_refl) as (r & E & _ & Hr).
  exists r. split; [exact E|]. apply (Hr 0xac100064). by split.
Defined.

(** A frame of type ARP with two bytes in it. *)
Definition bad_frame : EthernetFrame.t :=
  NetworkInterface.make_frame ETHERNET_BROADCAST host_address EthernetHeader.TYPE_ARP [Byte.x00; Byte.x01].

Lemma lab7_malformed_frame_witness :
  Lab7.take_frame false client_router 0 (frame_bytes bad_frame) = Throw runtime_error.
Proof.
  destruct (EthernetFrame.parse EthernetFrame.default (Buffer.of_string (frame_bytes bad_frame))) as [[e f]|] eqn:E;
    vm_compute in E; [|discriminate]. injection E as <- <-.
  eapply lab7_malformed_frame; [vm_compute; reflexivity|vm_compute; reflexivity|].
  left. split; [vm_compute; reflexivity|]. eexists _, _. split; [vm_compute; reflexivity|]. discriminate.
Defined.
