(* ===== verification/Lab7Path.v ===== *)
(** * From one lab7 host to the other (apps/lab7.cc)

    The composition of the parts of Lab7.v: a segment that the adapter of one program
    writes to its pipe passes its router, the relay between the programs, and the
    other router, and is read by the adapter of the other program.

    Shown: once the addresses on the way are known, every segment crosses the path
    in three frames, in either direction, and what is read is what was written. *)

From S2P Require Import Prelude WrappingIntegers UtilBuffer Parser Checksum Codec TCPSegment IPv4Datagram EthernetFrame Address NetworkInterface.
From S2P Require Import Router FdAdapter Lab7.

(** The interface knows the Ethernet address [mac] of [ip]. *)
Definition knows (n : NetworkInterface.t) (ip : Z) (mac : EthernetAddress) : Prop :=
  IP2EthernetCache.get_cache (NetworkInterface._ip_mac_map n) ip = Some mac.

(** A router at rest: its invariant holds, nothing waits to be routed or to leave. *)
Record at_rest (r : Router.t) : Prop := {
  ar_inv : router_inv r;
  ar_queues : Forall (fun q => q = []) (queues r)
}.

(** The interface [N] of the router, with a real address and no frame to send. *)
Record side_of (r : Router.t) (N : Z) (i : AsyncNetworkInterface.t) : Prop := {
  so_number : 0 <= N;
  so_interface : Router._interfaces r !! Z.to_nat N = Some i;
  so_host : exists own, host (AsyncNetworkInterface.base i) own;
  so_frames : NetworkInterface.frames_out (AsyncNetworkInterface.base i) = []
}.

(** The frame that carries the datagram [d]. *)
Definition carries (dst src : EthernetAddress) (d : IPv4Datagram.t) (f : EthernetFrame.t) : Prop :=
  exists bl, IPv4Datagram.serialize d = Ret bl
    /\ f = NetworkInterface.make_frame dst src EthernetHeader.TYPE_IPv4 (BufferList.concatenate bl).

Section Hop.
Context `{NetDb}.

(** Such a frame crosses a wire, and the interface that it is for gets the datagram. *)
Lemma carried n own src d f :
  host n own -> is_address src -> IPv4Datagram.fits d -> carries (NetworkInterface._ethernet_address n) src d f ->
  exists bl f' d', EthernetFrame.serialize f = Ret bl
    /\ EthernetFrame.parse EthernetFrame.default (Buffer.of_string (BufferList.concatenate bl)) = Ret (NoError, f')
    /\ NetworkInterface.recv_frame n f' = Ret (n, Some d') /\ same_datagram d d'.
Proof.
  intros Hn Hs Hd (dl & Ed & ->). pose proof (h_address _ _ Hn) as Ha.
  destruct (frame_fits_ip (NetworkInterface._ethernet_address n) src d dl) as [Hv Hl]; [apply Ha|done|done|done|].
  destruct (frame_wire _ EthernetFrame.default Hv Hl) as (bl & b & E1 & E2 & Hb).
  destruct (recv_datagram n own src d dl Hn Hd Ed) as (d' & Er & Hsame).
  exists bl. eexists. exists d'. split; [exact E1|]. split; [exact E2|]. split; [|done].
  rewrite <- Er. apply recv_frame_same. split; [done|]. simpl. by rewrite BufferList.bytes_of_buffer.
Qed.

Lemma concat_only {A} (l : list (list A)) n ys :
  Forall (fun q => q = []) l -> (n < length l)%nat -> concat (<[n := ys]> l) = ys.
Proof.
  intros Hl. revert n. induction Hl as [|q l -> Hl IH]; intros n Hn; simpl in Hn; [lia|].
  destruct n as [|n]; simpl; [|apply IH; lia].
  assert (concat l = []) as ->; [|apply app_nil_r]. clear IH Hn. induction Hl as [|q l -> Hl IH]; [done|exact IH].
Qed.

(** A single datagram is routed on its own. *)
Lemma route_arrived r N i d r' :
  at_rest r -> 0 <= N -> Router._interfaces r !! Z.to_nat N = Some i -> IPv4Datagram.fits d ->
  Router.route_one_datagram r d = Ret r' ->
  Router.route (Router.set_interface r N (AsyncNetworkInterface.mk (AsyncNetworkInterface.base i) [d])) = Ret r'.
Proof.
  intros [Hi Hq] HN Ei Hd Er. set (arrived := AsyncNetworkInterface.mk _ [d]).
  assert (interface_ok i) as [Hin _] by (apply (Forall_lookup_1 _ _ _ _ (ri_interfaces _ Hi) Ei)).
  assert (router_inv (Router.set_interface r N arrived)) as H1.
  { apply set_interface_inv; [done|]. split; [exact Hin|]. by apply Forall_singleton. }
  destruct (route_from_spec (length (Router._interfaces (Router.set_interface r N arrived))) _ 0 H1)
    as (r2 & E2 & _ & Q2 & L2); [lia|lia|].
  unfold Router.route. rewrite E2. f_equal. pose proof (lookup_lt_Some _ _ _ Ei) as Hlt.
  assert (clear_queues (Router.set_interface r N arrived) = r) as Ec.
  { rewrite <- (clear_queues_empty r Hq) at 2. unfold clear_queues, Router.set_interface.
    cbn [Router._interfaces Router._router_list]. f_equal. rewrite list_fmap_insert. apply list_insert_id.
    by rewrite list_lookup_fmap, Ei. }
  assert (concat (queues (Router.set_interface r N arrived)) = [d]) as Ed.
  { unfold queues, Router.set_interface. cbn [Router._interfaces]. rewrite list_fmap_insert.
    apply concat_only; [exact Hq|by rewrite length_fmap]. }
  change (Z.to_nat 0) with 0%nat in *. rewrite drop_0, Ed, Ec in L2. cbn [route_list] in L2. rewrite Er in L2.
  cbn [mbind outcome_bind] in L2. apply Ret_inj in L2. rewrite L2. symmetry. apply clear_queues_empty.
  rewrite Q2. by apply Forall_replicate.
Qed.

(** One router: a frame that arrives at the side [N] leaves, with the time to live one
    lower, at the side and to the next hop that the route says. *)
Lemma router_hop r N M i j src d f bl info ip mac :
  at_rest r -> side_of r N i -> side_of r M j -> is_address src ->
  IPv4Datagram.fits d -> 1 < IPv4Header.ttl (IPv4Datagram.header d) ->
  carries (NetworkInterface._ethernet_address (AsyncNetworkInterface.base i)) src d f ->
  EthernetFrame.serialize f = Ret bl ->
  Router.find_route (IPv4Header.dst (IPv4Datagram.header d)) (Router._router_list r) 0 None = Ret (Some info) ->
  interface_num info = M ->
  Address.ipv4_numeric (match next_hop info with
                        | Some a => a | None => Address.ipv4 (IPv4Header.dst (IPv4Datagram.header d)) 0 end) = Ret ip ->
  knows (AsyncNetworkInterface.base j) ip mac ->
  exists r' d' f', Lab7.take_frame false r N (BufferList.concatenate bl) = Ret r'
    /\ same_datagram d d'
    /\ carries mac (NetworkInterface._ethernet_address (AsyncNetworkInterface.base j)) (Router.decrement_ttl d') f'
    /\ Lab7.front_frame false r' M = EthernetFrame.serialize f'.
Proof.
  intros Hr [HN Ei [own Hi] _] [HM Ej _ Fj] Hs Hd Ht Hf Es Ef <- Eh Hk.
  destruct (carried _ own src d f Hi Hs Hd Hf) as (bl' & f1 & d' & Es' & Ep & Er & Hsame).
  rewrite Es in Es'. apply Ret_inj in Es' as <-.
  pose proof (same_fits _ _ Hd Hsame) as Hd'. destruct (same_ttl_dst _ _ Hsame) as [Et Edst].
  destruct (send_known (AsyncNetworkInterface.base j) (Router.decrement_ttl d') _ ip mac Eh Hk (decrement_ttl_fits _ Hd'))
    as (dl & Edl & Esend).
  set (f' := NetworkInterface.make_frame _ _ _ _) in Esend.
  set (r' := Router.set_interface r (interface_num info)
               (AsyncNetworkInterface.mk (NetworkInterface.push_frame (AsyncNetworkInterface.base j) f')
                  (AsyncNetworkInterface.datagrams_out j))).
  assert (Router.route_one_datagram r d' = Ret r') as Eone.
  { unfold Router.route_one_datagram. rewrite (proj2 (Z.leb_gt _ _)) by lia. rewrite Edst, Ef. cbn [mbind outcome_bind].
    rewrite from_ipv4_numeric_ipv4. cbn [mbind outcome_bind]. rewrite (interface_lookup r _ j Ej). cbn [mbind outcome_bind].
    unfold AsyncNetworkInterface.send_datagram. by rewrite Esend. }
  exists r', d', f'. split_and!; [|done|by exists dl|].
  - unfold Lab7.take_frame. rewrite Ep. cbn [mbind outcome_bind]. change (negb (bool_decide (NoError = NoError))) with false.
    cbv iota. rewrite (interface_lookup r N i Ei). cbn [mbind outcome_bind].
    unfold AsyncNetworkInterface.recv_frame. rewrite Er. cbn [mbind outcome_bind].
    assert (AsyncNetworkInterface._datagrams_out i = []) as ->.
    { apply (Forall_lookup_1 _ _ (Z.to_nat N) _ (ar_queues _ Hr)). unfold queues. by rewrite list_lookup_fmap, Ei. }
    by apply route_arrived.
  - unfold Lab7.front_frame, Lab7.frames_out, Router.interface, r', Router.set_interface. cbn [Router._interfaces].
    rewrite list_lookup_insert_eq by (by eapply lookup_lt_Some). cbn [mbind outcome_bind AsyncNetworkInterface.base].
    unfold NetworkInterface.push_frame, NetworkInterface.frames_out in *. cbn [NetworkInterface._frames_out].
    rewrite Fj. reflexivity.
Qed.

End Hop.

(** ** The path *)

(** What the adapter puts on the wire is a fresh datagram to the destination. *)
Lemma wrap_header `{NetDbLaws} a src sport dst dport seg seg' d :
  between a src sport dst dport -> TCPOverIPv4Adapter.wrap_tcp_in_ip a seg = Ret (seg', d) ->
  IPv4Header.ttl (IPv4Datagram.header d) = IPv4Header.DEFAULT_TTL /\ IPv4Header.dst (IPv4Datagram.header d) = dst.
Proof.
  intros [_ B2 _ _ Hd _] E. unfold TCPOverIPv4Adapter.wrap_tcp_in_ip in E.
  do 3 invert_bind E. rewrite B2, ipv4_numeric_ipv4 in E by done. cbn [mbind outcome_bind] in E.
  invert_bind E. apply Ret_inj in E. injection E as _ <-. done.
Qed.

(** The address by which the routers know each other on the backbone. *)
Definition other_router_ip (is_client : bool) : Z := if is_client then 0x0a0000ac else 0x0a0000c0.
Definition mac (i : AsyncNetworkInterface.t) : EthernetAddress :=
  NetworkInterface._ethernet_address (AsyncNetworkInterface.base i).

(** The way from the program of [A] (the client or the server) to that of [B], with
    every address on it known: [A] knows its router, its router the other one, and
    the other one [B]; nothing else is on the way. *)
Record path (from_client : bool) (A : NetworkInterfaceAdapter.t) (ra rb : Router.t) (B : NetworkInterfaceAdapter.t)
    (dst : Z) (a0 a1 b0 b1 : AsyncNetworkInterface.t) : Prop := {
  pa_member : member (own (negb from_client)) dst = true;
  pa_dst : is_u32 dst;
  pa_from : exists ip, host (NetworkInterfaceAdapter._interface A) ip;
  pa_from_frames : NetworkInterface.frames_out (NetworkInterfaceAdapter._interface A) = [];
  pa_gateway : exists ip, Address.ipv4_numeric (NetworkInterfaceAdapter._next_hop A) = Ret ip
                 /\ knows (NetworkInterfaceAdapter._interface A) ip (mac a0);
  pa_first : at_rest ra /\ Router._router_list ra = intended_routes from_client /\ side_of ra 0 a0 /\ side_of ra 1 a1;
  pa_between : knows (AsyncNetworkInterface.base a1) (other_router_ip from_client) (mac b1);
  pa_second : at_rest rb /\ Router._router_list rb = intended_routes (negb from_client) /\ side_of rb 0 b0 /\ side_of rb 1 b1;
  pa_last : knows (AsyncNetworkInterface.base b0) dst
              (NetworkInterface._ethernet_address (NetworkInterfaceAdapter._interface B));
  pa_to : exists ip, host (NetworkInterfaceAdapter._interface B) ip;
  pa_to_frames : NetworkInterface.frames_out (NetworkInterfaceAdapter._interface B) = []
}.

(** The routes that a destination in the other program's network takes. *)
Lemma route_out b dst :
  member (own (negb b)) dst = true ->
  intended_route b dst = Some (route_to (own (negb b)) (Some (other_router b)) 1)
  /\ intended_route (negb b) dst = Some (route_to (own (negb b)) None 0).
Proof.
  intros Hm. unfold intended_route. rewrite negb_involutive, Hm. split; [|done].
  destruct (member (own b) dst) eqn:E1.
  { pose proof (member_disjoint _ _ dst Hm E1) as Hd. by destruct b. }
  destruct (member Backbone dst) eqn:E2; [|done].
  pose proof (member_disjoint _ _ dst Hm E2) as Hd. by destruct b.
Qed.

Lemma other_router_numeric b : Address.ipv4_numeric (other_router b) = Ret (other_router_ip b).
Proof. destruct b; apply ipv4_numeric_ipv4; by split. Qed.

Lemma route_to_fields n hop side : next_hop (route_to n hop side) = hop /\ interface_num (route_to n hop side) = side.
Proof. by destruct n. Qed.

Lemma carries_serialize dst src d f :
  is_address dst -> is_address src -> IPv4Datagram.fits d -> carries dst src d f -> exists bl, EthernetFrame.serialize f = Ret bl.
Proof.
  intros Ht Hs Hd (dl & Ed & ->). destruct (frame_fits_ip dst src d dl Ht Hs Hd Ed) as [Hv Hl].
  destruct (frame_wire _ EthernetFrame.default Hv Hl) as (bl & b & E1 & _). by exists bl.
Qed.

(** A datagram that two routers have forwarded is the one that was sent, but for its
    time to live and its checksum. *)
Lemma forwarded_twice `{NetDb} d d1 d2 d3 :
  same_datagram d d1 -> same_datagram (Router.decrement_ttl d1) d2 -> same_datagram (Router.decrement_ttl d2) d3 ->
  exists ck buffer, Buffer.wf buffer /\ Buffer.str buffer = BufferList.bytes (IPv4Datagram.payload d)
    /\ forall b, TCPOverIPv4Adapter.unwrap_tcp_in_ip b d3
         = TCPOverIPv4Adapter.unwrap_tcp_in_ip b
             (IPv4Datagram.mk (IPv4Header.set_cksum (IPv4Datagram.header d) ck) (BufferList.of_buffer buffer)).
Proof.
  intros (ck1 & b1 & -> & P1 & _) (ck2 & b2 & -> & P2 & _) (ck3 & b3 & -> & P3 & W3 & _). exists ck3, b3.
  split; [done|]. split; [|reflexivity]. rewrite P3. cbn [Router.decrement_ttl IPv4Datagram.payload IPv4Datagram._payload].
  rewrite BufferList.bytes_of_buffer, P2. cbn [Router.decrement_ttl IPv4Datagram.payload IPv4Datagram._payload].
  by rewrite BufferList.bytes_of_buffer, P1.
Qed.

Section Ends.
Context `{NetDbLaws}.

(** The adapter writes one frame, to its gateway. *)
Lemma adapter_writes A own ip gateway seg seg' d :
  host (NetworkInterfaceAdapter._interface A) own -> is_address gateway ->
  NetworkInterface.frames_out (NetworkInterfaceAdapter._interface A) = [] ->
  Address.ipv4_numeric (NetworkInterfaceAdapter._next_hop A) = Ret ip ->
  knows (NetworkInterfaceAdapter._interface A) ip gateway ->
  TCPOverIPv4Adapter.wrap_tcp_in_ip (NetworkInterfaceAdapter.base A) seg = Ret (seg', d) -> IPv4Datagram.fits d ->
  exists A' f bl, NetworkInterfaceAdapter.write A seg = Ret (A', seg', [bl])
    /\ carries gateway (NetworkInterface._ethernet_address (NetworkInterfaceAdapter._interface A)) d f
    /\ EthernetFrame.serialize f = Ret bl.
Proof.
  intros HA Hg FA Hip Hk Ew Hf. destruct A as [a n hop].
  cbn [NetworkInterfaceAdapter.base NetworkInterfaceAdapter._interface NetworkInterfaceAdapter._next_hop] in *.
  destruct (send_known n d hop ip gateway Hip Hk Hf) as (dl & Ed & Es). set (f := NetworkInterface.make_frame _ _ _ _) in Es.
  destruct (carries_serialize gateway (NetworkInterface._ethernet_address n) d f) as [bl E1]; [done|apply HA|done|by exists dl|].
  eexists. exists f, bl. split; [|split; [by exists dl|done]]. unfold NetworkInterfaceAdapter.write.
  cbn [NetworkInterfaceAdapter.base NetworkInterfaceAdapter._interface NetworkInterfaceAdapter._next_hop].
  rewrite Ew. cbn [mbind outcome_bind]. rewrite Es. cbn [mbind outcome_bind].
  unfold NetworkInterfaceAdapter.send_pending. cbn [NetworkInterfaceAdapter._interface].
  unfold NetworkInterface.push_frame, NetworkInterface.frames_out in *. cbn [NetworkInterface._frames_out].
  rewrite FA. cbn [app TCPOverIPv4OverEthernetAdapter.serialize_frames]. rewrite E1. reflexivity.
Qed.

(** The adapter reads the datagram of a frame, and has nothing to send. *)
Lemma adapter_reads B own src d f bl :
  host (NetworkInterfaceAdapter._interface B) own -> is_address src -> IPv4Datagram.fits d ->
  NetworkInterface.frames_out (NetworkInterfaceAdapter._interface B) = [] ->
  carries (NetworkInterface._ethernet_address (NetworkInterfaceAdapter._interface B)) src d f ->
  EthernetFrame.serialize f = Ret bl ->
  exists d', same_datagram d d' /\ forall b seg,
    TCPOverIPv4Adapter.unwrap_tcp_in_ip (NetworkInterfaceAdapter.base B) d' = Ret (b, seg) ->
    exists B', NetworkInterfaceAdapter.read B (BufferList.concatenate bl) = Ret (B', seg, [])
      /\ NetworkInterfaceAdapter.base B' = b.
Proof.
  intros HB Hs Hd FB Hf Es. destruct (carried _ own src d f HB Hs Hd Hf) as (bl' & f' & d' & Es' & Ep & Er & Hsame).
  rewrite Es in Es'. apply Ret_inj in Es' as <-. exists d'. split; [done|]. intros b seg Eu.
  destruct B as [base n hop]. cbn [NetworkInterfaceAdapter.base NetworkInterfaceAdapter._interface] in *.
  unfold NetworkInterfaceAdapter.read. rewrite Ep. cbn [mbind outcome_bind].
  change (negb (bool_decide (NoError = NoError))) with false. cbv iota. cbn [NetworkInterfaceAdapter._interface].
  rewrite Er. cbn [mbind outcome_bind]. unfold NetworkInterfaceAdapter.send_pending. cbn [NetworkInterfaceAdapter._interface].
  rewrite FB. cbn [TCPOverIPv4OverEthernetAdapter.serialize_frames mbind outcome_bind NetworkInterfaceAdapter.base].
  rewrite Eu. cbn [mbind outcome_bind]. by eexists.
Qed.

End Ends.

(** C13: a segment crosses from one lab7 program to the other. Once the addresses on
    the way are known and with no other frame waiting in the queues on the way, in
    either direction and for every segment: the adapter writes one frame to the
    pipe; its router, given that frame, has a frame for the relay at the front of
    its queue; the other router, given that one, has one for its host at the front;
    and the adapter there reads the segment, with its ports set and its payload
    unchanged, and is connected if it listened. *)
Theorem lab7_segment_crosses `{NetDbLaws} (from_client : bool) (A B : NetworkInterfaceAdapter.t) (ra rb : Router.t)
    (a0 a1 b0 b1 : AsyncNetworkInterface.t) (src sport dst dport : Z) (seg : TCPSegment.t) :
  path from_client A ra rb B dst a0 a1 b0 b1 ->
  between (NetworkInterfaceAdapter.base A) src sport dst dport -> segment_fits seg ->
  ready (NetworkInterfaceAdapter.base B) src sport dst dport seg ->
  exists A' f1 ra' f2 rb' f3 B' seg',
    NetworkInterfaceAdapter.write A seg = Ret (A', set_ports seg sport dport, [f1])
    /\ Lab7.take_frame false ra 0 (BufferList.concatenate f1) = Ret ra' /\ Lab7.front_frame false ra' 1 = Ret f2
    /\ Lab7.take_frame false rb 1 (BufferList.concatenate f2) = Ret rb' /\ Lab7.front_frame false rb' 0 = Ret f3
    /\ NetworkInterfaceAdapter.read B (BufferList.concatenate f3) = Ret (B', Some seg', [])
    /\ NetworkInterfaceAdapter.base B' = connected (NetworkInterfaceAdapter.base B) src sport dst dport
    /\ same_segment (set_ports seg sport dport) seg'.
Proof.
  intros [Hm Hdst [ipA HA] FA (gw & Egw & Kgw) (Ra & La & Sa0 & Sa1) Kab (Rb & Lb & Sb0 & Sb1) KB [ipB HB] FB] HbA Hs HbB.
  destruct (route_out from_client dst Hm) as [I1 I2].
  destruct (so_host _ _ _ Sa0) as [i0 Ha0], (so_host _ _ _ Sa1) as [i1 Ha1], (so_host _ _ _ Sb0) as [j0 Hb0], (so_host _ _ _ Sb1) as [j1 Hb1].
  destruct (wrap_unwrap_ip _ _ src sport dst dport seg HbA Hs HbB) as (d & Ew & Hd & Hu).
  destruct (wrap_header _ src sport dst dport seg _ d HbA Ew) as [Et Ed]. unfold IPv4Header.DEFAULT_TTL in Et.
  destruct (adapter_writes A ipA gw (mac a0) seg _ d HA ltac:(apply Ha0) FA Egw Kgw Ew Hd) as (A' & f1 & bl1 & E1 & C1 & S1).
  destruct (route_to_fields (own (negb from_client)) (Some (other_router from_client)) 1) as [N1 M1].
  destruct (router_hop ra 0 1 a0 a1 _ d f1 bl1 _ (other_router_ip from_client) (mac b1) Ra Sa0 Sa1
    ltac:(apply HA) Hd ltac:(lia) C1 S1 ltac:(rewrite La, find_intended, Ed, I1; reflexivity) M1
    ltac:(rewrite N1; apply other_router_numeric) Kab) as (ra' & d1 & f2 & T2 & Same1 & C2 & F2).
  pose proof (decrement_ttl_fits _ (same_fits _ _ Hd Same1)) as Hd1. destruct (same_ttl_dst _ _ Same1) as [Et1 Ed1].
  assert (IPv4Header.ttl (IPv4Datagram.header (Router.decrement_ttl d1)) = 127) as Et2.
  { simpl. rewrite Et1, Et. reflexivity. }
  destruct (carries_serialize _ _ _ f2 ltac:(apply Hb1) ltac:(apply Ha1) Hd1 C2) as [bl2 S2].
  destruct (route_to_fields (own (negb from_client)) None 0) as [N2 M2].
  destruct (router_hop rb 1 0 b1 b0 _ _ f2 bl2 _ dst (NetworkInterface._ethernet_address (NetworkInterfaceAdapter._interface B))
    Rb Sb1 Sb0 ltac:(apply Ha1) Hd1 ltac:(lia) C2 S2
    ltac:(rewrite Lb, find_intended; cbn [Router.decrement_ttl IPv4Datagram.header IPv4Datagram._header IPv4Header.dst];
          rewrite Ed1, Ed, I2; reflexivity) M2
    ltac:(rewrite N2; cbn [Router.decrement_ttl IPv4Datagram.header IPv4Datagram._header IPv4Header.dst];
          rewrite Ed1, Ed; by apply ipv4_numeric_ipv4) KB)
    as (rb' & d2 & f3 & T3 & Same2 & C3 & F3).
  pose proof (decrement_ttl_fits _ (same_fits _ _ Hd1 Same2)) as Hd2.
  destruct (carries_serialize _ _ _ f3 ltac:(apply HB) ltac:(apply Hb0) Hd2 C3) as [bl3 S3].
  destruct (adapter_reads B ipB _ _ f3 bl3 HB ltac:(apply Hb0) Hd2 FB C3 S3) as (d3 & Same3 & Hread).
  destruct (forwarded_twice d d1 d2 d3 Same1 Same2 Same3) as (ck & buffer & Hw & Hbuf & Hun).
  destruct (Hu ck buffer Hw Hbuf) as (seg' & Eu & Hseg). rewrite <- Hun in Eu.
  destruct (Hread _ _ Eu) as (B' & EB & Ebase).
  exists A', bl1, ra', bl2, rb', bl3, B', seg'. by rewrite F2, F3.
Qed.

(** ** A path *)

#[local] Existing Instance quad_db.
#[local] Existing Instance quad_db_laws.

Definition address_of (n : byte) : EthernetAddress := [Byte.x02; Byte.x00; Byte.x00; Byte.x00; Byte.x00; n].

(** An interface that has learnt one address. *)
Definition learnt (n : byte) (ip other_ip : Z) (other : byte) : NetworkInterface.t :=
  NetworkInterface._try_set_cache_if_need (NetworkInterface.new (address_of n) (Address.ipv4 ip 0)) other_ip (address_of other).
Definition interface_with (n : byte) (ip other_ip : Z) (other : byte) : AsyncNetworkInterface.t :=
  AsyncNetworkInterface.mk (learnt n ip other_ip other) [].

Definition c0 : AsyncNetworkInterface.t := interface_with Byte.x01 0xc0a80001 0xc0a80032 Byte.x0a.
Definition c1 : AsyncNetworkInterface.t := interface_with Byte.x02 0x0a0000c0 0x0a0000ac Byte.x04.
Definition s0 : AsyncNetworkInterface.t := interface_with Byte.x03 0xac100001 0xac100064 Byte.x0b.
Definition s1 : AsyncNetworkInterface.t := interface_with Byte.x04 0x0a0000ac 0x0a0000c0 Byte.x02.

Definition client_side : Router.t := Router.mk [c0; c1] (intended_routes true).
Definition server_side : Router.t := Router.mk [s0; s1] (intended_routes false).

Definition client_adapter : NetworkInterfaceAdapter.t :=
  NetworkInterfaceAdapter.mk
    (FdAdapterBase.mk (mk_config (Address.ipv4 0xc0a80032 50000) (Address.ipv4 0xac100064 1234) 0 0) false)
    (learnt Byte.x0a 0xc0a80032 0xc0a80001 Byte.x01) (Address.ipv4 0xc0a80001 0).
Definition server_adapter : NetworkInterfaceAdapter.t :=
  NetworkInterfaceAdapter.mk
    (FdAdapterBase.mk (mk_config (Address.ipv4 0xac100064 1234) (Address.ipv4 0 0) 0 0) true)
    (learnt Byte.x0b 0xac100064 0xac100001 Byte.x03) (Address.ipv4 0xac100001 0).

Lemma interface_with_ok n ip other_ip other : is_u32 ip -> interface_ok (interface_with n ip other_ip other).
Proof.
  intros Hip. split; [|constructor]. exists ip. apply learn_inv; [|done].
  apply iface_new_inv; [done|done|by apply ipv4_numeric_ipv4].
Qed.

Lemma learnt_host n ip other_ip other : real_address (address_of n) -> is_u32 ip -> host (learnt n ip other_ip other) ip.
Proof.
  intros Hr Hip. unfold learnt, NetworkInterface._try_set_cache_if_need. case_match; (split; [done|by apply ipv4_numeric_ipv4|done]).
Qed.

Lemma learnt_frames n ip other_ip other : NetworkInterface.frames_out (learnt n ip other_ip other) = [].
Proof. unfold learnt, NetworkInterface._try_set_cache_if_need. by case_match. Qed.

Lemma at_rest_example b x y : interface_ok x -> interface_ok y ->
  AsyncNetworkInterface.datagrams_out x = [] -> AsyncNetworkInterface.datagrams_out y = [] ->
  at_rest (Router.mk [x; y] (intended_routes b)).
Proof.
  intros Hx Hy Dx Dy. split; [split|]; cbn [Router._interfaces Router._router_list].
  - apply Forall_cons_2; [done|by apply Forall_singleton].
  - by apply intended_routes_ok.
  - unfold queues. cbn. rewrite Dx, Dy. apply Forall_cons_2; [done|by apply Forall_singleton].
Qed.

Lemma example_side r N n ip other_ip other :
  0 <= N -> Router._interfaces r !! Z.to_nat N = Some (interface_with n ip other_ip other) ->
  real_address (address_of n) -> is_u32 ip -> side_of r N (interface_with n ip other_ip other).
Proof.
  intros HN Ei Hr Hip. split; [done|done| |apply learnt_frames]. exists ip. by apply learnt_host.
Qed.

Lemma example_path : path true client_adapter client_side server_side server_adapter 0xac100064 c0 c1 s0 s1.
Proof.
  split.
  - reflexivity.
  - by split.
  - exists 0xc0a80032. by apply learnt_host.
  - apply learnt_frames.
  - exists 0xc0a80001. split; [by apply ipv4_numeric_ipv4|reflexivity].
  - split_and!; [by apply at_rest_example; try apply interface_with_ok|done|by apply example_side|by apply example_side].
  - reflexivity.
  - split_and!; [by apply at_rest_example; try apply interface_with_ok|done|by apply example_side|by apply example_side].
  - reflexivity.
  - exists 0xac100064. by apply learnt_host.
  - apply learnt_frames.
Qed.

Lemma lab7_segment_crosses_witness :
  exists A' f1 ra' f2 rb' f3 B' seg',
    NetworkInterfaceAdapter.write client_adapter syn_example = Ret (A', set_ports syn_example 50000 1234, [f1])
    /\ Lab7.take_frame false client_side 0 (BufferList.concatenate f1) = Ret ra' /\ Lab7.front_frame false ra' 1 = Ret f2
    /\ Lab7.take_frame false server_side 1 (BufferList.concatenate f2) = Ret rb' /\ Lab7.front_frame false rb' 0 = Ret f3
    /\ NetworkInterfaceAdapter.read server_adapter (BufferList.concatenate f3) = Ret (B', Some seg', [])
    /\ NetworkInterfaceAdapter.base B'
       = connected (NetworkInterfaceAdapter.base server_adapter) 0xc0a80032 50000 0xac100064 1234
    /\ same_segment (set_ports syn_example 50000 1234) seg'.
Proof.
  apply (@lab7_segment_crosses quad_db quad_db_laws true client_adapter server_adapter client_side server_side c0 c1 s0 s1
    0xc0a80032 50000 0xac100064 1234 syn_example example_path).
  - by split.
  - exact syn_example_fits.
  - split; [by exists 0xac100064|done].
Defined.
